(* ===== verification/_CoqProject ===== *)
-Q . S2P
Prelude.v
DList.v
Kernel.v
Tick.v
SortLink.v
Mem.v
Pmcu.v
Sched.v
SchedInv.v
SchedOps.v
SchedDelay.v
SchedSwitch.v
SchedTop.v
SchedTrans.v
SchedTick.v
SchedState.v
Event.v
Sem.v
Mux.v
Task.v
SysInv.v
SysTask.v
SysSem.v
SysMux.v
SysEvent.v
SysTick.v
System.v
Bytes.v
Pool.v
PoolIndex.v
PoolInv.v
PoolLists.v
PoolRep.v
PoolOps.v
PoolFree.v
PoolInit.v
PoolWalk.v
PoolFind.v
PoolRealloc.v
PoolSpec.v
PoolChain.v
PoolAlloc.v
Membox.v
Mbox.v
Queue.v
QueueRing.v
Swtmr.v
TickFreq.v
ExcHook.v
ExcRep.v
Hwi.v
HwiRep.v
Init.v
Demo.v
PropsSched.v
PropsSys.v
PropsQueue.v
PropsMbox.v
PropsPool.v
PropsList.v
PropsCore.v
PropsPort.v
PropsArch.v
