(* ===== verification/Prelude.v ===== *)
(** * LiteOS-M on host threads: a verification development

    The program is the LiteOS-M kernel of OpenHarmony, rehosted: the kernel of
    src/kernel/src with its scheduler and its IPC runs unchanged, while the processor is
    played by host threads (src/sub), one of which holds the single-core mutex at a time.
    Tasks call the kernel; a call that blocks ends in [LOS_Schedule], which picks the most
    urgent ready task, parks the caller and hands the mutex to the thread of the chosen
    task; a timer signal runs the tick handler, which wakes sleeping tasks and schedules.

    ** How the code is modelled

    Every C function is a Rocq function of the same name in the state-and-fault monad [K]
    of Kernel.v ([kstate → res kstate A]): a call either returns a value and the new state
    or stops with a [fault] (a NULL or wild pointer, an index out of range, a failed
    assertion, LOS_Panic, a division by zero, a bad free, an exhausted loop bound).  The
    static variables of the kernel are the fields of the record [kstate]; control blocks are
    records in finite maps; the list nodes embedded in them are keys of a heap of pointer
    pairs (DList.v), so that aliasing through list pointers is part of the model; buffers,
    stacks, pools and rings live in a byte memory with little-endian words (Mem.v).
    Unsigned machine integers are Z with their wrap-around written out ([u8] ... [u64]).
    A call that blocks returns [Switched]; the code after its [LOS_Schedule] is a separate
    definition ([LOS_SemPend_resume] and the like), which runs when its task is chosen
    again.  Configuration macros are the class [Config], with the values of
    src/device/qemu/arm_mps2_an386/liteos_m/board/target_config.h as [target_config]; malloc
    of the host is the class [Malloc], whose laws ([MallocLaws]) are those of the C standard;
    addresses of functions are the class [Symbols].

    ** Files

    Model:
    - DList: src/utils/los_list.h, every list operation, and the representation of lists as
      sequences of nodes ([WF]).
    - Kernel: the state, the control blocks of los_task.h, los_sem.h, los_mux.h, los_queue.h
      and los_swtmr.h, the configuration.
    - Tick, TickFreq: los_tick.c, los_tick.h and the SysTick driver los_timer.c.
    - SortLink: los_sortlink.c, the delay queues.
    - Mem, Bytes: loads and stores, memcpy_s, and LOS_MemAlloc, LOS_MemAllocAlign and
      LOS_MemFree of mm/los_memoey.c.
    - Pmcu: src/sub/RTOS_BE.c, host threads and critical sections.
    - Sched: los_sched.c and src/sub/LiteOS_RTOS_FE.c.
    - Task: los_task.c and los_context.c; Sem: los_sem.c; Mux: los_mux.c; Event: los_event.c;
      Queue: los_queue.c; Swtmr: los_swtmr.c; Membox: mm/los_membox.c; Init: los_init.c.
    - ExcHook: components/exchook/los_exchook.c and the exception hook of utils/los_debug.c.
    - Hwi: the interrupts of arch/arm/cortex-m4/gcc/los_interrupt.c, with the functions of
      arch/include/los_interrupt.h and of the CMSIS header core_cm4.h that they use; registers
      are sets and maps of the state, handlers and hooks are parameters ([HwiEnv], [ExcEnv]).
    - Pool: the pools of mm/los_memoey.c with their two levels of free lists, in the byte
      memory and at the offsets of the target (32-bit pointers, bit fields of a node).

    Invariants and the lemmas about the operations:
    - SchedInv (queues, bitmap and states of tasks fit together, [QInv]), SchedOps,
      SchedDelay, SchedSwitch, SchedTop ([KInv], [Running]: the scheduler between two calls),
      SchedTrans, SchedTick, SchedState.
    - SysInv ([SInv]: the scheduler with semaphores, mutexes and events, [preempting]: the
      most urgent task runs), SysTask, SysSem, SysMux, SysEvent, SysTick (one file per group
      of calls), System (the step relation [sys_step] of calls and ticks in any order).
    - Mbox (a memory box as a set of blocks), QueueRing (a ring as a sequence of messages),
      ExcRep (hooks as a list per type of exception), HwiRep (vectors as a map to handlers).
    - A pool as a row of used and free blocks: PoolIndex (sizes and list indices), PoolInv,
      PoolLists, PoolRep (the row and the free lists in memory, [PRep]), PoolOps (merging and
      splitting), PoolFree, PoolInit, PoolWalk, PoolFind, PoolRealloc, PoolAlloc (one group of
      operations each), PoolSpec ([pool_wf]: a pool between two calls), PoolChain ([pools_ok]:
      the list of all pools).

    Theorems: PropsSched, PropsSys, PropsQueue, PropsMbox, PropsPool, PropsList, PropsCore,
    PropsPort, PropsArch.  Demo boots the system, with a heap of 4 KB, and gives the concrete states on
    which the theorems are applied.

    ** What the theorems show

    - The running system (PropsSys, PropsSched): [LOS_Schedule] leaves the most urgent task
      running; from any state that satisfies the invariant, and from the booted one, every
      interleaving of the calls of los_task.c (yield, delay, lock, unlock, suspend, resume,
      priority), los_sem.c, los_mux.c and los_event.c with ticks keeps the invariant, never
      faults, keeps every field within its machine type, and keeps the most urgent task on
      the processor unless the scheduler is locked, with one exception that is proved, too:
      [LOS_MuxPost] gives an inherited priority back without scheduling.
    - The calls (PropsSys): what pend, post, read and write do on every branch, as inductive
      outcome specifications ([sem_pended], [mux_posted], [event_written], ...): who waits,
      who is woken and in which order, priorities lent and given back, errors.
    - The queues of the scheduler (PropsCore): the bitmap search agrees with a linear search,
      the scan of the delay queue wakes exactly the tasks whose time has come, a delayed task
      is woken at its deadline and not before, yielding rotates the ready queue.
    - Refinement (PropsQueue, PropsMbox, PropsList): the ring buffers refine a bounded queue
      of messages, the memory boxes a set of blocks, the pointer lists sequences.
    - Memory pools (PropsPool): release merges a block with its free neighbours, so that two
      free blocks are never next to each other; reallocation in place, with the next block or
      by moving keeps the contents; the two-level search finds a block whenever there is one;
      an allocation and its release, and the initialisation of a pool and its removal, are
      round trips; the walks over the nodes end and report the blocks; other pools, contents
      of used blocks and memory outside are kept throughout.
    - Exceptions and interrupts (PropsArch): sequences of registrations and removals refine
      lists of hooks, which an exception calls in the order of registration; sequences of
      creations and deletions refine a map of handlers, which an interrupt runs.
    - Time, copies, critical sections (PropsPort): unit conversions and their round trip, the
      cycle counter never goes back, memcpy_s writes only inside its target.
    - Limits of the code (PropsSys, PropsMbox, PropsPool, PropsPort): wrap-arounds, a loop
      that skips timers, a wait that never ends, a thread table that is too small, a pool that
      is destroyed by the attempt to initialise it again.

    ** Bounds and fuel

    Loops over a list carry the number of nodes of the list heap as fuel; a loop that does
    not revisit a node needs at most that many steps, and the theorems of totality ([wp] is
    total correctness: a fault, so an exhausted bound, falsifies it) show that it is enough.
    Loops over the nodes of a pool, over its free lists and over the list of pools carry the
    number of bytes of the memory: every node takes some, so that it is enough, too, and the
    theorems about pools are about total correctness as well.
    Loops over arrays and bytes run over the length.  [LOS_UDelay] takes its fuel as an
    argument, and no fuel is enough for it while no tick comes.  The clock is a 64-bit
    counter of cycles; theorems hold while it is below [TIME_HORIZON] = 2^63, about 2900
    years at 100 MHz, and an action moves it by less than 2^33 cycles.

    ** Not modelled

    - Task and object creation and deletion, message queues and software timers are modelled,
      but are not actions of the step relation of System.v; power management is off there.
    - LOS_MemAlloc and LOS_MemFree of this port call the host allocator; the allocation from
      a pool, which [OsMemAlloc] keeps behind its first return, is the separate definition
      [OsMemAlloc_pool].  LOS_MemFreeByTaskID is modelled, but no theorem is proved of it: its
      walk goes on from the header of a node that it may just have merged away.  Pool
      expansion, multiple regions, magic numbers, leak check, shadow memory and exception
      records are compiled out.
    - The report on a processor exception (HalExcHandleEntry and its print-outs, the assembler
      entries): it only prints and stops the system.  The memory protection unit (los_mpu.c)
      and the exception records (los_exc_info.c) are compiled out.
    - Print-outs (OsGetAllTskInfo, LOS_ShowBox, LOS_MemFreeNodeShow), LOS_Panic, LOS_TaskInfoGet,
      the floating-point conversions OsCpuTick2MS and OsCpuTick2US, and other timer drivers
      (LOS_TickTimerRegister).
    - The wrappers of src/kal, the other components, subsystems, third-party libraries, devices and
      test programs under src: they are not part of the kernel or are compiled out of it. *)

From stdpp Require Export base tactics numbers list gmap strings.
From Stdlib Require Export ZArith Lia.

#[global] Open Scope Z_scope.

(** ** Machine integers *)

Definition u8 (x : Z) : Z := x mod 2 ^ 8.
Definition u16 (x : Z) : Z := x mod 2 ^ 16.
Definition u32 (x : Z) : Z := x mod 2 ^ 32.
Definition u64 (x : Z) : Z := x mod 2 ^ 64.
Definition i32 (x : Z) : Z := (x + 2 ^ 31) mod 2 ^ 32 - 2 ^ 31.

Definition UINT32_MAX : Z := 0xFFFFFFFF.

(** ** Status flags: the C tests [v & m], updates [v |= m] and [v &= ~m] *)

Definition flag (v m : Z) : bool := negb (Z.land v m =? 0).
Definition setflag (v m : Z) : Z := Z.lor v m.
Definition clrflag (v m : Z) : Z := Z.ldiff v m.

(** ** Record updates: [r <| f := v |>] *)

Class Eta (R : Type) := eta : R → R.
Class Setter {R E : Type} (proj : R → E) := setf : (E → E) → R → R.
Arguments setf {R E} proj {_} _ _ : simpl never.

Ltac build_setter :=
  lazymatch goal with
  | |- @Setter ?R ?E ?p =>
      exact (fun (upd : E → E) (rcd : R) =>
        ltac:(let e := eval hnf in (@eta R _ rcd) in
              match e with
              | context C [p rcd] => let e' := context C [upd (p rcd)] in exact e'
              end))
  end.

#[export] Hint Extern 1 (Setter _) => build_setter : typeclass_instances.

Notation "r <| f := v |>" := (setf f (fun _ => v) r)
  (at level 1, left associativity, f at level 0, v at level 200,
   format "r <| f  :=  v |>").

(** ** Computations over a state that may fault *)

Inductive fault : Type :=
| NullDeref          (* a NULL or wild pointer is dereferenced *)
| OutOfBounds        (* an array is indexed outside its bounds *)
| AssertFail         (* LOS_ASSERT fails: the machine spins with interrupts off *)
| Panic              (* LOS_Panic *)
| DivByZero
| BadFree            (* free() of a pointer that is not a live block *)
| OutOfFuel.         (* a loop bound of the model is reached *)

Inductive res (S A : Type) : Type :=
| Ok (a : A) (s : S)
| Fault (f : fault).
Arguments Ok {S A} a s.
Arguments Fault {S A} f.

Definition M (S A : Type) : Type := S → res S A.

#[export] Instance M_ret {S} : MRet (M S) := fun A a s => Ok a s.
#[export] Instance M_bind {S} : MBind (M S) := fun A B k m s =>
  match m s with
  | Ok a s' => k a s'
  | Fault f => Fault f
  end.

Definition fail {S A} (f : fault) : M S A := fun _ => Fault f.
Definition gets {S A} (f : S → A) : M S A := fun s => Ok (f s) s.
Definition modify {S} (f : S → S) : M S unit := fun s => Ok tt (f s).
Definition unwrap {S A} (f : fault) (o : option A) : M S A := fun s =>
  match o with Some a => Ok a s | None => Fault f end.
Definition when {S} (b : bool) (m : M S unit) : M S unit := if b then m else mret tt.

(** [LOS_ASSERT(judge)]. *)
Definition LOS_ASSERT {S} (judge : bool) : M S unit :=
  if judge then mret tt else fail AssertFail.

(** ** Weakest preconditions: [wp m Q s] says that [m] started in [s] returns
    without a fault, in a state and with a value that satisfy [Q]. *)

Definition wp {S A} (m : M S A) (Q : A → S → Prop) (s : S) : Prop :=
  match m s with
  | Ok a s' => Q a s'
  | Fault _ => False
  end.

Section wp_rules.
Context {S : Type}.
Implicit Types (s : S).

Lemma wp_ret {A} (a : A) (Q : A → S → Prop) s : wp (mret a) Q s ↔ Q a s.
Proof. done. Qed.

Lemma wp_bind {A B} (m : M S A) (k : A → M S B) (Q : B → S → Prop) s :
  wp (m ≫= k) Q s ↔ wp m (fun a s' => wp (k a) Q s') s.
Proof. unfold wp, mbind, M_bind. by destruct (m s). Qed.

Lemma wp_assoc {A B C} (m : M S A) (f : A → M S B) (k : B → M S C) (Q : C → S → Prop) s :
  wp (m ≫= fun a => f a ≫= k) Q s ↔ wp (m ≫= f) (fun b s' => wp (k b) Q s') s.
Proof. unfold wp, mbind, M_bind. destruct (m s) as [a s'|]; [|done]. by destruct (f a s'). Qed.

Lemma wp_gets {A} (f : S → A) (Q : A → S → Prop) s : wp (gets f) Q s ↔ Q (f s) s.
Proof. done. Qed.

Lemma wp_modify (f : S → S) (Q : unit → S → Prop) s : wp (modify f) Q s ↔ Q tt (f s).
Proof. done. Qed.

Lemma wp_unwrap {A} e (o : option A) (Q : A → S → Prop) s :
  wp (unwrap e o) Q s ↔ ∃ a, o = Some a ∧ Q a s.
Proof. unfold wp, unwrap. destruct o; naive_solver. Qed.

Lemma wp_unwrap_Some {A} e (a : A) (Q : A → S → Prop) s :
  wp (unwrap e (Some a)) Q s ↔ Q a s.
Proof. done. Qed.

Lemma wp_when b (m : M S unit) (Q : unit → S → Prop) s :
  wp (when b m) Q s ↔ if b then wp m Q s else Q tt s.
Proof. by destruct b. Qed.

Lemma wp_assert b (Q : unit → S → Prop) s :
  wp (LOS_ASSERT b) Q s ↔ b = true ∧ Q tt s.
Proof. unfold wp, LOS_ASSERT, fail. destruct b; naive_solver. Qed.

Lemma wp_if {A} (b : bool) (m1 m2 : M S A) (Q : A → S → Prop) s :
  wp (if b then m1 else m2) Q s ↔ if b then wp m1 Q s else wp m2 Q s.
Proof. by destruct b. Qed.

(** Consequence: the way one specification is used inside another. *)
Lemma wp_mono {A} (m : M S A) (Q Q' : A → S → Prop) s :
  wp m Q s → (∀ a s', Q a s' → Q' a s') → wp m Q' s.
Proof. unfold wp. destruct (m s); naive_solver. Qed.

Lemma wp_inv {A} (m : M S A) (Q : A → S → Prop) s :
  wp m Q s → ∃ a s', m s = Ok a s' ∧ Q a s'.
Proof. unfold wp. destruct (m s); naive_solver. Qed.

Lemma wp_Ok {A} (m : M S A) (Q : A → S → Prop) a s s' :
  m s = Ok a s' → Q a s' → wp m Q s.
Proof. unfold wp. by intros ->. Qed.

(** A run that reaches a fault. *)
Lemma bind_fault {A B} (m : M S A) (k : A → M S B) e s :
  wp m (fun a s' => k a s' = Fault e) s → (m ≫= k) s = Fault e.
Proof. unfold wp, mbind, M_bind. by destruct (m s). Qed.
End wp_rules.

(** ** Status flags *)

Section flags.
Implicit Types v m b : Z.

Lemma flag_lor v a b : flag v (Z.lor a b) = flag v a || flag v b.
Proof.
  unfold flag. rewrite Z.land_lor_distr_r.
  destruct (Z.eqb_spec (Z.lor (Z.land v a) (Z.land v b)) 0) as [E|E].
  - apply Z.lor_eq_0_iff in E as [-> ->]. done.
  - destruct (Z.eqb_spec (Z.land v a) 0) as [E1|]; [|done].
    destruct (Z.eqb_spec (Z.land v b) 0) as [E2|]; [|done].
    by rewrite E1, E2 in E.
Qed.

Lemma flag_set_out v m b : Z.land m b = 0 → flag (setflag v m) b = flag v b.
Proof. intros E. unfold flag, setflag. by rewrite Z.land_lor_distr_l, E, Z.lor_0_r. Qed.

Lemma flag_set_in v m b : (Z.land m b =? 0) = false → flag (setflag v m) b = true.
Proof.
  intros E%Z.eqb_neq. unfold flag, setflag. rewrite Z.land_lor_distr_l.
  destruct (Z.eqb_spec (Z.lor (Z.land v b) (Z.land m b)) 0) as [E'|]; [|done].
  apply Z.lor_eq_0_iff in E'. tauto.
Qed.

Lemma land_ldiff_comm v m b : Z.land (Z.ldiff v m) b = Z.land v (Z.ldiff b m).
Proof.
  apply Z.bits_inj'. intros n _. rewrite !Z.land_spec, !Z.ldiff_spec.
  destruct (Z.testbit v n), (Z.testbit m n), (Z.testbit b n); done.
Qed.

Lemma flag_clr_out v m b : Z.ldiff b m = b → flag (clrflag v m) b = flag v b.
Proof. intros E. unfold flag, clrflag. by rewrite land_ldiff_comm, E. Qed.

Lemma flag_clr_in v m b : Z.ldiff b m = 0 → flag (clrflag v m) b = false.
Proof. intros E. unfold flag, clrflag. by rewrite land_ldiff_comm, E, Z.land_0_r. Qed.
End flags.

(** Evaluates tests of constant bits of a status that was changed by constant masks. *)
Ltac fsimpl_one :=
  match goal with
  | |- context [flag (setflag ?v ?m) ?b] =>
      first [rewrite (flag_set_out v m b) by reflexivity
            |rewrite (flag_set_in v m b) by reflexivity]
  | |- context [flag (clrflag ?v ?m) ?b] =>
      first [rewrite (flag_clr_out v m b) by reflexivity
            |rewrite (flag_clr_in v m b) by reflexivity]
  end.
Ltac fsimpl := repeat (rewrite !flag_lor || fsimpl_one).

(** ** Case analysis on the comparisons of the code *)

Ltac zcase :=
  match goal with
  | |- context [?a <? ?b] => destruct (Z.ltb_spec a b); try lia
  | |- context [?a <=? ?b] => destruct (Z.leb_spec a b); try lia
  | |- context [?a =? ?b] => destruct (Z.eqb_spec a b); try lia
  end.
