(* ===== verification/DList.v ===== *)
(** The intrusive circular doubly linked lists of [utils/los_list.h].

    A heap maps every list node to its two pointers; NULL is [None], and a node the
    heap does not mention is zeroed memory.  The operations follow the C code store
    by store and return [None] exactly when they would dereference NULL.  The
    abstract view is a finite map [LS] from list heads to the sequence of nodes
    linked behind them; [WF h LS] says that the heap represents exactly these
    disjoint lists, and every operation is shown to refine the corresponding
    operation on sequences. *)

From S2P Require Import Prelude.

Section DList.
  Context {L : Type} `{Countable L}.

Record LOS_DL_LIST := DlNode { dlPrev : option L; dlNext : option L }.

#[local] Abbreviation heap := (gmap L LOS_DL_LIST).

Definition dnode (h : heap) (l : L) : LOS_DL_LIST := default (DlNode None None) (h !! l).
Definition pstNext (h : heap) (l : L) : option L := dlNext (dnode h l).
Definition pstPrev (h : heap) (l : L) : option L := dlPrev (dnode h l).
Definition set_next (h : heap) (l : L) (v : option L) : heap :=
  <[l := DlNode (pstPrev h l) v]> h.
Definition set_prev (h : heap) (l : L) (v : option L) : heap :=
  <[l := DlNode v (pstNext h l)]> h.

Definition LOS_ListInit (h : heap) (list : L) : heap :=
  set_prev (set_next h list (Some list)) list (Some list).

Definition LOS_DL_LIST_FIRST (h : heap) (object : L) : option L := pstNext h object.

Definition LOS_ListAdd (h : heap) (list node : L) : option heap :=
  let h := set_next h node (pstNext h list) in
  let h := set_prev h node (Some list) in
  n ← pstNext h list;
  let h := set_prev h n (Some node) in
  Some (set_next h list (Some node)).

Definition LOS_ListTailInsert (h : heap) (list node : L) : option heap :=
  p ← pstPrev h list;
  LOS_ListAdd h p node.

Definition LOS_ListHeadInsert (h : heap) (list node : L) : option heap :=
  LOS_ListAdd h list node.

Definition LOS_ListDelete (h : heap) (node : L) : option heap :=
  n ← pstNext h node;
  let h := set_prev h n (pstPrev h node) in
  p ← pstPrev h node;
  let h := set_next h p (pstNext h node) in
  let h := set_next h node None in
  Some (set_prev h node None).

Definition LOS_ListEmpty (h : heap) (node : L) : bool :=
  bool_decide (pstNext h node = Some node).

Definition LOS_ListDelInit (h : heap) (list : L) : option heap :=
  n ← pstNext h list;
  let h := set_prev h n (pstPrev h list) in
  p ← pstPrev h list;
  let h := set_next h p (pstNext h list) in
  Some (LOS_ListInit h list).

(** [LOS_DL_LIST_FOR_EACH]: the items visited from [item] until the head returns. *)
Fixpoint dl_walk (fuel : nat) (h : heap) (head item : L) : option (list L) :=
  if decide (item = head) then Some []
  else match fuel with
       | O => None
       | S fuel =>
           next ← pstNext h item;
           rest ← dl_walk fuel h head next;
           Some (item :: rest)
       end.

Definition LOS_DL_LIST_FOR_EACH (fuel : nat) (h : heap) (head : L) : option (list L) :=
  first ← pstNext h head;
  dl_walk fuel h head first.

(** ** Representation *)

Fixpoint links (h : heap) (l : list L) : Prop :=
  match l with
  | a :: ((b :: _) as t) => pstNext h a = Some b ∧ pstPrev h b = Some a ∧ links h t
  | _ => True
  end.

Definition Rep (h : heap) (hd : L) (xs : list L) : Prop :=
  NoDup (hd :: xs) ∧ links h (hd :: xs ++ [hd]).

Definition WF (h : heap) (LS : gmap L (list L)) : Prop :=
  (∀ hd xs, LS !! hd = Some xs → Rep h hd xs) ∧
  (∀ hd1 hd2 xs1 xs2 x, LS !! hd1 = Some xs1 → LS !! hd2 = Some xs2 →
     x ∈ hd1 :: xs1 → x ∈ hd2 :: xs2 → hd1 = hd2).

(** [x] is a node or a head of one of the lists. *)
Definition linked (LS : gmap L (list L)) (x : L) : Prop :=
  ∃ hd xs, LS !! hd = Some xs ∧ x ∈ hd :: xs.

(** ** Reading the heap after a store *)

Lemma pstNext_set_next h a b v :
  pstNext (set_next h a v) b = if decide (a = b) then v else pstNext h b.
Proof.
  unfold pstNext, set_next, dnode. rewrite lookup_insert. by case_decide.
Qed.

Lemma pstPrev_set_next h a b v : pstPrev (set_next h a v) b = pstPrev h b.
Proof.
  unfold pstPrev, set_next, dnode. rewrite lookup_insert.
  case_decide; simpl; by subst.
Qed.

Lemma pstPrev_set_prev h a b v :
  pstPrev (set_prev h a v) b = if decide (a = b) then v else pstPrev h b.
Proof.
  unfold pstPrev, set_prev, dnode. rewrite lookup_insert. by case_decide.
Qed.

Lemma pstNext_set_prev h a b v : pstNext (set_prev h a v) b = pstNext h b.
Proof.
  unfold pstNext, set_prev, dnode. rewrite lookup_insert.
  case_decide; simpl; by subst.
Qed.

Create Rewrite HintDb dlheap.
#[local] Hint Rewrite pstNext_set_next pstPrev_set_next pstPrev_set_prev
  pstNext_set_prev : dlheap.

(** ** Chains of links *)

Lemma links_app h l1 a l2 :
  links h (l1 ++ a :: l2) ↔ links h (l1 ++ [a]) ∧ links h (a :: l2).
Proof.
  induction l1 as [|x l1 IH]; [by simpl; tauto|].
  destruct l1 as [|y l1]; simpl in *; tauto.
Qed.

(** A chain only depends on the next pointers of all but its last node and on the
    previous pointers of all but its first node. *)
Lemma links_frame h h' l :
  (∀ x, x ∈ removelast l → pstNext h' x = pstNext h x) →
  (∀ x, x ∈ tail l → pstPrev h' x = pstPrev h x) →
  links h l → links h' l.
Proof.
  induction l as [|a [|b l] IH]; intros Hn Hp; try done.
  intros (Ha & Hb & Hl). split_and!.
  - rewrite Hn; [done|]. simpl. set_solver.
  - rewrite Hp; [done|]. simpl. set_solver.
  - apply IH; [| |done].
    + intros x Hx. apply Hn. simpl in *. set_solver.
    + intros x Hx. apply Hp. simpl in *. set_solver.
Qed.

Lemma Rep_frame h h' hd xs :
  (∀ x, x ∈ hd :: xs → dnode h' x = dnode h x) →
  Rep h hd xs → Rep h' hd xs.
Proof.
  intros Hx [Hnd Hl]. split; [done|].
  assert (∀ x, x ∈ hd :: xs ++ [hd] → dnode h' x = dnode h x) as Hy.
  { intros x Hin. apply Hx. set_solver. }
  apply (links_frame h); [| |done]; intros x Hin; unfold pstNext, pstPrev;
    rewrite Hy; [done| |done|].
  - rewrite app_comm_cons, removelast_last in Hin. set_solver.
  - set_solver.
Qed.

(** Splitting the closed chain of a list around two neighbours. *)
Lemma closed_split (hd : L) xs l1 p l2 :
  hd :: xs = l1 ++ p :: l2 →
  ∃ q l3, hd :: xs ++ [hd] = l1 ++ p :: q :: l3 ∧ l2 ++ [hd] = q :: l3.
Proof.
  intros E. rewrite app_comm_cons, E, <- app_assoc. simpl.
  destruct l2 as [|q l2]; simpl; eauto.
Qed.

Lemma dnode_ext h h' x :
  pstNext h' x = pstNext h x → pstPrev h' x = pstPrev h x → dnode h' x = dnode h x.
Proof.
  unfold pstNext, pstPrev. destruct (dnode h' x), (dnode h x); simpl; congruence.
Qed.

(** ** The two pointer surgeries *)

(** What [LOS_ListAdd p node] and [LOS_ListDelete node] do to every pointer. *)
Definition added (h h' : heap) (p q node : L) : Prop :=
  (∀ x, pstNext h' x = if decide (p = x) then Some node
                       else if decide (node = x) then Some q else pstNext h x) ∧
  (∀ x, pstPrev h' x = if decide (q = x) then Some node
                       else if decide (node = x) then Some p else pstPrev h x).

Definition removed (h h' : heap) (p q node : L) : Prop :=
  (∀ x, pstNext h' x = if decide (node = x) then None
                       else if decide (p = x) then Some q else pstNext h x) ∧
  (∀ x, pstPrev h' x = if decide (node = x) then None
                       else if decide (q = x) then Some p else pstPrev h x).

Lemma LOS_ListAdd_spec h p q node :
  pstNext h p = Some q → node ≠ p → node ≠ q →
  ∃ h', LOS_ListAdd h p node = Some h' ∧
    added h h' p q node.
Proof.
  intros Hq Hp1 Hq1. unfold LOS_ListAdd. autorewrite with dlheap.
  rewrite decide_False, Hq by done. simpl. eexists; split; [done|].
  split; intros x; autorewrite with dlheap; repeat case_decide; congruence.
Qed.

Lemma LOS_ListDelete_spec h p q node :
  pstNext h node = Some q → pstPrev h node = Some p → node ≠ p → node ≠ q →
  ∃ h', LOS_ListDelete h node = Some h' ∧
    removed h h' p q node.
Proof.
  intros Hq Hp Hp1 Hq1. unfold LOS_ListDelete. rewrite Hq. simpl.
  autorewrite with dlheap. rewrite decide_False, Hp by done. simpl.
  eexists; split; [done|].
  split; intros x; autorewrite with dlheap; repeat case_decide; congruence.
Qed.

(** The neighbours of a node in the closed chain. *)
Lemma Rep_neighbours h hd xs l1 p q l3 :
  Rep h hd xs → hd :: xs ++ [hd] = l1 ++ p :: q :: l3 →
  pstNext h p = Some q ∧ pstPrev h q = Some p.
Proof.
  intros [_ Hl] E. rewrite E in Hl. apply links_app in Hl as [_ Hl].
  simpl in Hl. tauto.
Qed.

(** In the closed chain of a list, sources of next pointers and targets of previous
    pointers are pairwise distinct. *)
Lemma closed_NoDup (hd : L) xs l1 p q l3 :
  NoDup (hd :: xs) → hd :: xs ++ [hd] = l1 ++ p :: q :: l3 →
  NoDup (l1 ++ p :: removelast (q :: l3)) ∧ NoDup (tail (l1 ++ [p]) ++ q :: l3).
Proof.
  intros Hnd E. split.
  - replace (l1 ++ p :: removelast (q :: l3)) with (removelast (l1 ++ p :: q :: l3)).
    + rewrite <- E, app_comm_cons, removelast_last. done.
    + rewrite removelast_app by done. simpl. by destruct l3.
  - replace (tail (l1 ++ [p]) ++ q :: l3) with (tail (l1 ++ p :: q :: l3)).
    + rewrite <- E. simpl. apply NoDup_cons in Hnd as [Hn Hnd].
      apply NoDup_app; split_and!; [done| |apply NoDup_singleton]. set_solver.
    + destruct l1; simpl; [done|]. by rewrite <- app_assoc.
Qed.

Lemma links_added h h' l1 p q l3 node :
  NoDup (l1 ++ p :: removelast (q :: l3)) → NoDup (tail (l1 ++ [p]) ++ q :: l3) →
  node ∉ l1 ++ p :: q :: l3 → added h h' p q node →
  links h (l1 ++ p :: q :: l3) → links h' (l1 ++ p :: node :: q :: l3).
Proof.
  intros [_ [Hn1 [Hn2 _]%NoDup_cons]]%NoDup_app [_ [Hn3 [Hn4 _]%NoDup_cons]]%NoDup_app.
  intros Hfresh [Hnx Hpv] [Hl1 (_ & _ & Hl2)]%links_app.
  apply links_app; split; [|refine (conj _ (conj _ (conj _ (conj _ _))))].
  - apply (links_frame h); [| |done]; intros x Hx.
    + rewrite removelast_last in Hx. rewrite Hnx, !decide_False; [done|set_solver..].
    + rewrite Hpv, !decide_False; [done| |set_solver].
      intros ->. destruct l1; set_solver.
  - by rewrite Hnx, decide_True.
  - rewrite Hpv, decide_False, decide_True; set_solver.
  - rewrite Hnx, decide_False, decide_True; set_solver.
  - by rewrite Hpv, decide_True.
  - apply (links_frame h h' (q :: l3)); [| |done]; intros x Hx.
    + rewrite Hnx, !decide_False; [done| |congruence].
      intros ->. apply Hfresh. rewrite (app_removelast_last x (l := q :: l3)) by done.
      set_solver.
    + rewrite Hpv, !decide_False; [done|set_solver..].
Qed.

Lemma links_removed h h' l1 p node q l3 :
  NoDup (l1 ++ p :: node :: removelast (q :: l3)) →
  NoDup (tail (l1 ++ [p]) ++ node :: q :: l3) →
  removed h h' p q node →
  links h (l1 ++ p :: node :: q :: l3) → links h' (l1 ++ p :: q :: l3).
Proof.
  intros [_ [Hn1 [Hn2 [Hn2' _]%NoDup_cons]%NoDup_cons]]%NoDup_app.
  intros [_ [Hn3 [Hn4 [Hn4' _]%NoDup_cons]%NoDup_cons]]%NoDup_app.
  intros [Hnx Hpv] [Hl1 (_ & _ & _ & _ & Hl2)]%links_app.
  apply links_app; split; [|refine (conj _ (conj _ _))].
  - apply (links_frame h); [| |done]; intros x Hx.
    + rewrite removelast_last in Hx. rewrite Hnx, !decide_False; [done|set_solver..].
    + rewrite Hpv, !decide_False; [done|set_solver..].
  - rewrite Hnx, decide_False, decide_True; set_solver.
  - rewrite Hpv, decide_False, decide_True; set_solver.
  - apply (links_frame h h' (q :: l3)); [| |done]; intros x Hx.
    + rewrite Hnx, !decide_False; [done|set_solver..].
    + rewrite Hpv, !decide_False; [done|set_solver..].
Qed.

Lemma Rep_add h hd xs l1 p l2 node :
  Rep h hd xs → hd :: xs = l1 ++ p :: l2 → node ∉ hd :: xs →
  ∃ h' xs', LOS_ListAdd h p node = Some h' ∧ hd :: xs' = l1 ++ p :: node :: l2 ∧
    Rep h' hd xs' ∧ (∀ y, y ∉ node :: hd :: xs → dnode h' y = dnode h y).
Proof.
  intros HR E Hfresh. destruct (closed_split hd xs l1 p l2 E) as (q & l3 & Ec & E2).
  destruct (Rep_neighbours _ _ _ _ _ _ _ HR Ec) as [Hn _].
  destruct HR as [Hnd Hl]. destruct (closed_NoDup hd xs l1 p q l3 Hnd Ec) as [Hn1 Hn2].
  assert (∀ x, x ∈ l1 ++ p :: q :: l3 → x ∈ hd :: xs) as Hin.
  { intros x. rewrite <- Ec. set_solver. }
  assert (p ∈ hd :: xs ∧ q ∈ hd :: xs) as [Hp Hq] by (split; apply Hin; set_solver).
  destruct (LOS_ListAdd_spec h p q node) as (h' & Ha & Had); [done|set_solver..|].
  assert (hd :: tail (l1 ++ p :: node :: l2) = l1 ++ p :: node :: l2) as E'
    by (destruct l1; simpl in *; congruence).
  exists h', (tail (l1 ++ p :: node :: l2)). split_and!; [done..|split|].
  - rewrite E'. rewrite E in Hnd, Hfresh. revert Hnd Hfresh.
    rewrite !NoDup_app, !NoDup_cons. set_solver.
  - rewrite app_comm_cons, E', <- app_assoc. simpl. rewrite E2.
    apply (links_added h); [done..| |done|by rewrite <- Ec]. intros ?%Hin; done.
  - intros y Hy. destruct Had as [Hnx Hpv]. apply dnode_ext.
    + rewrite Hnx, !decide_False; [done|set_solver..].
    + rewrite Hpv, !decide_False; [done|set_solver..].
Qed.

Lemma Rep_delete h hd l1 x l2 :
  Rep h hd (l1 ++ x :: l2) →
  ∃ h', LOS_ListDelete h x = Some h' ∧ Rep h' hd (l1 ++ l2) ∧
    dnode h' x = DlNode None None ∧
    (∀ y, y ∉ hd :: l1 ++ x :: l2 → dnode h' y = dnode h y).
Proof.
  intros HR. assert (∃ k1 p, hd :: l1 = k1 ++ [p]) as (k1 & p & E1).
  { destruct (exists_last (l := hd :: l1)) as (k1 & p & ->); eauto. }
  assert (∃ q k3, l2 ++ [hd] = q :: k3) as (q & k3 & E2) by (destruct l2; simpl; eauto).
  assert (hd :: (l1 ++ x :: l2) ++ [hd] = k1 ++ p :: x :: q :: k3) as Ec.
  { rewrite <- app_assoc. simpl. by rewrite E2, app_comm_cons, E1, <- app_assoc. }
  destruct (Rep_neighbours _ _ _ _ _ _ _ HR Ec) as [_ Hp].
  assert (hd :: (l1 ++ x :: l2) ++ [hd] = (k1 ++ [p]) ++ x :: q :: k3) as Ec'
    by by rewrite Ec, <- app_assoc.
  destruct (Rep_neighbours _ _ _ _ _ _ _ HR Ec') as [Hq _].
  destruct HR as [Hnd Hl]. destruct (closed_NoDup _ _ _ _ _ _ Hnd Ec) as [Hn1 Hn2].
  assert (x ≠ p ∧ x ≠ q) as [Hxp Hxq].
  { apply NoDup_app in Hn1 as (_ & _ & [? _]%NoDup_cons).
    apply NoDup_app in Hn2 as (_ & _ & [? _]%NoDup_cons). set_solver. }
  destruct (LOS_ListDelete_spec h p q x) as (h' & Hd & Hrm); [done..|].
  exists h'. split_and!; [done|split| |].
  - revert Hnd. rewrite !NoDup_cons, !NoDup_app, !NoDup_cons. set_solver.
  - rewrite <- app_assoc, E2, app_comm_cons, E1, <- app_assoc. simpl.
    apply (links_removed h h' k1 p x q k3); [done..|by rewrite <- Ec].
  - destruct Hrm as [Hnx Hpv]. specialize (Hnx x). specialize (Hpv x).
    rewrite decide_True in Hnx, Hpv by done. unfold pstNext, pstPrev in *.
    destruct (dnode h' x); simpl in *; congruence.
  - intros y Hy. assert (p ∈ hd :: l1 ∧ q ∈ l2 ++ [hd]) as [Hpi Hqi].
    { rewrite E1, E2. set_solver. }
    destruct Hrm as [Hnx Hpv]. apply dnode_ext.
    + rewrite Hnx, !decide_False; [done|set_solver..].
    + rewrite Hpv, !decide_False; [done|set_solver..].
Qed.

Lemma Rep_init h hd : Rep (LOS_ListInit h hd) hd [].
Proof.
  split; [apply NoDup_singleton|]. unfold LOS_ListInit. simpl.
  autorewrite with dlheap. rewrite !decide_True by done. done.
Qed.

Lemma LOS_ListInit_frame h hd y : y ≠ hd → dnode (LOS_ListInit h hd) y = dnode h y.
Proof.
  intros Hy. apply dnode_ext; unfold LOS_ListInit; autorewrite with dlheap;
    by rewrite ?decide_False.
Qed.

(** ** Refinement: the operations on the abstract lists *)

Lemma WF_frame h h' LS :
  (∀ y, linked LS y → dnode h' y = dnode h y) → WF h LS → WF h' LS.
Proof.
  intros Hf [HR Hd]. split; [|done]. intros hd xs E.
  apply (Rep_frame h); [|by apply HR]. intros x Hx. apply Hf. by exists hd, xs.
Qed.

Lemma WF_update h h' LS hd xs' :
  WF h LS → Rep h' hd xs' →
  (∀ y, linked (delete hd LS) y → (y ∉ hd :: xs') ∧ dnode h' y = dnode h y) →
  WF h' (<[hd := xs']> LS).
Proof.
  intros [HR Hd] HR' Hf. assert (∀ k ys, k ≠ hd → LS !! k = Some ys →
    ∀ y, y ∈ k :: ys → (y ∉ hd :: xs') ∧ dnode h' y = dnode h y) as Hother.
  { intros k ys Hk E y Hy. apply Hf. exists k, ys. split; [|done].
    by rewrite lookup_delete_ne. }
  split.
  - intros k ys. rewrite lookup_insert. case_decide as Hk; [naive_solver|].
    intros E. apply (Rep_frame h); [|by apply HR].
    intros y Hy. by apply (Hother k ys).
  - intros k1 k2 ys1 ys2 y. rewrite !lookup_insert.
    intros E1 E2 H1 H2. repeat case_decide; simplify_eq; try done.
    + by destruct (Hother k1 ys1 ltac:(done) E1 y H1).
    + by destruct (Hother k2 ys2 ltac:(done) E2 y H2).
    + eauto.
Qed.

Lemma WF_disjoint h LS hd xs y :
  WF h LS → LS !! hd = Some xs → linked (delete hd LS) y → y ∉ hd :: xs.
Proof.
  intros [_ Hd] E (k & ys & Ek & Hy) Hin.
  apply lookup_delete_Some in Ek as [Hk Ek]. by assert (hd = k) by eauto.
Qed.

Lemma linked_delete LS hd (y : L) : linked (delete hd LS) y → linked LS y.
Proof. intros (k & ys & [_ Ek]%lookup_delete_Some & Hy). by exists k, ys. Qed.

(** Linking a fresh node behind any node of a list. *)
Lemma WF_add h LS hd xs l1 p l2 node :
  WF h LS → LS !! hd = Some xs → hd :: xs = l1 ++ p :: l2 → ¬ linked LS node →
  ∃ h' xs', LOS_ListAdd h p node = Some h' ∧ hd :: xs' = l1 ++ p :: node :: l2 ∧
    WF h' (<[hd := xs']> LS).
Proof.
  intros HW E El Hfresh. assert (node ∉ hd :: xs) as Hn.
  { intros Hin. apply Hfresh. by exists hd, xs. }
  destruct (Rep_add h hd xs l1 p l2 node) as (h' & xs' & Ha & E' & HR & Hf);
    [by apply HW|done..|].
  exists h', xs'. split_and!; [done..|]. apply (WF_update h); [done..|].
  intros y Hy. pose proof (WF_disjoint _ _ _ _ _ HW E Hy) as Hyx.
  assert (y ≠ node) by (intros ->; by apply Hfresh, (linked_delete _ hd)).
  split; [|apply Hf; set_solver]. rewrite E'. rewrite El in Hyx. set_solver.
Qed.

Lemma WF_add_head h LS hd xs node :
  WF h LS → LS !! hd = Some xs → ¬ linked LS node →
  ∃ h', LOS_ListAdd h hd node = Some h' ∧ WF h' (<[hd := node :: xs]> LS).
Proof.
  intros HW E Hfresh.
  destruct (WF_add h LS hd xs [] hd xs node) as (h' & xs' & Ha & E' & HW'); [done..|].
  exists h'. simplify_eq/=. done.
Qed.

Lemma WF_last h LS hd xs :
  WF h LS → LS !! hd = Some xs → pstPrev h hd = Some (List.last (hd :: xs) hd).
Proof.
  intros [HR _] E. destruct (exists_last (l := hd :: xs)) as (k1 & p & Ek); [done|].
  destruct (Rep_neighbours h hd xs k1 p hd []) as [_ ->]; [by apply HR| |].
  - by rewrite app_comm_cons, Ek, <- app_assoc.
  - rewrite Ek, last_last. done.
Qed.

Lemma WF_add_tail h LS hd xs node :
  WF h LS → LS !! hd = Some xs → ¬ linked LS node →
  ∃ h', LOS_ListTailInsert h hd node = Some h' ∧ WF h' (<[hd := xs ++ [node]]> LS).
Proof.
  intros HW E Hfresh. unfold LOS_ListTailInsert. rewrite (WF_last h LS hd xs) by done.
  destruct (exists_last (l := hd :: xs)) as (k1 & p & Ek); [done|].
  rewrite Ek, last_last. simpl.
  destruct (WF_add h LS hd xs k1 p [] node) as (h' & xs' & Ha & E' & HW'); [done..|].
  exists h'. split; [done|].
  assert (hd :: xs' = (hd :: xs) ++ [node]) as [= ->]; [|done].
  by rewrite Ek, <- app_assoc.
Qed.

(** Unlinking a node zeroes its two pointers. *)
Lemma WF_delete h LS hd l1 x l2 :
  WF h LS → LS !! hd = Some (l1 ++ x :: l2) →
  ∃ h', LOS_ListDelete h x = Some h' ∧ WF h' (<[hd := l1 ++ l2]> LS) ∧
    dnode h' x = DlNode None None.
Proof.
  intros HW E. destruct (Rep_delete h hd l1 x l2) as (h' & Hd & HR & Hx & Hf);
    [by apply HW|].
  exists h'. split_and!; [done| |done]. apply (WF_update h); [done..|].
  intros y Hy. pose proof (WF_disjoint _ _ _ _ _ HW E Hy) as Hyx.
  split; [set_solver|by apply Hf].
Qed.

Lemma WF_init h LS hd :
  WF h LS → ¬ linked (delete hd LS) hd → WF (LOS_ListInit h hd) (<[hd := []]> LS).
Proof.
  intros HW Hfresh. apply (WF_update h); [done|apply Rep_init|].
  intros y Hy. assert (y ≠ hd) by (by intros ->).
  split; [set_solver|]. by apply LOS_ListInit_frame.
Qed.

(** A list head may be forgotten, for instance when its node becomes an element of
    another list. *)
Lemma WF_forget h LS hd : WF h LS → WF h (delete hd LS).
Proof.
  intros [HR Hd]. split.
  - intros k xs [_ E]%lookup_delete_Some. by apply HR.
  - intros k1 k2 xs1 xs2 x [_ E1]%lookup_delete_Some [_ E2]%lookup_delete_Some. eauto.
Qed.

Lemma WF_first h LS hd xs :
  WF h LS → LS !! hd = Some xs → LOS_DL_LIST_FIRST h hd = Some (List.hd hd xs).
Proof.
  intros [HR _] E. destruct (HR _ _ E) as [_ Hl]. unfold LOS_DL_LIST_FIRST.
  destruct xs; simpl in Hl; tauto.
Qed.

Lemma WF_empty h LS hd xs :
  WF h LS → LS !! hd = Some xs → LOS_ListEmpty h hd = bool_decide (xs = []).
Proof.
  intros HW E. unfold LOS_ListEmpty. change (pstNext h hd) with (LOS_DL_LIST_FIRST h hd).
  rewrite (WF_first h LS hd xs) by done. apply bool_decide_ext.
  destruct HW as [HR _]. destruct (HR _ _ E) as [[Hn _]%NoDup_cons _].
  destruct xs as [|x xs]; simpl; [done|]. split; [|done].
  intros [= ->]. set_solver.
Qed.

(** The neighbours of an inner node. *)
Lemma WF_next h LS hd l1 x l2 :
  WF h LS → LS !! hd = Some (l1 ++ x :: l2) → pstNext h x = Some (List.hd hd l2).
Proof.
  intros [HR _] E. destruct (Rep_neighbours h hd (l1 ++ x :: l2) (hd :: l1) x
    (List.hd hd l2) (tail (l2 ++ [hd]))) as [-> _]; [by apply HR| |done].
  rewrite <- app_assoc. by destruct l2.
Qed.

Lemma WF_prev h LS hd l1 x l2 :
  WF h LS → LS !! hd = Some (l1 ++ x :: l2) →
  pstPrev h x = Some (List.last (hd :: l1) hd).
Proof.
  intros [HR _] E. destruct (exists_last (l := hd :: l1)) as (k1 & p & Ek); [done|].
  destruct (Rep_neighbours h hd (l1 ++ x :: l2) k1 p x (l2 ++ [hd])) as [_ ->];
    [by apply HR| |].
  - by rewrite <- app_assoc, app_comm_cons, Ek, <- app_assoc.
  - rewrite Ek, last_last. done.
Qed.

(** Walking a list visits its nodes in order; as many steps as the list has nodes
    are enough. *)
Lemma WF_for_each h LS hd xs fuel :
  WF h LS → LS !! hd = Some xs → (length xs ≤ fuel)%nat →
  LOS_DL_LIST_FOR_EACH fuel h hd = Some xs.
Proof.
  intros HW E Hfuel. unfold LOS_DL_LIST_FOR_EACH.
  change (pstNext h hd) with (LOS_DL_LIST_FIRST h hd).
  rewrite (WF_first h LS hd xs) by done. simpl.
  assert (∀ l2 l1 n, xs = l1 ++ l2 → (length l2 ≤ n)%nat →
            dl_walk n h hd (List.hd hd l2) = Some l2) as Hw.
  { induction l2 as [|x l2 IH]; intros l1 n El Hn; simpl.
    - destruct n; simpl; by rewrite decide_True.
    - destruct n as [|n]; [simpl in Hn; lia|]. simpl. rewrite decide_False.
      + rewrite (WF_next h LS hd l1 x l2) by (by subst). simpl.
        rewrite (IH (l1 ++ [x])); [done| |simpl in Hn; lia]. by rewrite <- app_assoc.
      + intros ->. destruct HW as [HR _]. destruct (HR _ _ E) as [[Hd _]%NoDup_cons _].
        subst. set_solver. }
  by apply (Hw xs []).
Qed.

(** The heap has at least one entry per node of a list, so its size bounds every walk. *)
Lemma WF_size h LS hd xs :
  WF h LS → LS !! hd = Some xs → (length (hd :: xs) ≤ size h)%nat.
Proof.
  intros HW E. destruct (proj1 HW _ _ E) as [Hnd _].
  rewrite <- (size_list_to_set (C := gset L)) by done.
  rewrite <- (size_dom (D := gset L)). apply subseteq_size. intros x.
  rewrite elem_of_list_to_set, elem_of_dom. intros Hx.
  assert (is_Some (pstNext h x)) as [y Hy].
  { apply elem_of_cons in Hx as [->|(l1 & l2 & ->)%list_elem_of_split].
    - eexists. by eapply (WF_first h LS).
    - eexists. by eapply (WF_next h LS). }
  unfold pstNext, dnode in Hy. destruct (h !! x); [by eexists|done].
Qed.
(** ** The representation is decidable, and can be read off a heap *)

#[export] Instance links_dec h l : Decision (links h l).
Proof.
  induction l as [|a [|b l] IH]; [left; exact I|left; exact I|].
  unfold links; fold (links h (b :: l)). apply _.
Defined.

#[export] Instance Rep_dec h hd xs : Decision (Rep h hd xs).
Proof. unfold Rep. apply _. Defined.

Lemma WF_alt h LS :
  WF h LS ↔
  map_Forall (fun hd xs => Rep h hd xs) LS ∧
  map_Forall (fun hd1 xs1 => map_Forall (fun hd2 xs2 =>
    hd1 = hd2 ∨ Forall (fun x => x ∉ hd2 :: xs2) (hd1 :: xs1)) LS) LS.
Proof.
  unfold WF, map_Forall. split; intros [HR HD]; (split; [done|]).
  - intros hd1 xs1 E1 hd2 xs2 E2. destruct (decide (hd1 = hd2)) as [|Hne]; [by left|right].
    apply Forall_forall. intros x Hx Hx'. by apply Hne, (HD hd1 hd2 xs1 xs2 x).
  - intros hd1 hd2 xs1 xs2 x E1 E2 Hx1 Hx2.
    destruct (HD hd1 xs1 E1 hd2 xs2 E2) as [|HF]; [done|].
    rewrite Forall_forall in HF. by destruct (HF x Hx1).
Qed.

#[export] Instance WF_dec h LS : Decision (WF h LS).
Proof.
  refine (cast_if (decide (
    map_Forall (fun hd xs => Rep h hd xs) LS ∧
    map_Forall (fun hd1 xs1 => map_Forall (fun hd2 xs2 =>
      hd1 = hd2 ∨ Forall (fun x => x ∉ hd2 :: xs2) (hd1 :: xs1)) LS) LS)));
    abstract (by rewrite WF_alt).
Defined.

#[export] Instance linked_dec LS (x : L) : Decision (linked LS x).
Proof.
  refine (cast_if (decide (map_Exists (fun hd xs => x ∈ hd :: xs) LS))); abstract (
    unfold linked, map_Exists in *; naive_solver).
Defined.

(** The lists of a heap that start at the given heads. *)
Definition lists_at (h : heap) (hds : list L) : gmap L (list L) :=
  list_to_map (omap (fun hd => (hd,.) <$> LOS_DL_LIST_FOR_EACH (size h) h hd) hds).
End DList.

Arguments LOS_DL_LIST L : clear implicits.
