(* ===== verification/Kernel.v ===== *)
(** The state of the kernel: configuration, control blocks, global variables and the
    accessors the components use.  Pointers to control blocks are indices of the
    arrays that hold them, NULL is [None]; the list nodes embedded in the control
    blocks are the keys of the list heap of DList.v. *)

From S2P Require Import Prelude DList.

(** ** Constants *)

Definition LOS_OK : Z := 0.
Definition LOS_NOK : Z := 0xFFFFFFFF.
Definition OS_ERROR : Z := 0xFFFFFFFF.
Definition OS_INVALID : Z := 0xFFFFFFFF.
Definition OS_NULL_INT : Z := 0xFFFFFFFF.
Definition LOS_WAIT_FOREVER : Z := 0xFFFFFFFF.
Definition LOS_NO_WAIT : Z := 0.

Definition OS_TASK_PRIORITY_LOWEST : Z := 31.
Definition OS_TASK_STATUS_UNUSED : Z := 0x0001.
Definition OS_TASK_STATUS_SUSPEND : Z := 0x0002.
Definition OS_TASK_STATUS_READY : Z := 0x0004.
Definition OS_TASK_STATUS_PEND : Z := 0x0008.
Definition OS_TASK_STATUS_RUNNING : Z := 0x0010.
Definition OS_TASK_STATUS_DELAY : Z := 0x0020.
Definition OS_TASK_STATUS_TIMEOUT : Z := 0x0040.
Definition OS_TASK_STATUS_PEND_TIME : Z := 0x0080.
Definition OS_TASK_STATUS_EXIT : Z := 0x0100.
Definition OS_TASK_FLAG_STACK_FREE : Z := 0x0800.
Definition OS_TASK_FLAG_SYSTEM_TASK : Z := 0x1000.
Definition OS_TASK_FLAG_SIGNAL : Z := 0x2000.
Definition OS_TASK_FLAG_FREEZE : Z := 0x4000.
Definition OS_TASK_FLAG_JOINABLE : Z := 0x8000.

Definition OS_SORT_LINK_INVALID_TIME : Z := 0xFFFFFFFFFFFFFFFF.
Definition OS_SORT_LINK_UINT64_MAX : Z := 0xFFFFFFFFFFFFFFFF.
Definition OS_SCHED_MAX_RESPONSE_TIME : Z := OS_SORT_LINK_UINT64_MAX.
Definition OS_SYS_US_PER_SECOND : Z := 1000000.
Definition OS_SYS_MS_PER_SECOND : Z := 1000.
Definition OS_SYS_NS_PER_SECOND : Z := 1000000000.

(** Error codes: [LOS_ERRNO_OS_ERROR(module, errno)] and [LOS_ERRNO_OS_FATAL]. *)
Definition LOS_ERRTYPE_ERROR : Z := Z.shiftl 0x02 24.
Definition LOS_ERRTYPE_FATAL : Z := Z.shiftl 0x03 24.
Definition LOS_ERRNO_OS_ERROR (moduleID errno : Z) : Z :=
  Z.lor LOS_ERRTYPE_ERROR (Z.lor (Z.shiftl moduleID 8) errno).
Definition LOS_ERRNO_OS_FATAL (moduleID errno : Z) : Z :=
  Z.lor LOS_ERRTYPE_FATAL (Z.lor (Z.shiftl moduleID 8) errno).

(** ** Configuration (target_config.h, los_config.h) *)

Class Config := {
  LOSCFG_BASE_CORE_TICK_PER_SECOND : Z;
  LOSCFG_BASE_CORE_TICK_PER_SECOND_MINI : Z;
  LOSCFG_BASE_CORE_TICK_RESPONSE_MAX : Z;
  LOSCFG_BASE_CORE_TIMESLICE_TIMEOUT : Z;
  LOSCFG_BASE_CORE_TSK_LIMIT : Z;
  LOSCFG_BASE_CORE_TSK_IDLE_STACK_SIZE : Z;
  LOSCFG_BASE_CORE_TSK_DEFAULT_STACK_SIZE : Z;
  LOSCFG_BASE_CORE_TSK_MIN_STACK_SIZE : Z;
  LOSCFG_SYS_HEAP_SIZE : Z;
  LOSCFG_BASE_IPC_SEM_LIMIT : Z;
  LOSCFG_BASE_IPC_MUX_LIMIT : Z;
  LOSCFG_BASE_IPC_QUEUE_LIMIT : Z;
  LOSCFG_BASE_CORE_SWTMR : bool;
  LOSCFG_BASE_CORE_SWTMR_LIMIT : Z;
  LOSCFG_KERNEL_PM : bool;
  LOSCFG_BASE_CORE_TSK_MONITOR : bool;
  LOSCFG_STACK_POINT_ALIGN_SIZE : Z;
  LOSCFG_BASE_CORE_TSK_SWTMR_STACK_SIZE : Z;
  OS_SYS_CLOCK : Z;
  (* the sizes the compiler gives to the structures *)
  sizeof_LosTaskCB : Z;
  sizeof_LosSemCB : Z;
  sizeof_LosMuxCB : Z;
  sizeof_LosQueueCB : Z;
  sizeof_SWTMR_CTRL_S : Z;
  sizeof_TaskContext : Z
}.

(** The configuration the Makefile builds, and the defaults of los_config.h it keeps. *)
Definition target_config : Config := {|
  LOSCFG_BASE_CORE_TICK_PER_SECOND := 100;
  LOSCFG_BASE_CORE_TICK_PER_SECOND_MINI := 1000;
  LOSCFG_BASE_CORE_TICK_RESPONSE_MAX := 0xFFFFFF;
  LOSCFG_BASE_CORE_TIMESLICE_TIMEOUT := 20000;
  LOSCFG_BASE_CORE_TSK_LIMIT := 24;
  LOSCFG_BASE_CORE_TSK_IDLE_STACK_SIZE := 0x500;
  LOSCFG_BASE_CORE_TSK_DEFAULT_STACK_SIZE := 0x1000;
  LOSCFG_BASE_CORE_TSK_MIN_STACK_SIZE := 0x130;
  LOSCFG_SYS_HEAP_SIZE := 0x40000;
  LOSCFG_BASE_IPC_SEM_LIMIT := 48;
  LOSCFG_BASE_IPC_MUX_LIMIT := 24;
  LOSCFG_BASE_IPC_QUEUE_LIMIT := 24;
  LOSCFG_BASE_CORE_SWTMR := false;
  LOSCFG_BASE_CORE_SWTMR_LIMIT := 48;
  LOSCFG_KERNEL_PM := false;
  LOSCFG_BASE_CORE_TSK_MONITOR := true;
  LOSCFG_STACK_POINT_ALIGN_SIZE := 8;
  LOSCFG_BASE_CORE_TSK_SWTMR_STACK_SIZE := 1536;
  OS_SYS_CLOCK := 25000000;
  sizeof_LosTaskCB := 128;
  sizeof_LosSemCB := 16;
  sizeof_LosMuxCB := 24;
  sizeof_LosQueueCB := 48;
  sizeof_SWTMR_CTRL_S := 48;
  sizeof_TaskContext := 68
|}.

(** ** List nodes *)

(** Event control blocks: the one inside a task control block, or a caller's. *)
Inductive evptr : Type := EvTask (t : Z) | EvUser (e : Z).

Inductive lnode : Type :=
| PriQueue (p : Z)          (* g_priQueueList[p] *)
| TaskSortLink              (* g_taskSortLink.sortLink *)
| SwtmrSortLink             (* g_swtmrSortLink.sortLink *)
| FreeTask                  (* g_losFreeTask *)
| TaskRecycleList           (* g_taskRecycleList *)
| UnusedSemList             (* g_unusedSemList *)
| UnusedMuxList             (* g_unusedMuxList *)
| FreeQueueList             (* g_freeQueueList *)
| PendList (t : Z)          (* g_taskCBArray[t].pendList *)
| SortLinkNode (t : Z)      (* g_taskCBArray[t].sortList.sortLinkNode *)
| JoinList (t : Z)          (* g_taskCBArray[t].joinList *)
| EventList (e : evptr)     (* stEventList of an event control block *)
| SemList (i : Z)           (* g_allSem[i].semList *)
| MuxList (i : Z)           (* g_allMux[i].muxList *)
| ReadWriteList (q rw : Z)  (* g_allQueue[q].readWriteList[rw] *)
| MemList (q : Z)           (* g_allQueue[q].memList *)
| SwtmrNode (i : Z).        (* g_swtmrCBArray[i].stSortList.sortLinkNode *)

#[export] Instance evptr_eq_dec : EqDecision evptr.
Proof. solve_decision. Defined.
#[export] Instance lnode_eq_dec : EqDecision lnode.
Proof. solve_decision. Defined.

Definition lnode_encode (l : lnode) : nat * Z * Z :=
  match l with
  | PriQueue p => (0%nat, p, 0)
  | TaskSortLink => (1%nat, 0, 0)
  | SwtmrSortLink => (2%nat, 0, 0)
  | FreeTask => (3%nat, 0, 0)
  | TaskRecycleList => (4%nat, 0, 0)
  | UnusedSemList => (5%nat, 0, 0)
  | UnusedMuxList => (6%nat, 0, 0)
  | FreeQueueList => (7%nat, 0, 0)
  | PendList t => (8%nat, t, 0)
  | SortLinkNode t => (9%nat, t, 0)
  | JoinList t => (10%nat, t, 0)
  | EventList (EvTask t) => (11%nat, t, 0)
  | EventList (EvUser e) => (12%nat, e, 0)
  | SemList i => (13%nat, i, 0)
  | MuxList i => (14%nat, i, 0)
  | ReadWriteList q rw => (15%nat, q, rw)
  | MemList q => (16%nat, q, 0)
  | SwtmrNode i => (17%nat, i, 0)
  end.

Definition lnode_decode (c : nat * Z * Z) : lnode :=
  match c with
  | (0%nat, p, _) => PriQueue p
  | (1%nat, _, _) => TaskSortLink
  | (2%nat, _, _) => SwtmrSortLink
  | (3%nat, _, _) => FreeTask
  | (4%nat, _, _) => TaskRecycleList
  | (5%nat, _, _) => UnusedSemList
  | (6%nat, _, _) => UnusedMuxList
  | (7%nat, _, _) => FreeQueueList
  | (8%nat, t, _) => PendList t
  | (9%nat, t, _) => SortLinkNode t
  | (10%nat, t, _) => JoinList t
  | (11%nat, t, _) => EventList (EvTask t)
  | (12%nat, e, _) => EventList (EvUser e)
  | (13%nat, i, _) => SemList i
  | (14%nat, i, _) => MuxList i
  | (15%nat, q, rw) => ReadWriteList q rw
  | (16%nat, q, _) => MemList q
  | (_, i, _) => SwtmrNode i
  end.

#[export] Instance lnode_countable : Countable lnode.
Proof.
  apply (inj_countable' lnode_encode lnode_decode).
  by intros []; try done; match goal with e : evptr |- _ => destruct e end.
Defined.

(** ** Control blocks *)

(** [LosTaskCB]: the embedded list nodes are in the list heap, the embedded event
    control block contributes [event_uwEventID]. *)
Record LosTaskCB := mkTCB {
  stackPointer : Z;
  taskStatus : Z;
  priority : Z;
  timeSlice : Z;
  waitTimes : Z;
  sortList_responseTime : Z;
  startTime : Z;
  stackSize : Z;
  topOfStack : Z;
  taskID : Z;
  taskEntry : Z;
  taskSem : option Z;
  taskMux : option Z;
  arg : Z;
  taskName : option string;
  joinRetval : Z;
  event_uwEventID : Z;
  eventMask : Z;
  eventMode : Z;
  msg : Z
}.

#[export] Instance eta_LosTaskCB : Eta LosTaskCB := fun r =>
  mkTCB (stackPointer r) (taskStatus r) (priority r) (timeSlice r) (waitTimes r)
    (sortList_responseTime r) (startTime r) (stackSize r) (topOfStack r) (taskID r)
    (taskEntry r) (taskSem r) (taskMux r) (arg r) (taskName r) (joinRetval r)
    (event_uwEventID r) (eventMask r) (eventMode r) (msg r).

#[export] Instance LosTaskCB_eq_dec : EqDecision LosTaskCB.
Proof. solve_decision. Defined.

(** A control block after [memset_s(taskCB, sizeof(LosTaskCB), 0, ...)]. *)
Definition zeroTCB : LosTaskCB :=
  mkTCB 0 0 0 0 0 0 0 0 0 0 0 None None 0 None 0 0 0 0 0.

Record LosSemCB := mkSem {
  semStat : Z;
  semCount : Z;
  maxSemCount : Z;
  semID : Z
}.

#[export] Instance eta_LosSemCB : Eta LosSemCB := fun r =>
  mkSem (semStat r) (semCount r) (maxSemCount r) (semID r).

Record LosMuxCB := mkMux {
  muxStat : Z;
  muxCount : Z;
  muxID : Z;
  owner : option Z;
  muxPriority : Z
}.

#[export] Instance eta_LosMuxCB : Eta LosMuxCB := fun r =>
  mkMux (muxStat r) (muxCount r) (muxID r) (owner r) (muxPriority r).

Record SWTMR_CTRL_S := mkSwtmr {
  swtmr_pstNext : option Z;
  ucState : Z;
  ucMode : Z;
  ucOverrun : Z;
  usTimerID : Z;
  uwInterval : Z;
  uwArg : Z;
  pfnHandler : Z;
  stSortList_responseTime : Z;
  swtmr_startTime : Z
}.

#[export] Instance eta_SWTMR_CTRL_S : Eta SWTMR_CTRL_S := fun r =>
  mkSwtmr (swtmr_pstNext r) (ucState r) (ucMode r) (ucOverrun r) (usTimerID r)
    (uwInterval r) (uwArg r) (pfnHandler r) (stSortList_responseTime r)
    (swtmr_startTime r).

(** [LosQueueCB]; [readWriteableCnt[0]] and [readWriteableCnt[1]] are two fields. *)
Record LosQueueCB := mkQueue {
  queue : Z;
  queueName : option string;
  queueState : Z;
  queueLen : Z;
  queueSize : Z;
  queueID : Z;
  queueHead : Z;
  queueTail : Z;
  readableCnt : Z;
  writableCnt : Z
}.

#[export] Instance eta_LosQueueCB : Eta LosQueueCB := fun r =>
  mkQueue (queue r) (queueName r) (queueState r) (queueLen r) (queueSize r) (queueID r)
    (queueHead r) (queueTail r) (readableCnt r) (writableCnt r).

(** The host thread that runs one task (sub/RTOS_BE.c); thread 0 is no thread. *)
Record PMCU_Thread := mkThread {
  Thread : Z;
  valid : bool;
  thr_taskid : Z;
  critical_nesting : Z;
  real_func : Z;
  real_params : list Z;
  param_number : Z
}.

#[export] Instance eta_PMCU_Thread : Eta PMCU_Thread := fun r =>
  mkThread (Thread r) (valid r) (thr_taskid r) (critical_nesting r) (real_func r)
    (real_params r) (param_number r).

(** [struct Node] of los_exchook.c: a hook, 0 for NULL, and the next node of its list. *)
Record ExcNode := mkExcNode {
  excHookFn : Z;
  exc_next : option Z
}.
#[export] Instance eta_exc_node : Eta ExcNode := fun r => mkExcNode (excHookFn r) (exc_next r).

(** ** The global variables *)

Record kstate := mkKernel {
  (* the list nodes of all control blocks and global list heads *)
  dlheap : gmap lnode (LOS_DL_LIST lnode);
  (* los_task.c *)
  g_taskCBArray : gmap Z LosTaskCB;
  runTask : option Z;
  newTask : option Z;
  g_losTaskLock : Z;
  g_taskMaxNum : Z;
  g_idleTaskID : Z;
  g_swtmrTaskID : Z;
  g_taskScheduled : bool;
  (* los_sched.c *)
  g_queueBitmap : Z;
  g_schedResponseID : Z;
  g_tickIntLock : Z;
  g_schedResponseTime : Z;
  g_schedTimeSlice : Z;
  g_schedTimeSliceMin : Z;
  g_schedTickMinPeriod : Z;
  g_tickResponsePrecision : Z;
  (* los_tick.c *)
  g_sysClock : Z;
  g_cyclesPerTick : Z;
  g_sysTimerIsInit : bool;
  g_tickTimerStartTime : Z;
  g_tickTimerBase : Z;
  g_oldTickTimerBase : Z;
  g_tickTimerBaseUpdate : bool;
  (* arch/arm/cortex-m4/gcc/los_timer.c *)
  tick_freq : Z;
  tick_periodMax : Z;
  g_SysTickLoad : Z;
  (* los_interrupt.c and components/power *)
  g_intCount : Z;
  pm_sysMode : Z;
  pm_lock : Z;
  (* los_sem.c, los_mux.c and the callers' event control blocks *)
  g_allSem : gmap Z LosSemCB;
  g_allMux : gmap Z LosMuxCB;
  userEvents : gmap Z Z;
  (* los_swtmr.c *)
  g_swtmrCBArray : gmap Z SWTMR_CTRL_S;
  g_swtmrFreeList : option Z;
  g_swtmrHandlerQueue : Z;
  g_swtmrScan : bool;                    (* false: the function pointer is NULL *)
  (* los_queue.c *)
  g_allQueue : gmap Z LosQueueCB;
  (* byte-addressed memory, and the live blocks of the host's malloc *)
  ram : gmap Z Z;
  malloced : gmap Z Z;
  (* sub/RTOS_BE.c and sub/LiteOS_RTOS_FE.c *)
  interrupt_flag : Z;
  nesting_counter : Z;
  pmcu_threads : gmap Z PMCU_Thread;
  pthread_self : Z;
  init_thread : Z;
  pthread_next : Z;                      (* the identifier of the next host thread *)
  first_time : bool;
  tick_handler_not_set : bool;
  pmcu_systick_handler : bool;           (* true: OsTickHandler, false: NULL *)
  systick_mutex : bool;                  (* held *)
  g_SysTickVal : Z;
  (* mm/los_memoey.c: the first memory pool, 0 for NULL *)
  g_poolHead : Z;
  (* components/exchook/los_exchook.c and utils/los_debug.c *)
  g_excNodes : gmap Z ExcNode;
  g_excHeads : gmap Z (option Z);
  g_excHook : Z;                         (* 0 for NULL *)
  (* los_interrupt.c: the vector tables, and the registers of the interrupt controller and of the
     system control block *)
  g_hwiForm : gmap Z Z;
  g_hwiHandlerForm : gmap Z Z;
  nvic_enabled : gset Z;
  nvic_pending : gset Z;
  nvic_priority : gmap Z Z;
  ipsr : Z;
  scb_regs : gmap Z Z
}.

#[export] Instance eta_kstate : Eta kstate := fun r =>
  mkKernel (dlheap r) (g_taskCBArray r) (runTask r) (newTask r) (g_losTaskLock r)
    (g_taskMaxNum r) (g_idleTaskID r) (g_swtmrTaskID r) (g_taskScheduled r)
    (g_queueBitmap r) (g_schedResponseID r) (g_tickIntLock r) (g_schedResponseTime r)
    (g_schedTimeSlice r) (g_schedTimeSliceMin r) (g_schedTickMinPeriod r)
    (g_tickResponsePrecision r) (g_sysClock r) (g_cyclesPerTick r) (g_sysTimerIsInit r)
    (g_tickTimerStartTime r) (g_tickTimerBase r) (g_oldTickTimerBase r)
    (g_tickTimerBaseUpdate r) (tick_freq r) (tick_periodMax r) (g_SysTickLoad r)
    (g_intCount r) (pm_sysMode r) (pm_lock r) (g_allSem r) (g_allMux r) (userEvents r)
    (g_swtmrCBArray r) (g_swtmrFreeList r) (g_swtmrHandlerQueue r) (g_swtmrScan r)
    (g_allQueue r) (ram r) (malloced r) (interrupt_flag r) (nesting_counter r)
    (pmcu_threads r) (pthread_self r) (init_thread r) (pthread_next r) (first_time r)
    (tick_handler_not_set r) (pmcu_systick_handler r) (systick_mutex r) (g_SysTickVal r)
    (g_poolHead r) (g_excNodes r) (g_excHeads r) (g_excHook r) (g_hwiForm r) (g_hwiHandlerForm r)
    (nvic_enabled r) (nvic_pending r) (nvic_priority r) (ipsr r) (scb_regs r).

Abbreviation K := (M kstate).

(** ** Accessors *)

(** Reading and writing [g_taskCBArray[t]]. *)
Definition get_tcb (t : Z) : K LosTaskCB :=
  a ← gets g_taskCBArray; unwrap OutOfBounds (a !! t).
Definition mod_tcb (t : Z) (f : LosTaskCB → LosTaskCB) : K unit :=
  c ← get_tcb t;
  modify (fun s => s <| g_taskCBArray := <[t := f c]> (g_taskCBArray s) |>).

Definition get_swtmr (i : Z) : K SWTMR_CTRL_S :=
  a ← gets g_swtmrCBArray; unwrap OutOfBounds (a !! i).
Definition mod_swtmr (i : Z) (f : SWTMR_CTRL_S → SWTMR_CTRL_S) : K unit :=
  c ← get_swtmr i;
  modify (fun s => s <| g_swtmrCBArray := <[i := f c]> (g_swtmrCBArray s) |>).

(** [g_losTask.runTask], dereferenced. *)
Definition get_runTask : K Z := r ← gets runTask; unwrap NullDeref r.

(** Running a list operation on the list heap. *)
Definition dl_op (f : gmap lnode (LOS_DL_LIST lnode) → option (gmap lnode (LOS_DL_LIST lnode)))
    : K unit :=
  h ← gets dlheap;
  h' ← unwrap NullDeref (f h);
  modify (fun s => s <| dlheap := h' |>).
Definition list_init (l : lnode) : K unit := dl_op (fun h => Some (LOS_ListInit h l)).
Definition list_add (l node : lnode) : K unit := dl_op (fun h => LOS_ListAdd h l node).
Definition list_tail_insert (l node : lnode) : K unit :=
  dl_op (fun h => LOS_ListTailInsert h l node).
Definition list_delete (node : lnode) : K unit := dl_op (fun h => LOS_ListDelete h node).
Definition list_empty (l : lnode) : K bool := gets (fun s => LOS_ListEmpty (dlheap s) l).
Definition list_first (l : lnode) : K lnode :=
  h ← gets dlheap; unwrap NullDeref (LOS_DL_LIST_FIRST h l).

(** [LOS_DL_LIST_ENTRY(ptr, LosTaskCB, pendList)]: only a [pendList] node lies inside a
    task control block at that offset. *)
Definition OS_TCB_FROM_PENDLIST (l : lnode) : K Z :=
  match l with PendList t => mret t | _ => fail NullDeref end.

(** ** Interrupt lock (sub/LiteOS_RTOS_FE.c and sub/RTOS_BE.c) *)

Definition PMCU_BE_Disable_Irq : K Z :=
  modify (fun s => s <| interrupt_flag := 0 |>);; gets interrupt_flag.
Definition PMCU_BE_Enable_Irq : K Z :=
  modify (fun s => s <| interrupt_flag := 1 |>);; gets interrupt_flag.
Definition LOS_IntLock : K Z := PMCU_BE_Disable_Irq.
Definition LOS_IntRestore (intSave : Z) : K unit := PMCU_BE_Enable_Irq;; mret tt.

(** [OS_INT_ACTIVE]. *)
Definition ArchIsIntActive : K bool := gets (fun s => 0 <? g_intCount s).

(** [OsIsPmMode] of components/power, compiled out when [LOSCFG_KERNEL_PM] is 0. *)
Definition LOS_SYS_NORMAL_SLEEP : Z := 0.
Definition OsIsPmMode `{Config} : K bool :=
  if LOSCFG_KERNEL_PM then
    intSave ← LOS_IntLock;
    s ← gets id;
    LOS_IntRestore intSave;;
    mret (negb (pm_sysMode s =? LOS_SYS_NORMAL_SLEEP) && (pm_lock s =? 0))
  else mret false.

(** ** Reasoning about the accessors *)

Ltac rsimpl :=
  repeat match goal with
  | |- context [?p (@setf ?R ?E ?f ?i ?v ?r)] =>
      let e := eval simpl in (p (@setf R E f i v r)) in
      progress change (p (@setf R E f i v r)) with e
  end.

Ltac rsimpl_in H :=
  repeat match type of H with
  | context [?p (@setf ?R ?E ?f ?i ?v ?r)] =>
      let e := eval simpl in (p (@setf R E f i v r)) in
      progress change (p (@setf R E f i v r)) with e in H
  end.

Section accessors.
Implicit Types (s : kstate) (Q : unit → kstate → Prop).

Lemma wp_get_tcb t c (Q : LosTaskCB → kstate → Prop) s :
  g_taskCBArray s !! t = Some c → Q c s → wp (get_tcb t) Q s.
Proof. intros E HQ. unfold get_tcb. apply wp_bind, wp_gets. by rewrite E. Qed.

Lemma wp_mod_tcb t f c Q s :
  g_taskCBArray s !! t = Some c →
  Q tt (s <| g_taskCBArray := <[t := f c]> (g_taskCBArray s) |>) →
  wp (mod_tcb t f) Q s.
Proof. intros E HQ. unfold mod_tcb. apply wp_bind. by apply (wp_get_tcb t c). Qed.

Lemma wp_get_swtmr i c (Q : SWTMR_CTRL_S → kstate → Prop) s :
  g_swtmrCBArray s !! i = Some c → Q c s → wp (get_swtmr i) Q s.
Proof. intros E HQ. unfold get_swtmr. apply wp_bind, wp_gets. by rewrite E. Qed.

Lemma wp_mod_swtmr i f c Q s :
  g_swtmrCBArray s !! i = Some c →
  Q tt (s <| g_swtmrCBArray := <[i := f c]> (g_swtmrCBArray s) |>) →
  wp (mod_swtmr i f) Q s.
Proof. intros E HQ. unfold mod_swtmr. apply wp_bind. by apply (wp_get_swtmr i c). Qed.

Lemma wp_get_runTask r (Q : Z → kstate → Prop) s :
  runTask s = Some r → Q r s → wp get_runTask Q s.
Proof. intros E HQ. unfold get_runTask. apply wp_bind, wp_gets. by rewrite E. Qed.

Lemma wp_dl_op f h' Q s :
  f (dlheap s) = Some h' → Q tt (s <| dlheap := h' |>) → wp (dl_op f) Q s.
Proof.
  intros E HQ. unfold dl_op. apply wp_bind, wp_gets, wp_bind, wp_unwrap. eauto.
Qed.

Context (LS : gmap lnode (list lnode)) (s : kstate) (HW : WF (dlheap s) LS).

Lemma wp_list_init hd Q :
  ¬ linked (delete hd LS) hd →
  (∀ h', WF h' (<[hd := []]> LS) → Q tt (s <| dlheap := h' |>)) →
  wp (list_init hd) Q s.
Proof.
  intros Hf HQ. eapply wp_dl_op; [done|]. apply HQ. by apply WF_init.
Qed.

Lemma wp_list_add_head hd xs node Q :
  LS !! hd = Some xs → ¬ linked LS node →
  (∀ h', WF h' (<[hd := node :: xs]> LS) → Q tt (s <| dlheap := h' |>)) →
  wp (list_add hd node) Q s.
Proof.
  intros E Hf HQ. destruct (WF_add_head _ _ _ _ _ HW E Hf) as (h' & Ha & HW').
  eapply wp_dl_op; eauto.
Qed.

Lemma wp_list_add_after hd l1 p l2 node Q :
  LS !! hd = Some (l1 ++ p :: l2) → ¬ linked LS node →
  (∀ h', WF h' (<[hd := l1 ++ p :: node :: l2]> LS) → Q tt (s <| dlheap := h' |>)) →
  wp (list_add p node) Q s.
Proof.
  intros E Hf HQ.
  destruct (WF_add _ _ _ _ (hd :: l1) p l2 node HW E) as (h' & xs' & Ha & E' & HW');
    [done..|].
  simplify_eq/=. eapply wp_dl_op; eauto.
Qed.

Lemma wp_list_tail_insert hd xs node Q :
  LS !! hd = Some xs → ¬ linked LS node →
  (∀ h', WF h' (<[hd := xs ++ [node]]> LS) → Q tt (s <| dlheap := h' |>)) →
  wp (list_tail_insert hd node) Q s.
Proof.
  intros E Hf HQ. destruct (WF_add_tail _ _ _ _ _ HW E Hf) as (h' & Ha & HW').
  eapply wp_dl_op; eauto.
Qed.

Lemma wp_list_delete hd l1 x l2 Q :
  LS !! hd = Some (l1 ++ x :: l2) →
  (∀ h', WF h' (<[hd := l1 ++ l2]> LS) → Q tt (s <| dlheap := h' |>)) →
  wp (list_delete x) Q s.
Proof.
  intros E HQ. destruct (WF_delete _ _ _ _ _ _ HW E) as (h' & Ha & HW' & _).
  eapply wp_dl_op; eauto.
Qed.

Lemma wp_list_empty hd xs (Q : bool → kstate → Prop) :
  LS !! hd = Some xs → Q (bool_decide (xs = [])) s → wp (list_empty hd) Q s.
Proof.
  intros E HQ. unfold list_empty. apply wp_gets. by erewrite WF_empty.
Qed.

Lemma wp_list_first hd xs (Q : lnode → kstate → Prop) :
  LS !! hd = Some xs → Q (List.hd hd xs) s → wp (list_first hd) Q s.
Proof.
  intros E HQ. unfold list_first. apply wp_bind, wp_gets, wp_unwrap.
  eexists; split; [by eapply WF_first|done].
Qed.
End accessors.

(** One step of a symbolic execution. *)
Ltac wp_step :=
  lazymatch goal with
  | |- wp (mbind _ _) _ _ => apply wp_bind
  | |- wp (mret _) _ _ => apply wp_ret
  | |- wp (gets _) _ _ => apply wp_gets
  | |- wp (modify _) _ _ => apply wp_modify
  | |- wp (when _ _) _ _ => apply wp_when
  | |- wp (unwrap _ (Some _)) _ _ => apply wp_unwrap_Some
  | |- wp (OS_TCB_FROM_PENDLIST (PendList _)) _ _ => apply wp_ret
  | |- wp (get_tcb _) _ _ => eapply wp_get_tcb; [first [eassumption | rsimpl; eassumption]|]
  | |- wp get_runTask _ _ => eapply wp_get_runTask; [first [eassumption | rsimpl; eassumption]|]
  | |- wp (LOS_IntRestore _) _ _ => unfold LOS_IntRestore, PMCU_BE_Enable_Irq
  | |- wp LOS_IntLock _ _ => unfold LOS_IntLock, PMCU_BE_Disable_Irq
  end; cbv beta.
Ltac wp_steps := repeat wp_step.
