(* ===== verification/Tick.v ===== *)
(** Time: the SysTick driver of this port (arch/arm/cortex-m4/gcc/los_timer.c), the
    cycle counter kept on top of it and the unit conversions (los_tick.c, los_tick.h). *)

From S2P Require Import Prelude DList Kernel.

Section Tick.
  Context `{Config}.

(** ** The SysTick driver *)

(** [SysTickCycleGet(&period)]: the elapsed cycles and the period. *)
Definition SysTickCycleGet : K (Z * Z) :=
  load ← gets g_SysTickLoad;
  mret (u32 (load - 1), load).

Definition SysTickReload (nextResponseTime : Z) : K Z :=
  periodMax ← gets tick_periodMax;
  let next := if periodMax <? nextResponseTime then periodMax else nextResponseTime in
  modify (fun s => s <| g_SysTickLoad := u32 (next - 1) |>);;
  mret next.

(** ** The cycle counter ([LOSCFG_BASE_CORE_TICK_WTIMER == 0]) *)

Definition OsUpdateSysTimeBase : K unit :=
  upd ← gets g_tickTimerBaseUpdate;
  when (negb upd) (
    '(_, period) ← SysTickCycleGet;
    modify (fun s => s <| g_tickTimerBase := u64 (g_tickTimerBase s + period) |>));;
  modify (fun s => s <| g_tickTimerBaseUpdate := false |>).

Definition OsTickTimerBaseReset (currTime : Z) : K unit :=
  base ← gets g_tickTimerBase;
  LOS_ASSERT (base <=? currTime);;
  modify (fun s => s <| g_tickTimerBase := currTime |>).

Definition LOS_SysCycleGet : K Z :=
  intSave ← LOS_IntLock;
  '(time, period) ← SysTickCycleGet;
  base ← gets g_tickTimerBase;
  old ← gets g_oldTickTimerBase;
  schedTime ← (
    if u64 (base + time) <? old then
      (* Turn the timer count *)
      modify (fun s => s <| g_tickTimerBase := u64 (base + period) |>);;
      modify (fun s => s <| g_tickTimerBaseUpdate := true |>);;
      mret (u64 (u64 (base + period) + time))
    else mret (u64 (base + time)));
  LOS_ASSERT (old <=? schedTime);;
  modify (fun s => s <| g_oldTickTimerBase := schedTime |>);;
  LOS_IntRestore intSave;;
  mret schedTime.

Definition OsGetCurrSchedTimeCycle : K Z := LOS_SysCycleGet.

Definition OsTickTimerReload (period : Z) : K Z :=
  t ← LOS_SysCycleGet;
  modify (fun s => s <| g_tickTimerBase := t |>);;
  SysTickReload period.

Definition OsTickSysTimerStartTimeSet (currTime : Z) : K unit :=
  modify (fun s => s <| g_tickTimerStartTime := currTime |>).

(** ** Unit conversions *)

Definition OS_SYS_TICK_TO_CYCLE (clock ticks : Z) : Z :=
  u64 (ticks * clock) / LOSCFG_BASE_CORE_TICK_PER_SECOND.

Definition OS_SYS_CYCLE_TO_TICK (clock cycle : Z) : Z :=
  u64 (cycle * LOSCFG_BASE_CORE_TICK_PER_SECOND) / clock.

Definition OS_CYCLE_PER_TICK (clock : Z) : Z := clock / LOSCFG_BASE_CORE_TICK_PER_SECOND.

Definition OS_SYS_CYCLE_TO_NS (cycle freq : Z) : Z :=
  u64 (u64 ((cycle / freq) * OS_SYS_NS_PER_SECOND) +
       u64 ((cycle mod freq) * OS_SYS_NS_PER_SECOND) / freq).

Definition OsTimeConvertFreq (time oldFreq newFreq : Z) : Z :=
  if newFreq <=? oldFreq then time / (oldFreq / newFreq)
  else u64 (time * (newFreq / oldFreq)).

Definition LOS_TickCountGet : K Z :=
  t ← LOS_SysCycleGet;
  start ← gets g_tickTimerStartTime;
  clock ← gets g_sysClock;
  mret (OS_SYS_CYCLE_TO_TICK clock (u64 (t - start))).

Definition LOS_CyclePerTickGet : K Z := gets g_cyclesPerTick.

Definition LOS_MS2Tick (millisec : Z) : Z :=
  if millisec =? OS_NULL_INT then OS_NULL_INT
  else u32 (u64 (millisec * LOSCFG_BASE_CORE_TICK_PER_SECOND) / OS_SYS_MS_PER_SECOND).

Definition LOS_Tick2MS (ticks : Z) : Z :=
  u32 (u64 (ticks * OS_SYS_MS_PER_SECOND) / LOSCFG_BASE_CORE_TICK_PER_SECOND).

(** ** The counter never goes backwards *)

(** The cycle count the next call of [LOS_SysCycleGet] reads. *)
Definition now (s : kstate) : Z := g_tickTimerBase s + u32 (g_SysTickLoad s - 1).

Definition TIME_HORIZON : Z := 2 ^ 63.

(** The counter is consistent and far from wrapping around. *)
Definition ClockOk (s : kstate) : Prop :=
  0 ≤ g_tickTimerBase s ∧ 0 ≤ g_oldTickTimerBase s ≤ now s ∧ 0 ≤ g_SysTickLoad s < 2 ^ 32.
Definition TimeOk (s : kstate) : Prop :=
  0 ≤ g_tickTimerBase s ∧ 0 ≤ g_oldTickTimerBase s ≤ now s ∧
  (now s < TIME_HORIZON ∧ 0 ≤ g_SysTickLoad s < 2 ^ 32).

Lemma u32_bound x : 0 ≤ u32 x < 2 ^ 32.
Proof. unfold u32. apply Z.mod_pos_bound. lia. Qed.

Lemma u64_id x : 0 ≤ x < 2 ^ 64 → u64 x = x.
Proof. apply Z.mod_small. Qed.

Lemma wp_LOS_SysCycleGet s (Q : Z → kstate → Prop) :
  TimeOk s →
  Q (now s) (s <| interrupt_flag := 0 |> <| g_oldTickTimerBase := now s |>
               <| interrupt_flag := 1 |>) →
  wp LOS_SysCycleGet Q s.
Proof.
  intros (Hb & Ho & Hn) HQ. unfold now, TIME_HORIZON in *.
  pose proof (u32_bound (g_SysTickLoad s - 1)).
  unfold LOS_SysCycleGet, SysTickCycleGet. wp_steps. rsimpl.
  rewrite (u64_id (g_tickTimerBase s + u32 (g_SysTickLoad s - 1))) by lia.
  zcase. wp_steps.
  apply wp_assert; split; [lia|]. wp_steps. exact HQ.
Qed.

Lemma wp_OsTickTimerReload s n (Q : Z → kstate → Prop) :
  TimeOk s → 1 ≤ n → 1 ≤ tick_periodMax s →
  (∀ r s', r = Z.min n (tick_periodMax s) →
     s' = (s <| interrupt_flag := 0 |> <| g_oldTickTimerBase := now s |>
             <| interrupt_flag := 1 |> <| g_tickTimerBase := now s |>
             <| g_SysTickLoad := u32 (r - 1) |>) → Q r s') →
  wp (OsTickTimerReload n) Q s.
Proof.
  intros HT Hn Hm HQ. unfold OsTickTimerReload. wp_step.
  apply wp_LOS_SysCycleGet; [done|]. unfold SysTickReload. wp_steps. apply HQ; [|done].
  rsimpl. destruct (Z.ltb_spec (tick_periodMax s) n); lia.
Qed.

(** After a reload the counter continues from the time of the reload. *)
Lemma reload_now s r :
  1 ≤ r ≤ 2 ^ 32 →
  now s ≤ now (s <| g_tickTimerBase := now s |> <| g_SysTickLoad := u32 (r - 1) |>) <
  now s + 2 ^ 32.
Proof.
  intros Hr. unfold now. rsimpl.
  pose proof (u32_bound (u32 (r - 1) - 1)). lia.
Qed.
End Tick.
