(* ===== verification/SortLink.v ===== *)
(** The delay queues (los_sortlink.c, los_sortlink.h): lists of nodes kept in the order
    of their response times. *)

From S2P Require Import Prelude DList Kernel Tick.
From Stdlib Require Export Sorted.

Section SortLink.
  Context `{Config}.

Definition OS_SORT_LINK_TASK : Z := 1.
Definition OS_SORT_LINK_SWTMR : Z := 2.

(** ** [GET_SORTLIST_VALUE] and [SET_SORTLIST_VALUE] *)

Definition GET_SORTLIST_VALUE (n : lnode) : K Z :=
  match n with
  | SortLinkNode t => c ← get_tcb t; mret (sortList_responseTime c)
  | SwtmrNode i => c ← get_swtmr i; mret (stSortList_responseTime c)
  | _ => fail NullDeref
  end.

Definition SET_SORTLIST_VALUE (n : lnode) (v : Z) : K unit :=
  match n with
  | SortLinkNode t => mod_tcb t (fun c => c <| sortList_responseTime := v |>)
  | SwtmrNode i => mod_swtmr i (fun c => c <| stSortList_responseTime := v |>)
  | _ => fail NullDeref
  end.

Definition list_prev (l : lnode) : K lnode :=
  h ← gets dlheap; unwrap NullDeref (pstPrev h l).

(** ** Insertion *)

Definition OsSortLinkInit (sortLinkHead : lnode) : K Z :=
  list_init sortLinkHead;; mret LOS_OK.

(** The [do ... while (1)] loop that walks backwards from the tail. *)
Fixpoint OsAddNode2SortLink_loop (fuel : nat) (prevNode node : lnode) (responseTime : Z)
    : K unit :=
  match fuel with
  | O => fail OutOfFuel
  | S fuel =>
      t ← GET_SORTLIST_VALUE prevNode;
      if t <=? responseTime then list_add prevNode node
      else
        prevNode' ← list_prev prevNode;
        OsAddNode2SortLink_loop fuel prevNode' node responseTime
  end.

Definition OsAddNode2SortLink (head node : lnode) : K unit :=
  e ← list_empty head;
  if (e : bool) then list_add head node
  else
    first ← list_first head;
    t1 ← GET_SORTLIST_VALUE first;
    t ← GET_SORTLIST_VALUE node;
    if t <? t1 then list_add head node
    else if t1 =? t then list_add first node
    else
      prevNode ← list_prev head;
      fuel ← gets (fun s => size (dlheap s));
      OsAddNode2SortLink_loop fuel prevNode node t.

(** [OsGetSortLinkAttribute]; the head, or NULL. *)
Definition OsGetSortLinkAttribute (type : Z) : option lnode :=
  if type =? OS_SORT_LINK_TASK then Some TaskSortLink
  else if LOSCFG_BASE_CORE_SWTMR && (type =? OS_SORT_LINK_SWTMR) then Some SwtmrSortLink
  else None.

Definition OsAdd2SortLink (node : lnode) (startTime waitTicks type : Z) : K unit :=
  sortLinkHead ← unwrap Panic (OsGetSortLinkAttribute type);
  intSave ← LOS_IntLock;
  clock ← gets g_sysClock;
  SET_SORTLIST_VALUE node (u64 (startTime + OS_SYS_TICK_TO_CYCLE clock waitTicks));;
  OsAddNode2SortLink sortLinkHead node;;
  LOS_IntRestore intSave.

(** ** Deletion *)

Definition OsDeleteNodeSortLink (node : lnode) : K unit :=
  list_delete node;;
  SET_SORTLIST_VALUE node OS_SORT_LINK_INVALID_TIME.

Definition OsSchedResetSchedResponseTime (responseTime : Z) : K unit :=
  cur ← gets g_schedResponseTime;
  when (responseTime <=? cur)
    (modify (fun s => s <| g_schedResponseTime := OS_SCHED_MAX_RESPONSE_TIME |>)).

Definition OsDeleteSortLink (node : lnode) : K unit :=
  intSave ← LOS_IntLock;
  t ← GET_SORTLIST_VALUE node;
  when (negb (t =? OS_SORT_LINK_INVALID_TIME)) (
    OsSchedResetSchedResponseTime t;;
    OsDeleteNodeSortLink node);;
  LOS_IntRestore intSave.

(** ** Expiry times *)

Definition OsSortLinkGetTargetExpireTime (currTime responseTime : Z) : Z :=
  if responseTime <=? currTime then 0 else responseTime - currTime.

Definition OsSortLinkGetNextExpireTime (head : lnode) : K Z :=
  e ← list_empty head;
  if (e : bool) then mret 0
  else
    first ← list_first head;
    curr ← OsGetCurrSchedTimeCycle;
    t ← GET_SORTLIST_VALUE first;
    mret (OsSortLinkGetTargetExpireTime curr t).

Definition GetSortLinkNextExpireTime (head : lnode) (startTime tickPrecision : Z) : K Z :=
  e ← list_empty head;
  if (e : bool) then mret (OS_SORT_LINK_UINT64_MAX - tickPrecision)
  else
    first ← list_first head;
    t ← GET_SORTLIST_VALUE first;
    mret (if t <=? u64 (startTime + tickPrecision) then u64 (startTime + tickPrecision)
          else t).

Definition OsGetNextExpireTime (startTime tickPrecision : Z) : K Z :=
  taskExpireTime ← GetSortLinkNextExpireTime TaskSortLink startTime tickPrecision;
  swtmrExpireTime ← (
    if LOSCFG_BASE_CORE_SWTMR then
      GetSortLinkNextExpireTime SwtmrSortLink startTime tickPrecision
    else mret taskExpireTime);
  mret (if taskExpireTime <? swtmrExpireTime then taskExpireTime else swtmrExpireTime).

(** ** Frequency changes *)

(** The [do ... while (nextNode != head)] loop. *)
Fixpoint SortLinkNodeTimeUpdate_loop (fuel : nat) (head nextNode : lnode)
    (oldFreq : Z) : K unit :=
  match fuel with
  | O => fail OutOfFuel
  | S fuel =>
      clock ← gets g_sysClock;
      t ← GET_SORTLIST_VALUE nextNode;
      SET_SORTLIST_VALUE nextNode (OsTimeConvertFreq t oldFreq clock);;
      nextNode' ← list_first nextNode;
      if decide (nextNode' = head) then mret tt
      else SortLinkNodeTimeUpdate_loop fuel head nextNode' oldFreq
  end.

Definition SortLinkNodeTimeUpdate (head : lnode) (oldFreq : Z) : K unit :=
  e ← list_empty head;
  if (e : bool) then mret tt
  else
    nextNode ← list_first head;
    fuel ← gets (fun s => size (dlheap s));
    SortLinkNodeTimeUpdate_loop fuel head nextNode oldFreq.

Definition OsSortLinkResponseTimeConvertFreq (oldFreq : Z) : K unit :=
  SortLinkNodeTimeUpdate TaskSortLink oldFreq;;
  when LOSCFG_BASE_CORE_SWTMR (SortLinkNodeTimeUpdate SwtmrSortLink oldFreq).

(** ** Ordered delay queues *)

Definition responseTime (s : kstate) (n : lnode) : option Z :=
  match n with
  | SortLinkNode t => sortList_responseTime <$> g_taskCBArray s !! t
  | SwtmrNode i => stSortList_responseTime <$> g_swtmrCBArray s !! i
  | _ => None
  end.

Definition rtime (s : kstate) (n : lnode) : Z := default 0 (responseTime s n).

(** Every node of [xs] lies in a control block, and the times never decrease. *)
Definition SortedLink (s : kstate) (xs : list lnode) : Prop :=
  Forall (fun n => is_Some (responseTime s n)) xs ∧
  StronglySorted (fun a b => rtime s a ≤ rtime s b) xs.

(** [xs'] is [xs] with [node] at a place its time [t] allows. *)
Definition inserted (f : lnode → Z) (t : Z) (node : lnode) (xs xs' : list lnode) : Prop :=
  ∃ l1 l2, xs = l1 ++ l2 ∧ xs' = l1 ++ node :: l2 ∧
    Forall (fun x => f x ≤ t) l1 ∧ Forall (fun x => t ≤ f x) l2.

Lemma wp_GET_SORTLIST_VALUE s n t (Q : Z → kstate → Prop) :
  responseTime s n = Some t → Q t s → wp (GET_SORTLIST_VALUE n) Q s.
Proof.
  unfold responseTime, GET_SORTLIST_VALUE. destruct n; try done;
    intros (c & E & ->)%fmap_Some HQ; wp_step.
  - by eapply wp_get_tcb.
  - by eapply wp_get_swtmr.
Qed.

Lemma wp_GET_rtime s n (Q : Z → kstate → Prop) :
  is_Some (responseTime s n) → Q (rtime s n) s → wp (GET_SORTLIST_VALUE n) Q s.
Proof.
  intros [t E] HQ. eapply wp_GET_SORTLIST_VALUE; [done|].
  unfold rtime in HQ. by rewrite E in HQ.
Qed.

Lemma StronglySorted_app_intro {A} (R : A → A → Prop) l1 l2 :
  StronglySorted R l1 → StronglySorted R l2 →
  (∀ x y, x ∈ l1 → y ∈ l2 → R x y) → StronglySorted R (l1 ++ l2).
Proof.
  induction l1 as [|x l1 IH]; simpl; [done|].
  intros [H1 H2]%StronglySorted_inv H3 H4. constructor; [apply IH; set_solver|].
  apply Forall_app; split; [done|]. apply Forall_forall. set_solver.
Qed.

Lemma StronglySorted_app_elim {A} (R : A → A → Prop) l1 l2 :
  StronglySorted R (l1 ++ l2) →
  StronglySorted R l1 ∧ StronglySorted R l2 ∧ (∀ x y, x ∈ l1 → y ∈ l2 → R x y).
Proof.
  induction l1 as [|x l1 IH]; simpl; [repeat constructor; set_solver|].
  intros [H1 H2]%StronglySorted_inv. destruct (IH H1) as (H3 & H4 & H5).
  apply Forall_app in H2 as [H2 H2']. rewrite Forall_forall in H2'.
  split_and!; [by constructor|done|]. set_solver.
Qed.

Lemma inserted_sorted s t node xs xs' :
  responseTime s node = Some t → SortedLink s xs →
  inserted (rtime s) t node xs xs' → SortedLink s xs'.
Proof.
  intros Ht [Hs Hx] (l1 & l2 & -> & -> & H1 & H2).
  apply Forall_app in Hs as [Hs1 Hs2].
  assert (rtime s node = t) as Hn by (unfold rtime; by rewrite Ht).
  rewrite Forall_forall in H1, H2.
  apply StronglySorted_app_elim in Hx as (Hx1 & Hx2 & Hx3). split.
  - apply Forall_app; split; [done|]. constructor; [by eexists|done].
  - apply StronglySorted_app_intro; [done| |].
    + constructor; [done|]. apply Forall_forall. intros x Hx. rewrite Hn. by apply H2.
    + intros x y Hx [->|Hy]%elem_of_cons; [rewrite Hn; by apply H1|by apply Hx3].
Qed.

Lemma inserted_Permutation f t node xs xs' :
  inserted f t node xs xs' → xs' ≡ₚ node :: xs.
Proof. intros (l1 & l2 & -> & -> & _). by rewrite Permutation_middle. Qed.

(** ** Insertion keeps the order *)

Lemma wp_list_prev s l p (Q : lnode → kstate → Prop) :
  pstPrev (dlheap s) l = Some p → Q p s → wp (list_prev l) Q s.
Proof. intros E HQ. unfold list_prev. wp_steps. rewrite E. by wp_steps. Qed.

(** The backward search stops at the last node whose time is not later than [t]; the
    number of nodes up to the current one is enough fuel. *)
Lemma OsAddNode2SortLink_loop_spec LS s hd xs node t :
  WF (dlheap s) LS → LS !! hd = Some xs → ¬ linked LS node →
  Forall (fun n => is_Some (responseTime s n)) xs →
  ∀ l1 cur l2 fuel,
    xs = l1 ++ cur :: l2 → (length l1 < fuel)%nat →
    (∃ y, y ∈ l1 ++ [cur] ∧ rtime s y ≤ t) → Forall (fun x => t < rtime s x) l2 →
    wp (OsAddNode2SortLink_loop fuel cur node t)
      (fun _ s' => ∃ h' k1 p k2, s' = s <| dlheap := h' |> ∧ xs = k1 ++ p :: k2 ∧
         WF h' (<[hd := k1 ++ p :: node :: k2]> LS) ∧
         rtime s p ≤ t ∧ Forall (fun x => t < rtime s x) k2) s.
Proof.
  intros HW E Hf Hs. induction l1 as [|q l1 IH] using rev_ind;
    intros cur l2 fuel El Hfuel (y & Hy & Hyt) Hl2;
    (destruct fuel as [|fuel]; [simpl in Hfuel; lia|]); simpl; wp_step.
  - apply wp_GET_rtime; [rewrite Forall_forall in Hs; apply Hs; set_solver|].
    assert (y = cur) as -> by set_solver. zcase.
    eapply (wp_list_add_after LS s HW hd [] cur l2); [by rewrite E, El|done|].
    intros h' HW'. by exists h', [], cur, l2.
  - apply wp_GET_rtime; [rewrite Forall_forall in Hs; apply Hs; set_solver|].
    zcase.
    + eapply (wp_list_add_after LS s HW hd (l1 ++ [q]) cur l2);
        [by rewrite E, El|done|].
      intros h' HW'. by exists h', (l1 ++ [q]), cur, l2.
    + wp_step. eapply wp_list_prev.
      { erewrite (WF_prev _ LS hd (l1 ++ [q]) cur l2) by (by rewrite E, El || done).
        by rewrite app_comm_cons, last_last. }
      apply (IH q (cur :: l2) fuel).
      * by rewrite El, <- app_assoc.
      * rewrite length_app in Hfuel; simpl in Hfuel; lia.
      * exists y. split; [|done]. apply elem_of_app in Hy as [Hy|Hy]; [done|].
        assert (y = cur) as -> by set_solver. lia.
      * by constructor.
Qed.

Lemma OsAddNode2SortLink_spec LS s hd xs node t (Q : unit → kstate → Prop) :
  WF (dlheap s) LS → LS !! hd = Some xs → ¬ linked LS node →
  SortedLink s xs → responseTime s node = Some t →
  (∀ h' xs', inserted (rtime s) t node xs xs' → WF h' (<[hd := xs']> LS) →
     Q tt (s <| dlheap := h' |>)) →
  wp (OsAddNode2SortLink hd node) Q s.
Proof.
  intros HW E Hf [Hs Hx] Ht HQ. unfold OsAddNode2SortLink. wp_step.
  eapply wp_list_empty; [done..|].
  destruct xs as [|x xs]; (case_bool_decide as Hnil; [|]); try done.
  { eapply wp_list_add_head; [done..|]. intros h' HW'. eapply HQ; [|done].
    exists [], []; split_and!; try done; by constructor. }
  wp_step. eapply wp_list_first; [done..|]. simpl. wp_step.
  assert (is_Some (responseTime s x)) as Hsx by (by inversion Hs).
  apply wp_GET_rtime; [done|]. wp_step. eapply wp_GET_SORTLIST_VALUE; [done|].
  apply StronglySorted_inv in Hx as [Hx Hxx]. rewrite Forall_forall in Hxx.
  zcase.
  { eapply wp_list_add_head; [done..|]. intros h' HW'. eapply HQ; [|done].
    exists [], (x :: xs); split_and!; [done..|].
    apply Forall_forall. intros y [->|Hy]%elem_of_cons; [lia|]. specialize (Hxx y Hy); lia. }
  zcase.
  { eapply (wp_list_add_after LS s HW hd [] x xs); [done..|]. intros h' HW'.
    eapply HQ; [|done]. exists [x], xs; split_and!; [done..| |].
    - apply Forall_singleton. lia.
    - apply Forall_forall. intros y Hy. specialize (Hxx y Hy); lia. }
  destruct (exists_last (l := x :: xs)) as (l1 & cur & El); [done|].
  wp_step. eapply wp_list_prev.
  { rewrite (WF_last _ LS hd (x :: xs)) by done.
    rewrite El, app_comm_cons, last_last. done. }
  wp_steps. eapply wp_mono; [eapply (OsAddNode2SortLink_loop_spec LS s hd (x :: xs))|];
    [done..|by rewrite El| | |done|].
  - pose proof (WF_size _ _ _ _ HW E) as Hsz. rewrite El in Hsz.
    simpl in Hsz. rewrite length_app in Hsz. simpl in Hsz. lia.
  - exists x. rewrite <- El. split; [set_solver|lia].
  - intros [] s' (h' & k1 & p & k2 & -> & Ek & HW' & Hp & Hk2).
    eapply HQ; [|done]. exists (k1 ++ [p]), k2. rewrite <- !app_assoc.
    split_and!; [done..| |].
    + assert (StronglySorted (fun a b => rtime s a ≤ rtime s b) (k1 ++ p :: k2)) as Hk
        by (rewrite <- Ek; constructor; [done|by apply Forall_forall]).
      apply StronglySorted_app_elim in Hk as (_ & _ & Hk).
      apply Forall_forall. intros y [Hy|Hy]%elem_of_app; [|set_solver].
      specialize (Hk y p Hy ltac:(set_solver)). lia.
    + eapply Forall_impl; [done|]. simpl. lia.
Qed.
End SortLink.
