(* ===== verification/Mem.v ===== *)
(** Memory: byte loads and stores, the host allocator behind [LOS_MemAlloc] and
    [LOS_MemFree] (kernel/src/mm/los_memoey.c calls malloc and free in this port), and
    the typeclass that states what the kernel relies on of malloc. *)

From S2P Require Import Prelude DList Kernel.

(** ** Loads and stores *)

Definition load8 (a : Z) : K Z := m ← gets ram; unwrap NullDeref (m !! a).
Definition store8 (a v : Z) : K unit :=
  _ ← load8 a;
  modify (fun s => s <| ram := <[a := v]> (ram s) |>).

Fixpoint load_bytes (a : Z) (n : nat) : K (list Z) :=
  match n with
  | O => mret []
  | S n => b ← load8 a; bs ← load_bytes (a + 1) n; mret (b :: bs)
  end.

Fixpoint store_bytes (a : Z) (bs : list Z) : K unit :=
  match bs with
  | [] => mret tt
  | b :: bs => store8 a b;; store_bytes (a + 1) bs
  end.

(** Little-endian words. *)
Fixpoint le_combine (bs : list Z) : Z :=
  match bs with
  | [] => 0
  | b :: bs => b + 256 * le_combine bs
  end.

Fixpoint le_split (n : nat) (v : Z) : list Z :=
  match n with
  | O => []
  | S n => v mod 256 :: le_split n (v / 256)
  end.

Definition load32 (a : Z) : K Z := bs ← load_bytes a 4; mret (le_combine bs).
Definition store32 (a v : Z) : K unit := store_bytes a (le_split 4 v).

(** ** Bounded copies (third_party bounds_checking_function, memcpy_s.c) *)

Definition SECUREC_MEM_MAX_LEN : Z := 0x7fffffff.
Definition EOK : Z := 0.
Definition ERANGE : Z := 34.
Definition EINVAL : Z := 22.
Definition EINVAL_AND_RESET : Z := 150.
Definition ERANGE_AND_RESET : Z := 162.
Definition EOVERLAP_AND_RESET : Z := 182.

(** The object a copy reads: memory at an address, or a local variable of the caller
    with these bytes. *)
Inductive cbuf : Type := BufMem (addr : Z) | BufLocal (bytes : list Z).

Definition load_cbuf (b : cbuf) (n : Z) : K (list Z) :=
  match b with
  | BufMem a => load_bytes a (Z.to_nat n)
  | BufLocal bs => if Z.of_nat (length bs) <? n then fail OutOfBounds
                   else mret (firstn (Z.to_nat n) bs)
  end.

Definition SECUREC_MEMORY_IS_OVERLAP (dest : Z) (src : cbuf) (count : Z) : bool :=
  match src with
  | BufMem s => ((s <? dest) && (dest <? s + count)) || ((dest <? s) && (s <? dest + count))
  | BufLocal _ => false
  end.

Definition memcpy_s (dest destMax : Z) (src : cbuf) (count : Z) : K Z :=
  let reset := store_bytes dest (replicate (Z.to_nat destMax) 0) in
  let srcNull := match src with BufMem a => a =? 0 | BufLocal _ => false end in
  if (destMax =? 0) || (SECUREC_MEM_MAX_LEN <? destMax) then mret ERANGE
  else if dest =? 0 then mret EINVAL
  else if srcNull then reset;; mret EINVAL_AND_RESET
  else if destMax <? count then reset;; mret ERANGE_AND_RESET
  else if SECUREC_MEMORY_IS_OVERLAP dest src count then reset;; mret EOVERLAP_AND_RESET
  else
    bs ← load_cbuf src count;
    store_bytes dest bs;;
    mret EOK.

(** ** The host allocator *)

(** [malloc_choose live n] is the address malloc returns for [n] bytes when the blocks
    [live] are allocated, [malloc_garbage a] the byte found at a fresh address [a]. *)
Class Malloc := {
  malloc_choose : gmap Z Z → Z → option Z;
  malloc_garbage : Z → Z
}.

(** What the C standard says of malloc, in a 32-bit address space. *)
Class MallocLaws `{Malloc} := {
  malloc_nonnull live n a : malloc_choose live n = Some a → 0 < a;
  malloc_range live n a : malloc_choose live n = Some a → a + n ≤ 2 ^ 32;
  malloc_aligned live n a : malloc_choose live n = Some a → a mod 8 = 0;
  malloc_fresh live n a b m :
    malloc_choose live n = Some a → live !! b = Some m → a + n ≤ b ∨ b + m ≤ a;
  malloc_distinct live n a : malloc_choose live n = Some a → live !! a = None
}.

(** The memory of a block: [n] bytes from [a] on. *)
Fixpoint map_block (f : Z → Z) (a : Z) (n : nat) (m : gmap Z Z) : gmap Z Z :=
  match n with
  | O => m
  | S n => <[a := f a]> (map_block f (a + 1) n m)
  end.

Fixpoint unmap_block (a : Z) (n : nat) (m : gmap Z Z) : gmap Z Z :=
  match n with
  | O => m
  | S n => delete a (unmap_block (a + 1) n m)
  end.

Section Alloc.
  Context `{Malloc}.

(** [LOS_MemAlloc(pool, size)]; 0 is NULL. *)
Definition LOS_MemAlloc (size : Z) : K Z :=
  live ← gets malloced;
  match malloc_choose live size with
  | None => mret 0
  | Some a =>
      modify (fun s => s <| malloced := <[a := size]> live |>);;
      modify (fun s => s <| ram := map_block malloc_garbage a (Z.to_nat size) (ram s) |>);;
      mret a
  end.

(** [LOS_MemFree(pool, ptr)]: free() accepts NULL and live blocks only. *)
Definition LOS_MemFree (ptr : Z) : K Z :=
  if ptr =? 0 then mret 0
  else
    live ← gets malloced;
    n ← unwrap BadFree (live !! ptr);
    modify (fun s => s <| malloced := delete ptr live |>);;
    modify (fun s => s <| ram := unmap_block ptr (Z.to_nat n) (ram s) |>);;
    mret 0.

Definition OS_MEM_NODE_USED_FLAG : Z := Z.shiftl 1 25.
Definition OS_MEM_NODE_ALIGNED_FLAG : Z := Z.shiftl 1 24.
Definition OS_MEM_MIN_ALLOC_SIZE : Z := 8.
Definition OS_MEM_IS_POW_TWO (v : Z) : bool := Z.land v (u32 (v - 1)) =? 0.
Definition OS_MEM_IS_ALIGNED (a b : Z) : bool := Z.land a (u32 (b - 1)) =? 0.

(** [LOS_MemAllocAlign(pool, size, boundary)] with a pool that is not NULL. *)
Definition LOS_MemAllocAlign (size boundary : Z) : K Z :=
  if (size =? 0) || (boundary =? 0) || negb (OS_MEM_IS_POW_TWO boundary)
     || negb (OS_MEM_IS_ALIGNED boundary 4) then mret 0
  else
    let size := if size <? OS_MEM_MIN_ALLOC_SIZE then OS_MEM_MIN_ALLOC_SIZE else size in
    if UINT32_MAX - size <? u32 (boundary - 4) then mret 0
    else
      let useSize := u32 (size + boundary - 4) in
      if flag useSize OS_MEM_NODE_USED_FLAG || flag useSize OS_MEM_NODE_ALIGNED_FLAG
      then mret 0
      else LOS_MemAlloc useSize.

End Alloc.

(** ** Reading memory *)

Fixpoint read_bytes (m : gmap Z Z) (a : Z) (n : nat) : option (list Z) :=
  match n with
  | O => Some []
  | S n => b ← m !! a; bs ← read_bytes m (a + 1) n; Some (b :: bs)
  end.
Definition read32 (m : gmap Z Z) (a : Z) : option Z := le_combine <$> read_bytes m a 4.

Lemma wp_load_bytes a n s bs (Q : list Z → kstate → Prop) :
  read_bytes (ram s) a n = Some bs → Q bs s → wp (load_bytes a n) Q s.
Proof.
  revert a bs Q. induction n as [|n IH]; intros a bs Q Hr HQ; simpl in *; simplify_eq; [done|].
  destruct (ram s !! a) as [v|] eqn:Ea; [|done]. simpl in Hr.
  destruct (read_bytes (ram s) (a + 1) n) as [vs|] eqn:Er; [|done]. simplify_eq/=.
  unfold load8. wp_steps. rewrite Ea. wp_steps. eapply IH; [exact Er|]. by wp_steps.
Qed.

Lemma wp_load32 a s w (Q : Z → kstate → Prop) :
  read32 (ram s) a = Some w → Q w s → wp (load32 a) Q s.
Proof.
  unfold read32, load32. intros (bs & Hr & ->)%fmap_Some HQ. wp_step.
  eapply wp_load_bytes; [exact Hr|]. by wp_steps.
Qed.
