(* ===== verification/Pmcu.v ===== *)
(** The host side of the port (sub/RTOS_BE.c): one host thread per task, of which the
    one that holds the single-core mutex runs.  [pthread_self] is that thread.  A thread
    that suspends itself hands the mutex to the thread it has just resumed. *)

From S2P Require Import Prelude DList Kernel.

Definition THREAD_NUMBER : Z := 16.

Definition zeroThread : PMCU_Thread := mkThread 0 false 0 0 0 [] 0.

(** The first index of [pmcu_threads] whose entry satisfies [p]. *)
Definition pmcu_find (ths : gmap Z PMCU_Thread) (p : PMCU_Thread → bool) : option Z :=
  List.find (fun i => match ths !! i with Some t => p t | None => false end)
    (seqZ 0 THREAD_NUMBER).

Definition get_thread (i : Z) : K PMCU_Thread :=
  ths ← gets pmcu_threads; unwrap OutOfBounds (ths !! i).
Definition mod_thread (i : Z) (f : PMCU_Thread → PMCU_Thread) : K unit :=
  t ← get_thread i;
  modify (fun s => s <| pmcu_threads := <[i := f t]> (pmcu_threads s) |>).

(** ** Critical sections *)

Definition PMCU_BE_Enter_Critical : K unit :=
  PMCU_BE_Disable_Irq;;
  modify (fun s => s <| nesting_counter := i32 (nesting_counter s + 1) |>).

Definition PMCU_BE_Leave_Critical : K Z :=
  n ← gets nesting_counter;
  when (0 <? n) (modify (fun s => s <| nesting_counter := n - 1 |>));;
  n ← gets nesting_counter;
  when (n =? 0) (PMCU_BE_Enable_Irq;; mret tt);;
  gets nesting_counter.

(** ** Creating a thread *)

Definition Setup_Signal_Handler : K unit :=
  modify (fun s => s <| pmcu_threads :=
    list_to_map ((fun i => (i, zeroThread)) <$> seqZ 0 THREAD_NUMBER) |>);;
  modify (fun s => s <| init_thread := pthread_self s |>).

(** [pthread_create]: the new thread runs [Thread_Wrapper] up to the point where it
    suspends itself, and the creator goes on. *)
Definition pthread_create (i : Z) : K unit :=
  id ← gets pthread_next;
  modify (fun s => s <| pthread_next := id + 1 |>);;
  mod_thread i (fun t => t <| Thread := id |>).

Definition PMCU_BE_Task_Create (func : Z) (params : option (list Z)) (param_count taskid : Z)
    (tick_handler : bool) : K unit :=
  PMCU_BE_Disable_Irq;;
  modify (fun s => s <| systick_mutex := true |>);;
  first ← gets first_time;
  when first (
    modify (fun s => s <| pmcu_systick_handler := tick_handler |>);;
    Setup_Signal_Handler;;
    modify (fun s => s <| first_time := false |>));;
  ths ← gets pmcu_threads;
  (* assert (i < THREAD_NUMBER) *)
  i ← unwrap AssertFail (pmcu_find ths (fun t => negb (valid t)));
  mod_thread i (fun t => t <| critical_nesting := 0 |> <| thr_taskid := taskid |>);;
  mod_thread i (fun t => t <| real_func := func |>);;
  match params with
  | None => mod_thread i (fun t => t <| param_number := 0 |>)
  | Some ps => mod_thread i (fun t => t <| param_number := param_count |>
                                        <| real_params := firstn (Z.to_nat param_count) ps |>)
  end;;
  mod_thread i (fun t => t <| valid := true |>);;
  pthread_create i;;
  PMCU_BE_Enable_Irq;;
  modify (fun s => s <| systick_mutex := false |>).

(** [PMCU_FE_Task_Create] of sub/LiteOS_RTOS_FE.c: only the first call passes the tick
    handler on. *)
Definition PMCU_FE_Task_Create (func : Z) (params : option (list Z))
    (param_count taskid : Z) : K unit :=
  not_set ← gets tick_handler_not_set;
  when not_set (modify (fun s => s <| tick_handler_not_set := false |>));;
  PMCU_BE_Task_Create func params param_count taskid not_set.

(** ** Switching threads *)

(** [Suspend_Thread_Self], up to the point where the thread [next] resumed before has
    taken the single-core mutex and enabled interrupts. *)
Definition Suspend_Thread_Self (next : Z) : K unit :=
  PMCU_BE_Disable_Irq;;
  modify (fun s => s <| pthread_self := next |>);;
  PMCU_BE_Enable_Irq;; mret tt.

Definition Pthread_Schedule (new_task_id run_task_id : Z) : K unit :=
  if new_task_id =? run_task_id then mret tt
  else
    ths ← gets pmcu_threads;
    (* assert (i < THREAD_NUMBER) *)
    i ← unwrap AssertFail
          (pmcu_find ths (fun t => (new_task_id =? thr_taskid t) && valid t));
    ti ← get_thread i;
    self ← gets pthread_self;
    if self =? Thread ti then mret tt
    else
      (* ResumeThread; the resumed thread waits for the single-core mutex *)
      modify (fun s => s <| systick_mutex := false |>);;
      PMCU_BE_Enable_Irq;;
      match pmcu_find ths (fun t => run_task_id =? thr_taskid t) with
      | None => mret tt
      | Some j =>
          tj ← get_thread j;
          if valid tj then Suspend_Thread_Self (Thread ti)
          else
            mod_thread j (fun t => t <| thr_taskid := UINT32_MAX |> <| Thread := 0 |>);;
            if Thread tj =? self then
              (* pthread_exit: the resumed thread takes over *)
              modify (fun s => s <| pthread_self := Thread ti |>);;
              PMCU_BE_Enable_Irq;; mret tt
            else mret tt  (* pthread_cancel of the other thread *)
      end.

(** [Start_Scheduler], up to the point where the first task runs. *)
Definition Start_Scheduler (taskid : Z) : K unit :=
  ths ← gets pmcu_threads;
  match pmcu_find ths (fun t => (thr_taskid t =? taskid) && valid t) with
  | None => mret tt
  | Some i =>
      ti ← get_thread i;
      modify (fun s => s <| pthread_self := Thread ti |>);;
      PMCU_BE_Enable_Irq;; mret tt
  end.

(** [Systick_Signal_Handler] for a tick handler [handler]. *)
Definition Systick_Signal_Handler (handler : K unit) : K unit :=
  f ← gets interrupt_flag;
  if f =? 0 then mret tt
  else
    held ← gets systick_mutex;
    if (held : bool) then mret tt
    else
      modify (fun s => s <| systick_mutex := true |>);;
      PMCU_BE_Disable_Irq;;
      modify (fun s => s <| g_SysTickVal := u32 (g_SysTickVal s + 250000) |>);;
      h ← gets pmcu_systick_handler;
      if (h : bool) then
        handler;;
        modify (fun s => s <| systick_mutex := false |>);;
        PMCU_BE_Enable_Irq;; mret tt
      else fail NullDeref.
