(* ===== verification/Sched.v ===== *)
(** The scheduler (los_sched.c) and the context switch of the port
    (sub/LiteOS_RTOS_FE.c): ready queues, delay queue, time slices and task switch. *)

From S2P Require Import Prelude DList Kernel Tick SortLink Mem Pmcu.

Section Sched.
  Context `{Config}.

Definition OS_PRIORITY_QUEUE_NUM : Z := 32.
Definition PRIQUEUE_PRIOR0_BIT : Z := 0x80000000.
Definition OS_TASK_BLOCKED_STATUS : Z :=
  Z.lor OS_TASK_STATUS_PEND (Z.lor OS_TASK_STATUS_SUSPEND
    (Z.lor OS_TASK_STATUS_EXIT OS_TASK_STATUS_UNUSED)).
Definition OS_TASK_MAGIC_WORD : Z := 0xCCCCCCCC.

(** [taskCB->taskStatus |= m] and [taskCB->taskStatus &= ~m]. *)
Definition status_set (t m : Z) : K unit :=
  mod_tcb t (fun c => c <| taskStatus := setflag (taskStatus c) m |>).
Definition status_clr (t m : Z) : K unit :=
  mod_tcb t (fun c => c <| taskStatus := clrflag (taskStatus c) m |>).
(** [taskCB->taskStatus & m]. *)
Definition status_flag (t m : Z) : K bool := c ← get_tcb t; mret (flag (taskStatus c) m).

(** ** Time slices and the next tick *)

Definition OsTimeSliceUpdate (taskCB currTime : Z) : K unit :=
  c ← get_tcb taskCB;
  LOS_ASSERT (startTime c <=? currTime);;
  let incTime := i32 (currTime - startTime c) in
  idle ← gets g_idleTaskID;
  when (negb (taskID c =? idle))
    (mod_tcb taskCB (fun c => c <| timeSlice := i32 (timeSlice c - incTime) |>));;
  mod_tcb taskCB (fun c => c <| startTime := currTime |>).

Definition OsSchedSetNextExpireTime (responseID taskEndTime : Z) : K unit :=
  currTime ← OsGetCurrSchedTimeCycle;
  precision ← gets g_tickResponsePrecision;
  nextExpireTime ← OsGetNextExpireTime currTime precision;
  minPeriod ← gets g_schedTickMinPeriod;
  let isTimeSlice :=
    (taskEndTime <? nextExpireTime) && (minPeriod <? u64 (nextExpireTime - taskEndTime)) in
  let nextExpireTime := if isTimeSlice then taskEndTime else nextExpireTime in
  cur ← gets g_schedResponseTime;
  if (cur <=? nextExpireTime) || (u64 (cur - nextExpireTime) <? precision) then mret tt
  else
    modify (fun s => s <| g_schedResponseID := if isTimeSlice then responseID else OS_INVALID |>);;
    let nextResponseTime := u64 (nextExpireTime - currTime) in
    let nextResponseTime :=
      if nextResponseTime <? precision then precision else nextResponseTime in
    r ← OsTickTimerReload nextResponseTime;
    modify (fun s => s <| g_schedResponseTime := u64 (currTime + r) |>).

Definition OsSchedUpdateExpireTime : K unit :=
  scheduled ← gets g_taskScheduled;
  lock ← gets g_tickIntLock;
  if negb scheduled || negb (lock =? 0) then mret tt
  else
    isPmMode ← OsIsPmMode;
    run ← get_runTask;
    c ← get_tcb run;
    idle ← gets g_idleTaskID;
    sliceMin ← gets g_schedTimeSliceMin;
    slice ← gets g_schedTimeSlice;
    precision ← gets g_tickResponsePrecision;
    let endTime :=
      if negb (taskID c =? idle) && negb isPmMode then
        u64 (startTime c + (if timeSlice c <=? sliceMin then slice else timeSlice c))
      else OS_SCHED_MAX_RESPONSE_TIME - precision in
    OsSchedSetNextExpireTime (taskID c) endTime.

(** ** Ready queues *)

(** [g_queueBitmap |= PRIQUEUE_PRIOR0_BIT >> priority], and its inverse. *)
Definition bitmap_set (priority : Z) : K unit :=
  modify (fun s => s <| g_queueBitmap :=
    Z.lor (g_queueBitmap s) (Z.shiftr PRIQUEUE_PRIOR0_BIT priority) |>).
Definition bitmap_clr (priority : Z) : K unit :=
  modify (fun s => s <| g_queueBitmap :=
    Z.ldiff (g_queueBitmap s) (Z.shiftr PRIQUEUE_PRIOR0_BIT priority) |>).

Definition OsSchedPriQueueEnHead (priqueueItem : lnode) (priority : Z) : K unit :=
  e ← list_empty (PriQueue priority);
  when e (bitmap_set priority);;
  list_add (PriQueue priority) priqueueItem.

Definition OsSchedPriQueueEnTail (priqueueItem : lnode) (priority : Z) : K unit :=
  e ← list_empty (PriQueue priority);
  when e (bitmap_set priority);;
  list_tail_insert (PriQueue priority) priqueueItem.

Definition OsSchedPriQueueDelete (priqueueItem : lnode) (priority : Z) : K unit :=
  list_delete priqueueItem;;
  e ← list_empty (PriQueue priority);
  when e (bitmap_clr priority).

Definition OsSchedTaskEnQueue (taskCB : Z) : K unit :=
  c ← get_tcb taskCB;
  LOS_ASSERT (negb (flag (taskStatus c) OS_TASK_STATUS_READY));;
  idle ← gets g_idleTaskID;
  when (negb (taskID c =? idle)) (
    sliceMin ← gets g_schedTimeSliceMin;
    if sliceMin <? timeSlice c then
      OsSchedPriQueueEnHead (PendList taskCB) (priority c)
    else
      slice ← gets g_schedTimeSlice;
      mod_tcb taskCB (fun c => c <| timeSlice := slice |>);;
      OsSchedPriQueueEnTail (PendList taskCB) (priority c));;
  status_clr taskCB (Z.lor OS_TASK_STATUS_PEND (Z.lor OS_TASK_STATUS_SUSPEND
    (Z.lor OS_TASK_STATUS_DELAY OS_TASK_STATUS_PEND_TIME)));;
  status_set taskCB OS_TASK_STATUS_READY.

Definition OsSchedTaskDeQueue (taskCB : Z) : K unit :=
  c ← get_tcb taskCB;
  when (flag (taskStatus c) OS_TASK_STATUS_READY) (
    idle ← gets g_idleTaskID;
    when (negb (taskID c =? idle)) (OsSchedPriQueueDelete (PendList taskCB) (priority c));;
    status_clr taskCB OS_TASK_STATUS_READY).

(** ** The delay queue *)

(** [OsSchedWakePendTimeTask]; the result is what it stores in [*needSchedule] (a call
    that leaves it alone returns [need]). *)
Definition OsSchedWakePendTimeTask (taskCB : Z) (need : bool) : K bool :=
  c ← get_tcb taskCB;
  let tempStatus := taskStatus c in
  if flag tempStatus (Z.lor OS_TASK_STATUS_PEND OS_TASK_STATUS_DELAY) then
    status_clr taskCB (Z.lor OS_TASK_STATUS_PEND
      (Z.lor OS_TASK_STATUS_PEND_TIME OS_TASK_STATUS_DELAY));;
    when (flag tempStatus OS_TASK_STATUS_PEND) (
      status_set taskCB OS_TASK_STATUS_TIMEOUT;;
      list_delete (PendList taskCB);;
      mod_tcb taskCB (fun c => c <| taskMux := None |>);;
      mod_tcb taskCB (fun c => c <| taskSem := None |>));;
    if negb (flag tempStatus OS_TASK_STATUS_SUSPEND) then
      OsSchedTaskEnQueue taskCB;; mret true
    else mret need
  else mret need.

(** [LOS_DL_LIST_ENTRY(sortList, LosTaskCB, sortList)]. *)
Definition OS_TCB_FROM_SORTLINK (l : lnode) : K Z :=
  match l with SortLinkNode t => mret t | _ => fail NullDeref end.

Fixpoint OsSchedScanTimerList_loop (fuel : nat) (currTime : Z) (need : bool) : K bool :=
  match fuel with
  | O => fail OutOfFuel
  | S fuel =>
      sortList ← list_first TaskSortLink;
      t ← GET_SORTLIST_VALUE sortList;
      if t <=? currTime then
        taskCB ← OS_TCB_FROM_SORTLINK sortList;
        OsDeleteNodeSortLink sortList;;
        need ← OsSchedWakePendTimeTask taskCB need;
        e ← list_empty TaskSortLink;
        if (e : bool) then mret need
        else OsSchedScanTimerList_loop fuel currTime need
      else mret need
  end.

Definition OsSchedScanTimerList : K bool :=
  e ← list_empty TaskSortLink;
  if (e : bool) then mret false
  else
    currTime ← OsGetCurrSchedTimeCycle;
    fuel ← gets (fun s => size (dlheap s));
    OsSchedScanTimerList_loop fuel currTime false.

(** ** State changes of a task *)

Definition OsSchedTaskExit (taskCB : Z) : K unit :=
  c ← get_tcb taskCB;
  (if flag (taskStatus c) OS_TASK_STATUS_READY then OsSchedTaskDeQueue taskCB
   else when (flag (taskStatus c) OS_TASK_STATUS_PEND) (
     list_delete (PendList taskCB);;
     status_clr taskCB OS_TASK_STATUS_PEND));;
  d ← status_flag taskCB (Z.lor OS_TASK_STATUS_DELAY OS_TASK_STATUS_PEND_TIME);
  when d (
    OsDeleteSortLink (SortLinkNode taskCB);;
    status_clr taskCB (Z.lor OS_TASK_STATUS_DELAY OS_TASK_STATUS_PEND_TIME));;
  status_set taskCB OS_TASK_STATUS_EXIT.

Definition OsSchedYield : K unit :=
  run ← get_runTask;
  mod_tcb run (fun c => c <| timeSlice := 0 |>).

Definition OsSchedDelay (run tick : Z) : K unit :=
  status_set run OS_TASK_STATUS_DELAY;;
  mod_tcb run (fun c => c <| waitTimes := tick |>).

Definition OsSchedTaskWait (list : lnode) (ticks : Z) : K unit :=
  run ← get_runTask;
  status_set run OS_TASK_STATUS_PEND;;
  list_tail_insert list (PendList run);;
  when (negb (ticks =? LOS_WAIT_FOREVER)) (
    status_set run OS_TASK_STATUS_PEND_TIME;;
    mod_tcb run (fun c => c <| waitTimes := ticks |>)).

Definition OsSchedTaskWake (resumedTask : Z) : K unit :=
  list_delete (PendList resumedTask);;
  status_clr resumedTask OS_TASK_STATUS_PEND;;
  pt ← status_flag resumedTask OS_TASK_STATUS_PEND_TIME;
  when pt (
    OsDeleteSortLink (SortLinkNode resumedTask);;
    status_clr resumedTask OS_TASK_STATUS_PEND_TIME);;
  c ← get_tcb resumedTask;
  when (negb (flag (taskStatus c) OS_TASK_STATUS_SUSPEND) &&
        negb (flag (taskStatus c) OS_TASK_STATUS_RUNNING))
    (OsSchedTaskEnQueue resumedTask).

Definition OsSchedFreezeTask (taskCB : Z) : K unit :=
  responseTime ← GET_SORTLIST_VALUE (SortLinkNode taskCB);
  OsDeleteSortLink (SortLinkNode taskCB);;
  SET_SORTLIST_VALUE (SortLinkNode taskCB) responseTime;;
  status_set taskCB OS_TASK_FLAG_FREEZE.

Definition OsSchedUnfreezeTask (taskCB : Z) : K unit :=
  status_clr taskCB OS_TASK_FLAG_FREEZE;;
  currTime ← OsGetCurrSchedTimeCycle;
  responseTime ← GET_SORTLIST_VALUE (SortLinkNode taskCB);
  clock ← gets g_sysClock;
  if currTime <? responseTime then
    let remainTick := u32 (u64 (responseTime - currTime + OS_CYCLE_PER_TICK clock - 1) /
                           OS_CYCLE_PER_TICK clock) in
    OsAdd2SortLink (SortLinkNode taskCB) currTime remainTick OS_SORT_LINK_TASK
  else
    SET_SORTLIST_VALUE (SortLinkNode taskCB) OS_SORT_LINK_INVALID_TIME;;
    p ← status_flag taskCB OS_TASK_STATUS_PEND;
    when p (list_delete (PendList taskCB));;
    status_clr taskCB (Z.lor OS_TASK_STATUS_DELAY
      (Z.lor OS_TASK_STATUS_PEND_TIME OS_TASK_STATUS_PEND)).

Definition OsSchedSuspend (taskCB : Z) : K unit :=
  r ← status_flag taskCB OS_TASK_STATUS_READY;
  when r (OsSchedTaskDeQueue taskCB);;
  isPmMode ← OsIsPmMode;
  d ← status_flag taskCB (Z.lor OS_TASK_STATUS_PEND_TIME OS_TASK_STATUS_DELAY);
  when (d && isPmMode) (OsSchedFreezeTask taskCB);;
  status_set taskCB OS_TASK_STATUS_SUSPEND.

Definition OsSchedResume (taskCB : Z) : K bool :=
  f ← status_flag taskCB OS_TASK_FLAG_FREEZE;
  when f (OsSchedUnfreezeTask taskCB);;
  status_clr taskCB OS_TASK_STATUS_SUSPEND;;
  d ← status_flag taskCB (Z.lor OS_TASK_STATUS_DELAY OS_TASK_STATUS_PEND);
  if negb d then OsSchedTaskEnQueue taskCB;; mret true
  else mret false.

Definition OsSchedModifyTaskSchedParam (taskCB prio : Z) : K bool :=
  r ← status_flag taskCB OS_TASK_STATUS_READY;
  if (r : bool) then
    OsSchedTaskDeQueue taskCB;;
    mod_tcb taskCB (fun c => c <| priority := prio |>);;
    OsSchedTaskEnQueue taskCB;;
    mret true
  else
    mod_tcb taskCB (fun c => c <| priority := prio |>);;
    status_flag taskCB OS_TASK_STATUS_RUNNING.

Definition OsSchedSetIdleTaskSchedParam (idleTask : Z) : K unit := OsSchedTaskEnQueue idleTask.

(** [OsSchedSwtmrScanRegister(func)]; [func] is NULL or the scan of los_swtmr.c. *)
Definition OsSchedSwtmrScanRegister (func : bool) : K Z :=
  if func then modify (fun s => s <| g_swtmrScan := true |>);; mret LOS_OK
  else mret LOS_NOK.

Definition OsTaskNextSwitchTimeGet : K Z :=
  intSave ← LOS_IntLock;
  ticks ← OsSortLinkGetNextExpireTime TaskSortLink;
  LOS_IntRestore intSave;;
  mret (u32 ticks).

Definition OsSchedGetNextExpireTime (startTime : Z) : K Z :=
  precision ← gets g_tickResponsePrecision;
  OsGetNextExpireTime startTime precision.

(** ** Frequency changes *)

Definition TaskSchedTimeConvertFreq_one (oldFreq loopNum : Z) : K unit :=
  c ← get_tcb loopNum;
  if flag (taskStatus c) OS_TASK_STATUS_UNUSED then mret tt
  else
    clock ← gets g_sysClock;
    (if 0 <? timeSlice c then
       mod_tcb loopNum (fun c => c <| timeSlice :=
         i32 (OsTimeConvertFreq (timeSlice c) oldFreq clock) |>)
     else mod_tcb loopNum (fun c => c <| timeSlice := 0 |>));;
    when (flag (taskStatus c) OS_TASK_STATUS_RUNNING)
      (mod_tcb loopNum (fun c => c <| startTime :=
         OsTimeConvertFreq (startTime c) oldFreq clock |>)).

(** [for (i = 0; i < n; i++) body(i)]. *)
Fixpoint for_loop (i : Z) (n : nat) (body : Z → K unit) : K unit :=
  match n with
  | O => mret tt
  | S n => body i;; for_loop (i + 1) n body
  end.

Definition TaskSchedTimeConvertFreq (oldFreq : Z) : K unit :=
  n ← gets g_taskMaxNum;
  for_loop 0 (Z.to_nat n) (TaskSchedTimeConvertFreq_one oldFreq).

Definition SchedTimeBaseInit : K unit :=
  modify (fun s => s <| g_schedResponseTime := OS_SCHED_MAX_RESPONSE_TIME |>);;
  clock ← gets g_sysClock;
  let minPeriod := clock / LOSCFG_BASE_CORE_TICK_PER_SECOND_MINI in
  modify (fun s => s <| g_schedTickMinPeriod := minPeriod |>);;
  modify (fun s => s <| g_tickResponsePrecision := u32 (minPeriod * 75) / 100 |>);;
  modify (fun s => s <| g_schedTimeSlice :=
    i32 (u64 (clock * LOSCFG_BASE_CORE_TIMESLICE_TIMEOUT) / OS_SYS_US_PER_SECOND) |>);;
  modify (fun s => s <| g_schedTimeSliceMin :=
    i32 (u64 (clock * 50) / OS_SYS_US_PER_SECOND) |>).

Definition OsSchedTimeConvertFreq (oldFreq : Z) : K unit :=
  SchedTimeBaseInit;;
  TaskSchedTimeConvertFreq oldFreq;;
  OsSortLinkResponseTimeConvertFreq oldFreq;;
  OsSchedUpdateExpireTime.

Definition OsSchedInit : K Z :=
  for_loop 0 (Z.to_nat OS_PRIORITY_QUEUE_NUM) (fun pri => list_init (PriQueue pri));;
  modify (fun s => s <| g_queueBitmap := 0 |>);;
  match OsGetSortLinkAttribute OS_SORT_LINK_TASK with
  | None => mret LOS_NOK
  | Some l =>
      OsSortLinkInit l;;
      SchedTimeBaseInit;;
      mret LOS_OK
  end.

(** ** Choosing and switching tasks *)

(** [CLZ] of a 32-bit word that is not 0. *)
Definition CLZ (x : Z) : Z := 31 - Z.log2 x.

Definition OsGetTopTask : K Z :=
  bitmap ← gets g_queueBitmap;
  if negb (bitmap =? 0) then
    node ← list_first (PriQueue (CLZ bitmap));
    OS_TCB_FROM_PENDLIST node
  else gets g_idleTaskID.

(** The stack checks of los_task.c at a task switch.  The exception hooks only report. *)
Definition OsHandleRunTaskStackOverflow : K unit := fail AssertFail.
Definition OsHandleNewTaskStackOverflow : K unit :=
  tmp ← gets runTask;
  modify (fun s => s <| runTask := newTask s |>);;
  modify (fun s => s <| runTask := tmp |>).

Definition OsTaskSwitchCheck : K unit :=
  intSave ← LOS_IntLock;
  n ← gets newTask;
  n ← unwrap NullDeref n;
  nc ← get_tcb n;
  let endOfStack := u32 (topOfStack nc + stackSize nc) in
  run ← get_runTask;
  rc ← get_tcb run;
  w ← load32 (topOfStack rc);
  when (negb (w =? OS_TASK_MAGIC_WORD)) OsHandleRunTaskStackOverflow;;
  when ((stackPointer nc <=? topOfStack nc) || (endOfStack <? stackPointer nc))
    OsHandleNewTaskStackOverflow;;
  LOS_IntRestore intSave.

(** [OsSchedTaskSwitch] in its three parts: the running task is put back, the chosen task
    becomes the running one, the tick is set for it. *)
Definition OsSchedTaskSwitch_park (run : Z) : K unit :=
  c ← get_tcb run;
  if flag (taskStatus c) (Z.lor OS_TASK_STATUS_PEND_TIME OS_TASK_STATUS_DELAY) then
     OsAdd2SortLink (SortLinkNode run) (startTime c) (waitTimes c) OS_SORT_LINK_TASK
  else when (negb (flag (taskStatus c) OS_TASK_BLOCKED_STATUS)) (OsSchedTaskEnQueue run).

Definition OsSchedTaskSwitch_change (run new : Z) : K unit :=
  when (negb (run =? new)) (
    when LOSCFG_BASE_CORE_TSK_MONITOR OsTaskSwitchCheck;;
    status_clr run OS_TASK_STATUS_RUNNING;;
    status_set new OS_TASK_STATUS_RUNNING;;
    c ← get_tcb run;
    mod_tcb new (fun nc => nc <| startTime := startTime c |>)).

Definition OsSchedTaskSwitch_arm (run new : Z) : K unit :=
  nc ← get_tcb new;
  idle ← gets g_idleTaskID;
  precision ← gets g_tickResponsePrecision;
  let endTime := if negb (taskID nc =? idle) then u64 (startTime nc + timeSlice nc)
                 else OS_SCHED_MAX_RESPONSE_TIME - precision in
  respID ← gets g_schedResponseID;
  c ← get_tcb run;
  when (respID =? taskID c)
    (modify (fun s => s <| g_schedResponseTime := OS_SCHED_MAX_RESPONSE_TIME |>));;
  OsSchedSetNextExpireTime (taskID nc) endTime.

Definition OsSchedTaskSwitch : K bool :=
  run ← get_runTask;
  t ← OsGetCurrSchedTimeCycle;
  OsTimeSliceUpdate run t;;
  OsSchedTaskSwitch_park run;;
  new ← OsGetTopTask;
  modify (fun s => s <| newTask := Some new |>);;
  OsSchedTaskSwitch_change run new;;
  OsSchedTaskDeQueue new;;
  OsSchedTaskSwitch_arm run new;;
  mret (negb (run =? new)).

(** [ArchTaskSchedule] of sub/LiteOS_RTOS_FE.c. *)
Definition ArchTaskSchedule : K unit :=
  isSwitch ← OsSchedTaskSwitch;
  when isSwitch (
    n ← gets newTask;
    n ← unwrap NullDeref n;
    nc ← get_tcb n;
    run ← get_runTask;
    rc ← get_tcb run;
    modify (fun s => s <| runTask := newTask s |>);;
    Pthread_Schedule (taskID nc) (taskID rc)).

(** [OsCheckKernelRunning]. *)
Definition OsCheckKernelRunning : K bool :=
  sc ← gets g_taskScheduled;
  lock ← gets g_losTaskLock;
  mret (sc && (lock =? 0)).

Definition LOS_Schedule : K unit :=
  r ← OsCheckKernelRunning;
  when r ArchTaskSchedule.

(** The code of a blocking call that follows [LOS_Schedule()]: it runs at once when the
    caller keeps the processor; otherwise it runs when the caller is chosen again. *)
Inductive outcome (A : Type) : Type := Done (a : A) | Switched.
#[global] Arguments Done {A} a.
#[global] Arguments Switched {A}.

Definition schedule_then {A} (k : K A) : K (outcome A) :=
  r ← gets runTask;
  LOS_Schedule;;
  r' ← gets runTask;
  if decide (r = r') then a ← k; mret (Done a) else mret Switched.

(** ** The tick interrupt *)

Definition LOS_SchedTickTimeoutNsGet : K Z :=
  intSave ← LOS_IntLock;
  responseTime ← gets g_schedResponseTime;
  currTime ← OsGetCurrSchedTimeCycle;
  LOS_IntRestore intSave;;
  clock ← gets g_sysClock;
  mret (OS_SYS_CYCLE_TO_NS
    (if currTime <? responseTime then responseTime - currTime else 0) clock).

(** [swtmrScan] is the scan of the software timers that [g_swtmrScan] may point to. *)
Definition LOS_SchedTickHandler (swtmrScan : K bool) : K unit :=
  scheduled ← gets g_taskScheduled;
  if negb scheduled then mret tt
  else
    intSave ← LOS_IntLock;
    tickStartTime ← OsGetCurrSchedTimeCycle;
    respID ← gets g_schedResponseID;
    when (respID =? OS_INVALID) (
      modify (fun s => s <| g_tickIntLock := u16 (g_tickIntLock s + 1) |>);;
      scan ← gets g_swtmrScan;
      when scan (swtmrScan;; mret tt);;
      OsSchedScanTimerList;;
      modify (fun s => s <| g_tickIntLock := u16 (g_tickIntLock s - 1) |>));;
    run ← get_runTask;
    OsTimeSliceUpdate run tickStartTime;;
    t ← OsGetCurrSchedTimeCycle;
    mod_tcb run (fun c => c <| startTime := t |>);;
    modify (fun s => s <| g_schedResponseTime := OS_SCHED_MAX_RESPONSE_TIME |>);;
    lock ← gets g_losTaskLock;
    (if lock =? 0 then ArchTaskSchedule else OsSchedUpdateExpireTime);;
    LOS_IntRestore intSave.

(** [OsTickHandler] of los_tick.c. *)
Definition OsTickHandler (swtmrScan : K bool) : K unit :=
  OsUpdateSysTimeBase;;
  LOS_SchedTickHandler swtmrScan.

(** ** Starting the scheduler *)

(** [swtmrReset] is [OsSwtmrResponseTimeReset] of los_swtmr.c. *)
Definition OsSchedStart (swtmrReset : Z → K unit) : K unit :=
  LOS_IntLock;;
  new ← OsGetTopTask;
  status_set new OS_TASK_STATUS_RUNNING;;
  modify (fun s => s <| newTask := Some new |>);;
  modify (fun s => s <| runTask := newTask s |>);;
  t ← OsGetCurrSchedTimeCycle;
  mod_tcb new (fun c => c <| startTime := t |>);;
  OsSchedTaskDeQueue new;;
  OsTickSysTimerStartTimeSet t;;
  when LOSCFG_BASE_CORE_SWTMR (swtmrReset t);;
  modify (fun s => s <| g_taskScheduled := true |>);;
  modify (fun s => s <| g_schedResponseTime := OS_SCHED_MAX_RESPONSE_TIME |>);;
  modify (fun s => s <| g_schedResponseID := OS_INVALID |>);;
  c ← get_tcb new;
  OsSchedSetNextExpireTime (taskID c) (u64 (startTime c + timeSlice c)).

(** [HalStartToRun] of sub/LiteOS_RTOS_FE.c and [ArchStartSchedule] of los_context.c. *)
Definition HalStartToRun : K unit :=
  n ← gets newTask;
  n ← unwrap NullDeref n;
  mod_tcb n (fun c => c <| taskStatus := OS_TASK_STATUS_RUNNING |>);;
  c ← get_tcb n;
  Start_Scheduler (taskID c).

Definition ArchStartSchedule (swtmrReset : Z → K unit) : K Z :=
  LOS_IntLock;;
  OsSchedStart swtmrReset;;
  HalStartToRun;;
  mret LOS_OK.

End Sched.
