(* ===== verification/SchedInv.v ===== *)
(** The invariant of the scheduler: how the states of the tasks, the lists they are
    linked in and the bitmap of the ready queues fit together.  The invariant speaks
    about the abstract lists of DList.v, is decidable, and is shown here to be kept by
    updates that concern one task; SchedOps.v applies it to the operations. *)

From S2P Require Import Prelude DList Kernel Tick SortLink Mem Pmcu Sched.

Abbreviation lists := (gmap lnode (list lnode)).
Abbreviation tasks := (gmap Z LosTaskCB).

(** ** Vocabulary *)

Abbreviation st c m := (flag (taskStatus c) m).
Abbreviation live c := (flag (taskStatus c) OS_TASK_STATUS_UNUSED = false).

Definition members (LS : lists) (hd : lnode) : list lnode := default [] (LS !! hd).
Definition placed (LS : lists) (x : lnode) : Prop := map_Exists (fun _ xs => x ∈ xs) LS.

(** The heads of the lists a task waits in. *)
Definition is_wait (hd : lnode) : bool :=
  match hd with
  | JoinList _ | EventList _ | SemList _ | MuxList _ | ReadWriteList _ _ | MemList _ => true
  | _ => false
  end.

Definition waits (LS : lists) (t : Z) : Prop :=
  map_Exists (fun hd xs => is_wait hd = true ∧ PendList t ∈ xs) LS.

(** The nodes embedded in control blocks that only ever are elements. *)
Definition is_head (hd : lnode) : bool :=
  match hd with PendList _ | SortLinkNode _ | SwtmrNode _ => false | _ => true end.

(** ** The invariant *)

(** What the status of a task says about the lists its nodes are in. *)
Definition task_ok (idle : Z) (LS : lists) (t : Z) (c : LosTaskCB) : Prop :=
  (st c OS_TASK_STATUS_UNUSED = true → ¬ placed LS (SortLinkNode t)) ∧
  (live c →
   (taskID c = t ∧ 0 ≤ priority c < OS_PRIORITY_QUEUE_NUM ∧
    0 ≤ sortList_responseTime c < 2 ^ 64 ∧ st c OS_TASK_FLAG_FREEZE = false) ∧
   (* the states exclude each other *)
   (st c OS_TASK_STATUS_READY = true →
      st c OS_TASK_STATUS_PEND = false ∧ st c OS_TASK_STATUS_SUSPEND = false ∧
      st c OS_TASK_STATUS_DELAY = false ∧ st c OS_TASK_STATUS_EXIT = false) ∧
   (st c OS_TASK_STATUS_PEND_TIME = true → st c OS_TASK_STATUS_PEND = true) ∧
   (st c OS_TASK_STATUS_PEND = true → st c OS_TASK_STATUS_DELAY = false) ∧
   (st c OS_TASK_STATUS_EXIT = true →
      st c OS_TASK_STATUS_PEND = false ∧ st c OS_TASK_STATUS_DELAY = false) ∧
   (* the ready queues and the wait lists *)
   (st c OS_TASK_STATUS_READY = true → t ≠ idle →
      PendList t ∈ members LS (PriQueue (priority c))) ∧
   (st c OS_TASK_STATUS_PEND = true → waits LS t) ∧
   (st c OS_TASK_STATUS_READY = false ∨ t = idle → st c OS_TASK_STATUS_PEND = false →
      st c OS_TASK_STATUS_EXIT = false → ¬ placed LS (PendList t)) ∧
   (* the delay queue *)
   (sortList_responseTime c ≠ OS_SORT_LINK_INVALID_TIME →
      (st c OS_TASK_STATUS_DELAY = true ∨ st c OS_TASK_STATUS_PEND_TIME = true) ∧
      SortLinkNode t ∈ members LS TaskSortLink) ∧
   (sortList_responseTime c = OS_SORT_LINK_INVALID_TIME → ¬ placed LS (SortLinkNode t))).

(** What being an element of a list says about a task. *)
Definition member_ok (idle : Z) (T : tasks) (hd x : lnode) : Prop :=
  match hd, x with
  | PriQueue p, PendList t =>
      match T !! t with
      | Some c => live c ∧ st c OS_TASK_STATUS_READY = true ∧ priority c = p ∧ t ≠ idle
      | None => False
      end
  | PriQueue _, _ => False
  | TaskSortLink, SortLinkNode t =>
      match T !! t with
      | Some c => live c ∧ sortList_responseTime c ≠ OS_SORT_LINK_INVALID_TIME
      | None => False
      end
  | TaskSortLink, _ => False
  | FreeTask, PendList t =>
      match T !! t with Some c => st c OS_TASK_STATUS_UNUSED = true | None => False end
  | FreeTask, _ => False
  | hd, PendList t =>
      is_wait hd = true →
      match T !! t with
      | Some c => live c ∧ st c OS_TASK_STATUS_PEND = true
      | None => False
      end
  | hd, _ => is_wait hd = false
  end.

(** The time a node of the delay queue of the tasks expires. *)
Definition trt (T : tasks) (x : lnode) : Z :=
  match x with
  | SortLinkNode t => default 0 (sortList_responseTime <$> T !! t)
  | _ => 0
  end.

Definition bit_ok (LS : lists) (bm p : Z) : Prop :=
  is_Some (LS !! PriQueue p) ∧
  Z.testbit bm (31 - p) = negb (bool_decide (members LS (PriQueue p) = [])).

Record QInv (idle : Z) (T : tasks) (LS : lists) (bm : Z) : Prop := {
  q_heads : map_Forall (fun hd _ => is_head hd = true) LS;
  q_tasks : map_Forall (task_ok idle LS) T;
  q_members : map_Forall (fun hd xs => Forall (member_ok idle T hd) xs) LS;
  q_bits : Forall (bit_ok LS bm) (seqZ 0 OS_PRIORITY_QUEUE_NUM);
  q_bitmap : 0 ≤ bm < 2 ^ 32;
  q_delay : is_Some (LS !! TaskSortLink);
  q_sorted : StronglySorted (fun a b => trt T a ≤ trt T b) (members LS TaskSortLink);
  q_idle : is_Some (T !! idle)
}.
#[global] Arguments q_heads {_ _ _ _} _.
#[global] Arguments q_tasks {_ _ _ _} _.
#[global] Arguments q_members {_ _ _ _} _.
#[global] Arguments q_bits {_ _ _ _} _.
#[global] Arguments q_bitmap {_ _ _ _} _.
#[global] Arguments q_delay {_ _ _ _} _.
#[global] Arguments q_sorted {_ _ _ _} _.
#[global] Arguments q_idle {_ _ _ _} _.

Definition SchedInv (s : kstate) (LS : lists) : Prop :=
  WF (dlheap s) LS ∧ QInv (g_idleTaskID s) (g_taskCBArray s) LS (g_queueBitmap s).

(** ** The invariant is decidable *)

#[export] Instance StronglySorted_dec {A} (R : A → A → Prop) `{!∀ x y, Decision (R x y)} l :
  Decision (StronglySorted R l).
Proof.
  induction l as [|x l IH]; [left; constructor|].
  destruct IH as [IH|IH]; [|right; by inversion 1].
  destruct (decide (Forall (R x) l)); [left; by constructor|right; by inversion 1].
Defined.

#[export] Instance placed_dec LS x : Decision (placed LS x).
Proof. unfold placed. apply _. Defined.
#[export] Instance waits_dec LS t : Decision (waits LS t).
Proof. unfold waits. apply _. Defined.
#[export] Instance task_ok_dec idle LS t c : Decision (task_ok idle LS t c).
Proof. unfold task_ok. apply _. Defined.
#[export] Instance member_ok_dec idle T hd x : Decision (member_ok idle T hd x).
Proof.
  unfold member_ok.
  destruct hd, x; try apply _; try destruct (T !! _); apply _.
Defined.
#[export] Instance bit_ok_dec LS bm p : Decision (bit_ok LS bm p).
Proof. unfold bit_ok. apply _. Defined.

#[export] Instance QInv_dec idle T LS bm : Decision (QInv idle T LS bm).
Proof.
  refine (cast_if (decide (
    (map_Forall (fun hd _ => is_head hd = true) LS ∧ map_Forall (task_ok idle LS) T ∧
     map_Forall (fun hd xs => Forall (member_ok idle T hd) xs) LS) ∧
    (Forall (bit_ok LS bm) (seqZ 0 OS_PRIORITY_QUEUE_NUM) ∧ 0 ≤ bm < 2 ^ 32) ∧
    is_Some (LS !! TaskSortLink) ∧
    StronglySorted (fun a b => trt T a ≤ trt T b) (members LS TaskSortLink) ∧
    is_Some (T !! idle))));
    abstract (intros; destruct_and?; first [by constructor | by intros []; tauto]).
Defined.

(** ** Lists and their members *)

Lemma elem_members LS hd x : x ∈ members LS hd ↔ ∃ xs, LS !! hd = Some xs ∧ x ∈ xs.
Proof.
  unfold members. destruct (LS !! hd) as [xs|]; simpl; [naive_solver|].
  rewrite elem_of_nil. naive_solver.
Qed.

Lemma members_Some LS hd xs : LS !! hd = Some xs → members LS hd = xs.
Proof. unfold members. by intros ->. Qed.

Lemma placed_alt LS x : placed LS x ↔ ∃ hd, x ∈ members LS hd.
Proof.
  unfold placed, map_Exists. setoid_rewrite elem_members. naive_solver.
Qed.

Lemma waits_alt LS t : waits LS t ↔ ∃ hd, is_wait hd = true ∧ PendList t ∈ members LS hd.
Proof. unfold waits, map_Exists. setoid_rewrite elem_members. naive_solver. Qed.

Lemma members_insert LS hd xs hd' :
  members (<[hd := xs]> LS) hd' = if decide (hd = hd') then xs else members LS hd'.
Proof.
  unfold members. case_decide; [subst; by rewrite lookup_insert_eq|by rewrite lookup_insert_ne].
Qed.

(** [LS'] has the heads of [LS], and the same elements but for the nodes in [X]. *)
Definition same_but (X : lnode → Prop) (LS LS' : lists) : Prop :=
  (∀ hd, is_Some (LS' !! hd) ↔ is_Some (LS !! hd)) ∧
  (∀ x hd, ¬ X x → x ∈ members LS' hd ↔ x ∈ members LS hd).

Lemma same_but_refl X LS : same_but X LS LS.
Proof. done. Qed.

Lemma same_but_trans X LS1 LS2 LS3 :
  same_but X LS1 LS2 → same_but X LS2 LS3 → same_but X LS1 LS3.
Proof. unfold same_but. intros [H1 H2] [H3 H4]. split; [set_solver|]. naive_solver. Qed.

Lemma same_but_insert (X : lnode → Prop) LS hd xs xs' :
  LS !! hd = Some xs → (∀ x, ¬ X x → x ∈ xs' ↔ x ∈ xs) →
  same_but X LS (<[hd := xs']> LS).
Proof.
  intros E Hx. split.
  - intros hd'. destruct (decide (hd = hd')) as [->|].
    + rewrite lookup_insert_eq, E. split; eauto.
    + by rewrite lookup_insert_ne.
  - intros x hd' HX. rewrite members_insert. case_decide; [|done].
    subst. rewrite (members_Some _ _ _ E). auto.
Qed.

Lemma same_but_placed (X : lnode → Prop) LS LS' x :
  same_but X LS LS' → ¬ X x → placed LS' x ↔ placed LS x.
Proof. intros [_ Hm] HX. rewrite !placed_alt. naive_solver. Qed.

Lemma same_but_waits (X : lnode → Prop) LS LS' t :
  same_but X LS LS' → ¬ X (PendList t) → waits LS' t ↔ waits LS t.
Proof. intros [_ Hm] HX. rewrite !waits_alt. naive_solver. Qed.

(** A node is in one list only. *)
Lemma WF_one_home h LS x hd1 hd2 :
  WF h LS → x ∈ members LS hd1 → x ∈ members LS hd2 → hd1 = hd2.
Proof.
  intros [_ HD] (xs1 & E1 & H1)%elem_members (xs2 & E2 & H2)%elem_members.
  apply (HD hd1 hd2 xs1 xs2 x); set_solver.
Qed.

Lemma WF_members_NoDup h LS hd : WF h LS → NoDup (members LS hd).
Proof.
  intros [HR _]. unfold members. destruct (LS !! hd) eqn:E; [|constructor].
  destruct (HR _ _ E) as [HN _]. by inversion HN.
Qed.

Lemma not_linked idle T LS bm x :
  QInv idle T LS bm → is_head x = false → ¬ placed LS x → ¬ linked LS x.
Proof.
  intros HI Hh Hp (hd & xs & E & [->|Hx]%elem_of_cons).
  - pose proof (q_heads HI _ _ E). congruence.
  - apply Hp, placed_alt. exists hd. apply elem_members. eauto.
Qed.

Lemma member_of idle T LS bm hd x :
  QInv idle T LS bm → x ∈ members LS hd → member_ok idle T hd x.
Proof.
  intros HI (xs & E & Hx)%elem_members.
  pose proof (q_members HI _ _ E) as HF. rewrite Forall_forall in HF. auto.
Qed.

(** ** Updates that concern one task *)

Definition node_of (t : Z) (x : lnode) : Prop := x = PendList t ∨ x = SortLinkNode t.

Lemma task_ok_frame idle LS LS' t t' c :
  t' ≠ t → same_but (node_of t) LS LS' → task_ok idle LS t' c → task_ok idle LS' t' c.
Proof.
  intros Hne HS. assert (¬ node_of t (PendList t')) by (unfold node_of; naive_solver).
  assert (¬ node_of t (SortLinkNode t')) by (unfold node_of; naive_solver).
  unfold task_ok. rewrite !(same_but_placed _ _ _ _ HS), (same_but_waits _ _ _ _ HS) by done.
  destruct HS as [_ Hm]. by rewrite !Hm by done.
Qed.

Lemma member_ok_frame idle T t c' hd x :
  ¬ node_of t x → member_ok idle T hd x → member_ok idle (<[t := c']> T) hd x.
Proof.
  intros Hx. destruct x as [| | | | | | | |t'|t'| | | | | | |]; try (by destruct hd);
    destruct (decide (t = t')) as [->|];
    try (by destruct Hx; unfold node_of; auto);
    unfold member_ok; rewrite lookup_insert_ne by done; done.
Qed.

Lemma StronglySorted_ext {A} (R R' : A → A → Prop) l :
  (∀ x y, x ∈ l → y ∈ l → R x y → R' x y) → StronglySorted R l → StronglySorted R' l.
Proof.
  intros HR. induction 1 as [|x l Hs IH HF]; constructor.
  - apply IH. intros. apply HR; set_solver.
  - rewrite !Forall_forall in *. intros y Hy. apply HR; set_solver.
Qed.

Section update.
Context (idle : Z) (T : tasks) (LS : lists) (bm : Z) (HI : QInv idle T LS bm).
Context (t : Z) (c c' : LosTaskCB) (Et : T !! t = Some c).

Lemma QInv_update LS' bm' :
  same_but (node_of t) LS LS' →
  task_ok idle LS' t c' →
  (∀ hd x, node_of t x → x ∈ members LS' hd → member_ok idle (<[t := c']> T) hd x) →
  Forall (bit_ok LS' bm') (seqZ 0 OS_PRIORITY_QUEUE_NUM) → 0 ≤ bm' < 2 ^ 32 →
  StronglySorted (fun a b => trt (<[t := c']> T) a ≤ trt (<[t := c']> T) b)
    (members LS' TaskSortLink) →
  QInv idle (<[t := c']> T) LS' bm'.
Proof.
  intros HS Htask Hmem Hbits Hbm Hsort. constructor; try done.
  - intros hd xs E. destruct (proj1 (proj1 HS hd)) as [ys E']; [eauto|].
    by apply (q_heads HI hd ys).
  - intros t' c0. destruct (decide (t = t')) as [<-|Hne].
    + rewrite lookup_insert_eq. by intros [= <-].
    + rewrite lookup_insert_ne by done. intros E.
      apply (task_ok_frame _ LS _ t); [done..|]. by apply (q_tasks HI).
  - intros hd xs E. apply Forall_forall. intros x Hx.
    destruct (decide (x = PendList t ∨ x = SortLinkNode t)) as [Hn|Hn].
    + apply Hmem; [done|]. apply elem_members. eauto.
    + apply member_ok_frame; [done|]. apply (member_of _ _ _ _ _ _ HI).
      apply (proj2 HS); [done|]. apply elem_members. eauto.
  - apply (proj1 HS), (q_delay HI).
  - destruct (decide (t = idle)) as [->|]; [rewrite lookup_insert_eq; eauto|].
    rewrite lookup_insert_ne by done. apply (q_idle HI).
Qed.

(** The response time of a task that is not queued is irrelevant. *)
Lemma sorted_update l :
  (SortLinkNode t ∈ l → sortList_responseTime c' = sortList_responseTime c) →
  StronglySorted (fun a b => trt T a ≤ trt T b) l →
  StronglySorted (fun a b => trt (<[t := c']> T) a ≤ trt (<[t := c']> T) b) l.
Proof.
  intros Ht. apply StronglySorted_ext.
  assert (∀ x, x ∈ l → trt (<[t := c']> T) x = trt T x) as Hext.
  { intros x Hx. destruct x as [| | | | | | | | |t'| | | | | | |]; try done. simpl.
    destruct (decide (t = t')) as [<-|]; [|by rewrite lookup_insert_ne].
    rewrite lookup_insert_eq, Et. simpl. auto. }
  intros x y Hx Hy. by rewrite !Hext.
Qed.

(** Updates of the control block alone. *)
Lemma QInv_tcb :
  task_ok idle LS t c' →
  (∀ hd x, node_of t x → x ∈ members LS hd → member_ok idle (<[t := c']> T) hd x) →
  (SortLinkNode t ∈ members LS TaskSortLink →
     sortList_responseTime c' = sortList_responseTime c) →
  QInv idle (<[t := c']> T) LS bm.
Proof.
  intros. apply QInv_update; try done; [apply HI..|].
  apply sorted_update; [done|apply HI].
Qed.

(** Fields the invariant does not speak about. *)
Lemma QInv_irrelevant :
  taskStatus c' = taskStatus c → priority c' = priority c → taskID c' = taskID c →
  sortList_responseTime c' = sortList_responseTime c →
  QInv idle (<[t := c']> T) LS bm.
Proof.
  intros E1 E2 E3 E4. apply QInv_tcb.
  - unfold task_ok. rewrite E1, E2, E3, E4. by apply (q_tasks HI).
  - intros hd x Hx Hm. pose proof (member_of _ _ _ _ _ _ HI Hm) as Hok.
    destruct Hx as [-> | ->]; unfold member_ok in *;
      rewrite lookup_insert_eq, ?E1, ?E2, ?E4; by rewrite Et in Hok.
  - done.
Qed.
End update.
