(* ===== verification/SchedOps.v ===== *)
(** The operations of los_sched.c keep the invariant of SchedInv.v, with what each of
    them does to the task and to the queues. *)

From S2P Require Import Prelude DList Kernel Tick SortLink Mem Pmcu Sched SchedInv.

(** ** States seen through the fields the scheduler works on *)

(** [s] with the control blocks [T], the list heap [h] and the bitmap [b]. *)
Definition sched_upd (s : kstate) (T : tasks) (h : gmap lnode (LOS_DL_LIST lnode)) (b : Z)
    : kstate :=
  s <| g_taskCBArray := T |> <| dlheap := h |> <| g_queueBitmap := b |>.

Lemma sched_upd_id s : sched_upd s (g_taskCBArray s) (dlheap s) (g_queueBitmap s) = s.
Proof. by destruct s. Qed.

Create Rewrite HintDb push.

(** Fields the scheduler does not work on move inside. *)
Section push.
Context (s : kstate) (T : tasks) (h : gmap lnode (LOS_DL_LIST lnode)) (b : Z).
Lemma push_interrupt_flag v :
  (sched_upd s T h b) <| interrupt_flag := v |> = sched_upd (s <| interrupt_flag := v |>) T h b.
Proof. reflexivity. Qed.
Lemma push_g_oldTickTimerBase v :
  (sched_upd s T h b) <| g_oldTickTimerBase := v |> = sched_upd (s <| g_oldTickTimerBase := v |>) T h b.
Proof. reflexivity. Qed.
Lemma push_g_tickTimerBase v :
  (sched_upd s T h b) <| g_tickTimerBase := v |> = sched_upd (s <| g_tickTimerBase := v |>) T h b.
Proof. reflexivity. Qed.
Lemma push_g_SysTickLoad v :
  (sched_upd s T h b) <| g_SysTickLoad := v |> = sched_upd (s <| g_SysTickLoad := v |>) T h b.
Proof. reflexivity. Qed.
Lemma push_g_schedResponseTime v :
  (sched_upd s T h b) <| g_schedResponseTime := v |> = sched_upd (s <| g_schedResponseTime := v |>) T h b.
Proof. reflexivity. Qed.
Lemma push_g_schedResponseID v :
  (sched_upd s T h b) <| g_schedResponseID := v |> = sched_upd (s <| g_schedResponseID := v |>) T h b.
Proof. reflexivity. Qed.
Lemma push_newTask v :
  (sched_upd s T h b) <| newTask := v |> = sched_upd (s <| newTask := v |>) T h b.
Proof. reflexivity. Qed.
Lemma push_runTask v :
  (sched_upd s T h b) <| runTask := v |> = sched_upd (s <| runTask := v |>) T h b.
Proof. reflexivity. Qed.
Lemma push_g_tickIntLock v :
  (sched_upd s T h b) <| g_tickIntLock := v |> = sched_upd (s <| g_tickIntLock := v |>) T h b.
Proof. reflexivity. Qed.
Lemma push_g_tickTimerBaseUpdate v :
  (sched_upd s T h b) <| g_tickTimerBaseUpdate := v |> = sched_upd (s <| g_tickTimerBaseUpdate := v |>) T h b.
Proof. reflexivity. Qed.
Lemma push_g_losTaskLock v :
  (sched_upd s T h b) <| g_losTaskLock := v |> = sched_upd (s <| g_losTaskLock := v |>) T h b.
Proof. reflexivity. Qed.
Lemma push_g_taskScheduled v :
  (sched_upd s T h b) <| g_taskScheduled := v |> = sched_upd (s <| g_taskScheduled := v |>) T h b.
Proof. reflexivity. Qed.
End push.
#[export] Hint Rewrite push_interrupt_flag push_g_oldTickTimerBase push_g_tickTimerBase push_g_SysTickLoad push_g_schedResponseTime push_g_schedResponseID
  push_newTask push_runTask push_g_tickIntLock push_g_tickTimerBaseUpdate push_g_losTaskLock push_g_taskScheduled : push.

Ltac su_simpl :=
  repeat match goal with
  | |- context [?p (sched_upd ?s ?T ?h ?b)] =>
      is_const p;
      let e := eval unfold sched_upd in (p (sched_upd s T h b)) in
      let e := eval simpl in e in
      lazymatch e with context [setf g_queueBitmap] => fail | _ => idtac end;
      progress change (p (sched_upd s T h b)) with e
  end.

Section accessors.
Context (s : kstate) (T : tasks) (h : gmap lnode (LOS_DL_LIST lnode)) (b : Z).

Lemma wpu_get_tcb t c (Q : LosTaskCB → kstate → Prop) :
  T !! t = Some c → Q c (sched_upd s T h b) → wp (get_tcb t) Q (sched_upd s T h b).
Proof. intros. by apply (wp_get_tcb t c). Qed.

Lemma wpu_mod_tcb t f c (Q : unit → kstate → Prop) :
  T !! t = Some c → Q tt (sched_upd s (<[t := f c]> T) h b) →
  wp (mod_tcb t f) Q (sched_upd s T h b).
Proof. intros. by apply (wp_mod_tcb t f c). Qed.

Lemma wpu_status_flag t m c (Q : bool → kstate → Prop) :
  T !! t = Some c → Q (st c m) (sched_upd s T h b) →
  wp (status_flag t m) Q (sched_upd s T h b).
Proof. intros. unfold status_flag. apply wp_bind. by apply (wpu_get_tcb t c). Qed.

Lemma wpu_status_set t m c (Q : unit → kstate → Prop) :
  T !! t = Some c →
  Q tt (sched_upd s (<[t := c <| taskStatus := setflag (taskStatus c) m |>]> T) h b) →
  wp (status_set t m) Q (sched_upd s T h b).
Proof. intros. by apply (wpu_mod_tcb _ _ c). Qed.

Lemma wpu_status_clr t m c (Q : unit → kstate → Prop) :
  T !! t = Some c →
  Q tt (sched_upd s (<[t := c <| taskStatus := clrflag (taskStatus c) m |>]> T) h b) →
  wp (status_clr t m) Q (sched_upd s T h b).
Proof. intros. by apply (wpu_mod_tcb _ _ c). Qed.

Context (LS : lists) (HW : WF h LS).

Lemma wpu_list_delete x hd (Q : unit → kstate → Prop) :
  x ∈ members LS hd →
  (∀ l1 l2 h', LS !! hd = Some (l1 ++ x :: l2) → WF h' (<[hd := l1 ++ l2]> LS) →
     Q tt (sched_upd s T h' b)) →
  wp (list_delete x) Q (sched_upd s T h b).
Proof.
  intros (xs & E & (l1 & l2 & ->)%list_elem_of_split)%elem_members HQ.
  eapply wp_list_delete; [exact HW|exact E|]. intros h' HW'. by eapply HQ.
Qed.

Lemma wpu_list_tail_insert hd xs node (Q : unit → kstate → Prop) :
  LS !! hd = Some xs → ¬ linked LS node →
  (∀ h', WF h' (<[hd := xs ++ [node]]> LS) → Q tt (sched_upd s T h' b)) →
  wp (list_tail_insert hd node) Q (sched_upd s T h b).
Proof. intros E Hf HQ. by eapply wp_list_tail_insert. Qed.

Lemma wpu_list_add_head hd xs node (Q : unit → kstate → Prop) :
  LS !! hd = Some xs → ¬ linked LS node →
  (∀ h', WF h' (<[hd := node :: xs]> LS) → Q tt (sched_upd s T h' b)) →
  wp (list_add hd node) Q (sched_upd s T h b).
Proof. intros E Hf HQ. by eapply wp_list_add_head. Qed.

Lemma wpu_list_empty hd xs (Q : bool → kstate → Prop) :
  LS !! hd = Some xs → Q (bool_decide (xs = [])) (sched_upd s T h b) →
  wp (list_empty hd) Q (sched_upd s T h b).
Proof. intros E HQ. by eapply wp_list_empty. Qed.

Lemma wpu_list_first hd xs (Q : lnode → kstate → Prop) :
  LS !! hd = Some xs → Q (List.hd hd xs) (sched_upd s T h b) →
  wp (list_first hd) Q (sched_upd s T h b).
Proof. intros E HQ. by eapply wp_list_first. Qed.
End accessors.

(** One step of a symbolic execution from a state [sched_upd s T h b]. *)
Ltac find_tcb := first [eassumption | apply lookup_insert_eq].
Ltac wpu_step :=
  lazymatch goal with
  | |- wp (get_tcb _) _ (sched_upd _ _ _ _) => eapply wpu_get_tcb; [find_tcb|]
  | |- wp (mod_tcb _ _) _ (sched_upd _ _ _ _) => eapply wpu_mod_tcb; [find_tcb|]
  | |- wp (status_flag _ _) _ (sched_upd _ _ _ _) => eapply wpu_status_flag; [find_tcb|]
  | |- wp (status_set _ _) _ (sched_upd _ _ _ _) => eapply wpu_status_set; [find_tcb|]
  | |- wp (status_clr _ _) _ (sched_upd _ _ _ _) => eapply wpu_status_clr; [find_tcb|]
  | |- wp get_runTask _ (sched_upd _ _ _ _) =>
      eapply wp_get_runTask; [su_simpl; eassumption|]
  | _ => wp_step
  end; cbv beta; su_simpl; rewrite ?insert_insert_eq; autorewrite with push.
Ltac wpu_steps := repeat wpu_step.

(** ** The bitmap of the ready queues *)

Lemma prior_bit p n :
  0 ≤ p < 32 → 0 ≤ n → Z.testbit (Z.shiftr PRIQUEUE_PRIOR0_BIT p) n = (n =? 31 - p).
Proof.
  intros Hp Hn. change PRIQUEUE_PRIOR0_BIT with (2 ^ 31).
  rewrite Z.shiftr_spec by lia. rewrite Z.pow2_bits_eqb by lia.
  repeat zcase; done.
Qed.

Lemma bits_bound x : 0 ≤ x → (∀ n, 32 ≤ n → Z.testbit x n = false) → x < 2 ^ 32.
Proof.
  intros Hx Hn. destruct (Z.ltb_spec x (2 ^ 32)) as [|Hge]; [done|].
  assert (32 ≤ Z.log2 x) by (apply (Z.log2_le_mono (2 ^ 32) x) in Hge; done).
  assert (0 < x) by lia.
  pose proof (Hn (Z.log2 x)) as Hb. rewrite Z.bit_log2 in Hb by done.
  by discriminate Hb.
Qed.

Lemma bounded_bits x n : 0 ≤ x < 2 ^ 32 → 32 ≤ n → Z.testbit x n = false.
Proof.
  intros Hx Hn. destruct (decide (x = 0)) as [->|]; [apply Z.bits_0|].
  apply Z.bits_above_log2; [lia|].
  assert (Z.log2 x < 32) by (apply Z.log2_lt_pow2; lia). lia.
Qed.

(** The bitmap after the queue [p] became empty or not empty. *)
Definition bm_put (bm p : Z) (e : bool) : Z :=
  if e then Z.lor bm (Z.shiftr PRIQUEUE_PRIOR0_BIT p)
  else Z.ldiff bm (Z.shiftr PRIQUEUE_PRIOR0_BIT p).

Lemma bm_put_bit bm p e n :
  0 ≤ p < 32 → 0 ≤ n →
  Z.testbit (bm_put bm p e) n = if n =? 31 - p then e else Z.testbit bm n.
Proof.
  intros Hp Hn. unfold bm_put.
  destruct e; rewrite ?Z.lor_spec, ?Z.ldiff_spec, prior_bit by done;
    destruct (n =? 31 - p); simpl; by rewrite ?orb_true_r, ?orb_false_r, ?andb_false_r, ?andb_true_r.
Qed.

Lemma bm_put_bound bm p e : 0 ≤ p < 32 → 0 ≤ bm < 2 ^ 32 → 0 ≤ bm_put bm p e < 2 ^ 32.
Proof.
  intros Hp Hb. assert (0 ≤ Z.shiftr PRIQUEUE_PRIOR0_BIT p) by by apply Z.shiftr_nonneg.
  assert (0 ≤ bm_put bm p e).
  { unfold bm_put. destruct e; [apply Z.lor_nonneg|apply Z.ldiff_nonneg]; lia. }
  split; [done|]. apply bits_bound; [done|]. intros n Hn.
  rewrite bm_put_bit by lia. zcase. by apply bounded_bits.
Qed.

Lemma bits_update LS bm bm' p xs' :
  Forall (bit_ok LS bm) (seqZ 0 OS_PRIORITY_QUEUE_NUM) →
  (∀ q, 0 ≤ q < 32 → q ≠ p → Z.testbit bm' (31 - q) = Z.testbit bm (31 - q)) →
  Z.testbit bm' (31 - p) = negb (bool_decide (xs' = [])) →
  Forall (bit_ok (<[PriQueue p := xs']> LS) bm') (seqZ 0 OS_PRIORITY_QUEUE_NUM).
Proof.
  rewrite !Forall_forall. intros HF Ho Hp q Hq.
  destruct (HF q Hq) as [HS Hb]. apply elem_of_seqZ in Hq. unfold OS_PRIORITY_QUEUE_NUM in Hq.
  unfold bit_ok. rewrite members_insert.
  destruct (decide (PriQueue p = PriQueue q)) as [[= <-]|].
  - rewrite lookup_insert_eq. eauto.
  - rewrite lookup_insert_ne, Ho by naive_solver lia. done.
Qed.

Lemma bits_other LS bm hd xs' :
  (∀ p, hd ≠ PriQueue p) →
  Forall (bit_ok LS bm) (seqZ 0 OS_PRIORITY_QUEUE_NUM) →
  Forall (bit_ok (<[hd := xs']> LS) bm) (seqZ 0 OS_PRIORITY_QUEUE_NUM).
Proof.
  intros Hhd HF. eapply Forall_impl; [exact HF|]. intros q [HS Hb]. unfold bit_ok.
  rewrite members_insert, decide_False by auto. rewrite lookup_insert_ne by auto. done.
Qed.

(** ** Entering and leaving the ready queues *)

Definition enq_status (v : Z) : Z :=
  setflag (clrflag v (Z.lor OS_TASK_STATUS_PEND (Z.lor OS_TASK_STATUS_SUSPEND
    (Z.lor OS_TASK_STATUS_DELAY OS_TASK_STATUS_PEND_TIME)))) OS_TASK_STATUS_READY.

(** A task that can be made ready: it is in no list. *)
Definition detached (LS : lists) (t : Z) (c : LosTaskCB) : Prop :=
  live c ∧ st c OS_TASK_STATUS_READY = false ∧ st c OS_TASK_STATUS_EXIT = false ∧
  ¬ placed LS (PendList t) ∧ sortList_responseTime c = OS_SORT_LINK_INVALID_TIME.

Lemma placed_insert LS hd xs xs' x :
  LS !! hd = Some xs → (x ∈ xs' → placed LS x) → placed (<[hd := xs']> LS) x → placed LS x.
Proof.
  intros E Hx. rewrite !placed_alt. intros (hd' & Hm). rewrite members_insert in Hm.
  case_decide; [subst; by apply placed_alt, Hx|eauto].
Qed.

Lemma live_ok idle T LS bm t c :
  QInv idle T LS bm → T !! t = Some c → live c →
  taskID c = t ∧ 0 ≤ priority c < 32 ∧ 0 ≤ sortList_responseTime c < 2 ^ 64 ∧
  st c OS_TASK_FLAG_FREEZE = false.
Proof. intros HI E Hl. by apply (q_tasks HI _ _ E). Qed.

Section ready.
Context (idle : Z) (T : tasks) (LS : lists) (bm : Z) (HI : QInv idle T LS bm).
Context (t : Z) (c c' : LosTaskCB) (Et : T !! t = Some c).

Lemma queue_Some p : 0 ≤ p < 32 → ∃ xs, LS !! PriQueue p = Some xs ∧
  Z.testbit bm (31 - p) = negb (bool_decide (xs = [])).
Proof.
  intros Hp. pose proof (q_bits HI) as HF. rewrite Forall_forall in HF.
  destruct (HF p) as [[xs E] Hb]; [apply elem_of_seqZ; unfold OS_PRIORITY_QUEUE_NUM; lia|].
  exists xs. by rewrite (members_Some _ _ _ E) in Hb.
Qed.

Lemma sorted_other hd xs' :
  hd ≠ TaskSortLink → members (<[hd := xs']> LS) TaskSortLink = members LS TaskSortLink.
Proof. intros. by rewrite members_insert, decide_False. Qed.

Context (Es : taskStatus c' = enq_status (taskStatus c)).
Context (Ep : priority c' = priority c) (Ei : taskID c' = taskID c).
Context (Er : sortList_responseTime c' = sortList_responseTime c).
Context (Hd : detached LS t c).

Lemma ready_tcb_ok LS' :
  (t ≠ idle → PendList t ∈ members LS' (PriQueue (priority c))) →
  (t = idle → ¬ placed LS' (PendList t)) → ¬ placed LS' (SortLinkNode t) →
  task_ok idle LS' t c'.
Proof.
  destruct Hd as (Hl & Hr & He & Hp & Hrt).
  destruct (live_ok _ _ _ _ _ _ HI Et Hl) as (Hid & Hpr & Hrb & Hf).
  intros Hq Hi Hs. unfold task_ok. rewrite Es, Ep, Ei, Er. unfold enq_status. fsimpl.
  unfold OS_PRIORITY_QUEUE_NUM. naive_solver.
Qed.

Lemma detached_sort : ¬ placed LS (SortLinkNode t).
Proof.
  destruct Hd as (Hl & _ & _ & _ & Hrt). destruct (q_tasks HI _ _ Et) as [_ Hok].
  destruct (Hok Hl) as (_ & _ & _ & _ & _ & _ & _ & _ & _ & Hinv). auto.
Qed.

Lemma QInv_ready xs xs' :
  t ≠ idle → LS !! PriQueue (priority c) = Some xs → xs' ≡ₚ PendList t :: xs →
  QInv idle (<[t := c']> T) (<[PriQueue (priority c) := xs']> LS)
    (if bool_decide (xs = []) then bm_put bm (priority c) true else bm).
Proof.
  intros Hi E HP. pose proof Hd as (Hl & Hr & He & Hp & Hrt).
  destruct (live_ok _ _ _ _ _ _ HI Et Hl) as (Hid & Hpr & Hrb & Hf).
  assert (¬ placed (<[PriQueue (priority c) := xs']> LS) (SortLinkNode t)) as Hns.
  { intros Hpl. apply detached_sort. eapply placed_insert; [exact E| |exact Hpl].
    rewrite HP. intros [|Hx]%elem_of_cons; [done|].
    apply placed_alt. exists (PriQueue (priority c)). apply elem_members. eauto. }
  eapply QInv_update; [exact HI|exact Et|..].
  - apply (same_but_insert _ _ _ _ _ E). intros x Hx. rewrite HP, elem_of_cons.
    unfold node_of in Hx. naive_solver.
  - apply ready_tcb_ok; [|done..]. intros _. rewrite members_insert, decide_True by done.
    rewrite HP. set_solver.
  - intros hd x [-> | ->] Hx; [|by destruct Hns; apply placed_alt; eauto].
    rewrite members_insert in Hx. case_decide as Hhd.
    + subst hd. unfold member_ok. rewrite lookup_insert_eq, Es, Ep. unfold enq_status.
      by fsimpl.
    + destruct Hp. apply placed_alt. eauto.
  - destruct (queue_Some (priority c) Hpr) as (ys & E' & Hb).
    assert (ys = xs) as -> by congruence.
    assert (xs' ≠ []) by (intros ->; by apply Permutation_nil_cons in HP).
    apply bits_update with (bm := bm); [apply HI| |].
    + intros q Hq Hne. case_bool_decide; [|done]. rewrite bm_put_bit by lia. by zcase.
    + rewrite (bool_decide_eq_false_2 (xs' = [])) by done.
      case_bool_decide; [|done]. rewrite bm_put_bit by lia. by rewrite Z.eqb_refl.
  - case_bool_decide; [apply bm_put_bound; [done|]|]; apply HI.
  - rewrite sorted_other by done. by eapply sorted_update; [exact Et| |apply HI].
Qed.

Lemma QInv_ready_idle : t = idle → QInv idle (<[t := c']> T) LS bm.
Proof.
  intros Hi. pose proof Hd as (Hl & Hr & He & Hp & Hrt).
  pose proof detached_sort as Hns.
  eapply QInv_tcb; [exact HI|exact Et|..|done].
  - apply ready_tcb_ok; [done|done|done].
  - intros hd x [-> | ->] Hx; exfalso; [apply Hp|apply Hns]; apply placed_alt; eauto.
Qed.
End ready.

(** Removing a node from a list that contains it once. *)
Lemma WF_remove_out h LS hd l1 x l2 :
  WF h LS → LS !! hd = Some (l1 ++ x :: l2) → ¬ placed (<[hd := l1 ++ l2]> LS) x.
Proof.
  intros HW E. rewrite placed_alt. intros (hd' & Hx). rewrite members_insert in Hx.
  pose proof (WF_members_NoDup _ _ hd HW) as HN. rewrite (members_Some _ _ _ E) in HN.
  case_decide; [apply NoDup_app in HN as (_ & H1 & [H2 _]%NoDup_cons); set_solver|].
  assert (x ∈ members LS hd) as Hx' by (rewrite (members_Some _ _ _ E); set_solver).
  by pose proof (WF_one_home _ _ _ _ _ HW Hx' Hx).
Qed.

Lemma same_but_remove (X : lnode → Prop) LS hd l1 x l2 :
  LS !! hd = Some (l1 ++ x :: l2) → X x → same_but X LS (<[hd := l1 ++ l2]> LS).
Proof.
  intros E HX. apply (same_but_insert _ _ _ _ _ E). intros y Hy.
  rewrite !elem_of_app, elem_of_cons. split; [naive_solver|].
  intros [|[->|]]; [auto|done|auto].
Qed.

Lemma QInv_unready idle T h LS bm t c l1 l2 :
  WF h LS → QInv idle T LS bm → T !! t = Some c → live c →
  st c OS_TASK_STATUS_READY = true → t ≠ idle →
  LS !! PriQueue (priority c) = Some (l1 ++ PendList t :: l2) →
  QInv idle (<[t := c <| taskStatus := clrflag (taskStatus c) OS_TASK_STATUS_READY |>]> T)
    (<[PriQueue (priority c) := l1 ++ l2]> LS)
    (if bool_decide (l1 ++ l2 = []) then bm_put bm (priority c) false else bm).
Proof.
  intros HW HI Et Hl Hr Hi E. destruct (live_ok _ _ _ _ _ _ HI Et Hl) as (_ & Hpr & _).
  pose proof (WF_remove_out _ _ _ _ _ _ HW E) as Hout.
  assert (same_but (node_of t) LS (<[PriQueue (priority c) := l1 ++ l2]> LS)) as HS
    by (apply (same_but_remove _ _ _ _ _ _ E); by left).
  assert (same_but (.= PendList t) LS (<[PriQueue (priority c) := l1 ++ l2]> LS)) as HS'
    by (by apply (same_but_remove _ _ _ _ _ _ E)).
  eapply QInv_update; [exact HI|exact Et|exact HS|..].
  - destruct (q_tasks HI _ _ Et) as [_ Hok]. specialize (Hok Hl).
    unfold task_ok. rsimpl. fsimpl. rewrite (same_but_placed _ _ _ (SortLinkNode t) HS') by done.
    rewrite (proj2 HS' (SortLinkNode t)) by done. intuition congruence.
  - intros hd x [-> | ->] Hx; [destruct Hout; apply placed_alt; eauto|].
    apply (proj2 HS') in Hx; [|done]. pose proof (member_of _ _ _ _ _ _ HI Hx) as Hok.
    unfold member_ok in *. rewrite lookup_insert_eq. rewrite Et in Hok. rsimpl. by fsimpl.
  - destruct (queue_Some _ _ _ _ HI (priority c) Hpr) as (ys & E' & Hb).
    assert (ys = l1 ++ PendList t :: l2) as -> by congruence.
    rewrite bool_decide_eq_false_2 in Hb by by destruct l1.
    apply bits_update with (bm := bm); [apply HI| |].
    + intros q Hq Hne. case_bool_decide; [|done]. rewrite bm_put_bit by lia. by zcase.
    + case_bool_decide; [rewrite bm_put_bit by lia; by rewrite Z.eqb_refl|done].
  - case_bool_decide; [apply bm_put_bound; [done|]|]; apply HI.
  - rewrite sorted_other by done. by eapply sorted_update; [exact Et| |apply HI].
Qed.

Lemma QInv_unready_idle idle T LS bm t c :
  QInv idle T LS bm → T !! t = Some c → live c →
  st c OS_TASK_STATUS_READY = true → t = idle →
  QInv idle (<[t := c <| taskStatus := clrflag (taskStatus c) OS_TASK_STATUS_READY |>]> T) LS bm.
Proof.
  intros HI Et Hl Hr ->. eapply QInv_tcb; [exact HI|exact Et|..|done].
  - destruct (q_tasks HI _ _ Et) as [_ Hok]. specialize (Hok Hl).
    unfold task_ok. rsimpl. fsimpl. intuition congruence.
  - intros hd x Hx Hm. pose proof (member_of _ _ _ _ _ _ HI Hm) as Hok.
    destruct Hx as [-> | ->]; unfold member_ok in *; rewrite lookup_insert_eq;
      rewrite Et in Hok; rsimpl; fsimpl; destruct hd; intuition congruence.
Qed.

(** The control block and the lists after [OsSchedTaskEnQueue]. *)
Definition enq_tcb (s : kstate) (t : Z) (c : LosTaskCB) : LosTaskCB :=
  (if (t =? g_idleTaskID s) || (g_schedTimeSliceMin s <? timeSlice c) then c
   else c <| timeSlice := g_schedTimeSlice s |>)
    <| taskStatus := enq_status (taskStatus c) |>.

Definition enq_lists (s : kstate) (LS : lists) (t : Z) (c : LosTaskCB) : lists :=
  if t =? g_idleTaskID s then LS
  else <[PriQueue (priority c) :=
         if g_schedTimeSliceMin s <? timeSlice c
         then PendList t :: members LS (PriQueue (priority c))
         else members LS (PriQueue (priority c)) ++ [PendList t]]> LS.

Section wpu_queue.
Context (s : kstate) (T : tasks) (h : gmap lnode (LOS_DL_LIST lnode)) (b : Z) (LS : lists).
Context (HW : WF h LS).

(** Putting a node at the head or at the tail of a ready queue. *)
Lemma wpu_EnHead p xs x (Q : unit → kstate → Prop) :
  LS !! PriQueue p = Some xs → ¬ linked LS x →
  (∀ h', WF h' (<[PriQueue p := x :: xs]> LS) →
     Q tt (sched_upd s T h' (if bool_decide (xs = []) then bm_put b p true else b))) →
  wp (OsSchedPriQueueEnHead x p) Q (sched_upd s T h b).
Proof.
  intros E Hf HQ. unfold OsSchedPriQueueEnHead. apply wp_bind.
  eapply wpu_list_empty; [exact HW|exact E|]. apply wp_bind, wp_when.
  case_bool_decide.
  - unfold bitmap_set. apply wp_modify. by eapply wpu_list_add_head.
  - by eapply wpu_list_add_head.
Qed.

Lemma wpu_EnTail p xs x (Q : unit → kstate → Prop) :
  LS !! PriQueue p = Some xs → ¬ linked LS x →
  (∀ h', WF h' (<[PriQueue p := xs ++ [x]]> LS) →
     Q tt (sched_upd s T h' (if bool_decide (xs = []) then bm_put b p true else b))) →
  wp (OsSchedPriQueueEnTail x p) Q (sched_upd s T h b).
Proof.
  intros E Hf HQ. unfold OsSchedPriQueueEnTail. apply wp_bind.
  eapply wpu_list_empty; [exact HW|exact E|]. apply wp_bind, wp_when.
  case_bool_decide.
  - unfold bitmap_set. apply wp_modify. by eapply wpu_list_tail_insert.
  - by eapply wpu_list_tail_insert.
Qed.

Lemma wpu_Delete p l1 x l2 (Q : unit → kstate → Prop) :
  LS !! PriQueue p = Some (l1 ++ x :: l2) →
  (∀ h', WF h' (<[PriQueue p := l1 ++ l2]> LS) →
     Q tt (sched_upd s T h' (if bool_decide (l1 ++ l2 = []) then bm_put b p false else b))) →
  wp (OsSchedPriQueueDelete x p) Q (sched_upd s T h b).
Proof.
  intros E HQ. unfold OsSchedPriQueueDelete. apply wp_bind.
  eapply wp_list_delete; [exact HW|exact E|]. intros h' HW'. apply wp_bind.
  eapply (wpu_list_empty s T h' b); [exact HW'|apply lookup_insert_eq|].
  apply wp_when. specialize (HQ h' HW'). case_bool_decide; [|exact HQ].
  unfold bitmap_clr. by apply wp_modify.
Qed.

End wpu_queue.

Section wpu_ready.
Context (s : kstate) (T : tasks) (h : gmap lnode (LOS_DL_LIST lnode)) (b : Z) (LS : lists).
Context (HW : WF h LS) (HI : QInv (g_idleTaskID s) T LS b).
Context (t : Z) (c : LosTaskCB) (Et : T !! t = Some c).

Lemma wpu_OsSchedTaskEnQueue (Q : unit → kstate → Prop) :
  detached LS t c →
  (∀ h' b', WF h' (enq_lists s LS t c) →
     QInv (g_idleTaskID s) (<[t := enq_tcb s t c]> T) (enq_lists s LS t c) b' →
     Q tt (sched_upd s (<[t := enq_tcb s t c]> T) h' b')) →
  wp (OsSchedTaskEnQueue t) Q (sched_upd s T h b).
Proof.
  intros Hd HQ. pose proof Hd as (Hl & Hr & He & Hp & Hrt).
  destruct (live_ok _ _ _ _ _ _ HI Et Hl) as (Hid & Hpr & _).
  destruct (queue_Some _ _ _ _ HI _ Hpr) as (xs & E & _).
  assert (¬ linked LS (PendList t)) as Hnl by by eapply not_linked.
  unfold OsSchedTaskEnQueue. do 2 wpu_step.
  rewrite Hr, Hid. apply wp_bind, wp_assert. split; [done|]. wpu_steps.
  unfold enq_tcb, enq_lists in HQ. rewrite (members_Some _ _ _ E) in HQ.
  destruct (Z.eqb_spec t (g_idleTaskID s)) as [Hi|Hi]; simpl in *; wpu_steps.
  - apply HQ; [done|]. by eapply QInv_ready_idle.
  - destruct (g_schedTimeSliceMin s <? timeSlice c).
    + eapply wpu_EnHead; [exact HW|exact E|done|]. intros h' HW'. wpu_steps.
      apply HQ; [done|]. by eapply QInv_ready.
    + wpu_steps. eapply wpu_EnTail; [exact HW|exact E|done|]. intros h' HW'. wpu_steps.
      apply HQ; [done|]. eapply QInv_ready; try done. by rewrite Permutation_app_comm.
Qed.

(** Leaving the ready queue: the node is unlinked, the rest keeps its order. *)
Lemma wpu_OsSchedTaskDeQueue (Q : unit → kstate → Prop) :
  live c → st c OS_TASK_STATUS_READY = true →
  (∀ LS' h' b' l1 l2,
     (t ≠ g_idleTaskID s → LS !! PriQueue (priority c) = Some (l1 ++ PendList t :: l2)) →
     LS' = (if t =? g_idleTaskID s then LS else <[PriQueue (priority c) := l1 ++ l2]> LS) →
     let c' := c <| taskStatus := clrflag (taskStatus c) OS_TASK_STATUS_READY |> in
     WF h' LS' → QInv (g_idleTaskID s) (<[t := c']> T) LS' b' →
     Q tt (sched_upd s (<[t := c']> T) h' b')) →
  wp (OsSchedTaskDeQueue t) Q (sched_upd s T h b).
Proof.
  intros Hl Hr HQ. destruct (live_ok _ _ _ _ _ _ HI Et Hl) as (Hid & Hpr & _).
  unfold OsSchedTaskDeQueue. do 2 wpu_step. rewrite Hr, Hid. wpu_steps.
  destruct (Z.eqb_spec t (g_idleTaskID s)) as [Hi|Hi]; simpl.
  - wpu_steps. apply (HQ LS h b [] []); try done. by apply QInv_unready_idle.
  - destruct (q_tasks HI _ _ Et) as [_ Hok].
    destruct (Hok Hl) as (_ & _ & _ & _ & _ & Hq & _).
    specialize (Hq Hr Hi). apply elem_members in Hq as (xs & E & Hx).
    apply list_elem_of_split in Hx as (l1 & l2 & ->).
    eapply wpu_Delete; [exact HW|exact E|]. intros h' HW'. wpu_steps.
    eapply (HQ _ h' _ l1 l2); [done|reflexivity|exact HW'|]. by eapply QInv_unready.
Qed.

Lemma wpu_OsSchedTaskDeQueue_not_ready (Q : unit → kstate → Prop) :
  st c OS_TASK_STATUS_READY = false → Q tt (sched_upd s T h b) →
  wp (OsSchedTaskDeQueue t) Q (sched_upd s T h b).
Proof. intros Hr HQ. unfold OsSchedTaskDeQueue. do 2 wpu_step. by rewrite Hr. Qed.
End wpu_ready.

(** ** The top task *)

(** [t] heads the first ready queue that is not empty, or it is the idle task and all
    queues are empty. *)
Definition is_top (idle : Z) (LS : lists) (t : Z) : Prop :=
  (∃ p xs, 0 ≤ p < 32 ∧ members LS (PriQueue p) = PendList t :: xs ∧
     ∀ q, 0 ≤ q < p → members LS (PriQueue q) = []) ∨
  (t = idle ∧ ∀ p, 0 ≤ p < 32 → members LS (PriQueue p) = []).

Lemma queue_empty_bit idle T LS bm p :
  QInv idle T LS bm → 0 ≤ p < 32 → Z.testbit bm (31 - p) = false →
  members LS (PriQueue p) = [].
Proof.
  intros HI Hp Hb. destruct (queue_Some _ _ _ _ HI p Hp) as (xs & E & Hx).
  rewrite (members_Some _ _ _ E). rewrite Hb in Hx. symmetry in Hx.
  by apply negb_false_iff, bool_decide_eq_true in Hx.
Qed.

Lemma CLZ_spec idle T LS bm :
  QInv idle T LS bm → bm ≠ 0 →
  0 ≤ CLZ bm < 32 ∧ members LS (PriQueue (CLZ bm)) ≠ [] ∧
  ∀ q, 0 ≤ q < CLZ bm → members LS (PriQueue q) = [].
Proof.
  intros HI Hb. pose proof (q_bitmap HI). unfold CLZ.
  assert (0 ≤ Z.log2 bm < 32) as Hlog.
  { split; [apply Z.log2_nonneg|apply Z.log2_lt_pow2; lia]. }
  split_and!; [lia|lia| |].
  - destruct (queue_Some _ _ _ _ HI (31 - Z.log2 bm)) as (xs & E & Hx); [lia|].
    rewrite (members_Some _ _ _ E). replace (31 - (31 - Z.log2 bm)) with (Z.log2 bm) in Hx by lia.
    rewrite Z.bit_log2 in Hx by lia. by intros ->.
  - intros q Hq. eapply queue_empty_bit; [exact HI|lia|].
    apply Z.bits_above_log2; lia.
Qed.

Lemma wpu_OsGetTopTask s T h b LS (Q : Z → kstate → Prop) :
  WF h LS → QInv (g_idleTaskID s) T LS b →
  (∀ t, is_top (g_idleTaskID s) LS t → Q t (sched_upd s T h b)) →
  wp OsGetTopTask Q (sched_upd s T h b).
Proof.
  intros HW HI HQ. unfold OsGetTopTask. wpu_steps.
  destruct (Z.eqb_spec b 0) as [->|Hb]; simpl.
  - wpu_steps. apply HQ. right. split; [done|]. intros p Hp.
    eapply queue_empty_bit; [exact HI|done|apply Z.bits_0].
  - destruct (CLZ_spec _ _ _ _ HI Hb) as (Hp & Hne & Hlow).
    destruct (queue_Some _ _ _ _ HI (CLZ b) Hp) as (xs & E & _).
    wpu_step. eapply wpu_list_first; [exact HW|exact E|].
    rewrite (members_Some _ _ _ E) in Hne. destruct xs as [|x xs]; [done|]. simpl.
    assert (x ∈ members LS (PriQueue (CLZ b))) as Hx
      by (rewrite (members_Some _ _ _ E); set_solver).
    apply (member_of _ _ _ _ _ _ HI) in Hx.
    destruct x as [| | | | | | | |t| | | | | | | |]; try done.
    apply wp_ret, HQ. left. exists (CLZ b), xs. split; [done|].
    by rewrite (members_Some _ _ _ E).
Qed.

(** What the top task is in terms of the task states. *)
Lemma is_top_ready idle T LS bm t :
  QInv idle T LS bm → is_top idle LS t → t ≠ idle →
  ∃ c, T !! t = Some c ∧ live c ∧ st c OS_TASK_STATUS_READY = true ∧
    0 ≤ priority c < 32 ∧ List.hd_error (members LS (PriQueue (priority c))) = Some (PendList t).
Proof.
  intros HI [(p & xs & Hp & E & _)|[-> _]] Hi; [|done].
  assert (PendList t ∈ members LS (PriQueue p)) as Hx by (rewrite E; set_solver).
  apply (member_of _ _ _ _ _ _ HI) in Hx. simpl in Hx.
  destruct (T !! t) as [c|]; [|done]. destruct Hx as (Hl & Hr & <- & _).
  exists c. by rewrite E.
Qed.

Lemma is_top_best idle T LS bm t t' c' :
  QInv idle T LS bm → is_top idle LS t → T !! t' = Some c' → live c' →
  st c' OS_TASK_STATUS_READY = true → t' ≠ idle →
  t ≠ idle ∧ ∃ c, T !! t = Some c ∧ priority c ≤ priority c'.
Proof.
  intros HI Htop Et' Hl Hr Hi.
  destruct (q_tasks HI _ _ Et') as [_ Hok].
  destruct (Hok Hl) as ((_ & Hp' & _) & _ & _ & _ & _ & Hq & _).
  specialize (Hq Hr Hi). unfold OS_PRIORITY_QUEUE_NUM in Hp'.
  destruct Htop as [(p & xs & Hp & E & Hlow)|[-> Hall]]; [|by rewrite Hall in Hq; set_solver].
  assert (PendList t ∈ members LS (PriQueue p)) as Hx by (rewrite E; set_solver).
  apply (member_of _ _ _ _ _ _ HI) in Hx. simpl in Hx.
  destruct (T !! t) as [c|]; [|done]. destruct Hx as (_ & _ & <- & Hti).
  split; [done|]. exists c. split; [done|].
  destruct (Z.le_gt_cases (priority c) (priority c')); [done|].
  rewrite Hlow in Hq by lia. set_solver.
Qed.
