(* ===== verification/SchedDelay.v ===== *)
(** The delay queue of the tasks: entering it, leaving it, and the wake-up of the tasks
    whose time has come. *)

From S2P Require Import Prelude DList Kernel Tick SortLink Mem Pmcu Sched SchedInv SchedOps.

(** ** Entering and leaving the delay queue *)

Lemma same_but_weaken (X Y : lnode → Prop) LS LS' :
  (∀ x, X x → Y x) → same_but X LS LS' → same_but Y LS LS'.
Proof. intros HXY [H1 H2]. split; [done|]. intros x hd Hx. apply H2. auto. Qed.

Section delay.
Context (idle : Z) (T : tasks) (LS : lists) (bm : Z) (HI : QInv idle T LS bm).
Context (t : Z) (c : LosTaskCB) (Et : T !! t = Some c) (Hl : live c).

Lemma delay_Some : ∃ xs, LS !! TaskSortLink = Some xs ∧ members LS TaskSortLink = xs.
Proof. destruct (q_delay HI) as [xs E]. exists xs. by rewrite (members_Some _ _ _ E). Qed.

Lemma trt_insert_ne x v :
  x ≠ SortLinkNode t →
  trt (<[t := c <| sortList_responseTime := v |>]> T) x = trt T x.
Proof.
  intros Hx. destruct x; try done. simpl. rewrite lookup_insert_ne; [done|]. congruence.
Qed.

Lemma QInv_delay_add xs xs' r :
  LS !! TaskSortLink = Some xs →
  sortList_responseTime c = OS_SORT_LINK_INVALID_TIME →
  st c OS_TASK_STATUS_DELAY = true ∨ st c OS_TASK_STATUS_PEND_TIME = true →
  0 ≤ r < OS_SORT_LINK_INVALID_TIME → inserted (trt T) r (SortLinkNode t) xs xs' →
  QInv idle (<[t := c <| sortList_responseTime := r |>]> T) (<[TaskSortLink := xs']> LS) bm.
Proof.
  intros E Hinv Hfl Hr (l1 & l2 & -> & -> & Hlo & Hhi).
  destruct (q_tasks HI _ _ Et) as [_ Hok]. specialize (Hok Hl).
  assert (¬ placed LS (SortLinkNode t)) as Hnp by (apply Hok; done).
  assert (SortLinkNode t ∉ l1 ++ l2) as Hnx.
  { intros Hx. apply Hnp, placed_alt. exists TaskSortLink.
    by rewrite (members_Some _ _ _ E). }
  assert (same_but (.= SortLinkNode t) LS (<[TaskSortLink := l1 ++ SortLinkNode t :: l2]> LS))
    as HS.
  { apply (same_but_insert _ _ _ _ _ E). intros x Hx. set_solver. }
  unfold OS_SORT_LINK_INVALID_TIME in *.
  eapply QInv_update; [exact HI|exact Et|..].
  - eapply same_but_weaken; [|exact HS]. intros x ->. by right.
  - unfold task_ok. rsimpl. rewrite (same_but_placed _ _ _ (PendList t) HS) by done.
    rewrite (same_but_waits _ _ _ t HS) by done. rewrite (proj2 HS (PendList t)) by done.
    assert (SortLinkNode t ∈ members (<[TaskSortLink := l1 ++ SortLinkNode t :: l2]> LS)
      TaskSortLink) by (rewrite members_insert, decide_True; set_solver).
    unfold OS_SORT_LINK_INVALID_TIME in *. intuition (congruence || lia).
  - intros hd x [-> | ->] Hx.
    + apply (proj2 HS) in Hx; [|done]. pose proof (member_of _ _ _ _ _ _ HI Hx) as Hm.
      unfold member_ok in *. rewrite lookup_insert_eq. rewrite Et in Hm. by rsimpl.
    + rewrite members_insert in Hx. case_decide as Hhd.
      * subst hd. unfold member_ok. rewrite lookup_insert_eq. rsimpl. split; [done|].
        unfold OS_SORT_LINK_INVALID_TIME. lia.
      * destruct Hnp. apply placed_alt. eauto.
  - apply bits_other; [done|apply HI].
  - apply HI.
  - pose proof (q_sorted HI) as Hs. rewrite (members_Some _ _ _ E) in Hs.
    apply StronglySorted_app_elim in Hs as (Hs1 & Hs2 & Hs12).
    rewrite members_insert, decide_True by done. rewrite !Forall_forall in *.
    assert (∀ x, x ∈ l1 ++ l2 →
      trt (<[t := c <| sortList_responseTime := r |>]> T) x = trt T x) as Hext.
    { intros x Hx. apply trt_insert_ne. congruence. }
    assert (trt (<[t := c <| sortList_responseTime := r |>]> T) (SortLinkNode t) = r) as Hrt
      by (simpl; by rewrite lookup_insert_eq).
    apply StronglySorted_app_intro.
    + eapply StronglySorted_ext; [|exact Hs1]. intros x y Hx Hy.
      by rewrite !Hext by set_solver.
    + constructor.
      * eapply StronglySorted_ext; [|exact Hs2]. intros x y Hx Hy.
        by rewrite !Hext by set_solver.
      * apply Forall_forall. intros x Hx. rewrite Hrt, Hext by set_solver. auto.
    + intros x y Hx [->|Hy]%elem_of_cons; rewrite ?Hrt, !Hext by set_solver; auto.
Qed.

Lemma QInv_delay_del h l1 l2 :
  WF h LS → LS !! TaskSortLink = Some (l1 ++ SortLinkNode t :: l2) →
  QInv idle (<[t := c <| sortList_responseTime := OS_SORT_LINK_INVALID_TIME |>]> T)
    (<[TaskSortLink := l1 ++ l2]> LS) bm.
Proof.
  intros HW E. destruct (q_tasks HI _ _ Et) as [_ Hok]. specialize (Hok Hl).
  pose proof (WF_remove_out _ _ _ _ _ _ HW E) as Hout.
  assert (same_but (.= SortLinkNode t) LS (<[TaskSortLink := l1 ++ l2]> LS)) as HS
    by by apply (same_but_remove _ _ _ _ _ _ E).
  eapply QInv_update; [exact HI|exact Et|..].
  - eapply same_but_weaken; [|exact HS]. intros x ->. by right.
  - unfold task_ok. rsimpl. rewrite (same_but_placed _ _ _ (PendList t) HS) by done.
    rewrite (same_but_waits _ _ _ t HS) by done. rewrite (proj2 HS (PendList t)) by done.
    unfold OS_SORT_LINK_INVALID_TIME in *. intuition (congruence || lia).
  - intros hd x [-> | ->] Hx; [|destruct Hout; apply placed_alt; eauto].
    apply (proj2 HS) in Hx; [|done]. pose proof (member_of _ _ _ _ _ _ HI Hx) as Hm.
    unfold member_ok in *. rewrite lookup_insert_eq. rewrite Et in Hm. by rsimpl.
  - apply bits_other; [done|apply HI].
  - apply HI.
  - rewrite members_insert, decide_True by done.
    pose proof (q_sorted HI) as Hs. rewrite (members_Some _ _ _ E) in Hs.
    apply StronglySorted_app_elim in Hs as (Hs1 & Hs2 & Hs12). inversion Hs2; subst.
    eapply sorted_update; [exact Et| |].
    + intros Hx. destruct Hout. apply placed_alt. exists TaskSortLink.
      by rewrite members_insert, decide_True.
    + apply StronglySorted_app_intro; [done..|]. intros; apply Hs12; set_solver.
Qed.
End delay.

Lemma inserted_ext f g t node xs xs' :
  (∀ x, x ∈ xs → f x = g x) → inserted f t node xs xs' → inserted g t node xs xs'.
Proof.
  intros Hfg (l1 & l2 & -> & -> & H1 & H2). exists l1, l2. rewrite !Forall_forall in *.
  split_and!; try done; intros x Hx; rewrite <- Hfg by set_solver; auto.
Qed.

Section wpu_delay.
Context `{Config} (s : kstate) (T : tasks) (h : gmap lnode (LOS_DL_LIST lnode)) (b : Z).
Context (LS : lists) (HW : WF h LS) (HI : QInv (g_idleTaskID s) T LS b).
Context (t : Z) (c : LosTaskCB) (Et : T !! t = Some c) (Hl : live c).

Definition delay_until (clock startTime waitTicks : Z) : Z :=
  u64 (startTime + OS_SYS_TICK_TO_CYCLE clock waitTicks).

(** The queue seen by the sort link code once the time of [t] is set. *)
Lemma SortedLink_delay xs v :
  members LS TaskSortLink = xs → SortLinkNode t ∉ xs →
  let s' := sched_upd s (<[t := c <| sortList_responseTime := v |>]> T) h b in
  (∀ x, x ∈ xs → rtime s' x = trt T x) ∧ SortedLink s' xs.
Proof.
  intros Hxs Hnx s'.
  assert (∀ x, x ∈ xs → rtime s' x = trt T x ∧ is_Some (responseTime s' x)) as Hm.
  { intros x Hx. rewrite <- Hxs in Hx. pose proof (member_of _ _ _ _ _ _ HI Hx) as Hok.
    destruct x as [| | | | | | | | |t'| | | | | | |]; try done.
    unfold rtime, responseTime, s'. su_simpl. simpl in *.
    rewrite lookup_insert_ne by (intros <-; by rewrite Hxs in Hx).
    destruct (T !! t'); [eauto|done]. }
  split; [by intros x Hx; apply Hm|]. split.
  - apply Forall_forall. intros x Hx. by apply Hm.
  - pose proof (q_sorted HI) as Hs. rewrite Hxs in Hs.
    eapply StronglySorted_ext; [|exact Hs]. intros x y Hx Hy.
    by rewrite (proj1 (Hm x Hx)), (proj1 (Hm y Hy)).
Qed.

Lemma wpu_OsAdd2SortLink start ticks (Q : unit → kstate → Prop) :
  let r := delay_until (g_sysClock s) start ticks in
  let c' := c <| sortList_responseTime := r |> in
  sortList_responseTime c = OS_SORT_LINK_INVALID_TIME →
  st c OS_TASK_STATUS_DELAY = true ∨ st c OS_TASK_STATUS_PEND_TIME = true →
  0 ≤ r < OS_SORT_LINK_INVALID_TIME →
  (∀ h' xs', inserted (trt T) r (SortLinkNode t) (members LS TaskSortLink) xs' →
     WF h' (<[TaskSortLink := xs']> LS) →
     QInv (g_idleTaskID s) (<[t := c']> T) (<[TaskSortLink := xs']> LS) b →
     Q tt (sched_upd (s <| interrupt_flag := 1 |>) (<[t := c']> T) h' b)) →
  wp (OsAdd2SortLink (SortLinkNode t) start ticks OS_SORT_LINK_TASK) Q (sched_upd s T h b).
Proof.
  intros r c' Hinv Hfl Hr HQ. destruct (delay_Some _ _ _ _ HI) as (xs & E & Hxs).
  destruct (q_tasks HI _ _ Et) as [_ Hok]. specialize (Hok Hl).
  assert (¬ placed LS (SortLinkNode t)) as Hnp by (apply Hok; done).
  assert (SortLinkNode t ∉ xs) as Hnx.
  { intros Hx. apply Hnp, placed_alt. exists TaskSortLink. by rewrite Hxs. }
  unfold OsAdd2SortLink. wp_step. apply wp_unwrap_Some. wp_steps. rsimpl. su_simpl.
  change ((sched_upd s T h b) <| interrupt_flag := 0 |>) with
    (sched_upd (s <| interrupt_flag := 0 |>) T h b).
  unfold SET_SORTLIST_VALUE. wpu_steps.
  destruct (SortedLink_delay xs r Hxs Hnx) as [Hrt Hs].
  eapply OsAddNode2SortLink_spec; [exact HW|exact E| |exact Hs| |].
  - by eapply not_linked.
  - unfold responseTime. su_simpl. by rewrite lookup_insert_eq.
  - intros h' xs' Hins HW'. wp_steps.
    assert (inserted (trt T) r (SortLinkNode t) xs xs') as Hins'
      by (eapply inserted_ext; [exact Hrt|exact Hins]).
    apply (HQ h' xs'); [by rewrite Hxs|done|]. by eapply QInv_delay_add.
Qed.

Lemma wpu_OsDeleteNodeSortLink (Q : unit → kstate → Prop) :
  SortLinkNode t ∈ members LS TaskSortLink →
  let c' := c <| sortList_responseTime := OS_SORT_LINK_INVALID_TIME |> in
  (∀ h' l1 l2, LS !! TaskSortLink = Some (l1 ++ SortLinkNode t :: l2) →
     WF h' (<[TaskSortLink := l1 ++ l2]> LS) →
     QInv (g_idleTaskID s) (<[t := c']> T) (<[TaskSortLink := l1 ++ l2]> LS) b →
     Q tt (sched_upd s (<[t := c']> T) h' b)) →
  wp (OsDeleteNodeSortLink (SortLinkNode t)) Q (sched_upd s T h b).
Proof.
  intros Hm c' HQ. unfold OsDeleteNodeSortLink, SET_SORTLIST_VALUE. wpu_step.
  eapply wpu_list_delete; [exact HW|exact Hm|]. intros l1 l2 h' E HW'. wpu_steps.
  eapply HQ; [exact E|exact HW'|]. by eapply QInv_delay_del.
Qed.

End wpu_delay.

Lemma wp_OsSchedResetSchedResponseTime v s (Q : unit → kstate → Prop) :
  (∀ rt, Q tt (s <| g_schedResponseTime := rt |>)) →
  wp (OsSchedResetSchedResponseTime v) Q s.
Proof.
  intros HQ. unfold OsSchedResetSchedResponseTime. wp_steps.
  destruct (v <=? g_schedResponseTime s); wp_steps; [done|].
  specialize (HQ (g_schedResponseTime s)). by destruct s.
Qed.

(** The queue without the node of [t]. *)
Definition undelayed (t : Z) (c : LosTaskCB) (LS LS' : lists) : Prop :=
  (sortList_responseTime c = OS_SORT_LINK_INVALID_TIME ∧ LS' = LS) ∨
  (∃ l1 l2, LS !! TaskSortLink = Some (l1 ++ SortLinkNode t :: l2) ∧
     LS' = <[TaskSortLink := l1 ++ l2]> LS).

(** Leaving the delay queue, whether the task was in it or not; the tick is reprogrammed
    if it was due for this task. *)
Lemma wpu_OsDeleteSortLink `{Config} s T h b LS t c (Q : unit → kstate → Prop) :
  let c' := c <| sortList_responseTime := OS_SORT_LINK_INVALID_TIME |> in
  WF h LS → T !! t = Some c →
  (sortList_responseTime c ≠ OS_SORT_LINK_INVALID_TIME →
     SortLinkNode t ∈ members LS TaskSortLink) →
  (∀ rt h' LS', undelayed t c LS LS' → WF h' LS' →
     Q tt (sched_upd (s <| interrupt_flag := 1 |> <| g_schedResponseTime := rt |>)
             (<[t := c']> T) h' b)) →
  wp (OsDeleteSortLink (SortLinkNode t)) Q (sched_upd s T h b).
Proof.
  intros c' HW Et Hm HQ.
  unfold OsDeleteSortLink. wp_steps. rsimpl.
  change ((sched_upd s T h b) <| interrupt_flag := 0 |>) with
    (sched_upd (s <| interrupt_flag := 0 |>) T h b).
  unfold GET_SORTLIST_VALUE. wpu_steps.
  destruct (Z.eqb_spec (sortList_responseTime c) OS_SORT_LINK_INVALID_TIME) as [Hinv|Hinv];
    simpl; wpu_steps.
  - assert (c' = c) as Hc by (unfold c'; rewrite <- Hinv; by destruct c).
    specialize (HQ (g_schedResponseTime s) h LS). rewrite Hc, insert_id in HQ by done.
    apply HQ; [by left|done].
  - apply wp_OsSchedResetSchedResponseTime. intros rt.
    change ((sched_upd ?s T h b) <| g_schedResponseTime := rt |>) with
      (sched_upd (s <| g_schedResponseTime := rt |>) T h b).
    unfold OsDeleteNodeSortLink, SET_SORTLIST_VALUE. wpu_step.
    eapply wpu_list_delete; [exact HW|by apply Hm|]. intros l1 l2 h' E HW'. wpu_steps.
    eapply (HQ rt); [|exact HW']. right. eauto.
Qed.

Lemma QInv_undelayed idle T h LS LS' bm t c :
  WF h LS → QInv idle T LS bm → T !! t = Some c → live c → undelayed t c LS LS' →
  QInv idle (<[t := c <| sortList_responseTime := OS_SORT_LINK_INVALID_TIME |>]> T) LS' bm.
Proof.
  intros HW HI Et Hl [[Hinv ->]|(l1 & l2 & E & ->)].
  - assert (c <| sortList_responseTime := OS_SORT_LINK_INVALID_TIME |> = c) as ->
      by (rewrite <- Hinv; by destruct c).
    by rewrite insert_id.
  - by eapply QInv_delay_del.
Qed.

(** ** Tasks that leave their wait list *)

(** The lists with heads outside [p] are left alone. *)
Definition frame_off (p : lnode → bool) (LS LS' : lists) : Prop :=
  ∀ hd, p hd = false → LS' !! hd = LS !! hd.

(** The ready and delay queues, and with them the lists the tasks wait in. *)
Definition q_list (hd : lnode) : bool :=
  match hd with PriQueue _ | TaskSortLink => true | _ => false end.
Definition sched_list (hd : lnode) : bool := q_list hd || is_wait hd.
Abbreviation q_frame := (frame_off q_list).
Abbreviation lists_frame := (frame_off sched_list).

Lemma frame_off_trans p LS1 LS2 LS3 :
  frame_off p LS1 LS2 → frame_off p LS2 LS3 → frame_off p LS1 LS3.
Proof. intros H1 H2 hd Hh. by rewrite H2, H1. Qed.
Lemma frame_off_insert p LS hd xs : p hd = true → frame_off p LS (<[hd := xs]> LS).
Proof. intros Hh hd' Hh'. apply lookup_insert_ne. congruence. Qed.
Lemma q_frame_lists LS LS' : q_frame LS LS' → lists_frame LS LS'.
Proof. intros HF hd Hh. apply HF. unfold sched_list in Hh. by destruct (q_list hd). Qed.
Lemma frame_off_enq s LS t c : q_frame LS (enq_lists s LS t c).
Proof. unfold enq_lists. destruct (t =? _); [done|by apply frame_off_insert]. Qed.

(** Tasks may leave the lists they wait in, nobody joins. *)
Definition waits_shrink (LS LS' : lists) : Prop :=
  ∀ hd, is_wait hd = true →
    (is_Some (LS' !! hd) ↔ is_Some (LS !! hd)) ∧ sublist (members LS' hd) (members LS hd).

Lemma waits_shrink_trans LS1 LS2 LS3 :
  waits_shrink LS1 LS2 → waits_shrink LS2 LS3 → waits_shrink LS1 LS3.
Proof.
  intros H1 H2 hd Hh. destruct (H1 hd Hh) as [E1 S1], (H2 hd Hh) as [E2 S2].
  split; [by rewrite E2|by etrans].
Qed.

Lemma q_frame_shrink LS LS' : q_frame LS LS' → waits_shrink LS LS'.
Proof. intros HF hd Hh. unfold members. rewrite HF; [done|]. by destruct hd. Qed.

Lemma waits_shrink_remove LS hd l1 x l2 :
  LS !! hd = Some (l1 ++ x :: l2) → waits_shrink LS (<[hd := l1 ++ l2]> LS).
Proof.
  intros E hd' _. destruct (decide (hd = hd')) as [<-|Hne].
  - unfold members. rewrite lookup_insert_eq, E. simpl. split; [done|].
    apply sublist_app; [done|]. by apply sublist_cons.
  - unfold members. by rewrite lookup_insert_ne.
Qed.

(** [c] is neither ready nor waiting in a list. *)
Definition limbo (c c' : LosTaskCB) : Prop :=
  live c' ∧ taskID c' = taskID c ∧ 0 ≤ priority c' < OS_PRIORITY_QUEUE_NUM ∧
  sortList_responseTime c' = sortList_responseTime c ∧
  st c' OS_TASK_FLAG_FREEZE = false ∧ st c' OS_TASK_STATUS_READY = false ∧
  st c' OS_TASK_STATUS_PEND = false ∧ st c' OS_TASK_STATUS_PEND_TIME = false ∧
  (st c' OS_TASK_STATUS_EXIT = true → st c' OS_TASK_STATUS_DELAY = false) ∧
  (sortList_responseTime c ≠ OS_SORT_LINK_INVALID_TIME → st c' OS_TASK_STATUS_DELAY = true).

Lemma QInv_limbo idle T LS LS' bm t c c' :
  QInv idle T LS bm → T !! t = Some c → live c →
  same_but (.= PendList t) LS LS' → ¬ placed LS' (PendList t) →
  (∀ p, LS' !! PriQueue p = LS !! PriQueue p) → LS' !! TaskSortLink = LS !! TaskSortLink →
  limbo c c' → QInv idle (<[t := c']> T) LS' bm.
Proof.
  intros HI Et Hl HS Hnp Hq Hsl (Hl' & Eid & Hpr & Ert & Hf & Hr & Hp & Hpt & He & Hd).
  destruct (q_tasks HI _ _ Et) as [_ Hok]. specialize (Hok Hl).
  eapply QInv_update; [exact HI|exact Et|..].
  - eapply same_but_weaken; [|exact HS]. intros x ->. by left.
  - unfold task_ok. rewrite Eid, Ert, (same_but_placed _ _ _ (SortLinkNode t) HS) by done.
    rewrite (proj2 HS (SortLinkNode t)) by done. intuition congruence.
  - intros hd x [-> | ->] Hx; [destruct Hnp; apply placed_alt; eauto|].
    apply (proj2 HS) in Hx; [|done]. pose proof (member_of _ _ _ _ _ _ HI Hx) as Hm.
    unfold member_ok in *. rewrite lookup_insert_eq. rewrite Et in Hm.
    destruct hd; try done. rewrite Ert. by destruct Hm.
  - pose proof (q_bits HI) as HF. eapply Forall_impl; [exact HF|]. intros p.
    unfold bit_ok, members. by rewrite Hq.
  - apply HI.
  - unfold members. rewrite Hsl. by eapply sorted_update; [exact Et| |apply HI].
Qed.

(** Unlinking a task from the list it waits in. *)
Lemma wpu_unpend s T h b LS t c (Q : unit → kstate → Prop) :
  WF h LS → QInv (g_idleTaskID s) T LS b → waits LS t →
  (∀ hd l1 l2 h', is_wait hd = true → LS !! hd = Some (l1 ++ PendList t :: l2) →
     let LS' := <[hd := l1 ++ l2]> LS in
     WF h' LS' → ¬ placed LS' (PendList t) → same_but (.= PendList t) LS LS' →
     (∀ p, LS' !! PriQueue p = LS !! PriQueue p) → LS' !! TaskSortLink = LS !! TaskSortLink →
     Q tt (sched_upd s (<[t := c]> T) h' b)) →
  wp (list_delete (PendList t)) Q (sched_upd s (<[t := c]> T) h b).
Proof.
  intros HW HI (hd & Hhd & Hm)%waits_alt HQ.
  eapply wpu_list_delete; [exact HW|exact Hm|]. intros l1 l2 h' E HW'.
  eapply HQ; try done.
  - by eapply WF_remove_out.
  - by apply (same_but_remove _ _ _ _ _ _ E).
  - intros p. rewrite lookup_insert_ne; [done|]. by intros ->.
  - rewrite lookup_insert_ne; [done|]. by intros ->.
Qed.

(** ** Timeouts *)

(** The control block of a task whose delay or timed wait is over. *)
Definition timeout_tcb (c : LosTaskCB) : LosTaskCB :=
  let v := clrflag (taskStatus c) (Z.lor OS_TASK_STATUS_PEND
             (Z.lor OS_TASK_STATUS_PEND_TIME OS_TASK_STATUS_DELAY)) in
  if st c OS_TASK_STATUS_PEND
  then c <| taskStatus := setflag v OS_TASK_STATUS_TIMEOUT |>
         <| taskMux := None |> <| taskSem := None |>
  else c <| taskStatus := v |>.

Definition wake_tcb (s : kstate) (t : Z) (c : LosTaskCB) : LosTaskCB :=
  if st c OS_TASK_STATUS_SUSPEND then timeout_tcb c else enq_tcb s t (timeout_tcb c).

Lemma timeout_limbo idle T LS bm t c :
  QInv idle T LS bm → T !! t = Some c → live c →
  sortList_responseTime c = OS_SORT_LINK_INVALID_TIME →
  st c OS_TASK_STATUS_PEND = true ∨ st c OS_TASK_STATUS_DELAY = true →
  limbo c (timeout_tcb c) ∧ st (timeout_tcb c) OS_TASK_STATUS_EXIT = false.
Proof.
  intros HI Et Hl Hrt Hfl. destruct (q_tasks HI _ _ Et) as [_ Hok]. specialize (Hok Hl).
  destruct (live_ok _ _ _ _ _ _ HI Et Hl) as (Hid & Hpr & Hrb & Hf).
  assert (st c OS_TASK_STATUS_READY = false ∧ st c OS_TASK_STATUS_EXIT = false) as [Hr He]
    by (destruct (st c OS_TASK_STATUS_READY), (st c OS_TASK_STATUS_EXIT); intuition congruence).
  unfold limbo, timeout_tcb, OS_PRIORITY_QUEUE_NUM.
  destruct (st c OS_TASK_STATUS_PEND); rsimpl; fsimpl; intuition congruence.
Qed.

Section wake.
Context (s : kstate) (T : tasks) (h : gmap lnode (LOS_DL_LIST lnode)) (b : Z) (LS : lists).
Context (HW : WF h LS) (HI : QInv (g_idleTaskID s) T LS b).
Context (t : Z) (c : LosTaskCB) (Et : T !! t = Some c) (Hl : live c).

Lemma wpu_OsSchedWakePendTimeTask need (Q : bool → kstate → Prop) :
  sortList_responseTime c = OS_SORT_LINK_INVALID_TIME →
  st c OS_TASK_STATUS_PEND = true ∨ st c OS_TASK_STATUS_DELAY = true →
  (∀ LS' h' b', WF h' LS' → LS' !! TaskSortLink = LS !! TaskSortLink → lists_frame LS LS' →
     waits_shrink LS LS' →
     QInv (g_idleTaskID s) (<[t := wake_tcb s t c]> T) LS' b' →
     Q (need || negb (st c OS_TASK_STATUS_SUSPEND))
       (sched_upd s (<[t := wake_tcb s t c]> T) h' b')) →
  wp (OsSchedWakePendTimeTask t need) Q (sched_upd s T h b).
Proof.
  intros Hrt Hfl HQ.
  destruct (timeout_limbo _ _ _ _ _ _ HI Et Hl Hrt Hfl) as [Hlim He].
  destruct (q_tasks HI _ _ Et) as [_ Hok]. specialize (Hok Hl).
  assert (∀ LS' h', WF h' LS' → ¬ placed LS' (PendList t) → same_but (.= PendList t) LS LS' →
    (∀ p, LS' !! PriQueue p = LS !! PriQueue p) → LS' !! TaskSortLink = LS !! TaskSortLink →
    lists_frame LS LS' → waits_shrink LS LS' →
    wp (if negb (st c OS_TASK_STATUS_SUSPEND) then OsSchedTaskEnQueue t;; mret true
        else mret need) Q (sched_upd s (<[t := timeout_tcb c]> T) h' b)) as Hrest.
  { intros LS' h' HW' Hnp HS Hq Hsl Hfr Hws.
    assert (QInv (g_idleTaskID s) (<[t := timeout_tcb c]> T) LS' b) as HI'
      by (eapply QInv_limbo; [exact HI|..]; done).
    unfold wake_tcb in HQ. destruct (st c OS_TASK_STATUS_SUSPEND) eqn:Hsus; simpl.
    - wpu_steps. rewrite <- (orb_false_r need). by eapply HQ.
    - wpu_step. eapply wpu_OsSchedTaskEnQueue; [exact HW'|exact HI'|apply lookup_insert_eq|..].
      + destruct Hlim as (? & _ & _ & Hrt' & _ & ? & _). by rewrite <- Hrt' in Hrt.
      + rewrite insert_insert_eq. intros h2 b2 HW2 HI2. wpu_steps.
        rewrite orb_true_r in HQ. eapply HQ; [exact HW2| |by eapply frame_off_trans, q_frame_lists, frame_off_enq| |done].
        2: { eapply waits_shrink_trans; [exact Hws|apply q_frame_shrink, frame_off_enq]. }
        unfold enq_lists. destruct (_ =? _); [done|]. by rewrite lookup_insert_ne. }
  unfold OsSchedWakePendTimeTask, timeout_tcb in *. wpu_steps. fsimpl.
  destruct (st c OS_TASK_STATUS_PEND) eqn:Hpend.
  - simpl. wpu_steps. eapply wpu_unpend; [exact HW|exact HI|by apply Hok|].
    intros hd l1 l2 h' Hhd E LS' HW' Hnp HS Hq Hsl. wpu_steps.
    eapply Hrest; try done; [apply frame_off_insert; by destruct hd|].
    by eapply waits_shrink_remove.
  - destruct Hfl as [|Hdel]; [done|]. rewrite Hdel. simpl. wpu_steps.
    eapply Hrest; try done. apply Hok; [left|..]; try done;
      destruct Hlim as (_ & _ & _ & _ & _ & Hr & _); rsimpl_in Hr; rsimpl_in He;
      [rewrite flag_clr_out in Hr by done|rewrite flag_clr_out in He by done]; done.
Qed.
End wake.

(** ** The scan of the delay queue *)

Definition expired (cur : Z) (c : LosTaskCB) : bool :=
  negb (st c OS_TASK_STATUS_UNUSED) &&
  negb (sortList_responseTime c =? OS_SORT_LINK_INVALID_TIME) &&
  (sortList_responseTime c <=? cur).

(** What the scan at time [cur] makes of the task [t]. *)
Definition scan_one (s : kstate) (cur t : Z) (c : LosTaskCB) : LosTaskCB :=
  if expired cur c
  then wake_tcb s t (c <| sortList_responseTime := OS_SORT_LINK_INVALID_TIME |>)
  else c.
Definition scan_tasks (s : kstate) (cur : Z) (T : tasks) : tasks :=
  map_imap (fun t c => Some (scan_one s cur t c)) T.

(** A task that is not suspended is woken. *)
Definition someone_wakes (cur : Z) (T : tasks) : Prop :=
  ∃ t c, T !! t = Some c ∧ expired cur c = true ∧ st c OS_TASK_STATUS_SUSPEND = false.

Lemma scan_tasks_lookup s cur T t :
  scan_tasks s cur T !! t = scan_one s cur t <$> T !! t.
Proof. unfold scan_tasks. rewrite map_lookup_imap. by destruct (T !! t). Qed.

Lemma wake_tcb_rt s t c :
  sortList_responseTime (wake_tcb s t c) = sortList_responseTime c.
Proof.
  unfold wake_tcb, enq_tcb, timeout_tcb.
  destruct (st c OS_TASK_STATUS_SUSPEND), (st c OS_TASK_STATUS_PEND); rsimpl; try done;
    destruct (_ || _); done.
Qed.

Lemma wake_tcb_not_expired s cur t c :
  sortList_responseTime c = OS_SORT_LINK_INVALID_TIME →
  expired cur (wake_tcb s t c) = false.
Proof. intros E. unfold expired. rewrite wake_tcb_rt, E. by rewrite andb_false_r. Qed.

Section scan_step.
Context (s : kstate) (cur : Z) (T : tasks) (t : Z) (c : LosTaskCB).
Context (Et : T !! t = Some c) (He : expired cur c = true).
Let c1 := wake_tcb s t (c <| sortList_responseTime := OS_SORT_LINK_INVALID_TIME |>).

Lemma scan_tasks_step : scan_tasks s cur (<[t := c1]> T) = scan_tasks s cur T.
Proof.
  apply map_eq. intros t'. rewrite !scan_tasks_lookup.
  destruct (decide (t = t')) as [<-|]; [|by rewrite lookup_insert_ne].
  rewrite lookup_insert_eq, Et. simpl. unfold scan_one.
  unfold c1. by rewrite He, wake_tcb_not_expired.
Qed.

Lemma someone_wakes_step :
  someone_wakes cur T ↔
  st c OS_TASK_STATUS_SUSPEND = false ∨ someone_wakes cur (<[t := c1]> T).
Proof.
  split.
  - intros (t' & c' & Et' & He' & Hs'). destruct (decide (t = t')) as [<-|].
    + left. by simplify_eq.
    + right. exists t', c'. by rewrite lookup_insert_ne.
  - intros [Hs|(t' & c' & Et' & He' & Hs')]; [by exists t, c|].
    destruct (decide (t = t')) as [<-|].
    + rewrite lookup_insert_eq in Et'. simplify_eq.
      by rewrite wake_tcb_not_expired in He'.
    + exists t', c'. by rewrite lookup_insert_ne in Et'.
Qed.
End scan_step.

(** When the earliest time of the queue lies ahead, nobody is expired. *)
Lemma scan_done s cur idle T LS bm :
  QInv idle T LS bm → (∀ x, x ∈ members LS TaskSortLink → cur < trt T x) →
  scan_tasks s cur T = T ∧ ¬ someone_wakes cur T.
Proof.
  intros HI Hlate.
  assert (∀ t c, T !! t = Some c → expired cur c = false) as Hno.
  { intros t c Et. unfold expired. destruct (st c OS_TASK_STATUS_UNUSED) eqn:Hl; [done|].
    destruct (Z.eqb_spec (sortList_responseTime c) OS_SORT_LINK_INVALID_TIME) as [|Hne]; [done|].
    destruct (q_tasks HI _ _ Et) as [_ Hok].
    assert (SortLinkNode t ∈ members LS TaskSortLink) as Hm by (by apply (Hok Hl)).
    apply Hlate in Hm. simpl in Hm. rewrite Et in Hm. simpl in *. lia. }
  split.
  - apply map_eq. intros t. rewrite scan_tasks_lookup. destruct (T !! t) as [c|] eqn:Et; [|done].
    simpl. unfold scan_one. by rewrite (Hno t c).
  - intros (t & c & Et & He & _). by rewrite (Hno t c) in He.
Qed.

Section scan.
Context (s : kstate) (cur : Z).

Definition scan_post (T : tasks) (LS : lists) (need : bool) (Q : bool → kstate → Prop)
    : Prop :=
  ∀ LS' h' b' need',
    (need' = true ↔ need = true ∨ someone_wakes cur T) → lists_frame LS LS' →
    waits_shrink LS LS' →
    WF h' LS' → QInv (g_idleTaskID s) (scan_tasks s cur T) LS' b' →
    Q need' (sched_upd s (scan_tasks s cur T) h' b').

Lemma scan_stop T h b LS need (Q : bool → kstate → Prop) :
  WF h LS → QInv (g_idleTaskID s) T LS b →
  (∀ x, x ∈ members LS TaskSortLink → cur < trt T x) →
  scan_post T LS need Q → Q need (sched_upd s T h b).
Proof.
  intros HW HI Hlate HQ. destruct (scan_done s cur _ _ _ _ HI Hlate) as [E Hno].
  unfold scan_post in HQ. rewrite E in HQ. eapply HQ; try done. tauto.
Qed.

Lemma scan_post_step T LS LS1 need t c Q :
  T !! t = Some c → expired cur c = true → lists_frame LS LS1 → waits_shrink LS LS1 →
  scan_post T LS need Q →
  scan_post (<[t := wake_tcb s t (c <| sortList_responseTime := OS_SORT_LINK_INVALID_TIME |>)]> T)
    LS1 (need || negb (st c OS_TASK_STATUS_SUSPEND)) Q.
Proof.
  intros Et He Hfr Hws HQ LS' h' b' need' Hn Hfr' Hws' HW' HI'.
  rewrite (scan_tasks_step s cur T t c Et He) in *.
  eapply HQ; [|by eapply frame_off_trans|by eapply waits_shrink_trans|exact HW'|exact HI'].
  rewrite Hn, (someone_wakes_step s cur T t c Et He), orb_true_iff, negb_true_iff. tauto.
Qed.

Lemma wpu_OsSchedScanTimerList_loop fuel T h b LS x xs need Q :
  WF h LS → QInv (g_idleTaskID s) T LS b → LS !! TaskSortLink = Some (x :: xs) →
  (length (x :: xs) ≤ fuel)%nat → scan_post T LS need Q →
  wp (OsSchedScanTimerList_loop fuel cur need) Q (sched_upd s T h b).
Proof.
  revert T h b LS x xs need. induction fuel as [|fuel IH];
    intros T h b LS x xs need HW HI E Hfuel HQ; simpl in Hfuel; [lia|]. simpl.
  pose proof (members_Some _ _ _ E) as Hms.
  assert (x ∈ members LS TaskSortLink) as Hx by (rewrite Hms; set_solver).
  pose proof (member_of _ _ _ _ _ _ HI Hx) as Hm.
  destruct x as [| | | | | | | | |t| | | | | | |]; try done. simpl in Hm.
  destruct (T !! t) as [c|] eqn:Et; [|done]. destruct Hm as [Hl Hrt].
  destruct (q_tasks HI _ _ Et) as [_ Hok]. specialize (Hok Hl).
  wpu_step. eapply wpu_list_first; [exact HW|exact E|]. simpl. wpu_steps.
  destruct (Z.leb_spec (sortList_responseTime c) cur) as [Hle|Hgt]; wpu_steps.
  2: { eapply scan_stop; [exact HW|exact HI| |exact HQ].
    pose proof (q_sorted HI) as Hs. rewrite Hms in Hs. inversion Hs as [|? ? _ HF]; subst.
    rewrite Forall_forall in HF. simpl in HF. rewrite Et in HF. simpl in HF.
    rewrite Hms. intros y [->|Hy]%elem_of_cons; [simpl; by rewrite Et|].
    specialize (HF y Hy). lia. }
  assert (expired cur c = true) as He.
  { unfold expired. rewrite Hl. simpl. by repeat zcase. }
  eapply wpu_OsDeleteNodeSortLink; [exact HW|exact HI|exact Et|exact Hl|exact Hx|].
  intros h1 l1 l2 E1 HW1 HI1. wpu_step.
  eapply wpu_OsSchedWakePendTimeTask; [exact HW1|exact HI1|apply lookup_insert_eq|done|done|..].
  { rsimpl. destruct Hok as (_ & _ & Hpt & _ & _ & _ & _ & _ & Hq & _). tauto. }
  intros LS2 h2 b2 HW2 Hsl Hfr2 Hws2 HI2. rewrite insert_insert_eq in *. rsimpl.
  assert (lists_frame LS LS2) as Hfr.
  { eapply frame_off_trans; [|exact Hfr2]. by apply frame_off_insert. }
  assert (waits_shrink LS LS2) as Hws.
  { eapply waits_shrink_trans; [by eapply waits_shrink_remove|exact Hws2]. }
  apply (scan_post_step T LS LS2 need t c Q Et He Hfr Hws) in HQ.
  rewrite lookup_insert_eq in Hsl. wpu_step.
  eapply wpu_list_empty; [exact HW2|exact Hsl|].
  case_bool_decide as Hnil.
  - wpu_steps. eapply scan_stop; [exact HW2|exact HI2| |exact HQ].
    intros y. rewrite (members_Some _ _ _ Hsl), Hnil. set_solver.
  - destruct (l1 ++ l2) as [|y ys] eqn:El; [done|].
    eapply IH; [exact HW2|exact HI2|exact Hsl| |exact HQ].
    assert (length (SortLinkNode t :: xs) = length (l1 ++ SortLinkNode t :: l2)) as Hlen
      by congruence.
    assert (length (y :: ys) = length (l1 ++ l2)) as Hlen2 by congruence.
    rewrite length_app in *. simpl in *. lia.
Qed.
End scan.
