(* ===== verification/SchedSwitch.v ===== *)
(** The task switch: the tick is programmed for the earliest event, the running task is
    put back, and the first task of the highest priority gets the processor. *)

From S2P Require Import Prelude DList Kernel Tick SortLink Mem Pmcu Sched SchedInv SchedOps SchedDelay.

(** ** Parts of the state the clock works on *)

(** [s1] is [s] but for the clock and the response time of the scheduler. *)
Definition tframe (s s1 : kstate) : Prop :=
  ∃ i old base load rt rid, s1 = s <| interrupt_flag := i |> <| g_oldTickTimerBase := old |>
    <| g_tickTimerBase := base |> <| g_SysTickLoad := load |>
    <| g_schedResponseTime := rt |> <| g_schedResponseID := rid |>.

Lemma tframe_refl s : tframe s s.
Proof.
  exists (interrupt_flag s), (g_oldTickTimerBase s), (g_tickTimerBase s), (g_SysTickLoad s),
    (g_schedResponseTime s), (g_schedResponseID s). by destruct s.
Qed.
Lemma tframe_trans s1 s2 s3 : tframe s1 s2 → tframe s2 s3 → tframe s1 s3.
Proof.
  intros (i & o & bs & ld & rt & rid & ->) (i' & o' & bs' & ld' & rt' & rid' & ->).
  exists i', o', bs', ld', rt', rid'. destruct s1; vm_compute; reflexivity.
Qed.

(** Both sides are records with the same fields. *)
Ltac tframe_eq s := destruct s; vm_compute; reflexivity.

Section tframe_fields.
Context (s s1 : kstate) (Hf : tframe s s1).
Lemma tframe_interrupt_flag v : tframe s (s1 <| interrupt_flag := v |>).
Proof. destruct Hf as (i & o & bs & ld & rt & rid & ->). exists v, o, bs, ld, rt, rid. tframe_eq s. Qed.
Lemma tframe_oldTickTimerBase v : tframe s (s1 <| g_oldTickTimerBase := v |>).
Proof. destruct Hf as (i & o & bs & ld & rt & rid & ->). exists i, v, bs, ld, rt, rid. tframe_eq s. Qed.
Lemma tframe_tickTimerBase v : tframe s (s1 <| g_tickTimerBase := v |>).
Proof. destruct Hf as (i & o & bs & ld & rt & rid & ->). exists i, o, v, ld, rt, rid. tframe_eq s. Qed.
Lemma tframe_SysTickLoad v : tframe s (s1 <| g_SysTickLoad := v |>).
Proof. destruct Hf as (i & o & bs & ld & rt & rid & ->). exists i, o, bs, v, rt, rid. tframe_eq s. Qed.
Lemma tframe_schedResponseTime v : tframe s (s1 <| g_schedResponseTime := v |>).
Proof. destruct Hf as (i & o & bs & ld & rt & rid & ->). exists i, o, bs, ld, v, rid. tframe_eq s. Qed.
Lemma tframe_schedResponseID v : tframe s (s1 <| g_schedResponseID := v |>).
Proof. destruct Hf as (i & o & bs & ld & rt & rid & ->). exists i, o, bs, ld, rt, v. tframe_eq s. Qed.
Lemma tframe_newTask v : tframe (s <| newTask := v |>) (s1 <| newTask := v |>).
Proof. destruct Hf as (i & o & bs & ld & rt & rid & ->). exists i, o, bs, ld, rt, rid. tframe_eq s. Qed.
End tframe_fields.

Create HintDb tframe.
#[export] Hint Resolve tframe_refl tframe_interrupt_flag tframe_oldTickTimerBase
  tframe_tickTimerBase tframe_SysTickLoad tframe_schedResponseTime
  tframe_schedResponseID tframe_newTask : tframe.

Definition tick_read (s : kstate) : kstate :=
  s <| interrupt_flag := 0 |> <| g_oldTickTimerBase := now s |> <| interrupt_flag := 1 |>.

Lemma tframe_tick_read s s1 : tframe s s1 → tframe s (tick_read s1).
Proof. intros. unfold tick_read. auto with tframe. Qed.
#[export] Hint Resolve tframe_tick_read : tframe.

Lemma TimeOk_tick_read s : TimeOk s → TimeOk (tick_read s) ∧ now (tick_read s) = now s.
Proof. intros (H1 & H2 & H3). split; [|done]. unfold TimeOk, tick_read. change (now _) with (now s). rsimpl. lia. Qed.

(** The clock of [s1] was read in [s] and not touched since. *)
Lemma TimeOk_ext s s1 :
  g_tickTimerBase s1 = g_tickTimerBase s → g_oldTickTimerBase s1 = now s →
  g_SysTickLoad s1 = g_SysTickLoad s → TimeOk s → TimeOk s1.
Proof. unfold TimeOk, now. intros -> -> ->. lia. Qed.

Lemma wpu_LOS_SysCycleGet s T h b (Q : Z → kstate → Prop) :
  TimeOk s → Q (now s) (sched_upd (tick_read s) T h b) →
  wp LOS_SysCycleGet Q (sched_upd s T h b).
Proof. intros HT HQ. by apply wp_LOS_SysCycleGet. Qed.

(** The configuration of the tick is usable. *)
Definition TickCfg (s : kstate) : Prop :=
  1 ≤ tick_periodMax s ≤ 2 ^ 32 ∧ 1 ≤ g_tickResponsePrecision s < 2 ^ 32.

Lemma TickCfg_ext s s1 :
  tick_periodMax s1 = tick_periodMax s →
  g_tickResponsePrecision s1 = g_tickResponsePrecision s → TickCfg s → TickCfg s1.
Proof. unfold TickCfg. by intros -> ->. Qed.

(** The counter is consistent; it may have moved ahead by a period. *)
Definition clock_moved (s s1 : kstate) : Prop :=
  0 ≤ g_tickTimerBase s1 ∧ 0 ≤ g_oldTickTimerBase s1 ≤ now s1 ∧
  g_oldTickTimerBase s1 = now s ∧
  (now s ≤ now s1 < now s + 2 ^ 32 ∧ 0 ≤ g_SysTickLoad s1 < 2 ^ 32).

Lemma clock_moved_read s : TimeOk s → clock_moved s (tick_read s).
Proof.
  intros (H1 & H2 & H3). unfold clock_moved, tick_read. change (now (_ <| _ := _ |>)) with (now s).
  rsimpl. lia.
Qed.

Lemma clock_moved_ext s s' s1 : now s' = now s → clock_moved s' s1 → clock_moved s s1.
Proof. unfold clock_moved. by intros ->. Qed.

Section expire.
Context `{Config} (s : kstate) (T : tasks) (h : gmap lnode (LOS_DL_LIST lnode)) (b : Z).
Context (LS : lists) (HW : WF h LS) (HI : QInv (g_idleTaskID s) T LS b).

(** The software timers hang in their delay queue. *)
Definition srt (s : kstate) (x : lnode) : Z :=
  match x with
  | SwtmrNode i => default 0 (stSortList_responseTime <$> g_swtmrCBArray s !! i)
  | _ => 0
  end.
Definition swtmr_ok (s : kstate) (LS : lists) : Prop :=
  LOSCFG_BASE_CORE_SWTMR = true →
  is_Some (LS !! SwtmrSortLink) ∧
  Forall (fun x => match x with
                   | SwtmrNode i => is_Some (g_swtmrCBArray s !! i)
                   | _ => False
                   end) (members LS SwtmrSortLink).

Lemma swtmr_ok_ext s1 s2 LS1 LS2 :
  g_swtmrCBArray s2 = g_swtmrCBArray s1 → LS2 !! SwtmrSortLink = LS1 !! SwtmrSortLink →
  swtmr_ok s1 LS1 → swtmr_ok s2 LS2.
Proof. unfold swtmr_ok, members. by intros -> ->. Qed.

Definition exp_time (f : lnode → Z) (xs : list lnode) (start prec : Z) : Z :=
  match xs with
  | [] => OS_SORT_LINK_UINT64_MAX - prec
  | x :: _ => if f x <=? u64 (start + prec) then u64 (start + prec) else f x
  end.
Definition next_expire (start prec : Z) : Z :=
  let a := exp_time (trt T) (members LS TaskSortLink) start prec in
  if LOSCFG_BASE_CORE_SWTMR
  then Z.min a (exp_time (srt s) (members LS SwtmrSortLink) start prec) else a.

Lemma wp_GetSortLinkNextExpireTime f hd xs start prec (Q : Z → kstate → Prop) :
  LS !! hd = Some xs →
  (∀ x, x ∈ xs → responseTime (sched_upd s T h b) x = Some (f x)) →
  Q (exp_time f xs start prec) (sched_upd s T h b) →
  wp (GetSortLinkNextExpireTime hd start prec) Q (sched_upd s T h b).
Proof.
  intros E Hf HQ. unfold GetSortLinkNextExpireTime. wpu_step.
  eapply wpu_list_empty; [exact HW|exact E|].
  destruct xs as [|x xs]; [by rewrite bool_decide_eq_true_2|].
  rewrite bool_decide_eq_false_2 by done.
  wpu_step. eapply wpu_list_first; [exact HW|exact E|]. simpl. wpu_step.
  eapply wp_GET_SORTLIST_VALUE; [apply Hf; set_solver|]. wpu_steps. exact HQ.
Qed.

Lemma wpu_OsGetNextExpireTime start prec (Q : Z → kstate → Prop) :
  swtmr_ok s LS → Q (next_expire start prec) (sched_upd s T h b) →
  wp (OsGetNextExpireTime start prec) Q (sched_upd s T h b).
Proof.
  intros Hsw HQ. destruct (delay_Some _ _ _ _ HI) as (xs & E & Hxs).
  unfold OsGetNextExpireTime, next_expire in *. wpu_step.
  eapply (wp_GetSortLinkNextExpireTime (trt T)); [exact E| |].
  { intros x Hx. rewrite <- Hxs in Hx. apply (member_of _ _ _ _ _ _ HI) in Hx.
    destruct x; try done. simpl in *. su_simpl. by destruct (T !! t). }
  rewrite Hxs in HQ. wpu_step. unfold swtmr_ok in Hsw.
  destruct LOSCFG_BASE_CORE_SWTMR; wpu_steps.
  - destruct Hsw as [[ys Ey] HF]; [done|]. rewrite (members_Some _ _ _ Ey) in *.
    eapply (wp_GetSortLinkNextExpireTime (srt s)); [exact Ey| |].
    { intros x Hx. rewrite Forall_forall in HF. specialize (HF x Hx). destruct x; try done.
      simpl in *. su_simpl. by destruct HF as [? ->]. }
    wpu_steps. unfold Z.min in HQ. revert HQ.
    case Z.compare_spec; intros Hc HQ; zcase; by rewrite ?Hc in *.
  - by rewrite Z.ltb_irrefl.
Qed.
End expire.

(** ** Programming the tick *)

(** The time [OsSchedSetNextExpireTime] aims at, and the response time it leaves. *)
Definition deadline (s : kstate) (N endT : Z) : Z :=
  if (endT <? N) && (g_schedTickMinPeriod s <? u64 (N - endT)) then endT else N.
Definition armed (s : kstate) (D : Z) : Z :=
  let cur := g_schedResponseTime s in
  if (cur <=? D) || (u64 (cur - D) <? g_tickResponsePrecision s) then cur
  else u64 (now s + Z.min (Z.max (u64 (D - now s)) (g_tickResponsePrecision s))
                          (tick_periodMax s)).

Lemma u64_bound x : 0 ≤ u64 x < 2 ^ 64.
Proof. unfold u64. apply Z.mod_pos_bound. lia. Qed.

Lemma wpu_OsSchedSetNextExpireTime `{Config} s T h b LS id endT (Q : unit → kstate → Prop) :
  WF h LS → QInv (g_idleTaskID s) T LS b → swtmr_ok s LS → TimeOk s → TickCfg s →
  (∀ s1, tframe s s1 → clock_moved s s1 →
     g_schedResponseTime s1 =
       armed s (deadline s (next_expire s T LS (now s) (g_tickResponsePrecision s)) endT) →
     Q tt (sched_upd s1 T h b)) →
  wp (OsSchedSetNextExpireTime id endT) Q (sched_upd s T h b).
Proof.
  intros HW HI Hsw HT [Hmax Hprec] HQ. unfold OsSchedSetNextExpireTime, OsGetCurrSchedTimeCycle.
  destruct (TimeOk_tick_read s HT) as [HT1 Hn1].
  wpu_step. apply wpu_LOS_SysCycleGet; [done|]. wpu_steps.
  change (g_tickResponsePrecision (tick_read s)) with (g_tickResponsePrecision s).
  eapply (wpu_OsGetNextExpireTime (tick_read s)); [exact HW|exact HI|exact Hsw|]. wpu_steps.
  change (next_expire (tick_read s)) with (next_expire s).
  change (g_schedTickMinPeriod (tick_read s)) with (g_schedTickMinPeriod s).
  change (g_schedResponseTime (tick_read s)) with (g_schedResponseTime s).
  set (D := deadline _ _ _) in HQ. change (if _ && _ then endT else _) with D.
  unfold armed in HQ. destruct (_ || _) eqn:Hskip.
  - wpu_steps. apply HQ; [auto with tframe|by apply clock_moved_read|done].
  - wpu_steps. set (rid := if (_ <? _) && _ then id else _).
    pose proof (u64_bound (D - now s)).
    apply wp_OsTickTimerReload.
    + done.
    + zcase; lia.
    + su_simpl. change (1 ≤ tick_periodMax s). lia.
    + intros r s' Hr ->. change (now (sched_upd _ _ _ _)) with (now s).
      set (r' := Z.min (Z.max _ _) _) in HQ.
      assert (r = r') as ->.
      { unfold r'. rewrite Hr. change (tick_periodMax _) with (tick_periodMax s).
        destruct (Z.ltb_spec (u64 (D - now s)) (g_tickResponsePrecision s)); lia. }
      autorewrite with push. wpu_steps. apply HQ; [auto 10 with tframe| |done].
      destruct HT as (H1 & H2 & H3). unfold clock_moved.
      pose proof (u32_bound (u32 (r' - 1) - 1)). pose proof (u32_bound (r' - 1)). pose proof (u32_bound (g_SysTickLoad s - 1)).
      unfold now in *. rsimpl. lia.
Qed.

(** The tick comes in time: within the precision of the tick after the deadline. *)
Lemma armed_in_time s D :
  TimeOk s → TickCfg s → now s ≤ D < 2 ^ 64 → 0 ≤ g_schedResponseTime s < 2 ^ 64 →
  armed s D ≤ Z.max D (now s + g_tickResponsePrecision s) + g_tickResponsePrecision s.
Proof.
  intros (H1 & H2 & H3) (H4 & H5) HD Hrt. unfold armed, TIME_HORIZON in *.
  rewrite (u64_id (D - now s)) by lia.
  destruct (Z.leb_spec (g_schedResponseTime s) D); [simpl; lia|].
  rewrite (u64_id (g_schedResponseTime s - D)) by lia.
  destruct (Z.ltb_spec (g_schedResponseTime s - D) (g_tickResponsePrecision s)); simpl; [lia|].
  rewrite u64_id by lia. lia.
Qed.

(** ** The running task *)

Definition magic_ok (s : kstate) (c : LosTaskCB) : Prop :=
  read32 (ram s) (topOfStack c) = Some OS_TASK_MAGIC_WORD.

(** A task that wants to run. *)
Definition unblocked (c : LosTaskCB) : Prop :=
  live c ∧ st c (Z.lor OS_TASK_STATUS_PEND_TIME OS_TASK_STATUS_DELAY) = false ∧
  st c OS_TASK_BLOCKED_STATUS = false.

(** The running task [r] is in no queue, its clock is behind the counter, no other task
    counts as running, and the idle task can always be chosen. *)
Record RunInv (s : kstate) (T : tasks) (r : Z) (rc : LosTaskCB) : Prop := {
  r_tcb : T !! r = Some rc;
  r_running : st rc OS_TASK_STATUS_RUNNING = true;
  r_ready : st rc OS_TASK_STATUS_READY = false;
  r_time : live rc → sortList_responseTime rc = OS_SORT_LINK_INVALID_TIME;
  r_dead : st rc OS_TASK_STATUS_UNUSED = true →
    st rc OS_TASK_STATUS_DELAY = false ∧ st rc OS_TASK_STATUS_PEND_TIME = false;
  r_start : 0 ≤ startTime rc ≤ g_oldTickTimerBase s;
  r_wait : map_Forall (fun _ c => 0 ≤ waitTimes c < 2 ^ 32) T;
  r_one : map_Forall (fun t c => live c → st c OS_TASK_STATUS_RUNNING = true → t = r) T;
  r_idle : ∃ ic, T !! g_idleTaskID s = Some ic ∧ unblocked ic ∧
    (r ≠ g_idleTaskID s → st ic OS_TASK_STATUS_READY = true)
}.

Lemma RunInv_ext s s1 T r rc :
  g_oldTickTimerBase s1 = g_oldTickTimerBase s → g_idleTaskID s1 = g_idleTaskID s →
  RunInv s T r rc → RunInv s1 T r rc.
Proof. intros E1 E2 []. constructor; rewrite ?E1, ?E2; done. Qed.

(** ** Time slices *)

Definition slice_tcb (idle cur : Z) (c : LosTaskCB) : LosTaskCB :=
  (if taskID c =? idle then c
   else c <| timeSlice := i32 (timeSlice c - i32 (cur - startTime c)) |>)
    <| startTime := cur |>.

Lemma wpu_OsTimeSliceUpdate s T h b t c cur (Q : unit → kstate → Prop) :
  T !! t = Some c → startTime c ≤ cur →
  Q tt (sched_upd s (<[t := slice_tcb (g_idleTaskID s) cur c]> T) h b) →
  wp (OsTimeSliceUpdate t cur) Q (sched_upd s T h b).
Proof.
  intros Et Hle HQ. unfold OsTimeSliceUpdate. do 2 wpu_step. wpu_step. apply wp_assert.
  split; [by apply Z.leb_le|]. wpu_steps. unfold slice_tcb in HQ.
  destruct (taskID c =? g_idleTaskID s); simpl; wpu_steps; exact HQ.
Qed.

Lemma slice_tcb_fields idle cur c :
  let c' := slice_tcb idle cur c in
  taskStatus c' = taskStatus c ∧ priority c' = priority c ∧ taskID c' = taskID c ∧
  sortList_responseTime c' = sortList_responseTime c ∧ waitTimes c' = waitTimes c ∧
  topOfStack c' = topOfStack c ∧ startTime c' = cur.
Proof. unfold slice_tcb. by destruct (taskID c =? idle). Qed.

(** ** Putting the running task back *)

Section park.
  Context `{Config}.

Definition parked_tcb (s : kstate) (r : Z) (c : LosTaskCB) : LosTaskCB :=
  if st c (Z.lor OS_TASK_STATUS_PEND_TIME OS_TASK_STATUS_DELAY)
  then c <| sortList_responseTime := delay_until (g_sysClock s) (startTime c) (waitTimes c) |>
  else if st c OS_TASK_BLOCKED_STATUS then c else enq_tcb s r c.

(** A task that can go on waits in its ready queue from now on. *)
Definition parked_lists (s : kstate) (LS : lists) (r : Z) (c : LosTaskCB) (LS' : lists) : Prop :=
  unblocked c → LS' = enq_lists s LS r c.

Lemma delay_until_bound clock start ticks :
  1 ≤ LOSCFG_BASE_CORE_TICK_PER_SECOND → 0 ≤ clock < 2 ^ 31 → 0 ≤ ticks < 2 ^ 32 →
  0 ≤ start < TIME_HORIZON →
  delay_until clock start ticks = start + ticks * clock / LOSCFG_BASE_CORE_TICK_PER_SECOND ∧
  0 ≤ delay_until clock start ticks < OS_SORT_LINK_INVALID_TIME.
Proof.
  intros Htps Hc Ht Hs. unfold delay_until, OS_SYS_TICK_TO_CYCLE, TIME_HORIZON,
    OS_SORT_LINK_INVALID_TIME in *.
  assert (0 ≤ ticks * clock ≤ (2 ^ 32 - 1) * (2 ^ 31 - 1)) as Hm.
  { split; [lia|]. apply Z.mul_le_mono_nonneg; lia. }
  rewrite (u64_id (ticks * clock)) by lia.
  assert (0 ≤ ticks * clock / LOSCFG_BASE_CORE_TICK_PER_SECOND ≤ ticks * clock).
  { split; [apply Z.div_pos; lia|]. apply Z.div_le_upper_bound; [lia|]. nia. }
  rewrite u64_id by lia. lia.
Qed.

Lemma wpu_park s T h b LS r c (Q : unit → kstate → Prop) :
  WF h LS → QInv (g_idleTaskID s) T LS b → T !! r = Some c →
  st c OS_TASK_STATUS_READY = false →
  (live c → sortList_responseTime c = OS_SORT_LINK_INVALID_TIME) →
  (st c OS_TASK_STATUS_UNUSED = true →
     st c OS_TASK_STATUS_DELAY = false ∧ st c OS_TASK_STATUS_PEND_TIME = false) →
  0 ≤ delay_until (g_sysClock s) (startTime c) (waitTimes c) < OS_SORT_LINK_INVALID_TIME →
  (∀ i LS' h' b', parked_lists s LS r c LS' → q_frame LS LS' → WF h' LS' →
     QInv (g_idleTaskID s) (<[r := parked_tcb s r c]> T) LS' b' →
     Q tt (sched_upd (s <| interrupt_flag := i |>) (<[r := parked_tcb s r c]> T) h' b')) →
  wp (OsSchedTaskSwitch_park r) Q (sched_upd s T h b).
Proof.
  intros HW HI Et Hr Hrt Hdead Hbound HQ.
  assert (∀ T h b, sched_upd s T h b = sched_upd (s <| interrupt_flag := interrupt_flag s |>) T h b)
    as Hid by (intros; by destruct s).
  unfold OsSchedTaskSwitch_park, parked_tcb in *. do 2 wpu_step.
  destruct (st c (Z.lor OS_TASK_STATUS_PEND_TIME OS_TASK_STATUS_DELAY)) eqn:Hd.
  - rewrite flag_lor in Hd.
    assert (live c) as Hl by (destruct (st c OS_TASK_STATUS_UNUSED) eqn:E; [|done];
      destruct Hdead as [E1 E2]; [done|]; by rewrite E1, E2 in Hd).
    eapply wpu_OsAdd2SortLink; [exact HW|exact HI|exact Et|exact Hl|auto| |exact Hbound|].
    { apply orb_true_iff in Hd. tauto. }
    intros h' xs' Hins HW' HI'. eapply HQ; [| |exact HW'|exact HI']; [|by apply frame_off_insert].
    intros (_ & Hnd & _). by rewrite flag_lor, Hd in Hnd.
  - wpu_step. destruct (st c OS_TASK_BLOCKED_STATUS) eqn:Hb; simpl.
    + rewrite insert_id in HQ by done. rewrite Hid.
      eapply HQ; [| |exact HW|exact HI]; [|by intros hd _]. intros (_ & _ & Hnb). by rewrite Hb in Hnb.
    + unfold OS_TASK_BLOCKED_STATUS in Hb. rewrite !flag_lor, !orb_false_iff in Hb.
      destruct Hb as (Hp & Hsu & He & Hl).
      destruct (q_tasks HI _ _ Et) as [_ Hok]. specialize (Hok Hl).
      eapply wpu_OsSchedTaskEnQueue; [exact HW|exact HI|exact Et| |].
      { unfold detached. split_and!; [done..| |auto]. apply Hok; auto. }
      intros h' b' HW' HI'. rewrite Hid. eapply HQ; [| |exact HW'|exact HI'];
        [by intros _|apply frame_off_enq].
Qed.
End park.

(** ** The running flag *)

(** Flags the invariant of the queues depends on. *)
Definition same_flags (v v' : Z) : Prop :=
  Forall (fun m => flag v' m = flag v m)
    [OS_TASK_STATUS_UNUSED; OS_TASK_FLAG_FREEZE; OS_TASK_STATUS_READY; OS_TASK_STATUS_PEND;
     OS_TASK_STATUS_SUSPEND; OS_TASK_STATUS_DELAY; OS_TASK_STATUS_EXIT;
     OS_TASK_STATUS_PEND_TIME].

Lemma same_flags_set_running v : same_flags v (setflag v OS_TASK_STATUS_RUNNING).
Proof. unfold same_flags. repeat constructor; by fsimpl. Qed.
Lemma same_flags_clr_running v : same_flags v (clrflag v OS_TASK_STATUS_RUNNING).
Proof. unfold same_flags. repeat constructor; by fsimpl. Qed.

Lemma QInv_same_flags idle T LS bm t c c' :
  QInv idle T LS bm → T !! t = Some c →
  same_flags (taskStatus c) (taskStatus c') → priority c' = priority c →
  taskID c' = taskID c → sortList_responseTime c' = sortList_responseTime c →
  QInv idle (<[t := c']> T) LS bm.
Proof.
  intros HI Et Hfl E2 E3 E4. unfold same_flags in Hfl.
  rewrite !Forall_cons in Hfl. destruct Hfl as (F1 & F2 & F3 & F4 & F5 & F6 & F7 & F8 & _).
  eapply QInv_tcb; [exact HI|exact Et|..|done].
  - unfold task_ok. rewrite F1, F2, F3, F4, F5, F6, F7, F8, E2, E3, E4.
    by apply (q_tasks HI).
  - intros hd x Hx Hm. pose proof (member_of _ _ _ _ _ _ HI Hm) as Hok.
    destruct Hx as [-> | ->]; unfold member_ok in *; rewrite lookup_insert_eq;
      rewrite Et in Hok; destruct hd; by rewrite ?F1, ?F3, ?F4, ?E2, ?E4.
Qed.

(** ** The stack check *)

Lemma wpu_OsTaskSwitchCheck s T h b r rc n nc (Q : unit → kstate → Prop) :
  runTask s = Some r → newTask s = Some n → T !! r = Some rc → T !! n = Some nc →
  magic_ok s rc →
  (∀ i, Q tt (sched_upd (s <| interrupt_flag := i |>) T h b)) →
  wp OsTaskSwitchCheck Q (sched_upd s T h b).
Proof.
  intros Hr Hn Er En Hm HQ. unfold OsTaskSwitchCheck. wpu_steps. rsimpl. su_simpl. rewrite Hn. wpu_steps.
  eapply wp_load32; [exact Hm|]. rewrite Z.eqb_refl. simpl. wpu_steps.
  destruct (_ || _).
  - unfold OsHandleNewTaskStackOverflow. wpu_steps. specialize (HQ 1).
    rsimpl. rewrite Hr, Hn in *.
    replace (_ <| interrupt_flag := 1 |>) with (s <| interrupt_flag := 1 |>); [exact HQ|].
    destruct s; simpl in *; subst; vm_compute; reflexivity.
  - wpu_steps. apply HQ.
Qed.

(** ** The switch *)

Definition run_out (c : LosTaskCB) : LosTaskCB :=
  c <| taskStatus := clrflag (taskStatus c) OS_TASK_STATUS_RUNNING |>.
Definition run_in (start : Z) (c : LosTaskCB) : LosTaskCB :=
  c <| taskStatus := setflag (taskStatus c) OS_TASK_STATUS_RUNNING |> <| startTime := start |>.
Definition unready (c : LosTaskCB) : LosTaskCB :=
  c <| taskStatus := clrflag (taskStatus c) OS_TASK_STATUS_READY |>.

Section switch.
  Context `{Config}.

(** The running task after its time is accounted for and it is put back. *)
Definition put_back (s : kstate) (r : Z) (rc : LosTaskCB) : LosTaskCB :=
  parked_tcb s r (slice_tcb (g_idleTaskID s) (now s) rc).

(** The control blocks after the switch from [r] to [n]. *)
Definition switch_tasks (s : kstate) (T : tasks) (r n : Z) (rc cn : LosTaskCB) : tasks :=
  let T2 := <[r := put_back s r rc]> T in
  if r =? n then <[n := unready cn]> T2
  else <[n := unready (run_in (startTime (put_back s r rc)) cn)]>
         (<[r := run_out (put_back s r rc)]> T2).

Lemma enq_tcb_fields s t c :
  let c' := enq_tcb s t c in
  taskStatus c' = enq_status (taskStatus c) ∧ priority c' = priority c ∧
  taskID c' = taskID c ∧ sortList_responseTime c' = sortList_responseTime c ∧
  waitTimes c' = waitTimes c ∧ startTime c' = startTime c ∧ topOfStack c' = topOfStack c.
Proof. unfold enq_tcb. by destruct (_ || _). Qed.

Lemma put_back_fields s r rc :
  let c := put_back s r rc in
  startTime c = now s ∧ waitTimes c = waitTimes rc ∧ priority c = priority rc ∧
  taskID c = taskID rc ∧ topOfStack c = topOfStack rc ∧
  st c OS_TASK_STATUS_RUNNING = st rc OS_TASK_STATUS_RUNNING ∧
  st c OS_TASK_STATUS_UNUSED = st rc OS_TASK_STATUS_UNUSED ∧
  st c OS_TASK_STATUS_READY =
    (negb (st rc (Z.lor OS_TASK_STATUS_PEND_TIME OS_TASK_STATUS_DELAY)) &&
     negb (st rc OS_TASK_BLOCKED_STATUS)) || st rc OS_TASK_STATUS_READY.
Proof.
  unfold put_back, parked_tcb. pose proof (slice_tcb_fields (g_idleTaskID s) (now s) rc) as HF.
  revert HF. generalize (slice_tcb (g_idleTaskID s) (now s) rc).
  intros c1 (E1 & E2 & E3 & E4 & E5 & E6 & E7). rewrite E1.
  destruct (st rc (Z.lor OS_TASK_STATUS_PEND_TIME OS_TASK_STATUS_DELAY)); rsimpl; [by rewrite E1|].
  destruct (st rc OS_TASK_BLOCKED_STATUS); [by rewrite E1|].
  destruct (enq_tcb_fields s r c1) as (G1 & G2 & G3 & G4 & G5 & G6 & G7).
  rewrite G1, G2, G3, G5, G6, G7, E1. unfold enq_status. by fsimpl.
Qed.

Lemma top_ready s T LS bm r rc n :
  RunInv s T r rc → QInv (g_idleTaskID s) (<[r := put_back s r rc]> T) LS bm →
  is_top (g_idleTaskID s) LS n →
  ∃ cn, <[r := put_back s r rc]> T !! n = Some cn ∧ live cn ∧
    st cn OS_TASK_STATUS_READY = true.
Proof.
  intros HR HI Htop. destruct (decide (n = g_idleTaskID s)) as [->|Hne].
  - destruct (r_idle _ _ _ _ HR) as (ic & Ei & (Hl & Hd & Hb) & Hr).
    destruct (decide (r = g_idleTaskID s)) as [E|Hri].
    + rewrite <- E in *. rewrite lookup_insert_eq. eexists; split; [done|].
      assert (rc = ic) as -> by (pose proof (r_tcb _ _ _ _ HR); congruence).
      destruct (put_back_fields s r ic) as (_ & _ & _ & _ & _ & _ & Hu & Hrd).
      rewrite Hu, Hrd, Hd, Hb. done.
    + rewrite lookup_insert_ne by done. eauto.
  - destruct (is_top_ready _ _ _ _ _ HI Htop Hne) as (c & E & Hl & Hr & _). eauto.
Qed.

Lemma wpu_change s T h b LS r rc n cn (Q : unit → kstate → Prop) :
  QInv (g_idleTaskID s) T LS b → T !! r = Some rc → T !! n = Some cn →
  runTask s = Some r → newTask s = Some n → magic_ok s rc →
  (∀ i, let T' := if r =? n then T
                  else <[n := run_in (startTime rc) cn]> (<[r := run_out rc]> T) in
     QInv (g_idleTaskID s) T' LS b → Q tt (sched_upd (s <| interrupt_flag := i |>) T' h b)) →
  wp (OsSchedTaskSwitch_change r n) Q (sched_upd s T h b).
Proof.
  intros HI Er En Hr Hn Hm HQ. unfold OsSchedTaskSwitch_change. wpu_step.
  destruct (Z.eqb_spec r n) as [->|Hne]; simpl.
  { specialize (HQ (interrupt_flag s) HI). by destruct s. }
  assert (∀ i, Q tt (sched_upd (s <| interrupt_flag := i |>)
    (<[n := run_in (startTime rc) cn]> (<[r := run_out rc]> T)) h b)) as HQ'.
  { intros i. apply HQ.
    assert (QInv (g_idleTaskID s) (<[r := run_out rc]> T) LS b)
      by (eapply QInv_same_flags; [exact HI|exact Er|apply same_flags_clr_running|done..]).
    eapply QInv_same_flags; [done|by rewrite lookup_insert_ne|apply same_flags_set_running|done..]. }
  assert (∀ i, wp (status_clr r OS_TASK_STATUS_RUNNING;;
    status_set n OS_TASK_STATUS_RUNNING;;
    c ← get_tcb r;
    mod_tcb n (fun nc => nc <| startTime := startTime c |>)) Q
    (sched_upd (s <| interrupt_flag := i |>) T h b)) as Hrest.
  { intros i. do 2 wpu_step. wpu_step.
    eapply wpu_status_set; [by rewrite lookup_insert_ne|]. wpu_step.
    eapply wpu_get_tcb; [by rewrite lookup_insert_ne, lookup_insert_eq|].
    wpu_step. exact (HQ' i). }
  wpu_step. unfold when at 1. destruct LOSCFG_BASE_CORE_TSK_MONITOR.
  - eapply wpu_OsTaskSwitchCheck; [exact Hr|exact Hn|exact Er|exact En|exact Hm|]. exact Hrest.
  - apply wp_ret. specialize (Hrest (interrupt_flag s)). by destruct s.
Qed.

Lemma wpu_arm s T h b LS r rc n nc (Q : unit → kstate → Prop) :
  WF h LS → QInv (g_idleTaskID s) T LS b → swtmr_ok s LS → TimeOk s → TickCfg s →
  T !! r = Some rc → T !! n = Some nc →
  (∀ s1, tframe s s1 → clock_moved s s1 → Q tt (sched_upd s1 T h b)) →
  wp (OsSchedTaskSwitch_arm r n) Q (sched_upd s T h b).
Proof.
  intros HW HI Hsw HT HC Er En HQ. unfold OsSchedTaskSwitch_arm. wpu_steps.
  destruct (g_schedResponseID s =? taskID rc); wpu_steps.
  - eapply wpu_OsSchedSetNextExpireTime; [exact HW|exact HI|exact Hsw|exact HT|exact HC|].
    intros s1 Hf Hc _. apply HQ; [|exact Hc].
    eapply tframe_trans; [|exact Hf]. auto with tframe.
  - eapply wpu_OsSchedSetNextExpireTime; [exact HW|exact HI|exact Hsw|exact HT|exact HC|].
    intros s1 Hf Hc _. by apply HQ.
Qed.

(** The new task leaves the ready queue, and the tick is set. *)
Lemma wpu_finish s T h b LS r rc n nc (Q : unit → kstate → Prop) :
  WF h LS → QInv (g_idleTaskID s) T LS b → swtmr_ok s LS → TimeOk s → TickCfg s →
  T !! r = Some rc → T !! n = Some nc → live nc → st nc OS_TASK_STATUS_READY = true →
  (∀ s1 LS' h' b', tframe s s1 → clock_moved s s1 → q_frame LS LS' → WF h' LS' →
     QInv (g_idleTaskID s) (<[n := unready nc]> T) LS' b' →
     Q tt (sched_upd s1 (<[n := unready nc]> T) h' b')) →
  wp (OsSchedTaskDeQueue n;; OsSchedTaskSwitch_arm r n) Q (sched_upd s T h b).
Proof.
  intros HW HI Hsw HT HC Er En Hl Hrd HQ. wpu_step.
  eapply wpu_OsSchedTaskDeQueue; [exact HW|exact HI|exact En|exact Hl|exact Hrd|].
  intros LS' h' b' l1 l2 _ HLS' c' HW' HI'.
  assert (q_frame LS LS') as Hfr.
  { rewrite HLS'. destruct (_ =? _); [by intros hd _|by apply frame_off_insert]. }
  assert (is_Some (<[n := c']> T !! r)) as [rc' Er'].
  { destruct (decide (n = r)) as [->|]; [rewrite lookup_insert_eq|rewrite lookup_insert_ne]; eauto. }
  eapply wpu_arm; [exact HW'|exact HI'| |exact HT|exact HC|exact Er'|apply lookup_insert_eq|].
  - eapply swtmr_ok_ext; [|by apply Hfr|exact Hsw]; reflexivity.
  - intros s1 Hf Hc. eapply HQ; [exact Hf|exact Hc|exact Hfr|exact HW'|exact HI'].
Qed.

Lemma wpu_OsSchedTaskSwitch s T h b LS r rc (Q : bool → kstate → Prop) :
  WF h LS → QInv (g_idleTaskID s) T LS b → RunInv s T r rc → runTask s = Some r →
  swtmr_ok s LS → TimeOk s → TickCfg s → magic_ok s rc →
  1 ≤ LOSCFG_BASE_CORE_TICK_PER_SECOND → 0 ≤ g_sysClock s < 2 ^ 31 →
  (∀ n cn LS2 b2 s1 LS' h' b',
     QInv (g_idleTaskID s) (<[r := put_back s r rc]> T) LS2 b2 →
     parked_lists s LS r (slice_tcb (g_idleTaskID s) (now s) rc) LS2 →
     is_top (g_idleTaskID s) LS2 n → <[r := put_back s r rc]> T !! n = Some cn →
     let T' := switch_tasks s T r n rc cn in
     tframe (s <| newTask := Some n |>) s1 → clock_moved s s1 → q_frame LS LS' →
     WF h' LS' → QInv (g_idleTaskID s) T' LS' b' →
     Q (negb (r =? n)) (sched_upd s1 T' h' b')) →
  wp OsSchedTaskSwitch Q (sched_upd s T h b).
Proof.
  intros HW HI HR Hr Hsw HT HC Hm Htps Hclk HQ.
  pose proof HR as [Er Hrun Hrdy Hrt Hdead Hst Hwait Hone Hidle].
  destruct (slice_tcb_fields (g_idleTaskID s) (now s) rc) as (E1 & E2 & E3 & E4 & E5 & E6 & E7).
  destruct (put_back_fields s r rc) as (_ & _ & _ & _ & Htop & _ & _).
  pose proof HT as (HT1 & HT2 & HT3).
  unfold OsSchedTaskSwitch, OsGetCurrSchedTimeCycle. do 3 wpu_step.
  apply wpu_LOS_SysCycleGet; [exact HT|]. wpu_step.
  eapply wpu_OsTimeSliceUpdate; [exact Er|lia|]. wpu_step.
  change (g_idleTaskID (tick_read s)) with (g_idleTaskID s).
  eapply (wpu_park (tick_read s)); [exact HW| |apply lookup_insert_eq|rewrite ?E1..|].
  { eapply QInv_irrelevant; [exact HI|exact Er|done..]. }
  { exact Hrdy. }
  { rewrite E4. exact Hrt. }
  { exact Hdead. }
  { rewrite E7, E5. apply delay_until_bound; [done|done|by apply Hwait in Er|lia]. }
  rewrite insert_insert_eq.
  change (parked_tcb (tick_read s)) with (parked_tcb s).
  change (g_idleTaskID (tick_read s)) with (g_idleTaskID s). fold (put_back s r rc).
  intros i LS2 h2 b2 Hpk Hfr2 HW2 HI2. wpu_step.
  eapply wpu_OsGetTopTask; [exact HW2|exact HI2|]. intros n Htopn.
  change (g_idleTaskID ((tick_read s) <| interrupt_flag := i |>)) with (g_idleTaskID s) in Htopn.
  destruct (top_ready _ _ _ _ _ _ _ HR HI2 Htopn) as (cn & En & Hlcn & Hrcn).
  do 3 wpu_step.
  eapply wpu_change; [exact HI2|apply lookup_insert_eq|exact En|exact Hr|done| |].
  { unfold magic_ok. rewrite Htop. exact Hm. }
  intros i2 T3 HI3'. assert (QInv (g_idleTaskID s) T3 LS2 b2) as HI3 by exact HI3'. clear HI3'.
  assert (∃ c3, T3 !! n = Some c3 ∧ live c3 ∧ st c3 OS_TASK_STATUS_READY = true ∧
    <[n := unready c3]> T3 = switch_tasks s T r n rc cn) as (c3 & E3' & Hl3 & Hrd3 & Esw).
  { unfold T3, switch_tasks. destruct (Z.eqb_spec r n) as [->|Hne].
    - exists cn. by rewrite En.
    - exists (run_in (startTime (put_back s r rc)) cn). rewrite lookup_insert_eq, insert_insert_eq.
      unfold run_in. rsimpl. by fsimpl. }
  assert (is_Some (T3 !! r)) as [rc3 Er3].
  { unfold T3. destruct (Z.eqb_spec r n); rewrite ?(lookup_insert_ne _ n r), ?lookup_insert_eq by done;
      eauto. }
  apply (wp_assoc (OsSchedTaskDeQueue n) (fun _ => OsSchedTaskSwitch_arm r n)).
  eapply wpu_finish; [exact HW2|exact HI3| | | |exact Er3|exact E3'|exact Hl3|exact Hrd3|].
  2: { by apply (TimeOk_ext s). }
  2: { by apply (TickCfg_ext s). }
  { eapply swtmr_ok_ext; [|by apply Hfr2|exact Hsw]; reflexivity. }
  intros s1 LS' h' b' Hf Hc Hfr' HW' HI'. wpu_steps. rewrite Esw in *.
  eapply HQ; [exact HI2|exact Hpk|exact Htopn|exact En| |eapply clock_moved_ext; [|exact Hc]; reflexivity| |exact HW'|exact HI'].
  - eapply tframe_trans; [|exact Hf]. auto 10 with tframe.
  - by eapply frame_off_trans.
Qed.

(** ** The new running task *)

Lemma put_back_unblocked s r rc : unblocked rc → unblocked (put_back s r rc).
Proof.
  intros (Hl & Hd & Hb). unfold unblocked, put_back, parked_tcb.
  pose proof (slice_tcb_fields (g_idleTaskID s) (now s) rc) as (E1 & _). rewrite E1, Hd, Hb.
  destruct (enq_tcb_fields s r (slice_tcb (g_idleTaskID s) (now s) rc)) as (G1 & _).
  rewrite G1, E1. unfold enq_status, OS_TASK_BLOCKED_STATUS in *.
  rewrite !flag_lor, !orb_false_iff in *. fsimpl. intuition.
Qed.

Lemma switch_lookup s T r n rc cn t c' :
  switch_tasks s T r n rc cn !! t = Some c' →
  (t = n ∧ c' = unready (if r =? n then cn else run_in (startTime (put_back s r rc)) cn)) ∨
  (t ≠ n ∧ t = r ∧ c' = run_out (put_back s r rc)) ∨
  (t ≠ n ∧ t ≠ r ∧ T !! t = Some c').
Proof.
  unfold switch_tasks. intros E. destruct (decide (t = n)) as [->|Hn].
  - left. destruct (r =? n); rewrite lookup_insert_eq in E; naive_solver.
  - right. destruct (Z.eqb_spec r n) as [<-|Hr]; rewrite lookup_insert_ne in E by done;
      destruct (decide (t = r)) as [->|].
    + done.
    + rewrite lookup_insert_ne in E by done. auto.
    + rewrite lookup_insert_eq in E. naive_solver.
    + rewrite !lookup_insert_ne in E by done. auto.
Qed.

Section new_run.
Context (s : kstate) (T : tasks) (r n : Z) (rc cn : LosTaskCB) (LS2 : lists) (b2 : Z).
Context (HR : RunInv s T r rc).
Context (HI2 : QInv (g_idleTaskID s) (<[r := put_back s r rc]> T) LS2 b2).
Context (Htop : is_top (g_idleTaskID s) LS2 n).
Context (En : <[r := put_back s r rc]> T !! n = Some cn).

Definition new_tcb : LosTaskCB :=
  unready (if r =? n then cn else run_in (startTime (put_back s r rc)) cn).

Lemma new_ready : live cn ∧ st cn OS_TASK_STATUS_READY = true.
Proof. destruct (top_ready _ _ _ _ _ _ _ HR HI2 Htop) as (c & E & ?). by simplify_eq. Qed.

Lemma new_tcb_fields :
  live new_tcb ∧ st new_tcb OS_TASK_STATUS_RUNNING = true ∧
  st new_tcb OS_TASK_STATUS_READY = false ∧ startTime new_tcb = now s ∧
  priority new_tcb = priority cn ∧ waitTimes new_tcb = waitTimes cn ∧
  sortList_responseTime new_tcb = OS_SORT_LINK_INVALID_TIME ∧
  unblocked new_tcb.
Proof.
  destruct new_ready as [Hl Hrd]. destruct (q_tasks HI2 _ _ En) as [_ Hok]. specialize (Hok Hl).
  destruct (put_back_fields s r rc) as (Hst & _ & _ & _ & _ & Hrun & _).
  assert (sortList_responseTime cn = OS_SORT_LINK_INVALID_TIME ∧
    st cn OS_TASK_STATUS_PEND_TIME = false ∧ st cn OS_TASK_STATUS_DELAY = false ∧
    st cn OS_TASK_STATUS_PEND = false ∧ st cn OS_TASK_STATUS_SUSPEND = false ∧
    st cn OS_TASK_STATUS_EXIT = false) as (Hrt & F1 & F2 & F3 & F4 & F5).
  { destruct Hok as (_ & Hx & Hpt & _ & _ & _ & _ & _ & Hq & _).
    destruct (Z.eq_dec (sortList_responseTime cn) OS_SORT_LINK_INVALID_TIME),
      (st cn OS_TASK_STATUS_PEND_TIME); intuition congruence. }
  unfold new_tcb, unblocked, OS_TASK_BLOCKED_STATUS.
  destruct (Z.eqb_spec r n) as [<-|Hne]; unfold unready, run_in; rsimpl; fsimpl.
  - rewrite lookup_insert_eq in En. simplify_eq. rewrite Hst, Hrun, (r_running _ _ _ _ HR).
    rewrite Hl, F1, F2, F3, F4, F5. done.
  - rewrite Hl, F1, F2, F3, F4, F5. done.
Qed.

Lemma switch_RunInv s1 :
  0 ≤ now s → tframe (s <| newTask := Some n |>) s1 → clock_moved s s1 →
  RunInv s1 (switch_tasks s T r n rc cn) n new_tcb.
Proof.
  intros Hnow Hf (_ & _ & Hold & _).
  assert (g_idleTaskID s1 = g_idleTaskID s) as Hid
    by (destruct Hf as (? & ? & ? & ? & ? & ? & ->); reflexivity).
  destruct new_tcb_fields as (N1 & N2 & N3 & N4 & N5 & N6 & N7 & N8).
  destruct (put_back_fields s r rc) as (_ & Hwt & _ & _ & _ & _ & Hun & Hrdy).
  pose proof (r_tcb _ _ _ _ HR) as Er.
  assert (0 ≤ waitTimes cn < 2 ^ 32) as Hw.
  { destruct (decide (r = n)) as [<-|Hne].
    - rewrite lookup_insert_eq in En. injection En as Ec. rewrite <- Ec, Hwt. by apply (r_wait _ _ _ _ HR _ _ Er).
    - rewrite lookup_insert_ne in En by done. by apply (r_wait _ _ _ _ HR _ _ En). }
  assert (switch_tasks s T r n rc cn !! n = Some new_tcb) as E'
    by (unfold switch_tasks, new_tcb; destruct (r =? n); by rewrite lookup_insert_eq).
  constructor; try done.
  - congruence.
  - rewrite N4, Hold. lia.
  - intros t c [(-> & ->)|[(_ & -> & ->)|(_ & _ & E)]]%switch_lookup.
    + fold new_tcb. by rewrite N6.
    + unfold run_out. rsimpl. rewrite Hwt. by apply (r_wait _ _ _ _ HR _ _ Er).
    + by apply (r_wait _ _ _ _ HR _ _ E).
  - intros t c [(-> & ->)|[(_ & -> & ->)|(Hn & Hr & E)]]%switch_lookup Hl Hrun; [done|..].
    + unfold run_out in Hrun. rsimpl_in Hrun. by rewrite flag_clr_in in Hrun.
    + by destruct Hr; apply (r_one _ _ _ _ HR _ _ E).
  - rewrite Hid. destruct (r_idle _ _ _ _ HR) as (ic & Ei & Hun' & Hir). pose proof Hun' as (Hil & Hid1 & Hid2).
    destruct (decide (g_idleTaskID s = n)) as [Ein|Hin].
    + rewrite Ein. by exists new_tcb.
    + destruct (decide (g_idleTaskID s = r)) as [Eir|Hir'].
      * rewrite Eir in *. assert (rc = ic) as -> by congruence.
        destruct (put_back_unblocked s r ic) as (P1 & P2 & P3); [done|].
        exists (run_out (put_back s r ic)). split.
        { unfold switch_tasks. destruct (Z.eqb_spec r n); [done|].
          by rewrite lookup_insert_ne, lookup_insert_eq. }
        rewrite Hid1, Hid2 in Hrdy. unfold run_out, OS_TASK_BLOCKED_STATUS in *. rsimpl.
        unfold unblocked, OS_TASK_BLOCKED_STATUS in *. rsimpl.
        rewrite !flag_lor in *. fsimpl. intuition.
      * exists ic. split; [|split; auto].
        unfold switch_tasks. destruct (r =? n); by rewrite !lookup_insert_ne.
Qed.

(** No ready task beats the new one. *)
Lemma switch_best t c :
  switch_tasks s T r n rc cn !! t = Some c → live c →
  st c OS_TASK_STATUS_READY = true → t ≠ g_idleTaskID s →
  n ≠ g_idleTaskID s ∧ priority new_tcb ≤ priority c.
Proof.
  destruct new_tcb_fields as (_ & _ & N3 & _ & N5 & _).
  intros [(-> & ->)|[(Hn & -> & ->)|(Hn & Hr & E)]]%switch_lookup Hl Hrd Hi.
  - fold new_tcb in Hrd. congruence.
  - destruct (is_top_best _ _ _ _ _ r (put_back s r rc) HI2 Htop) as [Hni (c & E & Hp)];
      rewrite ?lookup_insert_eq; try done.
    + unfold run_out in Hl. rsimpl_in Hl. by rewrite flag_clr_out in Hl.
    + unfold run_out in Hrd. rsimpl_in Hrd. by rewrite flag_clr_out in Hrd.
    + split; [done|]. rewrite N5. unfold run_out. rsimpl. congruence.
  - destruct (is_top_best _ _ _ _ _ t c HI2 Htop) as [Hni (c' & E' & Hp)];
      rewrite ?lookup_insert_ne; try done.
    split; [done|]. rewrite N5. congruence.
Qed.
End new_run.
End switch.
