(* ===== verification/SchedTop.v ===== *)
(** [LOS_Schedule]: the task switch together with the switch of the host threads, and
    the invariant of the whole scheduler between two system calls. *)

From S2P Require Import Prelude DList Kernel Tick SortLink Mem Pmcu Sched SchedInv SchedOps SchedDelay.
From S2P Require Import SchedSwitch.

(** ** Host threads *)

(** A host thread is ready to run the task [t]. *)
Definition has_thread (ths : gmap Z PMCU_Thread) (t : Z) : Prop :=
  is_Some (pmcu_find ths (fun th => (t =? thr_taskid th) && valid th)).

Lemma pmcu_find_Some ths p i :
  pmcu_find ths p = Some i → ∃ th, ths !! i = Some th ∧ p th = true.
Proof.
  unfold pmcu_find. intros [_ E]%List.find_some. destruct (ths !! i) as [th|]; [eauto|done].
Qed.

Lemma pmcu_find_is_Some ths p :
  is_Some (pmcu_find ths p) ↔
  ∃ i th, i ∈ seqZ 0 THREAD_NUMBER ∧ ths !! i = Some th ∧ p th = true.
Proof.
  unfold pmcu_find. split.
  - intros [i [Hi E]%List.find_some]. apply list_elem_of_In in Hi.
    destruct (ths !! i) as [th|] eqn:Et; [|done]. eauto.
  - intros (i & th & Hi & Et & Hp). destruct (List.find _ _) eqn:E; [eauto|].
    apply list_elem_of_In in Hi. pose proof (List.find_none _ _ E i Hi) as Hn. simpl in Hn.
    rewrite Et in Hn. congruence.
Qed.

Lemma has_thread_invalidate ths j tj f t :
  ths !! j = Some tj → valid tj = false → valid (f tj) = false →
  has_thread (<[j := f tj]> ths) t ↔ has_thread ths t.
Proof.
  intros Ej Hv Hv'. unfold has_thread. rewrite !pmcu_find_is_Some.
  split; intros (i & th & Hi & Et & Hp); apply andb_true_iff in Hp as Hp';
    exists i, th; (split; [done|]); split; try done.
  - destruct (decide (j = i)) as [->|]; [|by rewrite lookup_insert_ne in Et].
    rewrite lookup_insert_eq in Et. simplify_eq. naive_solver congruence.
  - rewrite lookup_insert_ne; [done|]. intros ->. simplify_eq. naive_solver congruence.
Qed.

(** ** Everything the scheduler may change besides tasks, lists and bitmap *)

Definition sframe (s s1 : kstate) : Prop :=
  ∃ i old base load rt rid nw rn mtx self ths,
    s1 = s <| interrupt_flag := i |> <| g_oldTickTimerBase := old |>
      <| g_tickTimerBase := base |> <| g_SysTickLoad := load |>
      <| g_schedResponseTime := rt |> <| g_schedResponseID := rid |>
      <| newTask := nw |> <| runTask := rn |> <| systick_mutex := mtx |>
      <| pthread_self := self |> <| pmcu_threads := ths |>.

Lemma sframe_refl s : sframe s s.
Proof.
  exists (interrupt_flag s), (g_oldTickTimerBase s), (g_tickTimerBase s), (g_SysTickLoad s),
    (g_schedResponseTime s), (g_schedResponseID s), (newTask s), (runTask s),
    (systick_mutex s), (pthread_self s), (pmcu_threads s). tframe_eq s.
Qed.

Lemma sframe_trans s1 s2 s3 : sframe s1 s2 → sframe s2 s3 → sframe s1 s3.
Proof.
  intros (? & ? & ? & ? & ? & ? & ? & ? & ? & ? & ? & ->)
    (i & o & bs & ld & rt & rid & nw & rn & m & sf & ths & ->).
  exists i, o, bs, ld, rt, rid, nw, rn, m, sf, ths. tframe_eq s1.
Qed.

Lemma tframe_sframe s n s1 : tframe (s <| newTask := n |>) s1 → sframe s s1.
Proof.
  intros (i & o & bs & ld & rt & rid & ->).
  exists i, o, bs, ld, rt, rid, n, (runTask s), (systick_mutex s), (pthread_self s),
    (pmcu_threads s). tframe_eq s.
Qed.

Lemma sframe_runTask s v : sframe s (s <| runTask := v |>).
Proof.
  exists (interrupt_flag s), (g_oldTickTimerBase s), (g_tickTimerBase s), (g_SysTickLoad s),
    (g_schedResponseTime s), (g_schedResponseID s), (newTask s), v,
    (systick_mutex s), (pthread_self s), (pmcu_threads s). tframe_eq s.
Qed.

(** What a switch of host threads touches. *)
Definition threads_upd (s : kstate) (i : Z) (mtx : bool) (self : Z)
    (ths : gmap Z PMCU_Thread) : kstate :=
  s <| interrupt_flag := i |> <| systick_mutex := mtx |> <| pthread_self := self |>
    <| pmcu_threads := ths |>.

Lemma threads_upd_id s :
  threads_upd s (interrupt_flag s) (systick_mutex s) (pthread_self s) (pmcu_threads s) = s.
Proof. by destruct s. Qed.

Lemma sframe_threads s i mtx self ths : sframe s (threads_upd s i mtx self ths).
Proof.
  exists i, (g_oldTickTimerBase s), (g_tickTimerBase s), (g_SysTickLoad s),
    (g_schedResponseTime s), (g_schedResponseID s), (newTask s), (runTask s),
    mtx, self, ths. tframe_eq s.
Qed.

Lemma threads_upd_push s T h b i mtx self ths :
  threads_upd (sched_upd s T h b) i mtx self ths =
  sched_upd (threads_upd s i mtx self ths) T h b.
Proof. destruct s; vm_compute; reflexivity. Qed.

Lemma sframe_fields s s1 :
  sframe s s1 →
  g_idleTaskID s1 = g_idleTaskID s ∧ tick_periodMax s1 = tick_periodMax s ∧
  g_tickResponsePrecision s1 = g_tickResponsePrecision s ∧ g_sysClock s1 = g_sysClock s ∧
  g_swtmrCBArray s1 = g_swtmrCBArray s ∧ ram s1 = ram s ∧
  g_taskScheduled s1 = g_taskScheduled s ∧ g_losTaskLock s1 = g_losTaskLock s.
Proof. intros (? & ? & ? & ? & ? & ? & ? & ? & ? & ? & ? & ->). split_and!; reflexivity. Qed.

(** The switch from the thread of task [r] to the thread of task [n]. *)
Lemma wp_Pthread_Schedule s n r (Q : unit → kstate → Prop) :
  has_thread (pmcu_threads s) n →
  (∀ i mtx self ths, (∀ t, has_thread ths t ↔ has_thread (pmcu_threads s) t) →
     Q tt (threads_upd s i mtx self ths)) →
  wp (Pthread_Schedule n r) Q s.
Proof.
  intros Hth HQ. pose proof Hth as [i Hi]. unfold Pthread_Schedule.
  assert (Q tt s) as HQ0 by (rewrite <- (threads_upd_id s); by apply HQ).
  destruct (n =? r); [done|]. wp_steps. rewrite Hi. wp_steps.
  destruct (pmcu_find_Some _ _ _ Hi) as (ti & Eti & _). unfold get_thread. wp_steps.
  rewrite Eti. wp_steps. destruct (pthread_self s =? Thread ti); [done|].
  assert (∀ st i mtx self ths, (∀ t, has_thread ths t ↔ has_thread (pmcu_threads s) t) →
    st = threads_upd s i mtx self ths → Q tt st) as HQ' by (intros; subst; by apply HQ).
  wp_steps. unfold PMCU_BE_Enable_Irq. wp_steps. rsimpl.
  destruct (pmcu_find (pmcu_threads s) (fun t => r =? thr_taskid t)) as [j|] eqn:Hj; wp_steps.
  2: { apply (HQ' _ 1 false (pthread_self s) (pmcu_threads s)); [done|].
       clear. destruct s; vm_compute; reflexivity. }
  destruct (pmcu_find_Some _ _ _ Hj) as (tj & Etj & _). rsimpl. rewrite Etj. wp_steps.
  destruct (valid tj) eqn:Hv.
  - unfold Suspend_Thread_Self, PMCU_BE_Disable_Irq, PMCU_BE_Enable_Irq. wp_steps.
    apply (HQ' _ 1 false (Thread ti) (pmcu_threads s)); [done|].
    clear. destruct s; vm_compute; reflexivity.
  - unfold mod_thread, get_thread. wp_steps. rsimpl. rewrite Etj. wp_steps. rsimpl.
    set (ths' := <[j := _]> _).
    assert (∀ t, has_thread ths' t ↔ has_thread (pmcu_threads s) t) as Hth'
      by (intros t; by apply (has_thread_invalidate _ j tj
            (fun t => t <| thr_taskid := UINT32_MAX |> <| Thread := 0 |>))).
    destruct (Thread tj =? pthread_self s); wp_steps.
    + unfold PMCU_BE_Enable_Irq. wp_steps. apply (HQ' _ 1 false (Thread ti) ths'); [done|].
      clear. destruct s; vm_compute; reflexivity.
    + apply (HQ' _ 1 false (pthread_self s) ths'); [done|].
      clear. destruct s; vm_compute; reflexivity.
Qed.

(** ** The invariant of the scheduler *)

Record KInv `{Config} (s : kstate) (LS : lists) : Prop := {
  k_wf : WF (dlheap s) LS;
  k_queues : QInv (g_idleTaskID s) (g_taskCBArray s) LS (g_queueBitmap s);
  k_swtmr : swtmr_ok s LS;
  k_tick : TickCfg s;
  k_clock : 1 ≤ LOSCFG_BASE_CORE_TICK_PER_SECOND ∧ 0 ≤ g_sysClock s < 2 ^ 31;
  k_time : ClockOk s;
  k_magic : map_Forall (fun _ c => live c → magic_ok s c) (g_taskCBArray s);
  k_threads : map_Forall (fun t c => live c → has_thread (pmcu_threads s) t) (g_taskCBArray s)
}.
#[global] Arguments k_wf {_ _ _} _.
#[global] Arguments k_queues {_ _ _} _.
#[global] Arguments k_swtmr {_ _ _} _.
#[global] Arguments k_tick {_ _ _} _.
#[global] Arguments k_clock {_ _ _} _.
#[global] Arguments k_time {_ _ _} _.
#[global] Arguments k_magic {_ _ _} _.
#[global] Arguments k_threads {_ _ _} _.

(** [r] is the running task. *)
Definition Running (s : kstate) (r : Z) (rc : LosTaskCB) : Prop :=
  runTask s = Some r ∧ RunInv s (g_taskCBArray s) r rc ∧ magic_ok s rc.

(** Between two system calls the running task also wants to run. *)
Definition SysInv `{Config} (s : kstate) (LS : lists) : Prop :=
  KInv s LS ∧ ∃ r rc, Running s r rc ∧ unblocked rc.

Section arch.
  Context `{Config}.

Lemma switch_live s T r n rc cn t c' :
  T !! r = Some rc → <[r := put_back s r rc]> T !! n = Some cn →
  switch_tasks s T r n rc cn !! t = Some c' → live c' →
  ∃ c, T !! t = Some c ∧ live c ∧ topOfStack c' = topOfStack c.
Proof.
  intros Er En. destruct (put_back_fields s r rc) as (_ & _ & _ & _ & Htop & _ & Hun & _).
  intros [(-> & ->)|[(Hn & -> & ->)|(Hn & Hr & E)]]%switch_lookup Hl; [| |eauto].
  - assert (live cn ∧ topOfStack (unready (if r =? n then cn
      else run_in (startTime (put_back s r rc)) cn)) = topOfStack cn) as [Hln ->].
    { revert Hl. unfold unready, run_in. destruct (r =? n); rsimpl; fsimpl; done. }
    destruct (decide (r = n)) as [<-|].
    + rewrite lookup_insert_eq in En. simplify_eq. exists rc. by rewrite <- Hun.
    + rewrite lookup_insert_ne in En by done. eauto.
  - exists rc. split; [done|]. revert Hl. unfold run_out. rsimpl. fsimpl. by rewrite Hun.
Qed.

(** The parts of the state the invariant looks at besides tasks, lists, bitmap and clock. *)
Definition kframe (s s1 : kstate) : Prop :=
  g_idleTaskID s1 = g_idleTaskID s ∧ tick_periodMax s1 = tick_periodMax s ∧
  g_tickResponsePrecision s1 = g_tickResponsePrecision s ∧ g_sysClock s1 = g_sysClock s ∧
  g_swtmrCBArray s1 = g_swtmrCBArray s ∧ ram s1 = ram s ∧
  ∀ t, has_thread (pmcu_threads s1) t ↔ has_thread (pmcu_threads s) t.

Lemma sframe_kframe s s1 :
  sframe s s1 → (∀ t, has_thread (pmcu_threads s1) t ↔ has_thread (pmcu_threads s) t) →
  kframe s s1.
Proof.
  intros Hf Hth. destruct (sframe_fields _ _ Hf) as (F1 & F2 & F3 & F4 & F5 & F6 & _).
  done.
Qed.

Lemma KInv_upd s s1 LS LS' h' T' b' :
  KInv s LS → kframe s s1 →
  lists_frame LS LS' → WF h' LS' → QInv (g_idleTaskID s) T' LS' b' →
  ClockOk s1 →
  (∀ t c', T' !! t = Some c' → live c' →
     ∃ c, g_taskCBArray s !! t = Some c ∧ live c ∧ topOfStack c' = topOfStack c) →
  KInv (sched_upd s1 T' h' b') LS'.
Proof.
  intros [K1 K2 K3 K4 K5 K6 K7 K8] (F1 & F2 & F3 & F4 & F5 & F6 & Hth) Hfr HW HI Ht Hlive.
  constructor.
  - exact HW.
  - change (QInv (g_idleTaskID s1) T' LS' b'). by rewrite F1.
  - eapply swtmr_ok_ext; [exact F5|by apply Hfr|exact K3].
  - by apply (TickCfg_ext s).
  - change (1 ≤ LOSCFG_BASE_CORE_TICK_PER_SECOND ∧ 0 ≤ g_sysClock s1 < 2 ^ 31). by rewrite F4.
  - exact Ht.
  - intros t c' E Hl. destruct (Hlive t c' E Hl) as (c & Ec & Hlc & Htop).
    change (magic_ok s1 c'). unfold magic_ok. rewrite Htop, F6. exact (K7 t c Ec Hlc).
  - intros t c' E Hl. destruct (Hlive t c' E Hl) as (c & Ec & Hlc & Htop).
    change (has_thread (pmcu_threads s1) t). apply Hth. exact (K8 t c Ec Hlc).
Qed.

(** The task switch with all its effects. *)
Lemma wp_ArchTaskSchedule s LS r rc (Q : unit → kstate → Prop) :
  let T := g_taskCBArray s in
  KInv s LS → Running s r rc → now s < TIME_HORIZON →
  (∀ n cn LS2 b2 s1 LS' h' b',
     QInv (g_idleTaskID s) (<[r := put_back s r rc]> T) LS2 b2 →
     parked_lists s LS r (slice_tcb (g_idleTaskID s) (now s) rc) LS2 →
     is_top (g_idleTaskID s) LS2 n → <[r := put_back s r rc]> T !! n = Some cn →
     let s' := sched_upd s1 (switch_tasks s T r n rc cn) h' b' in
     sframe s s1 → clock_moved s s1 → q_frame LS LS' → KInv s' LS' →
     Running s' n (new_tcb s r n rc cn) → unblocked (new_tcb s r n rc cn) → Q tt s') →
  wp ArchTaskSchedule Q s.
Proof.
  intros T HK (Hr & HR & Hm) Hhor HQ. pose proof HK as [K1 K2 K3 K4 [K5 K5'] (K6 & K6' & K6'') K7 K8].
  unfold ArchTaskSchedule. wp_step. rewrite <- (sched_upd_id s) at 1.
  eapply wpu_OsSchedTaskSwitch; [exact K1|exact K2|exact HR|exact Hr|exact K3|done|exact K4|exact Hm|exact K5|exact K5'|].
  intros n cn LS2 b2 s1 LS' h' b' HI2 Hpk Htop En T' Hf Hc Hfr HW' HI'.
  pose proof Hc as (Hc1 & Hc2 & Hc3 & Hc4 & Hc5).
  assert (ClockOk s1) by done.
  pose proof (switch_RunInv _ _ _ _ _ _ _ _ HR HI2 Htop En s1 ltac:(lia) Hf Hc) as HR'.
  pose proof (new_tcb_fields _ _ _ _ _ _ _ _ HR HI2 Htop En) as (_ & _ & _ & _ & _ & _ & _ & Hub).
  pose proof (tframe_sframe _ _ _ Hf) as Hsf.
  pose proof (r_tcb _ _ _ _ HR) as Er. fold T in Er.
  pose proof (r_tcb _ _ _ _ HR') as En'.
  assert (newTask s1 = Some n ∧ runTask s1 = Some r ∧ pmcu_threads s1 = pmcu_threads s ∧ ram s1 = ram s)
    as (Hnew & Hrun & Hths & Hram).
  { destruct Hf as (i & o & bs & ld & rt & rid & ->). split; [reflexivity|].
    split; [exact Hr|done]. }
  assert (∀ t c', T' !! t = Some c' → live c' →
    ∃ c, T !! t = Some c ∧ live c ∧ topOfStack c' = topOfStack c) as Hlive
    by (intros t c'; by apply switch_live).
  assert (magic_ok s1 (new_tcb s r n rc cn)) as Hmn.
  { destruct (Hlive n _ En') as (c & Ec & Hlc & Htp); [apply Hub|]. unfold magic_ok.
    rewrite Htp, Hram. exact (K7 n c Ec Hlc). }
  destruct (Z.eqb_spec r n) as [Ern|Hne]; simpl; wpu_steps.
  - eapply (HQ n cn LS2 b2 s1 LS' h' b' HI2 Hpk Htop En Hsf Hc Hfr); [| |exact Hub].
    + eapply (KInv_upd s); try done; [|by apply q_frame_lists].
      apply sframe_kframe; [done|by rewrite Hths].
    + split; [|split; [by apply (RunInv_ext s1)|exact Hmn]]. by rewrite <- Ern.
  - assert (is_Some (T' !! r)) as [rc' Er'].
    { unfold T', switch_tasks. destruct (Z.eqb_spec r n); [done|].
      rewrite lookup_insert_ne, lookup_insert_eq by done. eauto. }
    rewrite Hnew. wpu_steps. rewrite Hnew.
    assert (taskID (new_tcb s r n rc cn) = n) as ->
      by (eapply live_ok; [exact HI'|exact En'|apply Hub]).
    apply wp_Pthread_Schedule.
    { destruct (Hlive n _ En') as (c & Ec & Hlc & Htp); [apply Hub|]. su_simpl. rsimpl.
      rewrite Hths. exact (K8 n c Ec Hlc). }
    intros i mtx self ths Hth. rewrite threads_upd_push. su_simpl. rsimpl_in Hth.
    assert (sframe s (threads_upd (s1 <| runTask := Some n |>) i mtx self ths)) as Hsf'.
    { eapply sframe_trans; [exact Hsf|]. eapply sframe_trans; [apply sframe_runTask|].
      apply sframe_threads. }
    eapply (HQ n cn LS2 b2 _ LS' h' b' HI2 Hpk Htop En Hsf' Hc Hfr); [| |exact Hub].
    + eapply (KInv_upd s); [exact HK| |exact (q_frame_lists _ _ Hfr)|exact HW'|exact HI'|done|exact Hlive].
      apply sframe_kframe; [exact Hsf'|]. intros t. rewrite <- Hths. apply Hth.
    + split; [done|]. split; [by apply (RunInv_ext s1)|exact Hmn].
Qed.
End arch.

(** ** The invariant is decidable *)

#[export] Instance unblocked_dec c : Decision (unblocked c).
Proof. unfold unblocked. apply _. Defined.
#[export] Instance magic_ok_dec s c : Decision (magic_ok s c).
Proof. unfold magic_ok. apply _. Defined.
#[export] Instance has_thread_dec ths t : Decision (has_thread ths t).
Proof. unfold has_thread. apply _. Defined.
#[export] Instance swtmr_ok_dec `{Config} s LS : Decision (swtmr_ok s LS).
Proof.
  unfold swtmr_ok.
  assert (∀ x, Decision (match x with
    | SwtmrNode i => is_Some (g_swtmrCBArray s !! i) | _ => False end)) by (intros []; apply _).
  apply _.
Defined.
#[export] Instance TickCfg_dec s : Decision (TickCfg s).
Proof. unfold TickCfg. apply _. Defined.

#[export] Instance RunInv_dec s T r rc : Decision (RunInv s T r rc).
Proof.
  refine (cast_if (decide (
    (T !! r = Some rc ∧ st rc OS_TASK_STATUS_RUNNING = true ∧
     st rc OS_TASK_STATUS_READY = false ∧
     (live rc → sortList_responseTime rc = OS_SORT_LINK_INVALID_TIME) ∧
     (st rc OS_TASK_STATUS_UNUSED = true →
       st rc OS_TASK_STATUS_DELAY = false ∧ st rc OS_TASK_STATUS_PEND_TIME = false)) ∧
    0 ≤ startTime rc ≤ g_oldTickTimerBase s ∧
    map_Forall (fun _ c => 0 ≤ waitTimes c < 2 ^ 32) T ∧
    map_Forall (fun t c => live c → st c OS_TASK_STATUS_RUNNING = true → t = r) T ∧
    match T !! g_idleTaskID s with
    | Some ic => unblocked ic ∧ (r ≠ g_idleTaskID s → st ic OS_TASK_STATUS_READY = true)
    | None => False
    end))).
  - destruct (T !! g_idleTaskID s); apply _.
  - abstract (destruct (T !! g_idleTaskID s) eqn:E; destruct_and?; [|done];
      constructor; try done; rewrite E; eauto).
  - abstract (intros [? ? ? ? ? ? ? ? (ic & E & ? & ?)]; rewrite E in *; tauto).
Defined.

#[export] Instance ClockOk_dec s : Decision (ClockOk s).
Proof. unfold ClockOk. apply _. Defined.

#[export] Instance KInv_dec `{Config} s LS : Decision (KInv s LS).
Proof.
  refine (cast_if (decide (
    (WF (dlheap s) LS ∧ QInv (g_idleTaskID s) (g_taskCBArray s) LS (g_queueBitmap s)) ∧
    swtmr_ok s LS ∧ TickCfg s ∧
    (1 ≤ LOSCFG_BASE_CORE_TICK_PER_SECOND ∧ 0 ≤ g_sysClock s < 2 ^ 31) ∧
    ClockOk s ∧
    map_Forall (fun _ c => live c → magic_ok s c) (g_taskCBArray s) ∧
    map_Forall (fun t c => live c → has_thread (pmcu_threads s) t) (g_taskCBArray s))));
    abstract (first [by intros; destruct_and?; constructor | intros []; tauto]).
Defined.

#[export] Instance Running_dec s r rc : Decision (Running s r rc).
Proof. unfold Running. apply _. Defined.

(** ** The scheduler entry point *)

Lemma wp_LOS_Schedule `{Config} s LS r rc (Q : unit → kstate → Prop) :
  let T := g_taskCBArray s in
  KInv s LS → Running s r rc → now s < TIME_HORIZON →
  g_taskScheduled s = true → g_losTaskLock s = 0 →
  (∀ n cn LS2 b2 s1 LS' h' b',
     QInv (g_idleTaskID s) (<[r := put_back s r rc]> T) LS2 b2 →
     parked_lists s LS r (slice_tcb (g_idleTaskID s) (now s) rc) LS2 →
     is_top (g_idleTaskID s) LS2 n → <[r := put_back s r rc]> T !! n = Some cn →
     let s' := sched_upd s1 (switch_tasks s T r n rc cn) h' b' in
     sframe s s1 → clock_moved s s1 → q_frame LS LS' → KInv s' LS' →
     Running s' n (new_tcb s r n rc cn) → unblocked (new_tcb s r n rc cn) → Q tt s') →
  wp LOS_Schedule Q s.
Proof.
  intros T HK HR Hh Hs Hlk HQ. unfold LOS_Schedule, OsCheckKernelRunning. wp_steps.
  rewrite Hs, Hlk. simpl. by eapply wp_ArchTaskSchedule.
Qed.

(** ** States that differ in fields the invariant does not look at *)

Definition ksame (s s' : kstate) : Prop :=
  dlheap s' = dlheap s ∧ g_taskCBArray s' = g_taskCBArray s ∧
  g_queueBitmap s' = g_queueBitmap s ∧ g_tickTimerBase s' = g_tickTimerBase s ∧
  g_oldTickTimerBase s' = g_oldTickTimerBase s ∧ g_SysTickLoad s' = g_SysTickLoad s ∧
  g_idleTaskID s' = g_idleTaskID s ∧ tick_periodMax s' = tick_periodMax s ∧
  g_tickResponsePrecision s' = g_tickResponsePrecision s ∧ g_sysClock s' = g_sysClock s ∧
  g_swtmrCBArray s' = g_swtmrCBArray s ∧ ram s' = ram s ∧ pmcu_threads s' = pmcu_threads s.

Lemma KInv_same `{Config} s s' LS : ksame s s' → KInv s LS → KInv s' LS.
Proof.
  intros (E1 & E2 & E3 & E4 & E5 & E6 & E7 & E8 & E9 & E10 & E11 & E12 & E13)
    [K1 K2 K3 K4 K5 K6 K7 K8].
  constructor; unfold swtmr_ok, TickCfg, ClockOk, now in *;
    rewrite ?E1, ?E2, ?E3, ?E4, ?E5, ?E6, ?E7, ?E8, ?E9, ?E10, ?E11, ?E13; try done.
  unfold magic_ok in *. by rewrite E12.
Qed.

Lemma Running_same s s' r rc :
  ksame s s' → runTask s' = runTask s → Running s r rc → Running s' r rc.
Proof.
  intros (E1 & E2 & E3 & E4 & E5 & E6 & E7 & E8 & E9 & E10 & E11 & E12 & E13) Er (R1 & R2 & R3).
  split; [by rewrite Er|]. unfold magic_ok in *. rewrite E2, E12. split; [|done].
  by apply (RunInv_ext s).
Qed.

Lemma KInv_TimeOk `{Config} s LS : KInv s LS → now s < TIME_HORIZON → TimeOk s.
Proof. intros HK Hn. destruct (k_time HK) as (? & ? & ?). done. Qed.
