(* ===== verification/SchedTrans.v ===== *)
(** The state changes of a task: waiting, waking, delaying, suspending, resuming and
    changing priority keep the invariant of the queues. *)

From S2P Require Import Prelude DList Kernel Tick SortLink Mem Pmcu Sched SchedInv SchedOps SchedDelay.
From S2P Require Import SchedSwitch SchedTop.

(** ** The running task changes its own state *)

Lemma RunInv_run s T r rc c' :
  RunInv s T r rc → r ≠ g_idleTaskID s ∨ unblocked c' →
  st c' OS_TASK_STATUS_RUNNING = true → st c' OS_TASK_STATUS_READY = false →
  live c' → live rc → sortList_responseTime c' = sortList_responseTime rc →
  0 ≤ startTime c' ≤ g_oldTickTimerBase s → 0 ≤ waitTimes c' < 2 ^ 32 →
  RunInv s (<[r := c']> T) r c'.
Proof.
  intros [R1 R2 R3 R4 R5 R6 R7 R8 R9] Hi Hrun Hrd Hl Hl0 Hrt Hst Hw. constructor; try done.
  - apply lookup_insert_eq.
  - intros _. rewrite Hrt. auto.
  - intros Hu. congruence.
  - intros t c [[<- <-]|[? E]]%lookup_insert_Some; [done|]. eauto.
  - intros t c [[<- <-]|[? E]]%lookup_insert_Some; [done|]. eauto.
  - destruct R9 as (ic & Ei & Hu & Hrdy). destruct (decide (r = g_idleTaskID s)) as [E|Hne].
    + rewrite <- E. rewrite lookup_insert_eq. exists c'. naive_solver.
    + rewrite lookup_insert_ne by done. eauto.
Qed.

(** A task other than the running one and the idle one changes. *)
Lemma RunInv_other s T r rc t c c' :
  RunInv s T r rc → T !! t = Some c → t ≠ r → t ≠ g_idleTaskID s →
  (live c' → live c) → st c' OS_TASK_STATUS_RUNNING = st c OS_TASK_STATUS_RUNNING →
  waitTimes c' = waitTimes c → RunInv s (<[t := c']> T) r rc.
Proof.
  intros [R1 R2 R3 R4 R5 R6 R7 R8 R9] Et Hr Hi Hl Hrun Hw. constructor; try done.
  - by rewrite lookup_insert_ne.
  - intros t' c0 [[<- <-]|[? E]]%lookup_insert_Some; [rewrite Hw|]; eauto.
  - intros t' c0 [[<- <-]|[? E]]%lookup_insert_Some; [|eauto].
    intros Hl' Hrun'. rewrite Hrun in Hrun'. eauto.
  - rewrite lookup_insert_ne by done. done.
Qed.

(** The parts of the state of a task that the invariants of the running task use. *)
Lemma unblocked_alt c :
  unblocked c ↔ live c ∧ st c OS_TASK_STATUS_PEND_TIME = false ∧
    st c OS_TASK_STATUS_DELAY = false ∧ st c OS_TASK_STATUS_PEND = false ∧
    st c OS_TASK_STATUS_SUSPEND = false ∧ st c OS_TASK_STATUS_EXIT = false.
Proof.
  unfold unblocked, OS_TASK_BLOCKED_STATUS. rewrite !flag_lor, !orb_false_iff. tauto.
Qed.

(** ** Waiting *)

Definition wait_tcb (ticks : Z) (c : LosTaskCB) : LosTaskCB :=
  let c1 := c <| taskStatus := setflag (taskStatus c) OS_TASK_STATUS_PEND |> in
  if ticks =? LOS_WAIT_FOREVER then c1
  else c1 <| taskStatus := setflag (taskStatus c1) OS_TASK_STATUS_PEND_TIME |>
          <| waitTimes := ticks |>.

Lemma QInv_wait idle T LS bm t c hd xs ticks :
  QInv idle T LS bm → T !! t = Some c → unblocked c → st c OS_TASK_STATUS_READY = false →
  sortList_responseTime c = OS_SORT_LINK_INVALID_TIME →
  is_wait hd = true → LS !! hd = Some xs →
  QInv idle (<[t := wait_tcb ticks c]> T) (<[hd := xs ++ [PendList t]]> LS) bm.
Proof.
  intros HI Et (Hl & Hpt & Hd & Hp & Hs & He)%unblocked_alt Hr Hrt Hhd E.
  destruct (q_tasks HI _ _ Et) as [_ Hok]. specialize (Hok Hl).
  assert (¬ placed LS (PendList t)) as Hnp by (apply Hok; auto).
  assert (same_but (.= PendList t) LS (<[hd := xs ++ [PendList t]]> LS)) as HS
    by (apply (same_but_insert _ _ _ _ _ E); intros x Hx; set_solver).
  assert (waits (<[hd := xs ++ [PendList t]]> LS) t) as Hw.
  { apply waits_alt. exists hd. split; [done|].
    rewrite members_insert, decide_True by done. set_solver. }
  eapply QInv_update; [exact HI|exact Et|..].
  - eapply same_but_weaken; [|exact HS]. intros x ->. by left.
  - unfold task_ok. rewrite (same_but_placed _ _ _ (SortLinkNode t) HS) by done.
    unfold wait_tcb. destruct (ticks =? LOS_WAIT_FOREVER); rsimpl; fsimpl;
      intuition congruence.
  - intros hd' x [-> | ->] Hx.
    + assert (hd' = hd) as ->.
      { rewrite members_insert in Hx. case_decide; [done|]. destruct Hnp.
        apply placed_alt. eauto. }
      unfold member_ok. rewrite lookup_insert_eq.
      assert (live (wait_tcb ticks c) ∧ st (wait_tcb ticks c) OS_TASK_STATUS_PEND = true)
        by (unfold wait_tcb; destruct (ticks =? LOS_WAIT_FOREVER); rsimpl; by fsimpl).
      by destruct hd.
    + apply (proj2 HS) in Hx; [|done]. destruct (proj2 (proj2 (proj2 (proj2 (proj2 (proj2 (proj2
        (proj2 (proj2 Hok)))))))) Hrt). apply placed_alt. eauto.
  - apply bits_other; [by intros p ->|apply HI].
  - apply HI.
  - rewrite sorted_other by (by intros ->). eapply sorted_update; [exact Et| |apply HI].
    intros _. unfold wait_tcb. by destruct (ticks =? LOS_WAIT_FOREVER).
Qed.

Lemma wpu_OsSchedTaskWait s T h b LS r rc hd xs ticks (Q : unit → kstate → Prop) :
  WF h LS → QInv (g_idleTaskID s) T LS b → runTask s = Some r → RunInv s T r rc →
  unblocked rc → r ≠ g_idleTaskID s → 0 ≤ ticks < 2 ^ 32 →
  is_wait hd = true → LS !! hd = Some xs →
  (∀ h', let T' := <[r := wait_tcb ticks rc]> T in
     let LS' := <[hd := xs ++ [PendList r]]> LS in
     WF h' LS' → QInv (g_idleTaskID s) T' LS' b → RunInv s T' r (wait_tcb ticks rc) →
     Q tt (sched_upd s T' h' b)) →
  wp (OsSchedTaskWait hd ticks) Q (sched_upd s T h b).
Proof.
  intros HW HI Hr HR Hub Hi Ht Hhd E HQ. pose proof HR as [Er Hrun Hrd Hrt _ Hst Hw _ _].
  pose proof Hub as (Hl & Hpt & Hd & Hp & Hs & He)%unblocked_alt.
  assert (∀ h', WF h' (<[hd := xs ++ [PendList r]]> LS) →
    Q tt (sched_upd s (<[r := wait_tcb ticks rc]> T) h' b)) as HQ'.
  { intros h' HW'. apply HQ; [done|by apply QInv_wait; auto|].
    apply RunInv_run with (rc := rc); auto; unfold wait_tcb;
      destruct (ticks =? LOS_WAIT_FOREVER); rsimpl; fsimpl; try done.
    by apply (Hw _ _ Er). }
  unfold OsSchedTaskWait, wait_tcb in *. wpu_steps.
  eapply wpu_list_tail_insert; [exact HW|exact E| |].
  { eapply not_linked; [exact HI|done|]. destruct (q_tasks HI _ _ Er) as [_ Hok].
    apply (Hok Hl); auto. }
  intros h' HW'. specialize (HQ' h' HW'). wpu_step.
  destruct (ticks =? LOS_WAIT_FOREVER); simpl; wpu_steps; exact HQ'.
Qed.

(** ** Waking *)

Definition unpend_status (v : Z) : Z :=
  if flag v OS_TASK_STATUS_PEND_TIME
  then clrflag (clrflag v OS_TASK_STATUS_PEND) OS_TASK_STATUS_PEND_TIME
  else clrflag v OS_TASK_STATUS_PEND.
Definition unpend_tcb (c : LosTaskCB) : LosTaskCB :=
  c <| taskStatus := unpend_status (taskStatus c) |>
    <| sortList_responseTime := OS_SORT_LINK_INVALID_TIME |>.
Definition woken_tcb (s : kstate) (t : Z) (c : LosTaskCB) : LosTaskCB :=
  if st c OS_TASK_STATUS_SUSPEND || st c OS_TASK_STATUS_RUNNING then unpend_tcb c
  else enq_tcb s t (unpend_tcb c).

Lemma unpend_flags v m :
  Z.ldiff m OS_TASK_STATUS_PEND = m → Z.ldiff m OS_TASK_STATUS_PEND_TIME = m →
  flag (unpend_status v) m = flag v m.
Proof.
  intros H1 H2. unfold unpend_status.
  destruct (flag v OS_TASK_STATUS_PEND_TIME); by rewrite !flag_clr_out.
Qed.

Lemma unpend_cleared v :
  flag (unpend_status v) OS_TASK_STATUS_PEND = false ∧
  flag (unpend_status v) OS_TASK_STATUS_PEND_TIME = false.
Proof.
  unfold unpend_status. destruct (flag v OS_TASK_STATUS_PEND_TIME) eqn:E; fsimpl; done.
Qed.

Ltac unpend_simpl :=
  repeat match goal with
  | |- context [flag (unpend_status ?v) OS_TASK_STATUS_PEND] =>
      rewrite (proj1 (unpend_cleared v))
  | |- context [flag (unpend_status ?v) OS_TASK_STATUS_PEND_TIME] =>
      rewrite (proj2 (unpend_cleared v))
  | |- context [flag (unpend_status ?v) ?m] => rewrite (unpend_flags v m) by done
  end.

(** The wait list [hd] of [LS] loses [t], the other wait lists stay. *)
Definition unwaited (t : Z) (LS LS' : lists) : Prop :=
  ∃ hd l1 l2, is_wait hd = true ∧ LS !! hd = Some (l1 ++ PendList t :: l2) ∧
    LS' !! hd = Some (l1 ++ l2) ∧
    ∀ hd', is_wait hd' = true → hd' ≠ hd → LS' !! hd' = LS !! hd'.

Lemma QInv_unpend idle T h LS LS2 bm t c hd l1 l2 :
  WF h LS → QInv idle T LS bm → T !! t = Some c → live c → st c OS_TASK_STATUS_PEND = true →
  is_wait hd = true → LS !! hd = Some (l1 ++ PendList t :: l2) →
  undelayed t c (<[hd := l1 ++ l2]> LS) LS2 →
  QInv idle (<[t := unpend_tcb c]> T) LS2 bm ∧ detached LS2 t (unpend_tcb c).
Proof.
  intros HW HI Et Hl Hp Hhd E Hun.
  destruct (q_tasks HI _ _ Et) as [_ Hok]. specialize (Hok Hl).
  destruct (live_ok _ _ _ _ _ _ HI Et Hl) as (Hid & Hpr & Hrb & Hf).
  assert (st c OS_TASK_STATUS_READY = false ∧ st c OS_TASK_STATUS_EXIT = false) as [Hr He]
    by (destruct (st c OS_TASK_STATUS_READY), (st c OS_TASK_STATUS_EXIT); intuition congruence).
  set (c1 := c <| sortList_responseTime := OS_SORT_LINK_INVALID_TIME |>).
  assert (hd ≠ TaskSortLink) as Hne by (by intros ->).
  assert (∃ LS1, undelayed t c LS LS1 ∧ LS1 !! hd = Some (l1 ++ PendList t :: l2) ∧
    LS2 = <[hd := l1 ++ l2]> LS1) as (LS1 & Hun1 & E1 & ->).
  { destruct Hun as [[Hinv ->]|(k1 & k2 & Ek & ->)].
    - exists LS. split; [by left|done].
    - exists (<[TaskSortLink := k1 ++ k2]> LS). rewrite lookup_insert_ne in Ek by done.
      split; [right; eauto|]. split; [by rewrite lookup_insert_ne|].
      by rewrite insert_insert_ne. }
  pose proof (QInv_undelayed _ _ _ _ _ _ _ _ HW HI Et Hl Hun1) as HI1. fold c1 in HI1.
  assert (same_but (.= PendList t) LS1 (<[hd := l1 ++ l2]> LS1)) as HS
    by by apply (same_but_remove _ _ _ _ _ _ E1).
  assert (¬ placed (<[hd := l1 ++ l2]> LS1) (PendList t)) as Hnp.
  { pose proof (WF_remove_out _ _ _ _ _ _ HW E) as Hout. rewrite placed_alt in Hout |- *.
    intros (hd' & Hx). apply Hout. exists hd'. revert Hx. rewrite !members_insert.
    case_decide; [done|]. destruct Hun1 as [[_ ->]|(k1 & k2 & Ek & ->)]; [done|].
    rewrite members_insert. case_decide; [|done]. subst.
    rewrite (members_Some _ _ _ Ek). set_solver. }
  assert (limbo c1 (unpend_tcb c)) as Hlim.
  { unfold limbo, unpend_tcb, c1. rsimpl. unpend_simpl. unfold OS_PRIORITY_QUEUE_NUM. intuition congruence. }
  split.
  - rewrite <- (insert_insert_eq T t _ c1). eapply QInv_limbo; [exact HI1|apply lookup_insert_eq|..];
      try done.
    + intros p. rewrite lookup_insert_ne; [done|]. by intros ->.
    + by rewrite lookup_insert_ne.
  - unfold detached, unpend_tcb. rsimpl. by unpend_simpl.
Qed.

Lemma wpu_OsSchedTaskWake `{Config} s T h b LS t c (Q : unit → kstate → Prop) :
  WF h LS → QInv (g_idleTaskID s) T LS b → T !! t = Some c → live c →
  st c OS_TASK_STATUS_PEND = true →
  (∀ i rt LS' h' b', unwaited t LS LS' → lists_frame LS LS' → WF h' LS' →
     QInv (g_idleTaskID s) (<[t := woken_tcb s t c]> T) LS' b' →
     Q tt (sched_upd (s <| interrupt_flag := i |> <| g_schedResponseTime := rt |>)
             (<[t := woken_tcb s t c]> T) h' b')) →
  wp (OsSchedTaskWake t) Q (sched_upd s T h b).
Proof.
  intros HW HI Et Hl Hp HQ.
  destruct (q_tasks HI _ _ Et) as [_ Hok]. specialize (Hok Hl).
  unfold OsSchedTaskWake. wpu_step.
  rewrite <- (insert_id T t c) at 1 by done.
  eapply wpu_unpend; [exact HW|exact HI|by apply Hok|].
  intros hd l1 l2 h1 Hhd E LS1 HW1 _ _ _ _. rewrite insert_id by done. wpu_steps. rsimpl. fsimpl.
  (* the tail of the function, from a state where the task is in no list *)
  assert (∀ i rt LS2 h2, undelayed t c LS1 LS2 → WF h2 LS2 →
    wp (c ← get_tcb t;
        when (negb (flag (taskStatus c) OS_TASK_STATUS_SUSPEND) &&
              negb (flag (taskStatus c) OS_TASK_STATUS_RUNNING)) (OsSchedTaskEnQueue t)) Q
       (sched_upd (s <| interrupt_flag := i |> <| g_schedResponseTime := rt |>)
          (<[t := unpend_tcb c]> T) h2 b)) as Hrest.
  { intros i rt LS2 h2 Hun HW2.
    destruct (QInv_unpend _ _ _ _ _ _ _ _ _ _ _ HW HI Et Hl Hp Hhd E Hun) as [HI2 Hd].
    assert (unwaited t LS LS2 ∧ lists_frame LS LS2) as [Huw Hfr].
    { assert (hd ≠ TaskSortLink) by (by intros ->).
      destruct Hun as [[_ ->]|(k1 & k2 & Ek & ->)]; (split; [|intros hd' Hh]).
      - exists hd, l1, l2. unfold LS1. rewrite lookup_insert_eq. split_and!; try done.
        intros. by rewrite lookup_insert_ne.
      - unfold LS1. rewrite lookup_insert_ne; [done|]. intros <-. by destruct hd.
      - exists hd, l1, l2. unfold LS1. rewrite lookup_insert_ne, lookup_insert_eq by done.
        split_and!; try done. intros hd' Hh ?.
        rewrite lookup_insert_ne by (by intros <-). by rewrite lookup_insert_ne.
      - unfold LS1. rewrite !lookup_insert_ne; [done|..]; intros <-; by destruct hd. }
    unfold woken_tcb in HQ. wpu_steps. unfold unpend_tcb at 1 2. rsimpl. unpend_simpl.
    rewrite <- negb_orb.
    destruct (st c OS_TASK_STATUS_SUSPEND || st c OS_TASK_STATUS_RUNNING); simpl.
    - by eapply HQ.
    - eapply wpu_OsSchedTaskEnQueue; [exact HW2|exact HI2|apply lookup_insert_eq|exact Hd|].
      rewrite insert_insert_eq. intros h3 b3 HW3 HI3.
      eapply (HQ i rt); [| |exact HW3|exact HI3].
      + destruct Huw as (hd0 & m1 & m2 & A1 & A2 & A3 & A4). exists hd0, m1, m2.
        unfold enq_lists. destruct (_ =? _); [done|]. split_and!; try done.
        * rewrite lookup_insert_ne; [done|]. by intros <-.
        * intros hd' Hh Hne. rewrite lookup_insert_ne; [auto|]. by intros <-.
      + eapply frame_off_trans; [exact Hfr|apply q_frame_lists, frame_off_enq]. }
  assert (sortList_responseTime c ≠ OS_SORT_LINK_INVALID_TIME →
    SortLinkNode t ∈ members LS1 TaskSortLink) as Hm.
  { intros Hne. unfold LS1. rewrite members_insert, decide_False by (by intros ->).
    by apply Hok. }
  unfold unpend_tcb, unpend_status in Hrest.
  destruct (st c OS_TASK_STATUS_PEND_TIME) eqn:Hpt.
  - wpu_step. eapply wpu_OsDeleteSortLink; [exact HW1|apply lookup_insert_eq|exact Hm|].
    intros rt h2 LS2 Hun HW2. rewrite insert_insert_eq. cbv beta. wpu_step.
    eapply Hrest; [exact Hun|exact HW2].
  - assert (sortList_responseTime c = OS_SORT_LINK_INVALID_TIME) as Hinv.
    { destruct (Z.eq_dec (sortList_responseTime c) OS_SORT_LINK_INVALID_TIME); [done|].
      destruct Hok as (_ & _ & _ & Hpd & _ & _ & _ & _ & Hx & _). intuition congruence. }
    specialize (Hrest (interrupt_flag s) (g_schedResponseTime s) LS1 h1 (or_introl (conj Hinv eq_refl)) HW1).
    rewrite <- Hinv in Hrest. destruct c, s. exact Hrest.
Qed.
