(* ===== verification/SchedTick.v ===== *)
(** The tick interrupt: the scan of the delay queue, the accounting of the running task and
    the switch that follows. *)

From S2P Require Import Prelude DList Kernel Tick SortLink Mem Pmcu Sched SchedInv SchedOps SchedDelay.
From S2P Require Import SchedSwitch SchedTop SchedTrans.

(** ** The scan of the delay queue *)

Lemma wpu_OsSchedScanTimerList s T h b LS (Q : bool → kstate → Prop) :
  WF h LS → QInv (g_idleTaskID s) T LS b → TimeOk s →
  (∀ s1 LS' h' b' need', s1 = s ∨ s1 = tick_read s →
     (need' = true ↔ someone_wakes (now s) T) → lists_frame LS LS' → waits_shrink LS LS' →
     WF h' LS' →
     QInv (g_idleTaskID s) (scan_tasks s (now s) T) LS' b' →
     Q need' (sched_upd s1 (scan_tasks s (now s) T) h' b')) →
  wp OsSchedScanTimerList Q (sched_upd s T h b).
Proof.
  intros HW HI HT HQ. destruct (delay_Some _ _ _ _ HI) as (xs & E & Hxs).
  unfold OsSchedScanTimerList. wpu_step. eapply wpu_list_empty; [exact HW|exact E|].
  destruct xs as [|x xs].
  - rewrite bool_decide_eq_true_2 by done. wpu_steps.
    destruct (scan_done s (now s) _ _ _ _ HI) as [Es Hno].
    { intros x Hx. rewrite Hxs in Hx. set_solver. }
    rewrite Es in HQ. eapply HQ; [by left| |done|done|exact HW|exact HI]. naive_solver.
  - rewrite bool_decide_eq_false_2 by done. wpu_step. apply wpu_LOS_SysCycleGet; [exact HT|].
    wpu_steps. eapply (wpu_OsSchedScanTimerList_loop (tick_read s)); [exact HW|exact HI|exact E| |].
    + pose proof (WF_size _ _ _ _ HW E). simpl in *. lia.
    + intros LS' h' b' need' Hn Hfr Hws HW' HI'.
      eapply HQ; [by right| |exact Hfr|exact Hws|exact HW'|exact HI']. naive_solver.
Qed.

(** What a wake-up leaves alone. *)
Lemma wake_tcb_fields s t c :
  let c' := wake_tcb s t c in
  waitTimes c' = waitTimes c ∧ topOfStack c' = topOfStack c ∧ priority c' = priority c ∧
  taskID c' = taskID c ∧
  st c' OS_TASK_STATUS_UNUSED = st c OS_TASK_STATUS_UNUSED ∧
  st c' OS_TASK_STATUS_RUNNING = st c OS_TASK_STATUS_RUNNING.
Proof.
  unfold wake_tcb, enq_tcb, timeout_tcb, enq_status.
  destruct (st c OS_TASK_STATUS_SUSPEND), (st c OS_TASK_STATUS_PEND); rsimpl; fsimpl; try done;
    destruct (_ || _); rsimpl; fsimpl; done.
Qed.

Lemma scan_one_fields s cur t c :
  let c' := scan_one s cur t c in
  waitTimes c' = waitTimes c ∧ topOfStack c' = topOfStack c ∧ priority c' = priority c ∧
  taskID c' = taskID c ∧
  st c' OS_TASK_STATUS_UNUSED = st c OS_TASK_STATUS_UNUSED ∧
  st c' OS_TASK_STATUS_RUNNING = st c OS_TASK_STATUS_RUNNING.
Proof.
  unfold scan_one. destruct (expired cur c); [|done].
  destruct (wake_tcb_fields s t (c <| sortList_responseTime := OS_SORT_LINK_INVALID_TIME |>))
    as (E1 & E2 & E3 & E4 & E5 & E6).
  by rewrite E1, E2, E3, E4, E5, E6.
Qed.

Lemma scan_not_expired s cur t c :
  (live c → sortList_responseTime c = OS_SORT_LINK_INVALID_TIME) → scan_one s cur t c = c.
Proof.
  intros Hrt. unfold scan_one, expired. destruct (st c OS_TASK_STATUS_UNUSED); [done|].
  rewrite Hrt by done. done.
Qed.

Lemma unblocked_time idle T LS bm t c :
  QInv idle T LS bm → T !! t = Some c → unblocked c →
  sortList_responseTime c = OS_SORT_LINK_INVALID_TIME.
Proof.
  intros HI Et (Hl & Hpt & Hd & _)%unblocked_alt.
  destruct (q_tasks HI _ _ Et) as [_ Hok]. specialize (Hok Hl).
  destruct (Z.eq_dec (sortList_responseTime c) OS_SORT_LINK_INVALID_TIME); [done|].
  intuition congruence.
Qed.

Lemma RunInv_scan s T LS bm r rc cur :
  RunInv s T r rc → QInv (g_idleTaskID s) T LS bm → RunInv s (scan_tasks s cur T) r rc.
Proof.
  intros [R1 R2 R3 R4 R5 R6 R7 R8 R9] HI. constructor; try done.
  - rewrite scan_tasks_lookup, R1. simpl. by rewrite scan_not_expired.
  - intros t c'. rewrite scan_tasks_lookup. intros (c & E & ->)%fmap_Some.
    destruct (scan_one_fields s cur t c) as (-> & _). eauto.
  - intros t c'. rewrite scan_tasks_lookup. intros (c & E & ->)%fmap_Some.
    destruct (scan_one_fields s cur t c) as (_ & _ & _ & _ & -> & ->). eauto.
  - destruct R9 as (ic & Ei & Hub & Hrd). exists ic. rewrite scan_tasks_lookup, Ei. simpl.
    rewrite scan_not_expired; [done|]. intros _. by eapply unblocked_time.
Qed.

(** Changes of the running task that concern its clock only. *)
Lemma RunInv_clock s s1 T r rc c' :
  RunInv s T r rc → g_idleTaskID s1 = g_idleTaskID s →
  taskStatus c' = taskStatus rc → waitTimes c' = waitTimes rc →
  sortList_responseTime c' = sortList_responseTime rc →
  0 ≤ startTime c' ≤ g_oldTickTimerBase s1 → RunInv s1 (<[r := c']> T) r c'.
Proof.
  intros [R1 R2 R3 R4 R5 R6 R7 R8 R9] Eid Es Ew Er Hst.
  constructor; rewrite ?Es, ?Er, ?Eid; try done.
  - apply lookup_insert_eq.
  - intros t c [[<- <-]|[? E]]%lookup_insert_Some; [rewrite Ew|]; eauto.
  - intros t c [[<- <-]|[? E]]%lookup_insert_Some; [done|]. eauto.
  - destruct R9 as (ic & Ei & Hub & Hrd). destruct (decide (r = g_idleTaskID s)) as [E|Hne].
    + rewrite <- E in *. rewrite lookup_insert_eq. exists c'. simplify_eq.
      unfold unblocked. by rewrite Es.
    + rewrite lookup_insert_ne by done. eauto.
Qed.

(** ** Programming the tick for the running task *)

Lemma wpu_OsIsPmMode `{Config} s T h b (Q : bool → kstate → Prop) :
  (∀ i p, Q p (sched_upd (s <| interrupt_flag := i |>) T h b)) →
  wp OsIsPmMode Q (sched_upd s T h b).
Proof.
  intros HQ. unfold OsIsPmMode. destruct LOSCFG_KERNEL_PM; wpu_steps.
  - apply (HQ 1).
  - specialize (HQ (interrupt_flag s) false). by destruct s.
Qed.

Lemma wpu_OsSchedUpdateExpireTime `{Config} s T h b LS r rc (Q : unit → kstate → Prop) :
  WF h LS → QInv (g_idleTaskID s) T LS b → swtmr_ok s LS → TimeOk s → TickCfg s →
  runTask s = Some r → T !! r = Some rc →
  (∀ s1, tframe s s1 → (clock_moved s s1 ∨ s1 = s) → Q tt (sched_upd s1 T h b)) →
  wp OsSchedUpdateExpireTime Q (sched_upd s T h b).
Proof.
  intros HW HI Hsw HT HC Hr Er HQ. unfold OsSchedUpdateExpireTime. wpu_steps.
  destruct (_ || _); [wpu_steps; apply HQ; auto with tframe|].
  wpu_step. apply wpu_OsIsPmMode. intros i p. cbv beta. wpu_steps.
  eapply wpu_OsSchedSetNextExpireTime; [exact HW|exact HI|exact Hsw|exact HT|exact HC|].
  intros s1 Hf Hc _. apply HQ; [|by left].
  eapply tframe_trans; [|exact Hf]. auto with tframe.
Qed.

(** ** The tick interrupt *)

(** [s1] is [s] after some readings of the counter. *)
Definition read_frame (s s1 : kstate) : Prop :=
  ∃ i old, g_oldTickTimerBase s ≤ old ≤ now s ∧
    s1 = s <| interrupt_flag := i |> <| g_oldTickTimerBase := old |>.

Lemma read_frame_refl s : TimeOk s → read_frame s s.
Proof.
  intros (_ & ? & _). exists (interrupt_flag s), (g_oldTickTimerBase s).
  split; [lia|]. by destruct s.
Qed.

Lemma read_frame_int s s1 i : read_frame s s1 → read_frame s (s1 <| interrupt_flag := i |>).
Proof. intros (j & old & Ho & ->). exists i, old. split; [done|]. tframe_eq s. Qed.

Lemma read_frame_tick_read s s1 : read_frame s s1 → read_frame s (tick_read s1).
Proof.
  intros (j & old & Ho & ->). exists 1, (now s). split; [lia|]. unfold tick_read.
  change (now (_ <| _ := _ |>)) with (now s). generalize (now s). intros n. tframe_eq s.
Qed.

Lemma read_frame_trans s1 s2 s3 : read_frame s1 s2 → read_frame s2 s3 → read_frame s1 s3.
Proof.
  intros (i & o & Ho & ->) (j & o' & Ho' & ->). exists j, o'.
  change (now (_ <| _ := _ |>)) with (now s1) in Ho'. rsimpl_in Ho'.
  split; [lia|]. tframe_eq s1.
Qed.

Lemma read_frame_fields s s1 :
  read_frame s s1 → TimeOk s →
  TimeOk s1 ∧ now s1 = now s ∧ kframe s s1 ∧ runTask s1 = runTask s ∧
  g_losTaskLock s1 = g_losTaskLock s ∧ g_oldTickTimerBase s ≤ g_oldTickTimerBase s1.
Proof.
  intros (j & old & Ho & ->) (H1 & H2 & H3). split_and!; try reflexivity; try done; [|rsimpl; lia].
  unfold TimeOk. change (now (_ <| _ := _ |>)) with (now s). rsimpl. lia.
Qed.

(** The part of the handler that scans the delay queue. *)
Lemma wpu_tick_scan s T h b LS swtmrScan (Q : unit → kstate → Prop) :
  WF h LS → QInv (g_idleTaskID s) T LS b → TimeOk s → g_swtmrScan s = false →
  0 ≤ g_tickIntLock s < 2 ^ 16 →
  (∀ s1 LS' h' b', read_frame s s1 →
     let T' := if g_schedResponseID s =? OS_INVALID then scan_tasks s (now s) T else T in
     lists_frame LS LS' → waits_shrink LS LS' → WF h' LS' →
     QInv (g_idleTaskID s) T' LS' b' →
     Q tt (sched_upd s1 T' h' b')) →
  wp (when (g_schedResponseID s =? OS_INVALID) (
      modify (fun s => s <| g_tickIntLock := u16 (g_tickIntLock s + 1) |>);;
      scan ← gets g_swtmrScan;
      when scan ((swtmrScan : K bool);; mret tt);;
      OsSchedScanTimerList;;
      modify (fun s => s <| g_tickIntLock := u16 (g_tickIntLock s - 1) |>))) Q
    (sched_upd s T h b).
Proof.
  intros HW HI HT Hsc Hlk HQ. wpu_step.
  destruct (g_schedResponseID s =? OS_INVALID).
  2: { by apply (HQ s LS h b); [apply read_frame_refl|..]. }
  wpu_steps. rewrite Hsc. simpl. wpu_steps.
  set (s2 := s <| g_tickIntLock := _ |>).
  assert (u16 (g_tickIntLock s2 - 1) = g_tickIntLock s) as Elk.
  { unfold s2. rsimpl. unfold u16. rewrite Zminus_mod_idemp_l, Z.add_simpl_r.
    apply Z.mod_small. lia. }
  eapply (wpu_OsSchedScanTimerList s2); [exact HW|exact HI|exact HT|].
  intros s1 LS' h' b' need' Hs1 _ Hfr Hws HW' HI'. wpu_steps.
  assert (g_tickIntLock s1 = g_tickIntLock s2) as -> by (by destruct Hs1 as [-> | ->]).
  rewrite Elk. eapply HQ; [|exact Hfr|exact Hws|exact HW'|exact HI'].
  assert (s2 <| g_tickIntLock := g_tickIntLock s |> = s) as E2 by (unfold s2; by destruct s).
  destruct Hs1 as [-> | ->]; [rewrite E2; by apply read_frame_refl|].
  assert ((tick_read s2) <| g_tickIntLock := g_tickIntLock s |> = tick_read s) as ->.
  { unfold tick_read. change (now s2) with (now s). generalize (now s). intros n.
    unfold s2. generalize (u16 (g_tickIntLock s + 1)). intros m. tframe_eq s. }
  by apply read_frame_tick_read, read_frame_refl.
Qed.

Lemma read_frame_sframe s s1 : read_frame s s1 → sframe s s1.
Proof.
  intros (i & old & _ & ->).
  exists i, old, (g_tickTimerBase s), (g_SysTickLoad s), (g_schedResponseTime s),
    (g_schedResponseID s), (newTask s), (runTask s), (systick_mutex s), (pthread_self s),
    (pmcu_threads s). tframe_eq s.
Qed.

Lemma sframe_schedResponseTime s s1 v : sframe s s1 → sframe s (s1 <| g_schedResponseTime := v |>).
Proof.
  intros (i & o & bs & ld & rt & rid & nw & rn & m & sf & ths & ->).
  exists i, o, bs, ld, v, rid, nw, rn, m, sf, ths. tframe_eq s.
Qed.

Section handler.
  Context `{Config} (s : kstate) (LS : lists) (r : Z) (rc : LosTaskCB).
  Context (HK : KInv s LS) (HR : Running s r rc) (Hh : now s < TIME_HORIZON).

(** The tasks after the scan, and the running task after its time is accounted for. *)
Definition tick_tasks : tasks :=
  if g_schedResponseID s =? OS_INVALID then scan_tasks s (now s) (g_taskCBArray s)
  else g_taskCBArray s.
Definition tick_run : LosTaskCB :=
  (slice_tcb (g_idleTaskID s) (now s) rc) <| startTime := now s |>.

Lemma tick_run_fields :
  taskStatus tick_run = taskStatus rc ∧ priority tick_run = priority rc ∧
  taskID tick_run = taskID rc ∧ waitTimes tick_run = waitTimes rc ∧
  sortList_responseTime tick_run = sortList_responseTime rc ∧
  topOfStack tick_run = topOfStack rc ∧ startTime tick_run = now s.
Proof. unfold tick_run, slice_tcb. by destruct (taskID rc =? g_idleTaskID s). Qed.

Lemma tick_tasks_live t c' :
  <[r := tick_run]> tick_tasks !! t = Some c' → live c' →
  ∃ c, g_taskCBArray s !! t = Some c ∧ live c ∧ topOfStack c' = topOfStack c.
Proof.
  destruct HR as (_ & HRI & _). pose proof (r_tcb _ _ _ _ HRI) as Er.
  destruct tick_run_fields as (E1 & _ & _ & _ & _ & E6 & _).
  intros [[<- <-]|[Hne E]]%lookup_insert_Some Hl.
  - exists rc. by rewrite <- E1.
  - unfold tick_tasks in E. destruct (_ =? _); [|eauto].
    rewrite scan_tasks_lookup in E. apply fmap_Some in E as (c & E & ->).
    destruct (scan_one_fields s (now s) t c) as (_ & -> & _ & _ & Hu & _).
    rewrite Hu in Hl. eauto.
Qed.

Lemma wp_LOS_SchedTickHandler swtmrScan (Q : unit → kstate → Prop) :
  g_taskScheduled s = true → g_swtmrScan s = false → 0 ≤ g_tickIntLock s < 2 ^ 16 →
  (∀ s1 LS' h' b', sframe s s1 → lists_frame LS LS' → waits_shrink LS LS' → now s1 = now s →
     let s2 := sched_upd s1 (<[r := tick_run]> tick_tasks) h' b' in
     KInv s2 LS' → Running s2 r tick_run →
     wp (if g_losTaskLock s =? 0 then ArchTaskSchedule else OsSchedUpdateExpireTime)
       (fun _ s3 => Q tt (s3 <| interrupt_flag := 1 |>)) s2) →
  wp (LOS_SchedTickHandler swtmrScan) Q s.
Proof.
  intros Hs Hsc Hlk HQ. pose proof HK as [K1 K2 K3 K4 K5 (K61 & K62 & K63) K7 K8].
  pose proof HR as (Hr & HRI & Hm). pose proof (KInv_TimeOk _ _ HK Hh) as HT.
  pose proof (r_tcb _ _ _ _ HRI) as Er. pose proof (r_start _ _ _ _ HRI) as Hst.
  unfold LOS_SchedTickHandler. rewrite <- (sched_upd_id s) at 1. wpu_steps. rewrite Hs. simpl.
  wpu_steps. unfold OsGetCurrSchedTimeCycle at 1.
  apply wpu_LOS_SysCycleGet; [exact HT|]. do 3 wpu_step.
  set (s1 := tick_read _).
  assert (read_frame s s1) as Hf1.
  { apply read_frame_tick_read, read_frame_int, read_frame_refl, HT. }
  destruct (read_frame_fields _ _ Hf1 HT) as (HT1 & _).
  eapply (wpu_tick_scan s1); [exact K1|exact K2|exact HT1|exact Hsc|exact Hlk|].
  intros s2 LS2 h2 b2 Hf2' T2 Hfr2 Hws2 HW2 HI2.
  assert (T2 = tick_tasks) as E2 by reflexivity. clearbody T2. subst T2.
  assert (read_frame s s2) as Hf2 by (by eapply read_frame_trans). clear Hf2'.
  destruct (read_frame_fields _ _ Hf2 HT) as (HT2 & Hn2 & Hk2 & Hr2 & Hl2 & Ho2).
  assert (RunInv s tick_tasks r rc) as HRI2.
  { unfold tick_tasks. destruct (g_schedResponseID s =? OS_INVALID); [by eapply RunInv_scan|done]. }
  pose proof (r_tcb _ _ _ _ HRI2) as Er2. rewrite Hr in Hr2. wpu_steps.
  change (now (_ <| _ := _ |>)) with (now s).
  eapply wpu_OsTimeSliceUpdate; [exact Er2|lia|]. wpu_step.
  apply wpu_LOS_SysCycleGet; [exact HT2|]. wpu_steps.
  rewrite Hn2, (proj1 Hk2), Hl2. fold tick_run.
  set (s3 := (tick_read s2) <| g_schedResponseTime := _ |>).
  destruct tick_run_fields as (E1 & E2 & E3 & E4 & E5 & E6 & E7).
  eapply wp_mono; [eapply (HQ s3); [|exact Hfr2|exact Hws2|exact Hn2|..]|].
  - apply sframe_schedResponseTime, read_frame_sframe. by apply read_frame_tick_read.
  - eapply (KInv_upd s); [exact HK|exact Hk2|exact Hfr2|exact HW2| | |exact tick_tasks_live].
    + eapply QInv_irrelevant; [exact HI2|exact Er2|done..].
    + destruct HT2 as (HT21 & HT22 & HT23). unfold ClockOk. change (now s3) with (now s2).
      change (g_SysTickLoad s3) with (g_SysTickLoad s2).
      change (g_oldTickTimerBase s3) with (now s2).
      change (g_tickTimerBase s3) with (g_tickTimerBase s2). lia.
  - split; [exact Hr2|]. split.
    + eapply RunInv_clock; [exact HRI2|exact (proj1 Hk2)|done..|]. rewrite E7.
      change (g_oldTickTimerBase (sched_upd s3 _ _ _)) with (now s2).
      destruct HT as (_ & ? & _). lia.
    + destruct Hk2 as (_ & _ & _ & _ & _ & Hram & _). unfold magic_ok. rewrite E6.
      change (ram (sched_upd s3 _ _ _)) with (ram s2). by rewrite Hram.
  - intros [] s4 HQ4. cbv beta. wp_steps. exact HQ4.
Qed.
End handler.
