(* ===== verification/SchedState.v ===== *)
(** More state changes of tasks: yielding, delaying, suspending, resuming and changing the
    priority keep the invariants of the queues and of the running task. *)

From S2P Require Import Prelude DList Kernel Tick SortLink Mem Pmcu Sched SchedInv SchedOps SchedDelay.
From S2P Require Import SchedSwitch SchedTop SchedTrans SchedTick.

(** ** Delays *)

Definition delay_tcb (tick : Z) (c : LosTaskCB) : LosTaskCB :=
  c <| taskStatus := setflag (taskStatus c) OS_TASK_STATUS_DELAY |> <| waitTimes := tick |>.

Lemma QInv_delay idle T LS bm t c tick :
  QInv idle T LS bm → T !! t = Some c → unblocked c → st c OS_TASK_STATUS_READY = false →
  QInv idle (<[t := delay_tcb tick c]> T) LS bm.
Proof.
  intros HI Et Hub Hr. pose proof (unblocked_time _ _ _ _ _ _ HI Et Hub) as Hrt.
  apply unblocked_alt in Hub as (Hl & Hpt & Hd & Hp & Hs & He).
  destruct (q_tasks HI _ _ Et) as [_ Hok]. specialize (Hok Hl).
  eapply QInv_tcb; [exact HI|exact Et|..|done].
  - unfold task_ok, delay_tcb. rsimpl. fsimpl. intuition congruence.
  - intros hd x Hx Hm. assert (placed LS x) as Hpl by (apply placed_alt; eauto).
    destruct Hx as [-> | ->]; exfalso; revert Hpl; apply Hok; auto.
Qed.

Lemma wpu_OsSchedDelay s T h b LS r rc tick (Q : unit → kstate → Prop) :
  QInv (g_idleTaskID s) T LS b → RunInv s T r rc → unblocked rc → r ≠ g_idleTaskID s →
  0 ≤ tick < 2 ^ 32 →
  (let T' := <[r := delay_tcb tick rc]> T in
   QInv (g_idleTaskID s) T' LS b → RunInv s T' r (delay_tcb tick rc) →
   Q tt (sched_upd s T' h b)) →
  wp (OsSchedDelay r tick) Q (sched_upd s T h b).
Proof.
  intros HI HR Hub Hi Ht HQ. pose proof HR as [Er Hrun Hrd Hrt _ Hst Hw _ _].
  pose proof Hub as (Hl & _)%unblocked_alt.
  unfold OsSchedDelay. wpu_steps. apply HQ.
  - by apply QInv_delay.
  - apply RunInv_run with (rc := rc); unfold delay_tcb; rsimpl; fsimpl; auto.
Qed.

(** ** Yielding *)

Lemma wpu_OsSchedYield s T h b LS r rc (Q : unit → kstate → Prop) :
  QInv (g_idleTaskID s) T LS b → runTask s = Some r → RunInv s T r rc →
  (let c' := rc <| timeSlice := 0 |> in
   QInv (g_idleTaskID s) (<[r := c']> T) LS b → RunInv s (<[r := c']> T) r c' →
   Q tt (sched_upd s (<[r := c']> T) h b)) →
  wp OsSchedYield Q (sched_upd s T h b).
Proof.
  intros HI Hr HR HQ. pose proof (r_tcb _ _ _ _ HR) as Er.
  unfold OsSchedYield. wpu_steps. apply HQ.
  - by eapply QInv_irrelevant.
  - eapply RunInv_clock; try done. apply HR.
Qed.

(** ** Priorities *)

(** A task that is not ready changes its priority. *)
Lemma QInv_prio idle T LS bm t c p :
  QInv idle T LS bm → T !! t = Some c → live c → st c OS_TASK_STATUS_READY = false →
  0 ≤ p < OS_PRIORITY_QUEUE_NUM → QInv idle (<[t := c <| priority := p |>]> T) LS bm.
Proof.
  intros HI Et Hl Hr Hp. destruct (q_tasks HI _ _ Et) as [_ Hok]. specialize (Hok Hl).
  eapply QInv_tcb; [exact HI|exact Et|..|done].
  - unfold task_ok. rsimpl. intuition congruence.
  - intros hd x Hx Hm. pose proof (member_of _ _ _ _ _ _ HI Hm) as Hmo.
    destruct Hx as [-> | ->]; unfold member_ok in *; rewrite lookup_insert_eq; rewrite Et in Hmo;
      destruct hd; try done; rsimpl; intuition congruence.
Qed.

Definition unready_tcb (c : LosTaskCB) : LosTaskCB :=
  c <| taskStatus := clrflag (taskStatus c) OS_TASK_STATUS_READY |>.

(** The task [t] after its priority is set to [p]. *)
Definition prio_tcb (s : kstate) (t p : Z) (c : LosTaskCB) : LosTaskCB :=
  if st c OS_TASK_STATUS_READY then enq_tcb s t ((unready_tcb c) <| priority := p |>)
  else c <| priority := p |>.

(** A task taken from its ready queue can be queued again. *)
Lemma unready_detached idle T h LS LS' bm t c l1 l2 :
  WF h LS → QInv idle T LS bm → T !! t = Some c → live c → t ≠ idle →
  st c OS_TASK_STATUS_READY = true →
  LS !! PriQueue (priority c) = Some (l1 ++ PendList t :: l2) →
  LS' = <[PriQueue (priority c) := l1 ++ l2]> LS →
  detached LS' t (unready_tcb c).
Proof.
  intros HW HI Et Hl Hi Hr E ->. destruct (q_tasks HI _ _ Et) as [_ Hok].
  specialize (Hok Hl). unfold detached, unready_tcb. rsimpl. fsimpl.
  assert (sortList_responseTime c = OS_SORT_LINK_INVALID_TIME) as Hrt.
  { destruct (Z.eq_dec (sortList_responseTime c) OS_SORT_LINK_INVALID_TIME); [done|].
    intuition congruence. }
  split_and!; try done; [by apply Hok|]. eapply WF_remove_out; [exact HW|exact E].
Qed.

Lemma wpu_OsSchedModifyTaskSchedParam s T h b LS t c p (Q : bool → kstate → Prop) :
  WF h LS → QInv (g_idleTaskID s) T LS b → T !! t = Some c → live c → t ≠ g_idleTaskID s →
  0 ≤ p < OS_PRIORITY_QUEUE_NUM →
  (∀ LS' h' b', q_frame LS LS' → WF h' LS' →
     QInv (g_idleTaskID s) (<[t := prio_tcb s t p c]> T) LS' b' →
     Q (st c OS_TASK_STATUS_READY || st c OS_TASK_STATUS_RUNNING)
       (sched_upd s (<[t := prio_tcb s t p c]> T) h' b')) →
  wp (OsSchedModifyTaskSchedParam t p) Q (sched_upd s T h b).
Proof.
  intros HW HI Et Hl Hi Hp HQ. unfold OsSchedModifyTaskSchedParam, prio_tcb in *. wpu_steps.
  destruct (st c OS_TASK_STATUS_READY) eqn:Hr; simpl in HQ.
  - wpu_step. eapply wpu_OsSchedTaskDeQueue; [exact HW|exact HI|exact Et|exact Hl|exact Hr|].
    intros LS1 h1 b1 l1 l2 E ELS c1 HW1 HI1. specialize (E Hi).
    destruct (Z.eqb_spec t (g_idleTaskID s)) as [|_] in ELS; [done|].
    assert (detached LS1 t c1) as Hd.
    { eapply (unready_detached _ _ _ _ _ _ _ c); [exact HW|exact HI|exact Et|done..]. }
    wpu_steps. eapply wpu_OsSchedTaskEnQueue; [exact HW1| |apply lookup_insert_eq|exact Hd|].
    { rewrite <- (insert_insert_eq T t _ c1). eapply QInv_prio; [exact HI1|apply lookup_insert_eq|..];
        try done; apply Hd. }
    rewrite insert_insert_eq. intros h2 b2 HW2 HI2. wpu_steps.
    eapply HQ; [|exact HW2|exact HI2]. eapply frame_off_trans; [|apply frame_off_enq].
    rewrite ELS. by apply frame_off_insert.
  - wpu_steps. rsimpl. eapply HQ; [done|exact HW|]. by eapply QInv_prio.
Qed.

(** ** Suspending *)

Definition suspend_tcb (c : LosTaskCB) : LosTaskCB :=
  let v := if st c OS_TASK_STATUS_READY then clrflag (taskStatus c) OS_TASK_STATUS_READY
           else taskStatus c in
  c <| taskStatus := setflag v OS_TASK_STATUS_SUSPEND |>.

(** A task that is not ready is marked as suspended. *)
Lemma QInv_suspend idle T LS bm t c :
  QInv idle T LS bm → T !! t = Some c → live c → st c OS_TASK_STATUS_READY = false →
  QInv idle (<[t := c <| taskStatus := setflag (taskStatus c) OS_TASK_STATUS_SUSPEND |>]> T) LS bm.
Proof.
  intros HI Et Hl Hr. destruct (q_tasks HI _ _ Et) as [_ Hok]. specialize (Hok Hl).
  eapply QInv_tcb; [exact HI|exact Et|..|done].
  - unfold task_ok. rsimpl. fsimpl. intuition congruence.
  - intros hd x Hx Hm. pose proof (member_of _ _ _ _ _ _ HI Hm) as Hmo.
    destruct Hx as [-> | ->]; unfold member_ok in *; rewrite lookup_insert_eq; rewrite Et in Hmo;
      destruct hd; try done; rsimpl; fsimpl; intuition congruence.
Qed.

Lemma wpu_OsSchedSuspend `{Config} s T h b LS t c (Q : unit → kstate → Prop) :
  LOSCFG_KERNEL_PM = false →
  WF h LS → QInv (g_idleTaskID s) T LS b → T !! t = Some c → live c → t ≠ g_idleTaskID s →
  (∀ LS' h' b', q_frame LS LS' → WF h' LS' →
     QInv (g_idleTaskID s) (<[t := suspend_tcb c]> T) LS' b' →
     Q tt (sched_upd s (<[t := suspend_tcb c]> T) h' b')) →
  wp (OsSchedSuspend t) Q (sched_upd s T h b).
Proof.
  intros Hpm HW HI Et Hl Hi HQ. unfold OsSchedSuspend, suspend_tcb in *. wpu_steps.
  destruct (st c OS_TASK_STATUS_READY) eqn:Hr.
  - eapply wpu_OsSchedTaskDeQueue; [exact HW|exact HI|exact Et|exact Hl|exact Hr|].
    intros LS1 h1 b1 l1 l2 E ELS c1 HW1 HI1. cbv beta. wpu_step. unfold OsIsPmMode. rewrite Hpm.
    wpu_steps. rewrite andb_false_r. wpu_steps.
    eapply HQ; [|exact HW1|].
    + rewrite ELS. destruct (_ =? _); [done|]. by apply frame_off_insert.
    + rewrite <- (insert_insert_eq T t _ c1).
      apply (QInv_suspend _ _ _ _ t c1 HI1 (lookup_insert_eq _ _ _)); unfold c1; rsimpl; by fsimpl.
  - unfold OsIsPmMode. rewrite Hpm. wpu_steps. rewrite andb_false_r. wpu_steps.
    eapply HQ; [done|exact HW|]. by eapply QInv_suspend.
Qed.

(** ** Resuming *)

Definition unsuspend_tcb (c : LosTaskCB) : LosTaskCB :=
  c <| taskStatus := clrflag (taskStatus c) OS_TASK_STATUS_SUSPEND |>.
Definition resume_tcb (s : kstate) (t : Z) (c : LosTaskCB) : LosTaskCB :=
  if st c (Z.lor OS_TASK_STATUS_DELAY OS_TASK_STATUS_PEND) then unsuspend_tcb c
  else enq_tcb s t (unsuspend_tcb c).

Lemma QInv_unsuspend idle T LS bm t c :
  QInv idle T LS bm → T !! t = Some c → live c → st c OS_TASK_STATUS_READY = false →
  QInv idle (<[t := unsuspend_tcb c]> T) LS bm.
Proof.
  intros HI Et Hl Hr. destruct (q_tasks HI _ _ Et) as [_ Hok]. specialize (Hok Hl).
  eapply QInv_tcb; [exact HI|exact Et|..|done].
  - unfold task_ok, unsuspend_tcb. rsimpl. fsimpl. intuition congruence.
  - intros hd x Hx Hm. pose proof (member_of _ _ _ _ _ _ HI Hm) as Hmo. unfold unsuspend_tcb.
    destruct Hx as [-> | ->]; unfold member_ok in *; rewrite lookup_insert_eq; rewrite Et in Hmo;
      destruct hd; try done; rsimpl; fsimpl; intuition congruence.
Qed.

Lemma wpu_OsSchedResume `{Config} s T h b LS t c (Q : bool → kstate → Prop) :
  WF h LS → QInv (g_idleTaskID s) T LS b → T !! t = Some c → live c →
  st c OS_TASK_STATUS_SUSPEND = true → st c OS_TASK_STATUS_EXIT = false →
  (∀ LS' h' b', q_frame LS LS' → WF h' LS' →
     QInv (g_idleTaskID s) (<[t := resume_tcb s t c]> T) LS' b' →
     Q (negb (st c (Z.lor OS_TASK_STATUS_DELAY OS_TASK_STATUS_PEND)))
       (sched_upd s (<[t := resume_tcb s t c]> T) h' b')) →
  wp (OsSchedResume t) Q (sched_upd s T h b).
Proof.
  intros HW HI Et Hl Hs He HQ.
  destruct (q_tasks HI _ _ Et) as [_ Hok]. specialize (Hok Hl).
  destruct (live_ok _ _ _ _ _ _ HI Et Hl) as (_ & _ & _ & Hf).
  assert (st c OS_TASK_STATUS_READY = false) as Hr
    by (destruct (st c OS_TASK_STATUS_READY); intuition congruence).
  assert (QInv (g_idleTaskID s) (<[t := unsuspend_tcb c]> T) LS b) as HI1
    by (by eapply QInv_unsuspend).
  unfold OsSchedResume, resume_tcb in *. wpu_steps. rewrite Hf. wpu_steps. rsimpl.
  rewrite flag_clr_out by done. fold (unsuspend_tcb c).
  destruct (st c (Z.lor OS_TASK_STATUS_DELAY OS_TASK_STATUS_PEND)) eqn:Hd; simpl in *; wpu_steps.
  - by eapply HQ.
  - rewrite flag_lor in Hd. apply orb_false_iff in Hd as [Hd Hp].
    eapply wpu_OsSchedTaskEnQueue; [exact HW|exact HI1|apply lookup_insert_eq| |].
    + unfold detached, unsuspend_tcb. rsimpl. fsimpl. split_and!; try done.
      * apply Hok; auto.
      * destruct (Z.eq_dec (sortList_responseTime c) OS_SORT_LINK_INVALID_TIME); [done|].
        intuition congruence.
    + rewrite insert_insert_eq. intros h2 b2 HW2 HI2. wpu_steps.
      eapply HQ; [apply frame_off_enq|exact HW2|exact HI2].
Qed.
