(* ===== verification/Event.v ===== *)
(** Events (los_event.c): 32 flags and the tasks that wait for some of them. *)

From S2P Require Import Prelude DList Kernel Tick SortLink Mem Pmcu Sched.

Section Event.
  Context `{Config}.

Definition LOS_WAITMODE_AND : Z := 4.
Definition LOS_WAITMODE_OR : Z := 2.
Definition LOS_WAITMODE_CLR : Z := 1.

Definition LOS_MOD_EVENT : Z := 0x1c.
Definition LOS_ERRNO_EVENT_SETBIT_INVALID : Z := LOS_ERRNO_OS_ERROR LOS_MOD_EVENT 0x00.
Definition LOS_ERRNO_EVENT_READ_TIMEOUT : Z := LOS_ERRNO_OS_ERROR LOS_MOD_EVENT 0x01.
Definition LOS_ERRNO_EVENT_EVENTMASK_INVALID : Z := LOS_ERRNO_OS_ERROR LOS_MOD_EVENT 0x02.
Definition LOS_ERRNO_EVENT_READ_IN_INTERRUPT : Z := LOS_ERRNO_OS_ERROR LOS_MOD_EVENT 0x03.
Definition LOS_ERRNO_EVENT_FLAGS_INVALID : Z := LOS_ERRNO_OS_ERROR LOS_MOD_EVENT 0x04.
Definition LOS_ERRNO_EVENT_READ_IN_LOCK : Z := LOS_ERRNO_OS_ERROR LOS_MOD_EVENT 0x05.
Definition LOS_ERRNO_EVENT_PTR_NULL : Z := LOS_ERRNO_OS_ERROR LOS_MOD_EVENT 0x06.
Definition LOS_ERRNO_EVENT_NOT_INITIALIZED : Z := LOS_ERRNO_OS_ERROR LOS_MOD_EVENT 0x07.
Definition LOS_ERRNO_EVENT_SHOULD_NOT_DESTROYED : Z := LOS_ERRNO_OS_ERROR LOS_MOD_EVENT 0x08.
Definition LOS_ERRNO_EVENT_READ_IN_SYSTEM_TASK : Z := LOS_ERRNO_OS_ERROR LOS_MOD_EVENT 0x09.

(** [eventCB->uwEventID]. *)
Definition get_event (e : evptr) : K Z :=
  match e with
  | EvTask t => c ← get_tcb t; mret (event_uwEventID c)
  | EvUser u => m ← gets userEvents; unwrap NullDeref (m !! u)
  end.
Definition set_event (e : evptr) (v : Z) : K unit :=
  match e with
  | EvTask t => mod_tcb t (fun c => c <| event_uwEventID := v |>)
  | EvUser u => modify (fun s => s <| userEvents := <[u := v]> (userEvents s) |>)
  end.

Definition LOS_EventInit (eventCB : option evptr) : K Z :=
  match eventCB with
  | None => mret LOS_ERRNO_EVENT_PTR_NULL
  | Some e =>
      set_event e 0;;
      list_init (EventList e);;
      mret LOS_OK
  end.

(** The flags a read with this mask and mode is satisfied by; 0 for none. *)
Definition event_match (eventID eventMask mode : Z) : Z :=
  if flag mode LOS_WAITMODE_OR then
    if negb (Z.land eventID eventMask =? 0) then Z.land eventID eventMask else 0
  else
    if negb (eventMask =? 0) && (eventMask =? Z.land eventID eventMask)
    then Z.land eventID eventMask else 0.

(** [LOS_EventPoll(&eventCB->uwEventID, eventMask, mode)]. *)
Definition LOS_EventPoll (eventCB : option evptr) (eventMask mode : Z) : K Z :=
  match eventCB with
  | None => mret LOS_ERRNO_EVENT_PTR_NULL
  | Some e =>
      intSave ← LOS_IntLock;
      id ← get_event e;
      let ret := event_match id eventMask mode in
      when (negb (ret =? 0) && flag mode LOS_WAITMODE_CLR) (set_event e (Z.ldiff id ret));;
      LOS_IntRestore intSave;;
      mret ret
  end.

(** [(eventCB->stEventList.pstNext == NULL) || (eventCB->stEventList.pstPrev == NULL)]. *)
Definition event_uninitialized (e : evptr) : K bool :=
  gets (fun s => bool_decide (pstNext (dlheap s) (EventList e) = None) ||
                 bool_decide (pstPrev (dlheap s) (EventList e) = None)).

Definition OsEventReadParamCheck (eventCB : option evptr) (eventMask mode : Z) : K Z :=
  match eventCB with
  | None => mret LOS_ERRNO_EVENT_PTR_NULL
  | Some e =>
      u ← event_uninitialized e;
      mret (if (u : bool) then LOS_ERRNO_EVENT_NOT_INITIALIZED
        else if eventMask =? 0 then LOS_ERRNO_EVENT_EVENTMASK_INVALID
        else if flag eventMask LOS_ERRTYPE_ERROR then LOS_ERRNO_EVENT_SETBIT_INVALID
        else if (flag mode LOS_WAITMODE_OR && flag mode LOS_WAITMODE_AND)
             || negb (Z.ldiff mode (Z.lor LOS_WAITMODE_OR
                        (Z.lor LOS_WAITMODE_AND LOS_WAITMODE_CLR)) =? 0)
             || negb (flag mode (Z.lor LOS_WAITMODE_OR LOS_WAITMODE_AND))
        then LOS_ERRNO_EVENT_FLAGS_INVALID
        else LOS_OK)
  end.

(** [LOS_EventRead] after [LOS_Schedule()]. *)
Definition LOS_EventRead_resume (runTsk : Z) (e : evptr) (eventMask mode : Z) : K Z :=
  intSave ← LOS_IntLock;
  t ← status_flag runTsk OS_TASK_STATUS_TIMEOUT;
  if (t : bool) then
    status_clr runTsk OS_TASK_STATUS_TIMEOUT;;
    LOS_IntRestore intSave;;
    mret LOS_ERRNO_EVENT_READ_TIMEOUT
  else
    ret ← LOS_EventPoll (Some e) eventMask mode;
    LOS_IntRestore intSave;;
    mret ret.

Definition LOS_EventRead (eventCB : option evptr) (mask mode timeOut : Z)
    : K (outcome Z) :=
  ret ← OsEventReadParamCheck eventCB mask mode;
  if negb (ret =? LOS_OK) then mret (Done ret)
  else
    e ← unwrap NullDeref eventCB;
    active ← ArchIsIntActive;
    if (active : bool) then mret (Done LOS_ERRNO_EVENT_READ_IN_INTERRUPT)
    else
      run ← get_runTask;
      sys ← status_flag run OS_TASK_FLAG_SYSTEM_TASK;
      if (sys : bool) then mret (Done LOS_ERRNO_EVENT_READ_IN_SYSTEM_TASK)
      else
        intSave ← LOS_IntLock;
        ret ← LOS_EventPoll (Some e) mask mode;
        if ret =? 0 then
          if timeOut =? 0 then LOS_IntRestore intSave;; mret (Done ret)
          else
            lock ← gets g_losTaskLock;
            if negb (lock =? 0) then
              LOS_IntRestore intSave;; mret (Done LOS_ERRNO_EVENT_READ_IN_LOCK)
            else
              runTsk ← get_runTask;
              mod_tcb runTsk (fun c => c <| eventMask := mask |>);;
              mod_tcb runTsk (fun c => c <| eventMode := mode |>);;
              OsSchedTaskWait (EventList e) timeOut;;
              LOS_IntRestore intSave;;
              schedule_then (LOS_EventRead_resume runTsk e mask mode)
        else
          LOS_IntRestore intSave;;
          mret (Done ret).

(** Whether a write of [events] that makes the flags [eventID] wakes the waiting task. *)
Definition event_wakes (c : LosTaskCB) (eventID events : Z) : bool :=
  (flag (eventMode c) LOS_WAITMODE_OR && negb (Z.land (eventMask c) events =? 0)) ||
  (flag (eventMode c) LOS_WAITMODE_AND && (Z.land (eventMask c) eventID =? eventMask c)).

(** The [for] loop over the waiting tasks; the result is [exitFlag]. *)
Fixpoint LOS_EventWrite_loop (fuel : nat) (e : evptr) (node : lnode) (events : Z)
    (exitFlag : bool) : K bool :=
  if decide (node = EventList e) then mret exitFlag
  else
    match fuel with
    | O => fail OutOfFuel
    | S fuel =>
        resumedTask ← OS_TCB_FROM_PENDLIST node;
        next ← list_first node;
        c ← get_tcb resumedTask;
        id ← get_event e;
        if event_wakes c id events then
          OsSchedTaskWake resumedTask;;
          LOS_EventWrite_loop fuel e next events true
        else LOS_EventWrite_loop fuel e next events exitFlag
    end.

Definition LOS_EventWrite (eventCB : option evptr) (events : Z) : K Z :=
  match eventCB with
  | None => mret LOS_ERRNO_EVENT_PTR_NULL
  | Some e =>
      u ← event_uninitialized e;
      if (u : bool) then mret LOS_ERRNO_EVENT_NOT_INITIALIZED
      else if flag events LOS_ERRTYPE_ERROR then mret LOS_ERRNO_EVENT_SETBIT_INVALID
      else
        intSave ← LOS_IntLock;
        id ← get_event e;
        set_event e (Z.lor id events);;
        empty ← list_empty (EventList e);
        if negb empty then
          first ← list_first (EventList e);
          fuel ← gets (fun s => size (dlheap s));
          exitFlag ← LOS_EventWrite_loop fuel e first events false;
          LOS_IntRestore intSave;;
          when exitFlag LOS_Schedule;;
          mret LOS_OK
        else
          LOS_IntRestore intSave;;
          mret LOS_OK
  end.

Definition LOS_EventDestroy (eventCB : option evptr) : K Z :=
  match eventCB with
  | None => mret LOS_ERRNO_EVENT_PTR_NULL
  | Some e =>
      intSave ← LOS_IntLock;
      empty ← list_empty (EventList e);
      if negb empty then
        LOS_IntRestore intSave;;
        mret LOS_ERRNO_EVENT_SHOULD_NOT_DESTROYED
      else
        dl_op (fun h => Some (set_prev (set_next h (EventList e) None) (EventList e) None));;
        LOS_IntRestore intSave;;
        mret LOS_OK
  end.

Definition LOS_EventClear (eventCB : option evptr) (mask : Z) : K Z :=
  match eventCB with
  | None => mret LOS_ERRNO_EVENT_PTR_NULL
  | Some e =>
      intSave ← LOS_IntLock;
      id ← get_event e;
      set_event e (Z.land id mask);;
      LOS_IntRestore intSave;;
      mret LOS_OK
  end.

End Event.
