(* ===== verification/Sem.v ===== *)
(** Semaphores (los_sem.c). *)

From S2P Require Import Prelude DList Kernel Tick SortLink Mem Pmcu Sched.

Section Sem.
  Context `{Config} `{Malloc}.

Definition OS_SEM_COUNTING_MAX_COUNT : Z := 0xFFFF.
Definition OS_SEM_BINARY_MAX_COUNT : Z := 1.
Definition OS_SEM_UNUSED : Z := 0.
Definition OS_SEM_USED : Z := 1.

Definition LOS_MOD_SEM : Z := 0x7.
Definition LOS_ERRNO_SEM_NO_MEMORY : Z := LOS_ERRNO_OS_ERROR LOS_MOD_SEM 0x00.
Definition LOS_ERRNO_SEM_INVALID : Z := LOS_ERRNO_OS_ERROR LOS_MOD_SEM 0x01.
Definition LOS_ERRNO_SEM_PTR_NULL : Z := LOS_ERRNO_OS_ERROR LOS_MOD_SEM 0x02.
Definition LOS_ERRNO_SEM_ALL_BUSY : Z := LOS_ERRNO_OS_ERROR LOS_MOD_SEM 0x03.
Definition LOS_ERRNO_SEM_UNAVAILABLE : Z := LOS_ERRNO_OS_ERROR LOS_MOD_SEM 0x04.
Definition LOS_ERRNO_SEM_PEND_INTERR : Z := LOS_ERRNO_OS_ERROR LOS_MOD_SEM 0x05.
Definition LOS_ERRNO_SEM_PEND_IN_LOCK : Z := LOS_ERRNO_OS_ERROR LOS_MOD_SEM 0x06.
Definition LOS_ERRNO_SEM_TIMEOUT : Z := LOS_ERRNO_OS_ERROR LOS_MOD_SEM 0x07.
Definition LOS_ERRNO_SEM_OVERFLOW : Z := LOS_ERRNO_OS_ERROR LOS_MOD_SEM 0x08.
Definition LOS_ERRNO_SEM_PENDED : Z := LOS_ERRNO_OS_ERROR LOS_MOD_SEM 0x09.
Definition LOS_ERRNO_SEM_MAXNUM_ZERO : Z := LOS_ERRNO_OS_ERROR LOS_MOD_SEM 0x0A.
Definition LOS_ERRNO_SEM_PEND_IN_SYSTEM_TASK : Z := LOS_ERRNO_OS_ERROR LOS_MOD_SEM 0x0B.

(** [*GET_SEM(i)]. *)
Definition get_sem (i : Z) : K LosSemCB :=
  a ← gets g_allSem; unwrap OutOfBounds (a !! i).
Definition mod_sem (i : Z) (f : LosSemCB → LosSemCB) : K unit :=
  c ← get_sem i;
  modify (fun s => s <| g_allSem := <[i := f c]> (g_allSem s) |>).

(** [GET_SEM_LIST(ptr)]. *)
Definition GET_SEM_LIST (l : lnode) : K Z :=
  match l with SemList i => mret i | _ => fail NullDeref end.

(** The control blocks come from malloc: the count fields keep what memory holds until
    the semaphore is created. *)
Definition OsSemInit_one (index : Z) : K unit :=
  a ← gets g_allSem;
  let old := default (mkSem 0 0 0 0) (a !! index) in
  modify (fun s => s <| g_allSem :=
    <[index := old <| semID := index |> <| semStat := OS_SEM_UNUSED |>]> (g_allSem s) |>);;
  list_tail_insert UnusedSemList (SemList index).

Definition OsSemInit : K Z :=
  list_init UnusedSemList;;
  if LOSCFG_BASE_IPC_SEM_LIMIT =? 0 then mret LOS_ERRNO_SEM_MAXNUM_ZERO
  else
    p ← LOS_MemAlloc (LOSCFG_BASE_IPC_SEM_LIMIT * sizeof_LosSemCB);
    if p =? 0 then mret LOS_ERRNO_SEM_NO_MEMORY
    else
      for_loop 0 (Z.to_nat LOSCFG_BASE_IPC_SEM_LIMIT) OsSemInit_one;;
      mret LOS_OK.

(** [OsSemCreate(count, maxCount, semHandle)]: the error code and [*semHandle];
    [semHandle] says whether the pointer is not NULL. *)
Definition OsSemCreate (count maxCount : Z) (semHandle : bool) : K (Z * option Z) :=
  if negb semHandle then mret (LOS_ERRNO_SEM_PTR_NULL, None)
  else if maxCount <? count then mret (LOS_ERRNO_SEM_OVERFLOW, None)
  else
    intSave ← LOS_IntLock;
    e ← list_empty UnusedSemList;
    if (e : bool) then
      LOS_IntRestore intSave;;
      mret (LOS_ERRNO_SEM_ALL_BUSY, None)
    else
      unusedSem ← list_first UnusedSemList;
      list_delete unusedSem;;
      semCreated ← GET_SEM_LIST unusedSem;
      mod_sem semCreated (fun c => c <| semCount := count |>);;
      mod_sem semCreated (fun c => c <| semStat := OS_SEM_USED |>);;
      mod_sem semCreated (fun c => c <| maxSemCount := maxCount |>);;
      list_init (SemList semCreated);;
      c ← get_sem semCreated;
      LOS_IntRestore intSave;;
      mret (LOS_OK, Some (semID c)).

Definition LOS_SemCreate (count : Z) (semHandle : bool) : K (Z * option Z) :=
  OsSemCreate count OS_SEM_COUNTING_MAX_COUNT semHandle.
Definition LOS_BinarySemCreate (count : Z) (semHandle : bool) : K (Z * option Z) :=
  OsSemCreate count OS_SEM_BINARY_MAX_COUNT semHandle.

Definition LOS_SemDelete (semHandle : Z) : K Z :=
  if LOSCFG_BASE_IPC_SEM_LIMIT <=? semHandle then mret LOS_ERRNO_SEM_INVALID
  else
    intSave ← LOS_IntLock;
    c ← get_sem semHandle;
    if semStat c =? OS_SEM_UNUSED then
      LOS_IntRestore intSave;; mret LOS_ERRNO_SEM_INVALID
    else
      e ← list_empty (SemList semHandle);
      if negb e then
        LOS_IntRestore intSave;; mret LOS_ERRNO_SEM_PENDED
      else
        list_add UnusedSemList (SemList semHandle);;
        mod_sem semHandle (fun c => c <| semStat := OS_SEM_UNUSED |>);;
        LOS_IntRestore intSave;;
        mret LOS_OK.

Definition OsSemValidCheck (semPended : Z) : K Z :=
  c ← get_sem semPended;
  if semStat c =? OS_SEM_UNUSED then mret LOS_ERRNO_SEM_INVALID
  else
    active ← ArchIsIntActive;
    if (active : bool) then mret LOS_ERRNO_SEM_PEND_INTERR
    else
      lock ← gets g_losTaskLock;
      if negb (lock =? 0) then mret LOS_ERRNO_SEM_PEND_IN_LOCK
      else
        run ← get_runTask;
        sys ← status_flag run OS_TASK_FLAG_SYSTEM_TASK;
        mret (if (sys : bool) then LOS_ERRNO_SEM_PEND_IN_SYSTEM_TASK else LOS_OK).

(** [LOS_SemPend] after [LOS_Schedule()]. *)
Definition LOS_SemPend_resume (runningTask : Z) : K Z :=
  intSave ← LOS_IntLock;
  t ← status_flag runningTask OS_TASK_STATUS_TIMEOUT;
  if (t : bool) then
    status_clr runningTask OS_TASK_STATUS_TIMEOUT;;
    LOS_IntRestore intSave;;
    mret LOS_ERRNO_SEM_TIMEOUT
  else
    LOS_IntRestore intSave;;
    mret LOS_OK.

Definition LOS_SemPend (semHandle timeout : Z) : K (outcome Z) :=
  if LOSCFG_BASE_IPC_SEM_LIMIT <=? semHandle then mret (Done LOS_ERRNO_SEM_INVALID)
  else
    intSave ← LOS_IntLock;
    retErr ← OsSemValidCheck semHandle;
    if negb (retErr =? 0) then LOS_IntRestore intSave;; mret (Done retErr)
    else
      runningTask ← get_runTask;
      c ← get_sem semHandle;
      if 0 <? semCount c then
        mod_sem semHandle (fun c => c <| semCount := u16 (semCount c - 1) |>);;
        LOS_IntRestore intSave;;
        mret (Done LOS_OK)
      else if timeout =? 0 then
        LOS_IntRestore intSave;; mret (Done LOS_ERRNO_SEM_UNAVAILABLE)
      else
        mod_tcb runningTask (fun c => c <| taskSem := Some semHandle |>);;
        OsSchedTaskWait (SemList semHandle) timeout;;
        LOS_IntRestore intSave;;
        schedule_then (LOS_SemPend_resume runningTask).

Definition LOS_SemPost (semHandle : Z) : K Z :=
  if LOSCFG_BASE_IPC_SEM_LIMIT <=? semHandle then mret LOS_ERRNO_SEM_INVALID
  else
    intSave ← LOS_IntLock;
    c ← get_sem semHandle;
    if semStat c =? OS_SEM_UNUSED then
      LOS_IntRestore intSave;; mret LOS_ERRNO_SEM_INVALID
    else if maxSemCount c =? semCount c then
      LOS_IntRestore intSave;; mret LOS_ERRNO_SEM_OVERFLOW
    else
      e ← list_empty (SemList semHandle);
      if negb e then
        first ← list_first (SemList semHandle);
        resumedTask ← OS_TCB_FROM_PENDLIST first;
        mod_tcb resumedTask (fun c => c <| taskSem := None |>);;
        OsSchedTaskWake resumedTask;;
        LOS_IntRestore intSave;;
        LOS_Schedule;;
        mret LOS_OK
      else
        mod_sem semHandle (fun c => c <| semCount := u16 (semCount c + 1) |>);;
        LOS_IntRestore intSave;;
        mret LOS_OK.

(** [LOS_SemGetValue]: the error code and [*currVal]. *)
Definition LOS_SemGetValue (semHandle : Z) : K (Z * option Z) :=
  if LOSCFG_BASE_IPC_SEM_LIMIT <=? semHandle then mret (LOS_ERRNO_SEM_INVALID, None)
  else
    c ← get_sem semHandle;
    mret (0, Some (semCount c)).

End Sem.
