(* ===== verification/Mux.v ===== *)
(** Mutexes with priority inheritance (los_mux.c). *)

From S2P Require Import Prelude DList Kernel Tick SortLink Mem Pmcu Sched.

Section Mux.
  Context `{Config} `{Malloc}.

Definition OS_MUX_UNUSED : Z := 0.
Definition OS_MUX_USED : Z := 1.

Definition LOS_MOD_MUX : Z := 0x1d.
Definition LOS_ERRNO_MUX_NO_MEMORY : Z := LOS_ERRNO_OS_ERROR LOS_MOD_MUX 0x00.
Definition LOS_ERRNO_MUX_INVALID : Z := LOS_ERRNO_OS_ERROR LOS_MOD_MUX 0x01.
Definition LOS_ERRNO_MUX_PTR_NULL : Z := LOS_ERRNO_OS_ERROR LOS_MOD_MUX 0x02.
Definition LOS_ERRNO_MUX_ALL_BUSY : Z := LOS_ERRNO_OS_ERROR LOS_MOD_MUX 0x03.
Definition LOS_ERRNO_MUX_UNAVAILABLE : Z := LOS_ERRNO_OS_ERROR LOS_MOD_MUX 0x04.
Definition LOS_ERRNO_MUX_IN_INTERR : Z := LOS_ERRNO_OS_ERROR LOS_MOD_MUX 0x05.
Definition LOS_ERRNO_MUX_PEND_IN_LOCK : Z := LOS_ERRNO_OS_ERROR LOS_MOD_MUX 0x06.
Definition LOS_ERRNO_MUX_TIMEOUT : Z := LOS_ERRNO_OS_ERROR LOS_MOD_MUX 0x07.
Definition LOS_ERRNO_MUX_PENDED : Z := LOS_ERRNO_OS_ERROR LOS_MOD_MUX 0x09.
Definition LOS_ERRNO_MUX_MAXNUM_ZERO : Z := LOS_ERRNO_OS_ERROR LOS_MOD_MUX 0x0C.
Definition LOS_ERRNO_MUX_PEND_IN_SYSTEM_TASK : Z := LOS_ERRNO_OS_ERROR LOS_MOD_MUX 0x0D.

(** [*GET_MUX(i)]. *)
Definition get_mux (i : Z) : K LosMuxCB :=
  a ← gets g_allMux; unwrap OutOfBounds (a !! i).
Definition mod_mux (i : Z) (f : LosMuxCB → LosMuxCB) : K unit :=
  c ← get_mux i;
  modify (fun s => s <| g_allMux := <[i := f c]> (g_allMux s) |>).

(** [GET_MUX_LIST(ptr)]. *)
Definition GET_MUX_LIST (l : lnode) : K Z :=
  match l with MuxList i => mret i | _ => fail NullDeref end.

Definition OsMuxInit_one (index : Z) : K unit :=
  a ← gets g_allMux;
  let old := default (mkMux 0 0 0 None 0) (a !! index) in
  modify (fun s => s <| g_allMux :=
    <[index := old <| muxID := index |> <| owner := None |> <| muxStat := OS_MUX_UNUSED |>]>
      (g_allMux s) |>);;
  list_tail_insert UnusedMuxList (MuxList index).

Definition OsMuxInit : K Z :=
  list_init UnusedMuxList;;
  if LOSCFG_BASE_IPC_MUX_LIMIT =? 0 then mret LOS_ERRNO_MUX_MAXNUM_ZERO
  else
    p ← LOS_MemAlloc (LOSCFG_BASE_IPC_MUX_LIMIT * sizeof_LosMuxCB);
    if p =? 0 then mret LOS_ERRNO_MUX_NO_MEMORY
    else
      for_loop 0 (Z.to_nat LOSCFG_BASE_IPC_MUX_LIMIT) OsMuxInit_one;;
      mret LOS_OK.

(** [LOS_MuxCreate(muxHandle)]: the error code and [*muxHandle]. *)
Definition LOS_MuxCreate (muxHandle : bool) : K (Z * option Z) :=
  if negb muxHandle then mret (LOS_ERRNO_MUX_PTR_NULL, None)
  else
    intSave ← LOS_IntLock;
    e ← list_empty UnusedMuxList;
    if (e : bool) then
      LOS_IntRestore intSave;;
      mret (LOS_ERRNO_MUX_ALL_BUSY, None)
    else
      unusedMux ← list_first UnusedMuxList;
      list_delete unusedMux;;
      muxCreated ← GET_MUX_LIST unusedMux;
      mod_mux muxCreated (fun c => c <| muxCount := 0 |>);;
      mod_mux muxCreated (fun c => c <| muxStat := OS_MUX_USED |>);;
      mod_mux muxCreated (fun c => c <| muxPriority := 0 |>);;
      mod_mux muxCreated (fun c => c <| owner := None |>);;
      list_init (MuxList muxCreated);;
      c ← get_mux muxCreated;
      LOS_IntRestore intSave;;
      mret (LOS_OK, Some (muxID c)).

Definition LOS_MuxDelete (muxHandle : Z) : K Z :=
  if LOSCFG_BASE_IPC_MUX_LIMIT <=? muxHandle then mret LOS_ERRNO_MUX_INVALID
  else
    intSave ← LOS_IntLock;
    c ← get_mux muxHandle;
    if muxStat c =? OS_MUX_UNUSED then
      LOS_IntRestore intSave;; mret LOS_ERRNO_MUX_INVALID
    else
      e ← list_empty (MuxList muxHandle);
      if negb e || negb (muxCount c =? 0) then
        LOS_IntRestore intSave;; mret LOS_ERRNO_MUX_PENDED
      else
        list_add UnusedMuxList (MuxList muxHandle);;
        mod_mux muxHandle (fun c => c <| muxStat := OS_MUX_UNUSED |>);;
        LOS_IntRestore intSave;;
        mret LOS_OK.

Definition OsMuxValidCheck (muxPended : Z) : K Z :=
  c ← get_mux muxPended;
  if muxStat c =? OS_MUX_UNUSED then mret LOS_ERRNO_MUX_INVALID
  else
    active ← ArchIsIntActive;
    if (active : bool) then mret LOS_ERRNO_MUX_IN_INTERR
    else
      lock ← gets g_losTaskLock;
      if negb (lock =? 0) then mret LOS_ERRNO_MUX_PEND_IN_LOCK
      else
        run ← get_runTask;
        sys ← status_flag run OS_TASK_FLAG_SYSTEM_TASK;
        mret (if (sys : bool) then LOS_ERRNO_MUX_PEND_IN_SYSTEM_TASK else LOS_OK).

(** [LOS_MuxPend] after [LOS_Schedule()]. *)
Definition LOS_MuxPend_resume (runningTask : Z) : K Z :=
  intSave ← LOS_IntLock;
  t ← status_flag runningTask OS_TASK_STATUS_TIMEOUT;
  if (t : bool) then
    status_clr runningTask OS_TASK_STATUS_TIMEOUT;;
    LOS_IntRestore intSave;;
    mret LOS_ERRNO_MUX_TIMEOUT
  else
    LOS_IntRestore intSave;;
    mret LOS_OK.

Definition LOS_MuxPend (muxHandle timeout : Z) : K (outcome Z) :=
  if LOSCFG_BASE_IPC_MUX_LIMIT <=? muxHandle then mret (Done LOS_ERRNO_MUX_INVALID)
  else
    intSave ← LOS_IntLock;
    retErr ← OsMuxValidCheck muxHandle;
    if negb (retErr =? 0) then LOS_IntRestore intSave;; mret (Done retErr)
    else
      runningTask ← get_runTask;
      m ← get_mux muxHandle;
      rc ← get_tcb runningTask;
      if muxCount m =? 0 then
        mod_mux muxHandle (fun c => c <| muxCount := u16 (muxCount c + 1) |>);;
        mod_mux muxHandle (fun c => c <| owner := Some runningTask |>);;
        mod_mux muxHandle (fun c => c <| muxPriority := priority rc |>);;
        LOS_IntRestore intSave;;
        mret (Done LOS_OK)
      else if decide (owner m = Some runningTask) then
        mod_mux muxHandle (fun c => c <| muxCount := u16 (muxCount c + 1) |>);;
        LOS_IntRestore intSave;;
        mret (Done LOS_OK)
      else if timeout =? 0 then
        LOS_IntRestore intSave;; mret (Done LOS_ERRNO_MUX_UNAVAILABLE)
      else
        mod_tcb runningTask (fun c => c <| taskMux := Some muxHandle |>);;
        o ← unwrap NullDeref (owner m);
        oc ← get_tcb o;
        when (priority rc <? priority oc)
          (OsSchedModifyTaskSchedParam o (priority rc);; mret tt);;
        OsSchedTaskWait (MuxList muxHandle) timeout;;
        LOS_IntRestore intSave;;
        schedule_then (LOS_MuxPend_resume runningTask).

Definition LOS_MuxPost (muxHandle : Z) : K Z :=
  intSave ← LOS_IntLock;
  if LOSCFG_BASE_IPC_MUX_LIMIT <=? muxHandle then
    LOS_IntRestore intSave;; mret LOS_ERRNO_MUX_INVALID
  else
    m ← get_mux muxHandle;
    if muxStat m =? OS_MUX_UNUSED then
      LOS_IntRestore intSave;; mret LOS_ERRNO_MUX_INVALID
    else
      active ← ArchIsIntActive;
      if (active : bool) then LOS_IntRestore intSave;; mret LOS_ERRNO_MUX_IN_INTERR
      else
        run ← gets runTask;
        if (muxCount m =? 0) || negb (bool_decide (owner m = run)) then
          LOS_IntRestore intSave;; mret LOS_ERRNO_MUX_INVALID
        else
          mod_mux muxHandle (fun c => c <| muxCount := u16 (muxCount c - 1) |>);;
          m ← get_mux muxHandle;
          if negb (muxCount m =? 0) then
            LOS_IntRestore intSave;; mret LOS_OK
          else
            o ← unwrap NullDeref (owner m);
            oc ← get_tcb o;
            when (negb (priority oc =? muxPriority m))
              (OsSchedModifyTaskSchedParam o (muxPriority m);; mret tt);;
            e ← list_empty (MuxList muxHandle);
            if negb e then
              first ← list_first (MuxList muxHandle);
              resumedTask ← OS_TCB_FROM_PENDLIST first;
              mod_mux muxHandle (fun c => c <| muxCount := 1 |>);;
              mod_mux muxHandle (fun c => c <| owner := Some resumedTask |>);;
              rc ← get_tcb resumedTask;
              mod_mux muxHandle (fun c => c <| muxPriority := priority rc |>);;
              mod_tcb resumedTask (fun c => c <| taskMux := None |>);;
              OsSchedTaskWake resumedTask;;
              LOS_IntRestore intSave;;
              LOS_Schedule;;
              mret LOS_OK
            else
              mod_mux muxHandle (fun c => c <| owner := None |>);;
              LOS_IntRestore intSave;;
              mret LOS_OK.

End Mux.
