(* ===== verification/Task.v ===== *)
(** Tasks (los_task.c): creation, deletion, suspension, joining, delays, priorities and
    the scheduler lock, with the stack set-up of arch/arm/cortex-m4/gcc/los_context.c
    and the thread exit of sub/RTOS_BE.c. *)

From S2P Require Import Prelude DList Kernel Tick SortLink Mem Pmcu Sched Event.

(** The addresses of the functions whose pointers the kernel stores. *)
Class Symbols := {
  addr_OsTaskEntry : Z;
  addr_OsIdleTask : Z;
  addr_OsSwtmrTask : Z;
  addr_ArchSysExit : Z
}.

Section Task.
  Context `{Config} `{Malloc} `{Symbols}.

Definition LOS_MOD_TSK : Z := 0x2.
Definition LOS_ERRNO_TSK_NO_MEMORY : Z := LOS_ERRNO_OS_FATAL LOS_MOD_TSK 0x00.
Definition LOS_ERRNO_TSK_PTR_NULL : Z := LOS_ERRNO_OS_ERROR LOS_MOD_TSK 0x01.
Definition LOS_ERRNO_TSK_PRIOR_ERROR : Z := LOS_ERRNO_OS_ERROR LOS_MOD_TSK 0x03.
Definition LOS_ERRNO_TSK_ENTRY_NULL : Z := LOS_ERRNO_OS_ERROR LOS_MOD_TSK 0x04.
Definition LOS_ERRNO_TSK_NAME_EMPTY : Z := LOS_ERRNO_OS_ERROR LOS_MOD_TSK 0x05.
Definition LOS_ERRNO_TSK_STKSZ_TOO_SMALL : Z := LOS_ERRNO_OS_ERROR LOS_MOD_TSK 0x06.
Definition LOS_ERRNO_TSK_ID_INVALID : Z := LOS_ERRNO_OS_ERROR LOS_MOD_TSK 0x07.
Definition LOS_ERRNO_TSK_ALREADY_SUSPENDED : Z := LOS_ERRNO_OS_ERROR LOS_MOD_TSK 0x08.
Definition LOS_ERRNO_TSK_NOT_SUSPENDED : Z := LOS_ERRNO_OS_ERROR LOS_MOD_TSK 0x09.
Definition LOS_ERRNO_TSK_NOT_CREATED : Z := LOS_ERRNO_OS_ERROR LOS_MOD_TSK 0x0a.
Definition LOS_ERRNO_TSK_DELAY_IN_INT : Z := LOS_ERRNO_OS_FATAL LOS_MOD_TSK 0x0d.
Definition LOS_ERRNO_TSK_DELAY_IN_LOCK : Z := LOS_ERRNO_OS_ERROR LOS_MOD_TSK 0x0e.
Definition LOS_ERRNO_TSK_TCB_UNAVAILABLE : Z := LOS_ERRNO_OS_ERROR LOS_MOD_TSK 0x11.
Definition LOS_ERRNO_TSK_OPERATE_SYSTEM_TASK : Z := LOS_ERRNO_OS_ERROR LOS_MOD_TSK 0x14.
Definition LOS_ERRNO_TSK_OPERATE_IDLE : Z := LOS_ERRNO_TSK_OPERATE_SYSTEM_TASK.
Definition LOS_ERRNO_TSK_SUSPEND_LOCKED : Z := LOS_ERRNO_OS_FATAL LOS_MOD_TSK 0x15.
Definition LOS_ERRNO_TSK_STKSZ_TOO_LARGE : Z := LOS_ERRNO_OS_ERROR LOS_MOD_TSK 0x20.
Definition LOS_ERRNO_TSK_SUSPEND_SWTMR_NOT_ALLOWED : Z := LOS_ERRNO_OS_ERROR LOS_MOD_TSK 0x21.
Definition LOS_ERRNO_TSK_OPERATE_SWTMR : Z := LOS_ERRNO_OS_ERROR LOS_MOD_TSK 0x22.
Definition LOS_ERRNO_TSK_NOT_JOIN : Z := LOS_ERRNO_OS_ERROR LOS_MOD_TSK 0x24.
Definition LOS_ERRNO_TSK_NOT_JOIN_SELF : Z := LOS_ERRNO_OS_ERROR LOS_MOD_TSK 0x25.
Definition LOS_ERRNO_TSK_NOT_ALLOW_IN_INT : Z := LOS_ERRNO_OS_ERROR LOS_MOD_TSK 0x26.
Definition LOS_ERRNO_TSK_ALREADY_EXIT : Z := LOS_ERRNO_OS_ERROR LOS_MOD_TSK 0x27.
Definition LOS_ERRNO_TSK_SCHED_LOCKED : Z := LOS_ERRNO_OS_ERROR LOS_MOD_TSK 0x28.
Definition LOS_ERRNO_TSK_PROCESS_SIGNAL : Z := LOS_ERRNO_OS_ERROR LOS_MOD_TSK 0x29.

Definition LOS_TASK_ATTR_JOINABLE : Z := 0x80000000.
Definition OS_TASK_STACK_ADDR_ALIGN : Z := 8.
Definition OS_TASK_STACK_INIT : Z := 0xCACACACA.
Definition OS_TASK_STACK_TOP_OFFSET : Z := 4.
Definition OS_NULL_SHORT : Z := 0xFFFF.

(** [LOS_Align] and [TRUNCATE] of utils/los_compiler.h. *)
Definition LOS_Align (addr boundary : Z) : Z :=
  Z.ldiff (u32 (addr + (if addr <? u32 (addr + (boundary - 1)) then boundary - 1 else 0)))
    (boundary - 1).
Definition TRUNCATE (addr size : Z) : Z := Z.ldiff addr (size - 1).

Definition OS_TASK_ID_CHECK (taskID : Z) : K bool :=
  n ← gets g_taskMaxNum; mret (taskID <? n).
Definition OS_CHECK_TSK_PID_NOIDLE (taskID : Z) : K bool :=
  n ← gets g_taskMaxNum; mret (n <=? taskID).

Definition OsCheckTaskIDValid (taskID : Z) : K Z :=
  idle ← gets g_idleTaskID;
  swtmr ← gets g_swtmrTaskID;
  n ← gets g_taskMaxNum;
  mret (if taskID =? idle then LOS_ERRNO_TSK_OPERATE_IDLE
        else if LOSCFG_BASE_CORE_SWTMR && (taskID =? swtmr) then
          LOS_ERRNO_TSK_SUSPEND_SWTMR_NOT_ALLOWED
        else if n <=? taskID then LOS_ERRNO_TSK_ID_INVALID
        else LOS_OK).

(** ** Recycling control blocks and stacks *)

(** [memset_s(taskCB, sizeof(LosTaskCB), 0, sizeof(LosTaskCB))]: the list nodes of the
    control block become NULL too. *)
Definition tcb_memset (t : Z) : K unit :=
  mod_tcb t (fun _ => zeroTCB);;
  dl_op (fun h => Some (delete (EventList (EvTask t)) (delete (JoinList t)
                    (delete (SortLinkNode t) (delete (PendList t) h))))).

Definition OsInsertTCBToFreeList (taskCB : Z) : K unit :=
  c ← get_tcb taskCB;
  tcb_memset taskCB;;
  mod_tcb taskCB (fun c' => c' <| taskID := taskID c |>);;
  mod_tcb taskCB (fun c' => c' <| taskStatus := OS_TASK_STATUS_UNUSED |>);;
  list_add FreeTask (PendList taskCB).

(** [OsRecycleTaskResources(taskCB, &stackPtr)]; the result is [stackPtr]. *)
Definition OsRecycleTaskResources (taskCB stackPtr : Z) : K Z :=
  c ← get_tcb taskCB;
  stackPtr ← (
    if flag (taskStatus c) OS_TASK_FLAG_STACK_FREE && negb (topOfStack c =? 0) then
      mod_tcb taskCB (fun c => c <| topOfStack := 0 |>);;
      status_clr taskCB OS_TASK_FLAG_STACK_FREE;;
      mret (topOfStack c)
    else mret stackPtr);
  j ← status_flag taskCB OS_TASK_FLAG_JOINABLE;
  when (negb j) (OsInsertTCBToFreeList taskCB);;
  mret stackPtr.

(** The [while] loop, entered with interrupts locked. *)
Fixpoint OsRecycleFinishedTask_loop (fuel : nat) : K unit :=
  e ← list_empty TaskRecycleList;
  if (e : bool) then mret tt
  else
    match fuel with
    | O => fail OutOfFuel
    | S fuel =>
        first ← list_first TaskRecycleList;
        taskCB ← OS_TCB_FROM_PENDLIST first;
        list_delete first;;
        stackPtr ← OsRecycleTaskResources taskCB 0;
        LOS_IntRestore 0;;
        LOS_MemFree stackPtr;;
        LOS_IntLock;;
        OsRecycleFinishedTask_loop fuel
    end.

Definition OsRecycleFinishedTask : K unit :=
  intSave ← LOS_IntLock;
  fuel ← gets (fun s => size (dlheap s));
  OsRecycleFinishedTask_loop fuel;;
  LOS_IntRestore intSave.

(** ** The idle task *)

(** A task that is waiting, ready, running or suspended keeps the program alive. *)
Definition task_alive (c : LosTaskCB) : bool :=
  flag (taskStatus c) OS_TASK_STATUS_DELAY || flag (taskStatus c) OS_TASK_STATUS_PEND ||
  flag (taskStatus c) OS_TASK_STATUS_PEND_TIME || flag (taskStatus c) OS_TASK_STATUS_READY ||
  flag (taskStatus c) OS_TASK_STATUS_RUNNING || flag (taskStatus c) OS_TASK_STATUS_SUSPEND ||
  flag (taskStatus c) OS_TASK_STATUS_TIMEOUT.

(** The [for] loop that computes [endProg] from index [i] on. *)
Fixpoint OsIdleTask_endProg (i : Z) (n : nat) : K bool :=
  match n with
  | O => mret true
  | S n =>
      c ← get_tcb i;
      idle ← gets g_idleTaskID;
      if (taskID c =? idle) then OsIdleTask_endProg (i + 1) n
      else if task_alive c then mret false
      else OsIdleTask_endProg (i + 1) n
  end.

(** One pass of the [while (true)] loop; [true] is the [break]. *)
Definition OsIdleTask_pass : K bool :=
  OsRecycleFinishedTask;;
  n ← gets g_taskMaxNum;
  endProg ← OsIdleTask_endProg 0 (Z.to_nat n);
  when endProg (modify (fun s => s <| interrupt_flag := 0 |>));;
  mret endProg.

(** The code after the loop, up to [Stop_Scheduler]. *)
Definition OsIdleTask_finish : K unit :=
  OsRecycleFinishedTask;;
  n ← gets g_taskMaxNum;
  for_loop 0 (Z.to_nat n) (fun i =>
    stackPtr ← OsRecycleTaskResources i 0;
    when (negb (stackPtr =? 0)) (LOS_MemFree stackPtr;; mret tt)).

Definition OsConvertTskStatus (taskStatus : Z) : string :=
  if flag taskStatus OS_TASK_STATUS_RUNNING then "Running"
  else if flag taskStatus OS_TASK_STATUS_READY then "Ready"
  else if flag taskStatus OS_TASK_STATUS_EXIT then "Exit"
  else if flag taskStatus OS_TASK_STATUS_SUSPEND then "Suspend"
  else if flag taskStatus OS_TASK_STATUS_DELAY then "Delay"
  else if flag taskStatus OS_TASK_STATUS_PEND then
    if flag taskStatus OS_TASK_STATUS_PEND_TIME then "PendTime" else "Pend"
  else "Impossible".

(** The scan for the first overwritten word of a stack. *)
Fixpoint OsGetTaskWaterLine_loop (fuel : nat) (stackPtr sp : Z) : K Z :=
  match fuel with
  | O => mret stackPtr
  | S fuel =>
      if stackPtr <? sp then
        w ← load32 stackPtr;
        if w =? OS_TASK_STACK_INIT then OsGetTaskWaterLine_loop fuel (stackPtr + 4) sp
        else mret stackPtr
      else mret stackPtr
  end.

Definition OsGetTaskWaterLine (taskID : Z) : K Z :=
  c ← get_tcb taskID;
  w ← load32 (topOfStack c);
  LOS_ASSERT (w =? OS_TASK_MAGIC_WORD);;
  p ← OsGetTaskWaterLine_loop (Z.to_nat (stackPointer c - topOfStack c))
        (topOfStack c + OS_TASK_STACK_TOP_OFFSET) (stackPointer c);
  mret (u32 (stackSize c - u32 (p - topOfStack c))).

(** ** Initialisation *)

Definition OsTaskInit : K Z :=
  let maxNum := LOSCFG_BASE_CORE_TSK_LIMIT + 1 in
  modify (fun s => s <| g_taskMaxNum := maxNum |>);;
  p ← LOS_MemAlloc (u32 ((maxNum + 1) * sizeof_LosTaskCB));
  if p =? 0 then mret LOS_ERRNO_TSK_NO_MEMORY
  else
    modify (fun s => s <| g_taskCBArray :=
      list_to_map ((fun i => (i, zeroTCB)) <$> seqZ 0 (maxNum + 1)) |>);;
    list_init FreeTask;;
    list_init TaskRecycleList;;
    for_loop 0 (Z.to_nat maxNum) (fun index =>
      mod_tcb index (fun c => c <| taskStatus := OS_TASK_STATUS_UNUSED |>);;
      mod_tcb index (fun c => c <| taskID := index |>);;
      list_tail_insert FreeTask (PendList index));;
    modify (fun s => s <| newTask := None |>);;
    modify (fun s => s <| runTask := Some maxNum |>);;
    mod_tcb maxNum (fun c => c <| taskID := maxNum |>);;
    mod_tcb maxNum (fun c => c <| taskStatus :=
      Z.lor OS_TASK_STATUS_UNUSED OS_TASK_STATUS_RUNNING |>);;
    mod_tcb maxNum (fun c => c <| priority := OS_TASK_PRIORITY_LOWEST + 1 |>);;
    modify (fun s => s <| g_idleTaskID := OS_INVALID |>);;
    OsSchedInit.

Definition LOS_CurTaskIDGet : K Z :=
  run ← gets runTask;
  match run with
  | None => mret LOS_ERRNO_TSK_ID_INVALID
  | Some t => c ← get_tcb t; mret (taskID c)
  end.

Definition LOS_NextTaskIDGet : K Z :=
  intSave ← LOS_IntLock;
  t ← OsGetTopTask;
  c ← get_tcb t;
  LOS_IntRestore intSave;;
  mret (taskID c).

Definition LOS_NewTaskIDGet : K Z := LOS_NextTaskIDGet.

Definition LOS_CurTaskNameGet : K (option string) :=
  run ← gets runTask;
  match run with
  | None => mret None
  | Some t => c ← get_tcb t; mret (taskName c)
  end.

(** [OsTaskEntry]; [call entry arg] runs the entry function of the task. *)
Definition OsTaskEntry (call : Z → Z → K Z) (taskID : Z) : K unit :=
  c ← get_tcb taskID;
  r ← call (taskEntry c) (arg c);
  mod_tcb taskID (fun c => c <| joinRetval := r |>).

(** ** Creation *)

Record TSK_INIT_PARAM_S := mkTskParam {
  pfnTaskEntry : Z;
  usTaskPrio : Z;
  param_uwArg : Z;
  stackAddr : Z;
  uwStackSize : Z;
  pcName : option string;
  uwResved : Z
}.

#[global] Instance eta_TSK_INIT_PARAM_S : Eta TSK_INIT_PARAM_S := fun r =>
  mkTskParam (pfnTaskEntry r) (usTaskPrio r) (param_uwArg r) (stackAddr r) (uwStackSize r)
    (pcName r) (uwResved r).

(** The error code, and the parameters with a default stack size filled in. *)
Definition OsTaskInitParamCheck (taskInitParam : option TSK_INIT_PARAM_S)
    : Z * option TSK_INIT_PARAM_S :=
  match taskInitParam with
  | None => (LOS_ERRNO_TSK_PTR_NULL, None)
  | Some p =>
      if bool_decide (pcName p = None) then (LOS_ERRNO_TSK_NAME_EMPTY, Some p)
      else if pfnTaskEntry p =? 0 then (LOS_ERRNO_TSK_ENTRY_NULL, Some p)
      else if OS_TASK_PRIORITY_LOWEST <? usTaskPrio p then (LOS_ERRNO_TSK_PRIOR_ERROR, Some p)
      else if (usTaskPrio p =? OS_TASK_PRIORITY_LOWEST) &&
              negb (pfnTaskEntry p =? addr_OsIdleTask) then
        (LOS_ERRNO_TSK_PRIOR_ERROR, Some p)
      else if LOSCFG_SYS_HEAP_SIZE <? uwStackSize p then
        (LOS_ERRNO_TSK_STKSZ_TOO_LARGE, Some p)
      else
        let p := if uwStackSize p =? 0
                 then p <| uwStackSize := LOSCFG_BASE_CORE_TSK_DEFAULT_STACK_SIZE |>
                 else p in
        if uwStackSize p <? LOSCFG_BASE_CORE_TSK_MIN_STACK_SIZE
        then (LOS_ERRNO_TSK_STKSZ_TOO_SMALL, Some p)
        else (LOS_OK, Some p)
  end.

(** [ArchTskStackInit]: the registers of the first context. *)
Definition task_context (taskID : Z) : list Z :=
  [0x04040404; 0x05050505; 0x06060606; 0x07070707; 0x08080808; 0x09090909; 0x10101010;
   0x11111111; 0; taskID; 0x01010101; 0x02020202; 0x03030303; 0x12121212;
   addr_ArchSysExit; addr_OsTaskEntry; 0x01000000].

Fixpoint store_words (a : Z) (ws : list Z) : K unit :=
  match ws with
  | [] => mret tt
  | w :: ws => store32 a w;; store_words (a + 4) ws
  end.

Definition ArchTskStackInit (taskID stackSize topStack : Z) : K Z :=
  let context := u32 (topStack + stackSize - sizeof_TaskContext) in
  store_words context (task_context taskID);;
  mret context.

Definition OsNewTaskInit (taskCB : Z) (p : TSK_INIT_PARAM_S) : K Z :=
  mod_tcb taskCB (fun c => c
    <| arg := param_uwArg p |> <| stackSize := uwStackSize p |>
    <| taskSem := None |> <| taskMux := None |>
    <| taskStatus := OS_TASK_STATUS_SUSPEND |> <| priority := usTaskPrio p |>
    <| timeSlice := 0 |> <| waitTimes := 0 |> <| taskEntry := pfnTaskEntry p |>
    <| event_uwEventID := OS_NULL_INT |> <| eventMask := 0 |> <| taskName := pcName p |>
    <| msg := 0 |>);;
  SET_SORTLIST_VALUE (SortLinkNode taskCB) OS_SORT_LINK_INVALID_TIME;;
  LOS_EventInit (Some (EvTask taskCB));;
  when (flag (uwResved p) LOS_TASK_ATTR_JOINABLE) (
    status_set taskCB OS_TASK_FLAG_JOINABLE;;
    list_init (JoinList taskCB));;
  ok ← (
    if stackAddr p =? 0 then
      let size := LOS_Align (uwStackSize p) OS_TASK_STACK_ADDR_ALIGN in
      mod_tcb taskCB (fun c => c <| stackSize := size |>);;
      top ← LOS_MemAllocAlign size LOSCFG_STACK_POINT_ALIGN_SIZE;
      mod_tcb taskCB (fun c => c <| topOfStack := top |>);;
      if top =? 0 then mret false
      else status_set taskCB OS_TASK_FLAG_STACK_FREE;; mret true
    else
      let top := LOS_Align (stackAddr p) LOSCFG_STACK_POINT_ALIGN_SIZE in
      mod_tcb taskCB (fun c => c <| topOfStack := top |>);;
      mod_tcb taskCB (fun c => c <| stackSize :=
        TRUNCATE (u32 (uwStackSize p - (top - stackAddr p))) OS_TASK_STACK_ADDR_ALIGN |>);;
      mret true);
  if negb ok then mret LOS_ERRNO_TSK_NO_MEMORY
  else
    c ← get_tcb taskCB;
    store_bytes (topOfStack c)
      (replicate (Z.to_nat (stackSize c)) (Z.land OS_TASK_STACK_INIT 0xFF));;
    store32 (topOfStack c) OS_TASK_MAGIC_WORD;;
    sp ← ArchTskStackInit (taskID c) (stackSize c) (topOfStack c);
    mod_tcb taskCB (fun c => c <| stackPointer := sp |>);;
    mret LOS_OK.

(** [LOS_TaskCreateOnly(taskID, taskInitParam)]: the error code and [*taskID]; [out] says
    whether the pointer [taskID] is not NULL. *)
Definition LOS_TaskCreateOnly (out : bool) (taskInitParam : option TSK_INIT_PARAM_S)
    : K (Z * option Z) :=
  if negb out then mret (LOS_ERRNO_TSK_ID_INVALID, None)
  else
    let '(retVal, taskInitParam) := OsTaskInitParamCheck taskInitParam in
    if negb (retVal =? LOS_OK) then mret (retVal, None)
    else
      p ← unwrap NullDeref taskInitParam;
      OsRecycleFinishedTask;;
      intSave ← LOS_IntLock;
      e ← list_empty FreeTask;
      if (e : bool) then
        LOS_IntRestore intSave;; mret (LOS_ERRNO_TSK_TCB_UNAVAILABLE, None)
      else
        first ← list_first FreeTask;
        taskCB ← OS_TCB_FROM_PENDLIST first;
        list_delete first;;
        LOS_IntRestore intSave;;
        retVal ← OsNewTaskInit taskCB p;
        if negb (retVal =? LOS_OK) then
          intSave ← LOS_IntLock;
          OsInsertTCBToFreeList taskCB;;
          LOS_IntRestore intSave;;
          mret (retVal, None)
        else
          c ← get_tcb taskCB;
          PMCU_FE_Task_Create addr_OsTaskEntry (Some [taskID c]) 1 (taskID c);;
          mret (retVal, Some (taskID c)).

Definition LOS_TaskCreate (out : bool) (taskInitParam : option TSK_INIT_PARAM_S)
    : K (Z * option Z) :=
  '(retVal, id) ← LOS_TaskCreateOnly out taskInitParam;
  if negb (retVal =? LOS_OK) then mret (retVal, id)
  else
    taskCB ← unwrap NullDeref id;
    intSave ← LOS_IntLock;
    OsSchedTaskEnQueue taskCB;;
    LOS_IntRestore intSave;;
    scheduled ← gets g_taskScheduled;
    when scheduled LOS_Schedule;;
    mret (LOS_OK, id).

Definition OsIdleTaskCreate : K Z :=
  '(retVal, id) ← LOS_TaskCreateOnly true (Some (mkTskParam addr_OsIdleTask
    OS_TASK_PRIORITY_LOWEST 0 0 LOSCFG_BASE_CORE_TSK_IDLE_STACK_SIZE
    (Some "IdleCore000"%string) 0));
  match id with
  | Some t => modify (fun s => s <| g_idleTaskID := t |>)
  | None => mret tt
  end;;
  if negb (retVal =? LOS_OK) then mret retVal
  else
    idle ← gets g_idleTaskID;
    OsSchedSetIdleTaskSchedParam idle;;
    mret LOS_OK.

(** ** Suspension *)

Definition LOS_TaskResume (taskID : Z) : K Z :=
  ok ← OS_TASK_ID_CHECK taskID;
  if negb ok then mret LOS_ERRNO_TSK_ID_INVALID
  else
    intSave ← LOS_IntLock;
    c ← get_tcb taskID;
    let tempStatus := taskStatus c in
    if flag tempStatus OS_TASK_STATUS_UNUSED then
      LOS_IntRestore intSave;; mret LOS_ERRNO_TSK_NOT_CREATED
    else if negb (flag tempStatus OS_TASK_STATUS_SUSPEND) then
      LOS_IntRestore intSave;; mret LOS_ERRNO_TSK_NOT_SUSPENDED
    else
      needSched ← OsSchedResume taskID;
      scheduled ← gets g_taskScheduled;
      LOS_IntRestore intSave;;
      when (needSched && scheduled) LOS_Schedule;;
      mret LOS_OK.

Definition LOS_TaskSuspend (taskID : Z) : K Z :=
  retErr ← OsCheckTaskIDValid taskID;
  if negb (retErr =? LOS_OK) then mret retErr
  else
    intSave ← LOS_IntLock;
    c ← get_tcb taskID;
    let tempStatus := taskStatus c in
    lock ← gets g_losTaskLock;
    if flag tempStatus OS_TASK_STATUS_UNUSED then
      LOS_IntRestore intSave;; mret LOS_ERRNO_TSK_NOT_CREATED
    else if flag tempStatus OS_TASK_FLAG_SYSTEM_TASK then
      LOS_IntRestore intSave;; mret LOS_ERRNO_TSK_OPERATE_SYSTEM_TASK
    else if flag tempStatus OS_TASK_STATUS_SUSPEND then
      LOS_IntRestore intSave;; mret LOS_ERRNO_TSK_ALREADY_SUSPENDED
    else if flag tempStatus OS_TASK_STATUS_RUNNING && negb (lock =? 0) then
      LOS_IntRestore intSave;; mret LOS_ERRNO_TSK_SUSPEND_LOCKED
    else
      OsSchedSuspend taskID;;
      run ← get_runTask;
      rc ← get_tcb run;
      LOS_IntRestore intSave;;
      when (taskID =? Kernel.taskID rc) LOS_Schedule;;
      mret LOS_OK.

(** ** Joining *)

Definition OsTaskJoinPostUnsafe (taskCB : Z) : K unit :=
  j ← status_flag taskCB OS_TASK_FLAG_JOINABLE;
  when j (
    e ← list_empty (JoinList taskCB);
    when (negb e) (
      first ← list_first (JoinList taskCB);
      resumedTask ← OS_TCB_FROM_PENDLIST first;
      OsSchedTaskWake resumedTask)).

Definition OsTaskJoinPendUnsafe (taskCB : Z) : K Z :=
  c ← get_tcb taskCB;
  e ← list_empty (JoinList taskCB);
  if flag (taskStatus c) OS_TASK_STATUS_EXIT then mret LOS_OK
  else if flag (taskStatus c) OS_TASK_FLAG_JOINABLE && e then
    OsSchedTaskWait (JoinList taskCB) LOS_WAIT_FOREVER;; mret LOS_OK
  else mret LOS_NOK.

Definition OsTaskSetDetachUnsafe (taskCB : Z) : K Z :=
  j ← status_flag taskCB OS_TASK_FLAG_JOINABLE;
  if (j : bool) then
    e ← list_empty (JoinList taskCB);
    if (e : bool) then
      list_delete (JoinList taskCB);;
      status_clr taskCB OS_TASK_FLAG_JOINABLE;;
      mret LOS_OK
    else mret LOS_ERRNO_TSK_NOT_JOIN
  else mret LOS_NOK.

(** [LOS_TaskJoin] after [LOS_Schedule()]: the error code and [*retval]. *)
Definition LOS_TaskJoin_resume (taskCB : Z) : K (Z * option Z) :=
  c ← get_tcb taskCB;
  intSave ← LOS_IntLock;
  status_clr taskCB OS_TASK_FLAG_JOINABLE;;
  stackPtr ← OsRecycleTaskResources taskCB 0;
  LOS_IntRestore intSave;;
  LOS_MemFree stackPtr;;
  mret (LOS_OK, Some (joinRetval c)).

Definition LOS_TaskJoin (taskID : Z) : K (outcome (Z * option Z)) :=
  ret ← OsCheckTaskIDValid taskID;
  if negb (ret =? LOS_OK) then mret (Done (ret, None))
  else
    active ← ArchIsIntActive;
    if (active : bool) then mret (Done (LOS_ERRNO_TSK_NOT_ALLOW_IN_INT, None))
    else
      lock ← gets g_losTaskLock;
      if negb (lock =? 0) then mret (Done (LOS_ERRNO_TSK_SCHED_LOCKED, None))
      else
        cur ← LOS_CurTaskIDGet;
        if taskID =? cur then mret (Done (LOS_ERRNO_TSK_NOT_JOIN_SELF, None))
        else
          intSave ← LOS_IntLock;
          u ← status_flag taskID OS_TASK_STATUS_UNUSED;
          if (u : bool) then
            LOS_IntRestore intSave;; mret (Done (LOS_ERRNO_TSK_NOT_CREATED, None))
          else
            ret ← OsTaskJoinPendUnsafe taskID;
            LOS_IntRestore intSave;;
            if ret =? LOS_OK then schedule_then (LOS_TaskJoin_resume taskID)
            else mret (Done (ret, None)).

Definition LOS_TaskDetach (taskID : Z) : K (outcome (Z * option Z)) :=
  ret ← OsCheckTaskIDValid taskID;
  if negb (ret =? LOS_OK) then mret (Done (ret, None))
  else
    active ← ArchIsIntActive;
    if (active : bool) then mret (Done (LOS_ERRNO_TSK_NOT_ALLOW_IN_INT, None))
    else
      intSave ← LOS_IntLock;
      c ← get_tcb taskID;
      if flag (taskStatus c) OS_TASK_STATUS_UNUSED then
        LOS_IntRestore intSave;; mret (Done (LOS_ERRNO_TSK_NOT_CREATED, None))
      else if flag (taskStatus c) OS_TASK_STATUS_EXIT then
        LOS_IntRestore intSave;;
        LOS_TaskJoin taskID
      else
        ret ← OsTaskSetDetachUnsafe taskID;
        LOS_IntRestore intSave;;
        mret (Done (ret, None)).

(** ** Deletion *)

Definition OsRunningTaskDelete (taskID taskCB : Z) : K unit :=
  list_tail_insert TaskRecycleList (PendList taskCB);;
  n ← gets g_taskMaxNum;
  modify (fun s => s <| runTask := Some n |>);;
  c ← get_tcb taskCB;
  mod_tcb n (fun r => r <| Kernel.taskID := taskID |>);;
  mod_tcb n (fun r => r <| taskStatus := Z.lor (taskStatus c) OS_TASK_STATUS_RUNNING |>);;
  mod_tcb n (fun r => r <| topOfStack := topOfStack c |>);;
  mod_tcb n (fun r => r <| taskName := taskName c |>).

Definition LOS_TaskDelete (taskID : Z) : K Z :=
  ret ← OsCheckTaskIDValid taskID;
  if negb (ret =? LOS_OK) then mret ret
  else
    intSave ← LOS_IntLock;
    c ← get_tcb taskID;
    if flag (taskStatus c) OS_TASK_FLAG_SYSTEM_TASK then
      LOS_IntRestore intSave;; mret LOS_ERRNO_TSK_OPERATE_SYSTEM_TASK
    else if flag (taskStatus c) OS_TASK_STATUS_UNUSED then
      LOS_IntRestore intSave;; mret LOS_ERRNO_TSK_NOT_CREATED
    else if flag (taskStatus c) OS_TASK_STATUS_EXIT then
      LOS_IntRestore intSave;; mret LOS_ERRNO_TSK_ALREADY_EXIT
    else if flag (taskStatus c) OS_TASK_FLAG_SIGNAL then
      LOS_IntRestore intSave;; mret LOS_ERRNO_TSK_PROCESS_SIGNAL
    else
      lock ← gets g_losTaskLock;
      when (flag (taskStatus c) OS_TASK_STATUS_RUNNING && negb (lock =? 0))
        (modify (fun s => s <| g_losTaskLock := 0 |>));;
      OsTaskJoinPostUnsafe taskID;;
      OsSchedTaskExit taskID;;
      LOS_EventDestroy (Some (EvTask taskID));;
      mod_tcb taskID (fun c => c <| event_uwEventID := OS_NULL_INT |>);;
      mod_tcb taskID (fun c => c <| eventMask := 0 |>);;
      c ← get_tcb taskID;
      if flag (taskStatus c) OS_TASK_STATUS_RUNNING then
        when (negb (flag (taskStatus c) OS_TASK_FLAG_JOINABLE)) (
          status_set taskID OS_TASK_STATUS_UNUSED;;
          OsRunningTaskDelete taskID taskID);;
        LOS_IntRestore intSave;;
        LOS_Schedule;;
        mret LOS_OK
      else
        cur ← LOS_CurTaskIDGet;
        mod_tcb taskID (fun c => c <| joinRetval := cur |>);;
        stackPtr ← OsRecycleTaskResources taskID 0;
        LOS_IntRestore intSave;;
        LOS_MemFree stackPtr;;
        mret LOS_OK.

(** [PMCU_ThreadExit] of sub/RTOS_BE.c, the clean-up handler of the thread at index
    [param] of [pmcu_threads]. *)
Definition PMCU_ThreadExit (param : Z) : K unit :=
  PMCU_BE_Disable_Irq;;
  thread ← get_thread param;
  ths ← gets pmcu_threads;
  match pmcu_find ths (fun t => Thread t =? Thread thread) with
  | None => mret tt
  | Some i =>
      mod_thread i (fun t => t <| valid := false |>);;
      t ← get_thread i;
      when (0 <? critical_nesting t) (
        mod_thread i (fun t => t <| critical_nesting := 0 |>);;
        modify (fun s => s <| nesting_counter := 0 |>));;
      LOS_TaskDelete (thr_taskid t);;
      mret tt
  end.

(** ** Delays and priorities *)

Definition LOS_TaskYield : K Z :=
  intSave ← LOS_IntLock;
  OsSchedYield;;
  LOS_IntRestore intSave;;
  LOS_Schedule;;
  mret LOS_OK.

Definition LOS_TaskDelay (tick : Z) : K Z :=
  active ← ArchIsIntActive;
  if (active : bool) then mret LOS_ERRNO_TSK_DELAY_IN_INT
  else
    lock ← gets g_losTaskLock;
    if negb (lock =? 0) then mret LOS_ERRNO_TSK_DELAY_IN_LOCK
    else
      run ← get_runTask;
      sys ← status_flag run OS_TASK_FLAG_SYSTEM_TASK;
      if (sys : bool) then mret LOS_ERRNO_TSK_OPERATE_SYSTEM_TASK
      else if tick =? 0 then LOS_TaskYield
      else
        intSave ← LOS_IntLock;
        run ← get_runTask;
        OsSchedDelay run tick;;
        LOS_IntRestore intSave;;
        LOS_Schedule;;
        mret LOS_OK.

Definition LOS_Msleep (mSecs : Z) : K unit :=
  active ← ArchIsIntActive;
  if (active : bool) then mret tt
  else
    let interval :=
      if mSecs =? 0 then 0
      else if LOS_MS2Tick mSecs =? 0 then 1 else LOS_MS2Tick mSecs in
    LOS_TaskDelay interval;; mret tt.

Definition LOS_TaskPriGet (taskID : Z) : K Z :=
  bad ← OS_CHECK_TSK_PID_NOIDLE taskID;
  if (bad : bool) then mret (u16 OS_INVALID)
  else
    intSave ← LOS_IntLock;
    c ← get_tcb taskID;
    LOS_IntRestore intSave;;
    mret (if flag (taskStatus c) OS_TASK_STATUS_UNUSED then u16 OS_INVALID else priority c).

Definition LOS_TaskPriSet (taskID taskPrio : Z) : K Z :=
  if OS_TASK_PRIORITY_LOWEST <? taskPrio then mret LOS_ERRNO_TSK_PRIOR_ERROR
  else
    idle ← gets g_idleTaskID;
    swtmr ← gets g_swtmrTaskID;
    if taskID =? idle then mret LOS_ERRNO_TSK_OPERATE_IDLE
    else if LOSCFG_BASE_CORE_SWTMR && (taskID =? swtmr) then mret LOS_ERRNO_TSK_OPERATE_SWTMR
    else
      bad ← OS_CHECK_TSK_PID_NOIDLE taskID;
      if (bad : bool) then mret LOS_ERRNO_TSK_ID_INVALID
      else
        intSave ← LOS_IntLock;
        c ← get_tcb taskID;
        let tempStatus := taskStatus c in
        if flag tempStatus OS_TASK_STATUS_UNUSED then
          LOS_IntRestore intSave;; mret LOS_ERRNO_TSK_NOT_CREATED
        else if flag tempStatus OS_TASK_FLAG_SYSTEM_TASK then
          LOS_IntRestore intSave;; mret LOS_ERRNO_TSK_OPERATE_SYSTEM_TASK
        else
          isReady ← OsSchedModifyTaskSchedParam taskID taskPrio;
          LOS_IntRestore intSave;;
          when isReady LOS_Schedule;;
          mret LOS_OK.

Definition LOS_CurTaskPriSet (taskPrio : Z) : K Z :=
  run ← get_runTask;
  c ← get_tcb run;
  LOS_TaskPriSet (taskID c) taskPrio.

(** ** The scheduler lock *)

Definition LOS_TaskLock : K unit :=
  intSave ← LOS_IntLock;
  modify (fun s => s <| g_losTaskLock := u16 (g_losTaskLock s + 1) |>);;
  LOS_IntRestore intSave.

Definition LOS_TaskUnlock : K unit :=
  intSave ← LOS_IntLock;
  lock ← gets g_losTaskLock;
  if 0 <? lock then
    modify (fun s => s <| g_losTaskLock := lock - 1 |>);;
    LOS_IntRestore intSave;;
    when (lock - 1 =? 0) LOS_Schedule
  else LOS_IntRestore intSave.

(** ** Queries *)

Definition LOS_TaskStatusGet (taskID : Z) (out : bool) : K (Z * option Z) :=
  if negb out then mret (LOS_ERRNO_TSK_PTR_NULL, None)
  else
    bad ← OS_CHECK_TSK_PID_NOIDLE taskID;
    if (bad : bool) then mret (LOS_ERRNO_TSK_ID_INVALID, None)
    else
      intSave ← LOS_IntLock;
      c ← get_tcb taskID;
      LOS_IntRestore intSave;;
      mret (if flag (taskStatus c) OS_TASK_STATUS_UNUSED
            then (LOS_ERRNO_TSK_NOT_CREATED, None)
            else (LOS_OK, Some (taskStatus c))).

Definition LOS_TaskIsRunning : K bool := gets g_taskScheduled.

Definition LOS_TaskNameGet (taskID : Z) : K (option string) :=
  bad ← OS_CHECK_TSK_PID_NOIDLE taskID;
  if (bad : bool) then mret None
  else
    intSave ← LOS_IntLock;
    c ← get_tcb taskID;
    LOS_IntRestore intSave;;
    mret (if flag (taskStatus c) OS_TASK_STATUS_UNUSED then None else taskName c).

Definition LOS_TaskResRecycle : K unit := OsRecycleFinishedTask.

End Task.
