(* ===== verification/SysInv.v ===== *)
(** The invariant of the running system between two system calls: the scheduler of
    SchedTop.v together with semaphores, mutexes and events, and the lemmas with which the
    system calls re-establish it. *)

From S2P Require Import Prelude DList Kernel Tick SortLink Mem Pmcu Sched SchedInv SchedOps SchedDelay.
From S2P Require Import SchedSwitch SchedTop SchedTrans SchedTick SchedState Event Sem Mux Task.

Create HintDb sys.

(** ** Steps of the task table *)

(** No task is created, deleted or given another stack. *)
Definition tstep (T T' : tasks) : Prop :=
  (∀ t, is_Some (T' !! t) ↔ is_Some (T !! t)) ∧
  ∀ t c', T' !! t = Some c' → ∃ c, T !! t = Some c ∧
    st c' OS_TASK_STATUS_UNUSED = st c OS_TASK_STATUS_UNUSED ∧
    st c' OS_TASK_STATUS_EXIT = st c OS_TASK_STATUS_EXIT ∧ topOfStack c' = topOfStack c.

Lemma tstep_refl T : tstep T T.
Proof. split; [done|]. eauto. Qed.

Lemma tstep_trans T1 T2 T3 : tstep T1 T2 → tstep T2 T3 → tstep T1 T3.
Proof.
  intros [D1 S1] [D2 S2]. split; [intros t; by rewrite D2|].
  intros t c3 E3. destruct (S2 t c3 E3) as (c2 & E2 & ? & ? & ?).
  destruct (S1 t c2 E2) as (c1 & E1 & ? & ? & ?). exists c1. intuition congruence.
Qed.

Lemma tstep_insert T t c c' :
  T !! t = Some c → st c' OS_TASK_STATUS_UNUSED = st c OS_TASK_STATUS_UNUSED →
  st c' OS_TASK_STATUS_EXIT = st c OS_TASK_STATUS_EXIT → topOfStack c' = topOfStack c →
  tstep T (<[t := c']> T).
Proof.
  intros E H1 H2 H3. split.
  - intros t'. destruct (decide (t = t')) as [<-|]; [rewrite lookup_insert_eq|by rewrite lookup_insert_ne].
    rewrite E. split; eauto.
  - intros t' c0 [[<- <-]|[? E']]%lookup_insert_Some; eauto.
Qed.

Lemma tstep_live T T' t c' :
  tstep T T' → T' !! t = Some c' → live c' →
  ∃ c, T !! t = Some c ∧ live c ∧ topOfStack c' = topOfStack c.
Proof. intros [_ HS] E Hl. destruct (HS _ _ E) as (c & Ec & Hu & _ & Ht). exists c. by rewrite <- Hu. Qed.

Lemma enq_tcb_tstep s t c :
  let c' := enq_tcb s t c in
  st c' OS_TASK_STATUS_UNUSED = st c OS_TASK_STATUS_UNUSED ∧
  st c' OS_TASK_STATUS_EXIT = st c OS_TASK_STATUS_EXIT ∧ topOfStack c' = topOfStack c ∧
  st c' OS_TASK_STATUS_RUNNING = st c OS_TASK_STATUS_RUNNING ∧ waitTimes c' = waitTimes c ∧
  priority c' = priority c.
Proof. unfold enq_tcb, enq_status. destruct (_ || _); rsimpl; by fsimpl. Qed.

Lemma scan_tstep s cur T : tstep T (scan_tasks s cur T).
Proof.
  split.
  - intros t. rewrite scan_tasks_lookup. by rewrite fmap_is_Some.
  - intros t c'. rewrite scan_tasks_lookup. intros (c & E & ->)%fmap_Some. exists c.
    destruct (scan_one_fields s cur t c) as (_ & -> & _ & _ & -> & _). split_and!; try done.
    unfold scan_one, wake_tcb, timeout_tcb. destruct (expired cur c); [|done]. rsimpl.
    destruct (st c OS_TASK_STATUS_SUSPEND), (st c OS_TASK_STATUS_PEND);
      unfold enq_tcb, enq_status; try destruct (_ || _); rsimpl; by fsimpl.
Qed.

Lemma switch_tstep `{Config} s T r n rc cn :
  T !! r = Some rc → <[r := put_back s r rc]> T !! n = Some cn →
  tstep T (switch_tasks s T r n rc cn).
Proof.
  intros Er En.
  assert (tstep T (<[r := put_back s r rc]> T)) as HS.
  { destruct (put_back_fields s r rc) as (_ & _ & _ & _ & Ht & _ & Hu & _).
    apply (tstep_insert _ _ rc); try done. unfold put_back, parked_tcb.
    destruct (slice_tcb_fields (g_idleTaskID s) (now s) rc) as (E1 & _). revert E1.
    generalize (slice_tcb (g_idleTaskID s) (now s) rc). intros c1 E1. rewrite E1.
    destruct (st rc (Z.lor _ _)); rsimpl; [by rewrite E1|].
    destruct (st rc OS_TASK_BLOCKED_STATUS); [by rewrite E1|].
    destruct (enq_tcb_tstep s r c1) as (_ & -> & _). by rewrite E1. }
  eapply tstep_trans; [exact HS|]. unfold switch_tasks.
  destruct (Z.eqb_spec r n) as [<-|Hne].
  - apply (tstep_insert _ _ cn); unfold unready; rsimpl; fsimpl; try done.
  - apply (tstep_trans _ (<[r := run_out (put_back s r rc)]> (<[r := put_back s r rc]> T))).
    { apply (tstep_insert _ _ (put_back s r rc)); [apply lookup_insert_eq|..];
        unfold run_out; rsimpl; by fsimpl. }
    apply (tstep_insert _ _ cn); [by rewrite lookup_insert_ne|..];
      unfold unready, run_in; rsimpl; by fsimpl.
Qed.

(** The priorities of the tasks. *)
Definition prios (T : tasks) : gmap Z Z := priority <$> T.

Lemma prios_insert T t c c' :
  T !! t = Some c → priority c' = priority c → prios (<[t := c']> T) = prios T.
Proof.
  intros E Hp. unfold prios. rewrite fmap_insert, Hp. apply insert_id.
  by rewrite lookup_fmap, E.
Qed.

Lemma switch_prios `{Config} s T r n rc cn :
  T !! r = Some rc → <[r := put_back s r rc]> T !! n = Some cn →
  prios (switch_tasks s T r n rc cn) = prios T.
Proof.
  intros Er En. destruct (put_back_fields s r rc) as (_ & _ & Hp & _).
  rewrite <- (prios_insert T r rc (put_back s r rc)) by done. unfold switch_tasks.
  destruct (Z.eqb_spec r n) as [<-|Hne]; [by apply (prios_insert _ _ cn)|].
  rewrite (prios_insert _ n cn); [|by rewrite lookup_insert_ne|done].
  apply (prios_insert _ _ (put_back s r rc)); [apply lookup_insert_eq|done].
Qed.

(** No task of the delay queue should have been woken by the time [cur]. *)
Definition no_sleeper (cur : Z) (T : tasks) : Prop :=
  map_Forall (fun _ c => expired cur c = false) T.

Lemma scan_no_sleeper s cur T : no_sleeper cur (scan_tasks s cur T).
Proof.
  intros t c'. rewrite scan_tasks_lookup. intros (c & E & ->)%fmap_Some. unfold scan_one.
  destruct (expired cur c) eqn:Ex; [by apply wake_tcb_not_expired|done].
Qed.

Lemma no_sleeper_insert cur T t c c' :
  no_sleeper cur T → T !! t = Some c → st c' OS_TASK_STATUS_UNUSED = st c OS_TASK_STATUS_UNUSED →
  sortList_responseTime c' = sortList_responseTime c → no_sleeper cur (<[t := c']> T).
Proof.
  intros HT E Hu Ht. apply map_Forall_insert_2; [|done]. specialize (HT t c E).
  unfold expired in *. by rewrite Hu, Ht.
Qed.

Lemma switch_no_sleeper `{Config} s T r n rc cn cur :
  T !! r = Some rc → <[r := put_back s r rc]> T !! n = Some cn → unblocked rc →
  no_sleeper cur T → no_sleeper cur (switch_tasks s T r n rc cn).
Proof.
  intros Er En Hub HT.
  assert (no_sleeper cur (<[r := put_back s r rc]> T)) as HT2.
  { destruct (put_back_fields s r rc) as (_ & _ & _ & _ & _ & _ & Hu & _).
    apply (no_sleeper_insert _ _ _ rc); [done..|].
    unfold put_back, parked_tcb. destruct Hub as (_ & Hb1 & Hb2).
    destruct (slice_tcb_fields (g_idleTaskID s) (now s) rc) as (E1 & _ & _ & E4 & _).
    revert E1 E4. generalize (slice_tcb (g_idleTaskID s) (now s) rc). intros c1 E1 E4.
    destruct (enq_tcb_fields s r c1) as (_ & _ & _ & E5 & _).
    by rewrite E1, Hb1, Hb2, E5. }
  unfold switch_tasks. destruct (Z.eqb_spec r n) as [<-|Hne].
  - apply (no_sleeper_insert _ _ _ cn); unfold unready; rsimpl; fsimpl; done.
  - apply (no_sleeper_insert _ _ _ cn); [|by rewrite lookup_insert_ne|unfold unready, run_in; rsimpl; by fsimpl..].
    apply (no_sleeper_insert _ _ _ (put_back s r rc)); [done|apply lookup_insert_eq|
      unfold run_out; rsimpl; by fsimpl..].
Qed.

(** ** Semaphores, mutexes and events *)

(** The count of a semaphore is within its limits, and tasks wait only when it is 0. *)
Definition sem_ok (LS : lists) (i : Z) (c : LosSemCB) : Prop :=
  semStat c ≠ OS_SEM_UNUSED →
  0 ≤ semCount c ≤ maxSemCount c ∧ maxSemCount c ≤ OS_SEM_COUNTING_MAX_COUNT ∧
  is_Some (LS !! SemList i) ∧ (members LS (SemList i) ≠ [] → semCount c = 0).

(** A task that can own a mutex. *)
Definition owner_ok (idle : Z) (T : tasks) (o : option Z) : Prop :=
  match o with
  | Some o => o ≠ idle ∧ match T !! o with Some c => live c | None => False end
  | None => False
  end.

(** A mutex that is held has a live owner to which a priority is given back. *)
Definition mux_ok (idle : Z) (T : tasks) (LS : lists) (i : Z) (m : LosMuxCB) : Prop :=
  muxStat m ≠ OS_MUX_UNUSED →
  0 ≤ muxCount m < 2 ^ 16 ∧ is_Some (LS !! MuxList i) ∧
  (muxCount m ≠ 0 → 0 ≤ muxPriority m < OS_PRIORITY_QUEUE_NUM ∧ owner_ok idle T (owner m)).

Definition event_ok (LS : lists) (u : Z) (_ : Z) : Prop := is_Some (LS !! EventList (EvUser u)).

Record IpcInv `{Config} (s : kstate) (T : tasks) (LS : lists) : Prop := {
  i_sem_dom : Forall (fun i => is_Some (g_allSem s !! i)) (seqZ 0 LOSCFG_BASE_IPC_SEM_LIMIT);
  i_sem : map_Forall (sem_ok LS) (g_allSem s);
  i_mux_dom : Forall (fun i => is_Some (g_allMux s !! i)) (seqZ 0 LOSCFG_BASE_IPC_MUX_LIMIT);
  i_mux : map_Forall (mux_ok (g_idleTaskID s) T LS) (g_allMux s);
  i_event : map_Forall (event_ok LS) (userEvents s)
}.
#[global] Arguments i_sem_dom {_ _ _ _} _.
#[global] Arguments i_sem {_ _ _ _} _.
#[global] Arguments i_mux_dom {_ _ _ _} _.
#[global] Arguments i_mux {_ _ _ _} _.
#[global] Arguments i_event {_ _ _ _} _.

Lemma owner_tstep idle T T' o : tstep T T' → owner_ok idle T o → owner_ok idle T' o.
Proof.
  intros [HD HS]. destruct o as [o|]; [|done]. simpl. intros [Hi Ho]. split; [done|].
  destruct (T !! o) as [c|] eqn:Ec; [|done].
  destruct (T' !! o) as [c'|] eqn:Ec'.
  - destruct (HS _ _ Ec') as (c0 & E0 & Hu & _). simplify_eq. by rewrite Hu.
  - specialize (HD o). rewrite Ec, Ec' in HD. destruct HD as [_ HD]. destruct HD; [eauto|done].
Qed.

Section ipc.
  Context `{Config}.

(** Tasks that leave wait lists do no harm. *)
Lemma IpcInv_shrink s s1 T T' LS LS' :
  IpcInv s T LS → g_allSem s1 = g_allSem s → g_allMux s1 = g_allMux s →
  userEvents s1 = userEvents s → g_idleTaskID s1 = g_idleTaskID s →
  waits_shrink LS LS' → tstep T T' → IpcInv s1 T' LS'.
Proof.
  intros [I1 I2 I3 I4 I5] E1 E2 E3 E4 Hw Ht. constructor; rewrite ?E1, ?E2, ?E3, ?E4; try done.
  - intros i c Ec Hu. destruct (I2 i c Ec Hu) as (H1 & H2 & H3 & H4).
    destruct (Hw (SemList i) eq_refl) as [Hd Hs]. split_and!; [apply H1|apply H1|done|by apply Hd|].
    intros Hne. apply H4. intros Hnil. rewrite Hnil in Hs. apply sublist_nil_r in Hs. done.
  - intros i m Em Hu. destruct (I4 i m Em Hu) as (H1 & H2 & H3).
    destruct (Hw (MuxList i) eq_refl) as [Hd _]. split_and!; [apply H1|apply H1|by apply Hd|].
    intros Hc. destruct (H3 Hc). split; [done|]. by eapply owner_tstep.
  - intros u v Eu. apply (Hw (EventList (EvUser u)) eq_refl). by apply (I5 u v).
Qed.

(** A task joins the wait list [hd]. *)
Lemma IpcInv_wait s s1 T T' LS hd xs x :
  IpcInv s T LS → g_allSem s1 = g_allSem s → g_allMux s1 = g_allMux s →
  userEvents s1 = userEvents s → g_idleTaskID s1 = g_idleTaskID s →
  LS !! hd = Some xs → tstep T T' →
  (∀ i c, hd = SemList i → g_allSem s !! i = Some c → semCount c = 0) →
  IpcInv s1 T' (<[hd := xs ++ [x]]> LS).
Proof.
  intros [I1 I2 I3 I4 I5] E1 E2 E3 E4 E Ht Hc.
  assert (∀ h, is_Some (<[hd := xs ++ [x]]> LS !! h) ↔ is_Some (LS !! h)) as Hd.
  { intros h. destruct (decide (hd = h)) as [<-|]; [|by rewrite lookup_insert_ne].
    rewrite lookup_insert_eq, E. split; eauto. }
  constructor; rewrite ?E1, ?E2, ?E3, ?E4; try done.
  - intros i c Ec Hu. destruct (I2 i c Ec Hu) as (H1 & H2 & H3 & H4).
    split_and!; [apply H1|apply H1|done|by apply Hd|].
    rewrite members_insert. case_decide as Hh; [intros _; by eapply Hc|done].
  - intros i m Em Hu. destruct (I4 i m Em Hu) as (H1 & H2 & H3).
    split_and!; [apply H1|apply H1|by apply Hd|].
    intros Hm. destruct (H3 Hm). split; [done|]. by eapply owner_tstep.
  - intros u v Eu. apply Hd. by apply (I5 u v).
Qed.
End ipc.

(** ** The system *)

(** The state a task switch may start from: [r] runs, but may have given up the processor. *)
Record BInv `{Config} (s : kstate) (LS : lists) (r : Z) (rc : LosTaskCB) : Prop := {
  b_kernel : KInv s LS;
  b_run : Running s r rc;
  b_ipc : IpcInv s (g_taskCBArray s) LS;
  b_sched : g_taskScheduled s = true;
  b_dom : Forall (fun t => is_Some (g_taskCBArray s !! t)) (seqZ 0 (g_taskMaxNum s));
  b_exit : map_Forall (fun _ c => live c → st c OS_TASK_STATUS_EXIT = false) (g_taskCBArray s);
  b_tick : g_swtmrScan s = false ∧ 0 ≤ g_tickIntLock s < 2 ^ 16;
  b_lock : 0 ≤ g_losTaskLock s < 2 ^ 16
}.
#[global] Arguments b_kernel {_ _ _ _ _} _.
#[global] Arguments b_run {_ _ _ _ _} _.
#[global] Arguments b_ipc {_ _ _ _ _} _.
#[global] Arguments b_sched {_ _ _ _ _} _.
#[global] Arguments b_dom {_ _ _ _ _} _.
#[global] Arguments b_exit {_ _ _ _ _} _.
#[global] Arguments b_tick {_ _ _ _ _} _.
#[global] Arguments b_lock {_ _ _ _ _} _.

(** Between two system calls the running task also wants to run. *)
Definition SInv `{Config} (s : kstate) (LS : lists) (r : Z) (rc : LosTaskCB) : Prop :=
  BInv s LS r rc ∧ unblocked rc.

(** The parts of the state no task switch changes. *)
Definition rest_same (s s1 : kstate) : Prop :=
  g_allSem s1 = g_allSem s ∧ g_allMux s1 = g_allMux s ∧ userEvents s1 = userEvents s ∧
  g_idleTaskID s1 = g_idleTaskID s ∧ g_taskScheduled s1 = g_taskScheduled s ∧
  g_taskMaxNum s1 = g_taskMaxNum s ∧ g_swtmrScan s1 = g_swtmrScan s ∧
  g_tickIntLock s1 = g_tickIntLock s ∧ g_losTaskLock s1 = g_losTaskLock s ∧
  g_allQueue s1 = g_allQueue s ∧ ram s1 = ram s ∧ malloced s1 = malloced s ∧
  g_intCount s1 = g_intCount s.

Lemma rest_same_trans s1 s2 s3 : rest_same s1 s2 → rest_same s2 s3 → rest_same s1 s3.
Proof. unfold rest_same. intuition congruence. Qed.

Lemma sframe_rest s s1 : sframe s s1 → rest_same s s1.
Proof. intros (? & ? & ? & ? & ? & ? & ? & ? & ? & ? & ? & ->). by split_and!. Qed.

(** ** The most urgent task runs *)

(** [n] is at least as urgent as every ready task; the idle task runs only when no other
    task is ready. *)
Definition most_urgent (s : kstate) (n : Z) (nc : LosTaskCB) : Prop :=
  ∀ t c, g_taskCBArray s !! t = Some c → live c → st c OS_TASK_STATUS_READY = true →
    t ≠ g_idleTaskID s → n ≠ g_idleTaskID s ∧ priority nc ≤ priority c.

(** Unless the scheduler is locked, no ready task is more urgent than the running one. *)
Definition preempting (s : kstate) : Prop :=
  ∀ r rc, runTask s = Some r → g_taskCBArray s !! r = Some rc → g_losTaskLock s = 0 →
    most_urgent s r rc.

(** No task is ready in [T'] that was not at least as urgently ready in [T]. *)
Definition ready_le (T T' : tasks) : Prop :=
  ∀ t c', T' !! t = Some c' → live c' → st c' OS_TASK_STATUS_READY = true →
    ∃ c, T !! t = Some c ∧ live c ∧ st c OS_TASK_STATUS_READY = true ∧ priority c ≤ priority c'.

Lemma preempting_le s s' :
  runTask s' = runTask s → g_idleTaskID s' = g_idleTaskID s → g_losTaskLock s' = g_losTaskLock s →
  ready_le (g_taskCBArray s) (g_taskCBArray s') →
  (∀ r rc', runTask s = Some r → g_taskCBArray s' !! r = Some rc' →
     ∃ rc, g_taskCBArray s !! r = Some rc ∧ priority rc' ≤ priority rc) →
  preempting s → preempting s'.
Proof.
  intros Er Ei El Hle Hr HP r rc' Hrun Erc' Hlk t c' Et Hl Hrd Hi. rewrite Er, El, Ei in *.
  destruct (Hr r rc' Hrun Erc') as (rc & Erc & Hp).
  destruct (Hle t c' Et Hl Hrd) as (c & Et0 & Hl0 & Hrd0 & Hp0).
  destruct (HP r rc Hrun Erc Hlk t c Et0 Hl0 Hrd0 Hi) as [Hni Hpr]. split; [done|lia].
Qed.

Lemma ready_le_refl T : ready_le T T.
Proof. intros t c E Hl Hr. exists c. by split_and!. Qed.

(** Only the task [t] changes: it stops being ready, or was not, or becomes less urgent. *)
Lemma ready_le_insert T t c c' :
  T !! t = Some c →
  (live c' → st c' OS_TASK_STATUS_READY = true →
     live c ∧ st c OS_TASK_STATUS_READY = true ∧ priority c ≤ priority c') →
  ready_le T (<[t := c']> T).
Proof.
  intros Et Hc t' c1 [[<- <-]|[_ E]]%lookup_insert_Some Hl Hr; [|by exists c1].
  destruct (Hc Hl Hr) as (? & ? & ?). by exists c.
Qed.

Lemma preempting_same s s' :
  runTask s' = runTask s → rest_same s s' → g_taskCBArray s' = g_taskCBArray s →
  preempting s → preempting s'.
Proof.
  intros Er (_ & _ & _ & Hid & _ & _ & _ & _ & Hlk & _) ET. apply preempting_le; rewrite ?ET; try done.
  - apply ready_le_refl.
  - intros r rc' _ E. exists rc'. split; [done|lia].
Qed.

Section sys.
  Context `{Config}.

Lemma BInv_intro s LS r rc s' LS' r' rc' :
  BInv s LS r rc → KInv s' LS' → Running s' r' rc' → IpcInv s' (g_taskCBArray s') LS' →
  tstep (g_taskCBArray s) (g_taskCBArray s') →
  g_taskScheduled s' = g_taskScheduled s → g_taskMaxNum s' = g_taskMaxNum s →
  g_swtmrScan s' = g_swtmrScan s → g_tickIntLock s' = g_tickIntLock s →
  0 ≤ g_losTaskLock s' < 2 ^ 16 → BInv s' LS' r' rc'.
Proof.
  intros [B1 B2 B3 B4 B5 B6 B7 B8] HK HR HI [HD HS] E1 E2 E3 E4 Hl.
  constructor; rewrite ?E1, ?E2, ?E3, ?E4; try done.
  - eapply Forall_impl; [exact B5|]. intros t. by rewrite HD.
  - intros t c' Ec Hlc. destruct (HS _ _ Ec) as (c & E & Hu & He & _). rewrite He.
    apply (B6 t c E). congruence.
Qed.

(** A task that waits, sleeps or is suspended does not stay on the processor. *)
Lemma blocked_leaves s T r rc n cn LS2 b2 :
  RunInv s T r rc → QInv (g_idleTaskID s) (<[r := put_back s r rc]> T) LS2 b2 →
  is_top (g_idleTaskID s) LS2 n → <[r := put_back s r rc]> T !! n = Some cn →
  ¬ unblocked rc → n ≠ r.
Proof.
  intros HR HI Htop En Hub ->.
  destruct (new_ready _ _ _ _ _ _ _ _ HR HI Htop En) as [_ Hrd].
  rewrite lookup_insert_eq in En. simplify_eq. apply Hub.
  destruct (put_back_fields s r rc) as (_ & _ & _ & _ & _ & _ & _ & Hrd').
  rewrite Hrd, (r_ready _ _ _ _ HR), orb_false_r in Hrd'.
  symmetry in Hrd'. apply andb_true_iff in Hrd' as [H1 H2].
  rewrite negb_true_iff in H1, H2. split_and!; [|done|done].
  unfold OS_TASK_BLOCKED_STATUS in H2. rewrite !flag_lor, !orb_false_iff in H2. tauto.
Qed.

(** A task switch. *)
Lemma wp_ArchTaskSchedule_sys s LS r rc (Q : unit → kstate → Prop) :
  BInv s LS r rc → now s < TIME_HORIZON →
  (∀ s' LS' n nc, SInv s' LS' n nc → preempting s' → (¬ unblocked rc → n ≠ r) → rest_same s s' →
     q_frame LS LS' → prios (g_taskCBArray s') = prios (g_taskCBArray s) →
     (∀ cur, unblocked rc → no_sleeper cur (g_taskCBArray s) → no_sleeper cur (g_taskCBArray s')) →
     now s ≤ now s' < now s + 2 ^ 32 → Q tt s') →
  wp ArchTaskSchedule Q s.
Proof.
  intros HB Hh HQ. pose proof HB as [B1 B2 B3 B4 B5 B6 B7 B8].
  eapply wp_ArchTaskSchedule; [exact B1|exact B2|exact Hh|].
  intros n cn LS2 b2 s1 LS' h' b' HI2 _ Htop En s' Hsf Hc Hfr HK' HR' Hub.
  pose proof (sframe_rest _ _ Hsf) as Hrest.
  destruct B2 as (_ & HRI & _). pose proof (r_tcb _ _ _ _ HRI) as Er.
  pose proof (switch_tstep s _ r n rc cn Er En) as Ht.
  assert (rest_same s s') as Hrest' by exact Hrest.
  assert (now s ≤ now s' < now s + 2 ^ 32) as Hnow by apply Hc.
  destruct Hrest as (F1 & F2 & F3 & F4 & F5 & F6 & F7 & F8 & F9 & _).
  eapply HQ; [| |by eapply blocked_leaves|exact Hrest'|exact Hfr|by apply switch_prios|
    by intros; eapply switch_no_sleeper|exact Hnow].
  2: { intros n' nc' Hn' En' _ t c Et Hlc Hrd Hi. destruct HR' as (Hrn & HRn & _).
    rewrite Hrn in Hn'. injection Hn' as <-. pose proof (r_tcb _ _ _ _ HRn). simplify_eq.
    change (g_idleTaskID s') with (g_idleTaskID s1) in *. rewrite F4 in *. by eapply switch_best. }
  split; [|exact Hub].
  eapply (BInv_intro s); [exact HB|exact HK'|exact HR'| |exact Ht|done..|].
  + eapply (IpcInv_shrink s); [exact B3|done..|by apply q_frame_shrink|exact Ht].
  + change (0 ≤ g_losTaskLock s1 < 2 ^ 16). by rewrite F9.
Qed.

Lemma wp_LOS_Schedule_sys s LS r rc (Q : unit → kstate → Prop) :
  BInv s LS r rc → g_losTaskLock s = 0 ∨ unblocked rc → now s < TIME_HORIZON →
  (∀ s' LS' n nc, SInv s' LS' n nc → preempting s' → (¬ unblocked rc → n ≠ r) → rest_same s s' →
     q_frame LS LS' → prios (g_taskCBArray s') = prios (g_taskCBArray s) →
     now s ≤ now s' < now s + 2 ^ 32 → Q tt s') →
  wp LOS_Schedule Q s.
Proof.
  intros HB Hlk Hh HQ. pose proof (b_sched HB) as B4.
  unfold LOS_Schedule, OsCheckKernelRunning. wp_steps. rewrite B4.
  destruct (Z.eqb_spec (g_losTaskLock s) 0) as [E0|Hne]; simpl; wp_steps.
  - eapply wp_ArchTaskSchedule_sys; [exact HB|exact Hh|]. intros s' LS' n nc HS' Hpe Hn Hr Hf Hp _ Hw.
    by eapply HQ.
  - destruct Hlk as [|Hub]; [done|].
    eapply HQ; [split; [exact HB|exact Hub]|by intros ? ? _ _ ?|done|by split_and!|done|done|lia].
Qed.
End sys.

(** ** What every system call guarantees *)

(** The system is again between two calls, and its clock has moved little. *)
Definition sys_ok `{Config} (s s' : kstate) : Prop :=
  ∃ LS' n nc, SInv s' LS' n nc ∧ now s ≤ now s' < now s + 2 ^ 33 ∧
    g_idleTaskID s' = g_idleTaskID s.

(** The most urgent task still runs, too. *)
Definition sys_post `{Config} (s s' : kstate) : Prop :=
  sys_ok s s' ∧ (preempting s → preempting s').

(** [m] is safe to call for every task but the idle task. *)
Definition safe_call `{Config} {A} (m : K A) : Prop :=
  ∀ s LS r rc, SInv s LS r rc → r ≠ g_idleTaskID s → now s < TIME_HORIZON →
    wp m (fun _ s' => sys_post s s') s.

(** [s1] is [s] but for the interrupt flag and the response time of the scheduler. *)
Definition api_frame (s s1 : kstate) : Prop :=
  ∃ i rt, s1 = s <| interrupt_flag := i |> <| g_schedResponseTime := rt |>.

Lemma api_frame_refl s : api_frame s s.
Proof. exists (interrupt_flag s), (g_schedResponseTime s). by destruct s. Qed.
Lemma api_frame_int s s1 i : api_frame s s1 → api_frame s (s1 <| interrupt_flag := i |>).
Proof. intros (j & rt & ->). exists i, rt. tframe_eq s. Qed.
Lemma api_frame_rt s s1 rt : api_frame s s1 → api_frame s (s1 <| g_schedResponseTime := rt |>).
Proof. intros (j & rt' & ->). exists j, rt. tframe_eq s. Qed.

Create HintDb api.
#[export] Hint Resolve api_frame_refl api_frame_int api_frame_rt : api.

Lemma api_view s s1 :
  api_frame s s1 → sched_upd s1 (g_taskCBArray s) (dlheap s) (g_queueBitmap s) = s1.
Proof. intros (i & rt & ->). by destruct s. Qed.

Lemma api_frame_fields s s1 :
  api_frame s s1 →
  kframe s s1 ∧ rest_same s s1 ∧ runTask s1 = runTask s ∧ now s1 = now s ∧
  g_oldTickTimerBase s1 = g_oldTickTimerBase s ∧ (ClockOk s → ClockOk s1).
Proof. intros (i & rt & ->). by split_and!. Qed.

Section post.
  Context `{Config}.

(** The running task and the lists after an operation of the scheduler. *)
Lemma BInv_upd s LS r rc s1 T' h' b' LS' rc' :
  BInv s LS r rc → api_frame s s1 → lists_frame LS LS' → WF h' LS' →
  QInv (g_idleTaskID s) T' LS' b' → tstep (g_taskCBArray s) T' → RunInv s T' r rc' →
  topOfStack rc' = topOfStack rc → IpcInv s T' LS' → BInv (sched_upd s1 T' h' b') LS' r rc'.
Proof.
  intros HB Hf Hfr HW HI Ht HR Htop Hipc. pose proof HB as [B1 (Hr & _ & Hm) _ _ _ _ _ B8].
  destruct (api_frame_fields _ _ Hf) as (Fk & Frest & Frun & Fnow & Fold & Fclk).
  pose proof Frest as (F1 & F2 & F3 & F4 & F5 & F6 & F7 & F8 & F9 & _).
  pose proof Fk as (_ & _ & _ & _ & _ & Fram & _).
  eapply (BInv_intro s); [exact HB| | | |exact Ht|done..|].
  - eapply (KInv_upd s); [exact B1|exact Fk|done..|apply Fclk, B1|].
    intros t c'. by apply tstep_live.
  - split; [by rewrite <- Frun in Hr|]. split; [by apply (RunInv_ext s)|].
    unfold magic_ok. rewrite Htop. change (ram (sched_upd s1 T' h' b')) with (ram s1).
    by rewrite Fram.
  - eapply (IpcInv_shrink s); [exact Hipc|done..|by apply q_frame_shrink|apply tstep_refl].
  - change (0 ≤ g_losTaskLock s1 < 2 ^ 16). by rewrite F9.
Qed.

(** The same with nothing but the flags of [s1] changed. *)
Lemma BInv_api s LS r rc s1 : BInv s LS r rc → api_frame s s1 → BInv s1 LS r rc.
Proof.
  intros HB Hf. pose proof HB as [B1 B2 B3 B4 B5 B6 B7 B8].
  rewrite <- (api_view _ _ Hf). eapply BInv_upd; [exact HB|exact Hf|done|apply B1|apply B1|apply tstep_refl|
    apply B2|done|done].
Qed.

Lemma sys_post_api s LS r rc s1 : SInv s LS r rc → api_frame s s1 → sys_post s s1.
Proof.
  intros [HB Hu] Hf. split.
  - exists LS, r, rc. split; [split; [by eapply BInv_api|done]|].
    destruct Hf as (i & rt & ->). split; [|reflexivity]. change (now (_ <| _ := _ |>)) with (now s). lia.
  - destruct (api_frame_fields _ _ Hf) as (_ & Hr & Hrun & _).
    apply preempting_same; [done|done|]. by destruct Hf as (i & rt & ->).
Qed.

(** The usual end of a system call. *)
Lemma schedule_sys_post s0 s LS r rc (Q : unit → kstate → Prop) :
  BInv s LS r rc → g_losTaskLock s = 0 ∨ unblocked rc → now s < TIME_HORIZON →
  now s = now s0 → g_idleTaskID s = g_idleTaskID s0 → (∀ s', sys_post s0 s' → Q tt s') →
  wp LOS_Schedule Q s.
Proof.
  intros HB Hl Hh Hn Hi HQ. eapply wp_LOS_Schedule_sys; [exact HB|exact Hl|exact Hh|].
  intros s' LS' n nc HS Hpe _ Hrest _ _ Hn'. apply HQ. split; [|done]. exists LS', n, nc.
  destruct Hrest as (_ & _ & _ & Hid & _). split; [done|]. split; [lia|congruence].
Qed.
End post.

(** ** Blocking calls *)

(** [c'] differs from [c] in fields the scheduler does not look at. *)
Definition same_sched (c c' : LosTaskCB) : Prop :=
  taskStatus c' = taskStatus c ∧ priority c' = priority c ∧ taskID c' = taskID c ∧
  sortList_responseTime c' = sortList_responseTime c ∧ startTime c' = startTime c ∧
  waitTimes c' = waitTimes c ∧ topOfStack c' = topOfStack c.

Lemma wait_tcb_fields ticks c :
  let c' := wait_tcb ticks c in
  st c' OS_TASK_STATUS_UNUSED = st c OS_TASK_STATUS_UNUSED ∧
  st c' OS_TASK_STATUS_EXIT = st c OS_TASK_STATUS_EXIT ∧ topOfStack c' = topOfStack c ∧
  st c' OS_TASK_STATUS_PEND = true ∧ priority c' = priority c.
Proof. unfold wait_tcb. destruct (_ =? _); rsimpl; by fsimpl. Qed.

Section block.
  Context `{Config} (s : kstate) (LS : lists) (r : Z) (rc rc1 : LosTaskCB).
  Context (HS : SInv s LS r rc) (Hi : r ≠ g_idleTaskID s) (Hc : same_sched rc rc1).

(** The running task waits in [hd], and another task takes over. *)
Lemma wpu_block {A} (k : K A) hd xs ticks i (Q : outcome A → kstate → Prop) :
  now s < TIME_HORIZON → g_losTaskLock s = 0 → 0 ≤ ticks < 2 ^ 32 →
  is_wait hd = true → LS !! hd = Some xs →
  (∀ j c, hd = SemList j → g_allSem s !! j = Some c → semCount c = 0) →
  (∀ s' LS' n nc, SInv s' LS' n nc → preempting s' → n ≠ r → rest_same s s' →
     q_frame (<[hd := xs ++ [PendList r]]> LS) LS' →
     prios (g_taskCBArray s') = prios (g_taskCBArray s) → now s ≤ now s' < now s + 2 ^ 32 →
     Q Switched s') →
  wp (OsSchedTaskWait hd ticks;; (LOS_IntRestore i;; schedule_then k)) Q
    (sched_upd s (<[r := rc1]> (g_taskCBArray s)) (dlheap s) (g_queueBitmap s)).
Proof.
  intros Hh Hlk Ht Hhd E Hsem HQ. destruct HS as [HB Hub].
  pose proof HB as [B1 (Hr & HR & Hm) B3 _ _ _ _ _]. pose proof (r_tcb _ _ _ _ HR) as Er.
  destruct Hc as (C1 & C2 & C3 & C4 & C5 & C6 & C7). set (T := g_taskCBArray s) in *.
  assert (QInv (g_idleTaskID s) (<[r := rc1]> T) LS (g_queueBitmap s)) as HI1
    by (eapply QInv_irrelevant; [apply B1|exact Er|done..]).
  assert (RunInv s (<[r := rc1]> T) r rc1) as HR1
    by (eapply RunInv_clock; [exact HR|done..|rewrite C5; apply HR]).
  assert (unblocked rc1) as Hub1 by (unfold unblocked; by rewrite C1).
  wpu_step. eapply wpu_OsSchedTaskWait; [apply B1|exact HI1|exact Hr|exact HR1|exact Hub1|exact Hi|
    exact Ht|exact Hhd|exact E|].
  intros h' T' LS' HW' HI' HR'. unfold T' in *. clear T'. rewrite insert_insert_eq in *.
  destruct (wait_tcb_fields ticks rc1) as (W1 & W2 & W3 & W4 & W5). rewrite C1 in W1, W2.
  rewrite C7 in W3.
  assert (tstep T (<[r := wait_tcb ticks rc1]> T)) as Hts by (by eapply tstep_insert).
  unfold schedule_then. wpu_steps.
  set (s1 := sched_upd _ _ _ _).
  assert (BInv s1 LS' r (wait_tcb ticks rc1)) as HB1.
  { eapply BInv_upd; [exact HB|auto with api| |exact HW'|exact HI'|exact Hts|exact HR'|exact W3|].
    - apply frame_off_insert. by destruct hd.
    - by eapply (IpcInv_wait s). }
  eapply wp_LOS_Schedule_sys; [exact HB1|by left|exact Hh|].
  intros s' LS2 n nc HS' Hpe Hne Hrest Hfr Hpr Hnow. wp_steps.
  assert (n ≠ r) as Hnr.
  { apply Hne. intros Hub'%unblocked_alt. rewrite W4 in Hub'. by destruct Hub' as (_ & _ & _ & ? & _). }
  pose proof (b_run (proj1 HS')) as (Hn & _). rewrite Hn.
  change (runTask s1) with (runTask s). rewrite Hr.
  rewrite decide_False by congruence. wp_steps.
  eapply HQ; [exact HS'|exact Hpe|exact Hnr|exact Hrest|exact Hfr| |exact Hnow].
  rewrite Hpr. apply (prios_insert T r rc); [done|congruence].
Qed.
End block.

(** ** Waking a task *)

Lemma wait_member idle T LS bm hd x :
  QInv idle T LS bm → x ∈ members LS hd → is_wait hd = true →
  ∃ t c, x = PendList t ∧ T !! t = Some c ∧ live c ∧ st c OS_TASK_STATUS_PEND = true.
Proof.
  intros HI Hx Hw. pose proof (member_of _ _ _ _ _ _ HI Hx) as Hm.
  destruct hd; try done; destruct x; try done; specialize (Hm eq_refl);
    match type of Hm with
    | context [T !! ?u] => destruct (T !! u) as [c|] eqn:E; [by exists u, c|done]
    end.
Qed.

(** The list a waiting task leaves is the one it was in. *)
Lemma NoDup_split_unique {A} (x : A) l1 l2 l1' l2' :
  NoDup (l1 ++ x :: l2) → l1 ++ x :: l2 = l1' ++ x :: l2' → l1 = l1' ∧ l2 = l2'.
Proof.
  revert l1'. induction l1 as [|y l1 IH]; intros [|y' l1']; simpl; intros Hnd Heq;
    simplify_eq; apply NoDup_cons in Hnd as [Hx Hnd]; [done|set_solver..|].
  destruct (IH l1' Hnd) as [-> ->]; done.
Qed.

Lemma unwaited_at h t LS LS' hd l1 l2 :
  WF h LS → unwaited t LS LS' → LS !! hd = Some (l1 ++ PendList t :: l2) →
  LS' !! hd = Some (l1 ++ l2) ∧
  (∀ hd', is_wait hd' = true → hd' ≠ hd → LS' !! hd' = LS !! hd').
Proof.
  intros HW (hd0 & l1' & l2' & Hw & E0 & E' & Ho) E.
  assert (hd0 = hd) as ->.
  { apply (WF_one_home h LS (PendList t)); [done|rewrite (members_Some _ _ _ E0)|
      rewrite (members_Some _ _ _ E)]; set_solver. }
  pose proof (WF_members_NoDup _ _ hd HW) as HN. rewrite (members_Some _ _ _ E) in HN.
  rewrite E in E0. injection E0 as Heq.
  destruct (NoDup_split_unique _ _ _ _ _ HN Heq) as [-> ->]. done.
Qed.

Lemma unwaited_gone h t LS LS1 LS' :
  WF h LS → unwaited t LS LS1 → q_frame LS1 LS' → ¬ waits LS' t.
Proof.
  intros HW (hd & l1 & l2 & Hw & E & E1 & Ho) Hfr (hd' & Hw' & Hx)%waits_alt.
  unfold members in Hx. rewrite Hfr in Hx by (by destruct hd').
  pose proof (WF_members_NoDup _ _ hd HW) as HN. rewrite (members_Some _ _ _ E) in HN.
  destruct (decide (hd' = hd)) as [->|Hne].
  - rewrite E1 in Hx. simpl in Hx. apply NoDup_app in HN as (_ & Hd & [H1 _]%NoDup_cons).
    specialize (Hd (PendList t)). set_solver.
  - rewrite Ho in Hx by done. apply Hne. apply (WF_one_home h LS (PendList t)); [done|done|].
    rewrite (members_Some _ _ _ E). set_solver.
Qed.

Lemma unwaited_shrink t LS LS' : unwaited t LS LS' → waits_shrink LS LS'.
Proof.
  intros (hd & l1 & l2 & Hhd & E & E' & Ho) hd' Hw. unfold members.
  destruct (decide (hd' = hd)) as [->|Hne]; [|by rewrite Ho].
  rewrite E, E'. simpl. split; [done|]. apply sublist_app; [done|]. by apply sublist_cons.
Qed.

Lemma woken_tcb_fields s t c :
  let c' := woken_tcb s t c in
  st c' OS_TASK_STATUS_UNUSED = st c OS_TASK_STATUS_UNUSED ∧
  st c' OS_TASK_STATUS_EXIT = st c OS_TASK_STATUS_EXIT ∧ topOfStack c' = topOfStack c ∧
  st c' OS_TASK_STATUS_RUNNING = st c OS_TASK_STATUS_RUNNING ∧ waitTimes c' = waitTimes c ∧
  priority c' = priority c.
Proof.
  unfold woken_tcb. destruct (_ || _).
  - unfold unpend_tcb. rsimpl. by unpend_simpl.
  - destruct (enq_tcb_tstep s t (unpend_tcb c)) as (-> & -> & -> & -> & -> & ->).
    unfold unpend_tcb. rsimpl. by unpend_simpl.
Qed.

Section wake_up.
  Context `{Config} (s : kstate) (LS : lists) (r : Z) (rc : LosTaskCB) (HS : SInv s LS r rc).
  Context (t : Z) (c c1 : LosTaskCB) (Et : g_taskCBArray s !! t = Some c) (Hl : live c).
  Context (Hp : st c OS_TASK_STATUS_PEND = true) (Hc : same_sched c c1).

Lemma waiter_other : t ≠ r ∧ t ≠ g_idleTaskID s.
Proof.
  destruct HS as [HB Hub]. pose proof (b_run HB) as (_ & HR & _).
  destruct (r_idle _ _ _ _ HR) as (ic & Ei & Hic & _). pose proof (r_tcb _ _ _ _ HR) as Er.
  apply unblocked_alt in Hub as (_ & _ & _ & Hp1 & _).
  apply unblocked_alt in Hic as (_ & _ & _ & Hp2 & _). split; intros ->; congruence.
Qed.

(** The waiting task [t] leaves its list and becomes ready, unless it is suspended. *)
Lemma wpu_wake_up (Q : unit → kstate → Prop) :
  (∀ s1 LS' h' b', api_frame s s1 → unwaited t LS LS' →
     let s' := sched_upd s1 (<[t := woken_tcb s t c1]> (g_taskCBArray s)) h' b' in
     BInv s' LS' r rc → Q tt s') →
  wp (OsSchedTaskWake t) Q
    (sched_upd s (<[t := c1]> (g_taskCBArray s)) (dlheap s) (g_queueBitmap s)).
Proof.
  intros HQ. destruct HS as [HB Hub]. pose proof HB as [B1 (_ & HR & _) B3 _ _ _ _ _].
  destruct Hc as (C1 & C2 & C3 & C4 & C5 & C6 & C7). destruct waiter_other as [Hr Hi].
  assert (QInv (g_idleTaskID s) (<[t := c1]> (g_taskCBArray s)) LS (g_queueBitmap s)) as HI1
    by (eapply QInv_irrelevant; [apply B1|exact Et|done..]).
  eapply wpu_OsSchedTaskWake; [apply B1|exact HI1|apply lookup_insert_eq|by rewrite C1|by rewrite C1|].
  rewrite insert_insert_eq. intros i rt LS' h' b' Huw Hfr HW' HI'.
  destruct (woken_tcb_fields s t c1) as (W1 & W2 & W3 & W4 & W5 & _).
  rewrite C1 in W1, W2, W4. rewrite C7 in W3. rewrite C6 in W5.
  assert (tstep (g_taskCBArray s) (<[t := woken_tcb s t c1]> (g_taskCBArray s))) as Hts
    by (by eapply tstep_insert).
  eapply HQ; [by exists i, rt|exact Huw|].
  eapply BInv_upd; [exact HB|by exists i, rt|exact Hfr|exact HW'|exact HI'|exact Hts| |done|].
  - eapply RunInv_other; [exact HR|exact Et|done|done|congruence|done|done].
  - eapply (IpcInv_shrink s); [exact B3|done..|by eapply unwaited_shrink|exact Hts].
Qed.
End wake_up.

(** ** The running task clears its time-out *)

Lemma same_flags_unblocked c c' :
  same_flags (taskStatus c) (taskStatus c') → unblocked c → unblocked c'.
Proof.
  unfold same_flags. rewrite !Forall_cons, !unblocked_alt.
  intros (F1 & F2 & F3 & F4 & F5 & F6 & F7 & F8 & _). by rewrite F1, F4, F5, F6, F7, F8.
Qed.

Definition clear_timeout (c : LosTaskCB) : LosTaskCB :=
  c <| taskStatus := clrflag (taskStatus c) OS_TASK_STATUS_TIMEOUT |>.

Lemma SInv_clear_timeout `{Config} s LS r rc s1 :
  SInv s LS r rc → api_frame s s1 →
  SInv (sched_upd s1 (<[r := clear_timeout rc]> (g_taskCBArray s)) (dlheap s) (g_queueBitmap s))
    LS r (clear_timeout rc).
Proof.
  intros [HB Hub] Hf. pose proof HB as [B1 (Hr & HR & Hm) B3 _ _ _ _ _].
  pose proof HR as [Er R2 R3 R4 _ R6 R7 _ _].
  assert (same_flags (taskStatus rc) (taskStatus (clear_timeout rc))) as Hfl
    by (unfold same_flags, clear_timeout; rsimpl; repeat constructor; by fsimpl).
  assert (unblocked (clear_timeout rc)) as Hub' by (by eapply same_flags_unblocked).
  assert (tstep (g_taskCBArray s) (<[r := clear_timeout rc]> (g_taskCBArray s))) as Ht
    by (apply (tstep_insert _ _ rc); [exact Er|unfold clear_timeout; rsimpl; by fsimpl..]).
  split; [|done].
  eapply BInv_upd; [exact HB|exact Hf|done|apply B1| |exact Ht| |done|].
  - eapply QInv_same_flags; [apply B1|exact Er|exact Hfl|done..].
  - apply RunInv_run with (rc := rc); auto; try (unfold clear_timeout; rsimpl; fsimpl; done).
    + apply Hub'.
    + apply Hub.
    + by apply (R7 _ _ Er).
  - by eapply (IpcInv_shrink s).
Qed.

(** ** Changes of other tasks *)

Lemma prio_tcb_fields s t p c :
  let c' := prio_tcb s t p c in
  st c' OS_TASK_STATUS_UNUSED = st c OS_TASK_STATUS_UNUSED ∧
  st c' OS_TASK_STATUS_EXIT = st c OS_TASK_STATUS_EXIT ∧ topOfStack c' = topOfStack c ∧
  st c' OS_TASK_STATUS_RUNNING = st c OS_TASK_STATUS_RUNNING ∧ waitTimes c' = waitTimes c ∧
  priority c' = p.
Proof.
  unfold prio_tcb. destruct (st c _); [|done].
  set (c1 := (unready_tcb c) <| priority := p |>).
  destruct (enq_tcb_tstep s t c1) as (-> & -> & -> & -> & -> & _).
  destruct (enq_tcb_fields s t c1) as (_ & -> & _). unfold c1, unready_tcb. rsimpl. by fsimpl.
Qed.

Lemma prios_prio s t p c T : prios (<[t := prio_tcb s t p c]> T) = <[t := p]> (prios T).
Proof.
  destruct (prio_tcb_fields s t p c) as (_ & _ & _ & _ & _ & Hp).
  unfold prios. by rewrite fmap_insert, Hp.
Qed.

Section other.
  Context `{Config}.

(** The running task after another task changed. *)
Lemma BInv_other s LS r rc s1 t c c' T' h' b' LS' :
  BInv s LS r rc → api_frame s s1 → lists_frame LS LS' → waits_shrink LS LS' → WF h' LS' →
  g_taskCBArray s !! t = Some c → t ≠ r → t ≠ g_idleTaskID s →
  T' = <[t := c']> (g_taskCBArray s) → QInv (g_idleTaskID s) T' LS' b' →
  st c' OS_TASK_STATUS_UNUSED = st c OS_TASK_STATUS_UNUSED →
  st c' OS_TASK_STATUS_EXIT = st c OS_TASK_STATUS_EXIT → topOfStack c' = topOfStack c →
  st c' OS_TASK_STATUS_RUNNING = st c OS_TASK_STATUS_RUNNING → waitTimes c' = waitTimes c →
  BInv (sched_upd s1 T' h' b') LS' r rc.
Proof.
  intros HB Hf Hfr Hw HW Et Hr Hi -> HI E1 E2 E3 E4 E5.
  pose proof (b_run HB) as (_ & HR & _).
  assert (tstep (g_taskCBArray s) (<[t := c']> (g_taskCBArray s))) as Ht
    by (by eapply tstep_insert).
  eapply BInv_upd; [exact HB|exact Hf|exact Hfr|exact HW|exact HI|exact Ht| |done|].
  - eapply RunInv_other; [exact HR|exact Et|done|done|congruence|done|done].
  - by eapply (IpcInv_shrink s); [apply HB|..].
Qed.

(** A change of the priority of any task but the idle task. *)
Lemma BInv_prio s LS r rc t c p LS' h' b' s1 :
  BInv s LS r rc → api_frame s s1 → g_taskCBArray s !! t = Some c → live c →
  t ≠ g_idleTaskID s → q_frame LS LS' → WF h' LS' →
  let T' := <[t := prio_tcb s t p c]> (g_taskCBArray s) in
  QInv (g_idleTaskID s) T' LS' b' →
  ∃ rc', BInv (sched_upd s1 T' h' b') LS' r rc' ∧ taskStatus rc' = taskStatus rc.
Proof.
  intros HB Hf Et Hl Hti Hfr HW T' HI.
  destruct (prio_tcb_fields s t p c) as (E1 & E2 & E3 & E4 & E5 & _).
  pose proof (b_run HB) as (_ & HR & _). pose proof (r_tcb _ _ _ _ HR) as Er.
  destruct (decide (t = r)) as [->|Htr].
  - assert (c = rc) as -> by congruence. exists (prio_tcb s r p rc).
    assert (prio_tcb s r p rc = rc <| priority := p |>) as Ec
      by (unfold prio_tcb; by rewrite (r_ready _ _ _ _ HR)).
    split; [|by rewrite Ec]. unfold T' in *.
    eapply BInv_upd; [exact HB|exact Hf|by apply q_frame_lists|exact HW|exact HI| | |exact E3|].
    + by eapply tstep_insert.
    + rewrite Ec. eapply RunInv_clock; [exact HR|done..|]. apply HR.
    + eapply (IpcInv_shrink s); [apply HB|done..|by apply q_frame_shrink|by eapply tstep_insert].
  - exists rc. split; [|done]. eapply BInv_other; [exact HB|exact Hf|by apply q_frame_lists|
      by apply q_frame_shrink|exact HW|exact Et|done|done|done|exact HI|done..].
Qed.

End other.

(** ** Symbolic execution between states that satisfy the invariant *)

Lemma wp_view {A} (m : K A) (Q : A → kstate → Prop) s :
  wp m Q (sched_upd s (g_taskCBArray s) (dlheap s) (g_queueBitmap s)) → wp m Q s.
Proof. by rewrite sched_upd_id. Qed.

(** Only tasks, lists and the clock's bookkeeping differ. *)
Definition skeep (s s1 : kstate) : Prop := rest_same s s1 ∧ now s1 = now s.

Lemma skeep_refl s : skeep s s.
Proof. by split; [split_and!|]. Qed.
Lemma skeep_trans s1 s2 s3 : skeep s1 s2 → skeep s2 s3 → skeep s1 s3.
Proof. intros [R1 N1] [R2 N2]. split; [by eapply rest_same_trans|congruence]. Qed.
Lemma api_skeep s s1 T h b : api_frame s s1 → skeep s (sched_upd s1 T h b).
Proof.
  intros Hf. destruct (api_frame_fields _ _ Hf) as (_ & Hr & _ & Hn & _). split; [exact Hr|exact Hn].
Qed.

(** No task changes, and neither do the clock and the scheduler's lock. *)
Definition quiet (s s1 : kstate) : Prop :=
  now s1 = now s ∧ g_idleTaskID s1 = g_idleTaskID s ∧ g_losTaskLock s1 = g_losTaskLock s ∧
  g_taskCBArray s1 = g_taskCBArray s.

Lemma quiet_refl s : quiet s s.
Proof. by split_and!. Qed.
Lemma quiet_trans s1 s2 s3 : quiet s1 s2 → quiet s2 s3 → quiet s1 s3.
Proof. intros (? & ? & ? & ?) (? & ? & ? & ?). split_and!; congruence. Qed.
Lemma skeep_quiet s s1 : skeep s s1 → g_taskCBArray s1 = g_taskCBArray s → quiet s s1.
Proof. intros [(_ & _ & _ & Hid & _ & _ & _ & _ & Hlk & _) Hn] ET. by split_and!. Qed.

Section rules.
  Context `{Config} (s : kstate) (LS : lists) (r : Z) (rc : LosTaskCB) (HS : SInv s LS r rc).

(** A call that changes at most the control block of the running task, which does not become
    less urgent. *)
Lemma sys_post_self s' LS' rc' :
  SInv s' LS' r rc' → now s' = now s → g_idleTaskID s' = g_idleTaskID s →
  g_losTaskLock s' = g_losTaskLock s → g_taskCBArray s' = <[r := rc']> (g_taskCBArray s) →
  priority rc' ≤ priority rc → sys_post s s'.
Proof.
  intros HS' Hn Hid Hlk ET Hp. pose proof (b_run (proj1 HS)) as (Hr & HR & _).
  pose proof (b_run (proj1 HS')) as (Hr' & HR' & _). pose proof (r_tcb _ _ _ _ HR) as Er. split.
  - exists LS', r, rc'. split; [done|]. split; [rewrite Hn; lia|done].
  - apply preempting_le; [congruence|done|done|..].
    + rewrite ET. apply (ready_le_insert _ _ rc); [done|]. by rewrite (r_ready _ _ _ _ HR').
    + intros r' rc2 Hrun. rewrite Hr in Hrun. injection Hrun as <-.
      rewrite ET, lookup_insert_eq. intros [= <-]. by exists rc.
Qed.

Lemma sys_post_quiet s' LS' rc' : SInv s' LS' r rc' → quiet s s' → sys_post s s'.
Proof.
  intros HS' (Hn & Hid & Hlk & ET). pose proof (b_run (proj1 HS)) as (_ & HR & _).
  pose proof (b_run (proj1 HS')) as (_ & HR' & _). pose proof (r_tcb _ _ _ _ HR) as Er.
  pose proof (r_tcb _ _ _ _ HR') as Er'. rewrite ET, Er in Er'. injection Er' as <-.
  eapply sys_post_self; [done..|by rewrite ET, insert_id|lia].
Qed.

Lemma SInv_api s1 : api_frame s s1 → SInv s1 LS r rc ∧ skeep s s1.
Proof.
  intros Hf. destruct HS as [HB Hub]. split; [split; [by eapply BInv_api|done]|].
  rewrite <- (api_view _ _ Hf). by apply api_skeep.
Qed.

Lemma wp_IntLock (Q : Z → kstate → Prop) :
  (∀ s1, SInv s1 LS r rc → skeep s s1 → g_taskCBArray s1 = g_taskCBArray s → Q 0 s1) →
  wp LOS_IntLock Q s.
Proof.
  intros HQ. unfold LOS_IntLock, PMCU_BE_Disable_Irq. wp_steps. rsimpl.
  destruct (SInv_api (s <| interrupt_flag := 0 |>)) as [HS1 Hk]; [auto with api|]. by apply HQ.
Qed.

Lemma wp_IntRestore i (Q : unit → kstate → Prop) :
  (∀ s1, SInv s1 LS r rc → skeep s s1 → g_taskCBArray s1 = g_taskCBArray s → Q tt s1) →
  wp (LOS_IntRestore i) Q s.
Proof.
  intros HQ. unfold LOS_IntRestore, PMCU_BE_Enable_Irq. wp_steps.
  destruct (SInv_api (s <| interrupt_flag := 1 |>)) as [HS1 Hk]; [auto with api|]. by apply HQ.
Qed.

(** An error return. *)
Lemma wp_IntRestore_ret {A} i (a : A) (Q : A → kstate → Prop) :
  (∀ s1, SInv s1 LS r rc → skeep s s1 → g_taskCBArray s1 = g_taskCBArray s → Q a s1) →
  wp (LOS_IntRestore i;; mret a) Q s.
Proof. intros HQ. wp_step. apply wp_IntRestore. intros s1 H1 H2 H3. wp_steps. auto. Qed.

(** The running task changes fields of its own control block. *)
Lemma wp_self f (Q : unit → kstate → Prop) :
  same_sched rc (f rc) →
  (∀ s1, SInv s1 LS r (f rc) → skeep s s1 →
     g_taskCBArray s1 = <[r := f rc]> (g_taskCBArray s) → Q tt s1) →
  wp (mod_tcb r f) Q s.
Proof.
  intros (C1 & C2 & C3 & C4 & C5 & C6 & C7) HQ. destruct HS as [HB Hub].
  pose proof HB as [B1 (Hr & HR & Hm) B3 _ _ _ _ _]. pose proof (r_tcb _ _ _ _ HR) as Er.
  apply wp_view. eapply wpu_mod_tcb; [exact Er|].
  apply HQ; [|apply api_skeep, api_frame_refl|done].
  assert (tstep (g_taskCBArray s) (<[r := f rc]> (g_taskCBArray s))) as Ht
    by (apply (tstep_insert _ _ rc); by rewrite ?C1).
  split; [|unfold unblocked; by rewrite C1].
  eapply BInv_upd; [exact HB|auto with api|done|apply B1| |exact Ht| |done|].
  - eapply QInv_irrelevant; [apply B1|exact Er|done..].
  - eapply RunInv_clock; [exact HR|done..|rewrite C5; apply HR].
  - by eapply (IpcInv_shrink s).
Qed.
(** Another task changes fields of its control block. *)
Lemma wp_other t c f (Q : unit → kstate → Prop) :
  g_taskCBArray s !! t = Some c → t ≠ r → t ≠ g_idleTaskID s → same_sched c (f c) →
  (∀ s1, SInv s1 LS r rc → skeep s s1 →
     g_taskCBArray s1 = <[t := f c]> (g_taskCBArray s) → Q tt s1) →
  wp (mod_tcb t f) Q s.
Proof.
  intros Et Hr Hi (C1 & C2 & C3 & C4 & C5 & C6 & C7) HQ. destruct HS as [HB Hub].
  apply wp_view. eapply wpu_mod_tcb; [exact Et|].
  apply HQ; [|apply api_skeep, api_frame_refl|done]. split; [|done].
  eapply BInv_other; [exact HB|auto with api|done|done|apply HB|exact Et|done|done|done| |by rewrite C1..| | |];
    try (by rewrite ?C1).
  eapply QInv_irrelevant; [apply HB|exact Et|done..].
Qed.

(** A waiting task is woken. *)
Lemma wp_wake t c (Q : unit → kstate → Prop) :
  g_taskCBArray s !! t = Some c → live c → st c OS_TASK_STATUS_PEND = true →
  (∀ s1 LS1, SInv s1 LS1 r rc → skeep s s1 → unwaited t LS LS1 →
     g_taskCBArray s1 = <[t := woken_tcb s t c]> (g_taskCBArray s) → Q tt s1) →
  wp (OsSchedTaskWake t) Q s.
Proof.
  intros Et Hl Hp HQ. apply wp_view. rewrite <- (insert_id (g_taskCBArray s) t c) at 1 by done.
  eapply wpu_wake_up; [exact HS|exact Et|exact Hl|exact Hp|by split_and!|].
  intros s1 LS1 h' b' Hf Huw s' HB'. eapply HQ; [split; [exact HB'|apply HS]| |exact Huw|done].
  by apply api_skeep.
Qed.

(** The priority of a task changes. *)
Lemma wp_prio t c p (Q : bool → kstate → Prop) :
  g_taskCBArray s !! t = Some c → live c → t ≠ g_idleTaskID s →
  0 ≤ p < OS_PRIORITY_QUEUE_NUM →
  (∀ s1 LS1 rc1, SInv s1 LS1 r rc1 → skeep s s1 → q_frame LS LS1 →
     g_taskCBArray s1 = <[t := prio_tcb s t p c]> (g_taskCBArray s) →
     Q (st c OS_TASK_STATUS_READY || st c OS_TASK_STATUS_RUNNING) s1) →
  wp (OsSchedModifyTaskSchedParam t p) Q s.
Proof.
  intros Et Hl Hi Hp HQ. destruct HS as [HB Hub]. apply wp_view.
  eapply wpu_OsSchedModifyTaskSchedParam; [apply HB|apply HB|exact Et|exact Hl|exact Hi|exact Hp|].
  intros LS' h' b' Hfr HW' HI'.
  edestruct (BInv_prio s LS r rc t c p LS' h' b' s) as (rc' & HB' & Es);
    [exact HB|auto with api|done..|].
  eapply HQ; [split; [exact HB'|unfold unblocked; by rewrite Es]| |exact Hfr|done].
  apply api_skeep, api_frame_refl.
Qed.

(** The running task blocks. *)
Lemma wp_block {A} (k : K A) hd xs ticks i (Q : outcome A → kstate → Prop) :
  r ≠ g_idleTaskID s → now s < TIME_HORIZON → g_losTaskLock s = 0 → 0 ≤ ticks < 2 ^ 32 →
  is_wait hd = true → LS !! hd = Some xs →
  (∀ j c, hd = SemList j → g_allSem s !! j = Some c → semCount c = 0) →
  (∀ s' LS' n nc, SInv s' LS' n nc → preempting s' → n ≠ r → rest_same s s' →
     q_frame (<[hd := xs ++ [PendList r]]> LS) LS' →
     prios (g_taskCBArray s') = prios (g_taskCBArray s) → now s ≤ now s' < now s + 2 ^ 32 →
     Q Switched s') →
  wp (OsSchedTaskWait hd ticks;; (LOS_IntRestore i;; schedule_then k)) Q s.
Proof.
  intros Hi Hh Hlk Ht Hhd E Hsem HQ. apply wp_view.
  pose proof (b_run (proj1 HS)) as (_ & HR & _).
  rewrite <- (insert_id (g_taskCBArray s) r rc) at 1 by apply HR.
  by eapply wpu_block; [exact HS|exact Hi|by split_and!|..].
Qed.

(** The usual end of a system call that started in [s]. *)
Lemma wp_schedule_end s1 LS1 r1 rc1 (Q : unit → kstate → Prop) :
  SInv s1 LS1 r1 rc1 → skeep s s1 → now s < TIME_HORIZON → (∀ s', sys_post s s' → Q tt s') →
  wp LOS_Schedule Q s1.
Proof.
  intros [HB1 Hub1] [(_ & _ & _ & Hid & _) Hn] Hh HQ.
  eapply (schedule_sys_post s); [exact HB1|by right|by rewrite Hn|done..].
Qed.
(** The code of a blocking call that runs when its task is chosen again. *)
Lemma wp_resume {A} (a : A) (k : Z → K A) (Q : A → kstate → Prop) :
  (∀ s1, SInv s1 LS r (clear_timeout rc) → sys_post s s1 →
     st rc OS_TASK_STATUS_TIMEOUT = true → Q a s1) →
  (∀ s1, SInv s1 LS r rc → skeep s s1 → quiet s s1 → st rc OS_TASK_STATUS_TIMEOUT = false →
     wp (k 0) Q s1) →
  wp (intSave ← LOS_IntLock;
      t ← status_flag r OS_TASK_STATUS_TIMEOUT;
      if (t : bool) then
        status_clr r OS_TASK_STATUS_TIMEOUT;;
        LOS_IntRestore intSave;;
        mret a
      else k intSave) Q s.
Proof.
  intros Ht Hk. wp_step. apply wp_IntLock. intros s1 HS1 Hk1 ET1.
  pose proof (skeep_quiet _ _ Hk1 ET1) as Hq. pose proof Hq as (Hn1 & Hid1 & Hlk1 & _).
  pose proof (b_run (proj1 HS1)) as (_ & HR & _). pose proof (r_tcb _ _ _ _ HR) as Er.
  unfold status_flag. wp_steps. destruct (st rc OS_TASK_STATUS_TIMEOUT); [|by apply Hk].
  apply wp_view. wpu_steps. set (s2 := sched_upd _ _ _ _).
  assert (SInv s2 LS r (clear_timeout rc)) as HS2
    by (apply (SInv_clear_timeout s1); [done|auto with api]).
  apply Ht; [exact HS2| |done]. eapply sys_post_self; [exact HS2|exact Hn1|exact Hid1|exact Hlk1| |done].
  by rewrite <- ET1.
Qed.
End rules.

Lemma sys_post_sched `{Config} s s' LS' n nc :
  SInv s' LS' n nc → preempting s' → now s ≤ now s' < now s + 2 ^ 33 →
  g_idleTaskID s' = g_idleTaskID s → sys_post s s'.
Proof. intros HS' Hp Hn Hid. split; [|done]. by exists LS', n, nc. Qed.

Lemma sys_post_rest `{Config} s s' LS' n nc :
  SInv s' LS' n nc → preempting s' → rest_same s s' → now s ≤ now s' < now s + 2 ^ 32 →
  sys_post s s'.
Proof.
  intros HS' Hp (_ & _ & _ & Hid & _) Hn. eapply sys_post_sched; [done..| |done]. lia.
Qed.
#[export] Hint Resolve sys_post_quiet sys_post_sched sys_post_rest : sys.

(** A call that releases a waiting task and schedules. *)
Lemma wp_wake_schedule `{Config} {A} s LS r rc t c f hd l1 l2 i (a : A) (Q : A → kstate → Prop) :
  SInv s LS r rc → g_taskCBArray s !! t = Some c → live c → st c OS_TASK_STATUS_PEND = true →
  same_sched c (f c) → is_wait hd = true → LS !! hd = Some (l1 ++ PendList t :: l2) → now s < TIME_HORIZON →
  (∀ s' LS' n nc, SInv s' LS' n nc → preempting s' → rest_same s s' → members LS' hd = l1 ++ l2 →
     ¬ waits LS' t → prios (g_taskCBArray s') = prios (g_taskCBArray s) → now s ≤ now s' < now s + 2 ^ 32 → Q a s') →
  wp (mod_tcb t f;; (OsSchedTaskWake t;; (LOS_IntRestore i;; (LOS_Schedule;; mret a)))) Q s.
Proof.
  intros HS Et Hl Hp Hf Hhd E Hh HQ. destruct (waiter_other _ _ _ _ HS _ _ Et Hl Hp) as [Htr Hti].
  pose proof Hf as (C1 & C2 & _). wp_step. eapply (wp_other s); [done..|].
  intros s1 HS1 Hk1 ET1. wp_step.
  eapply wp_wake; [exact HS1|rewrite ET1; apply lookup_insert_eq|by rewrite C1..|].
  intros s2 LS2 HS2 Hk2 Huw ET2. pose proof (k_wf (b_kernel (proj1 HS1))) as HW.
  destruct (unwaited_at _ _ _ _ hd l1 l2 HW Huw E) as [E2 _].
  wp_step. eapply wp_IntRestore; [exact HS2|]. intros s3 HS3 Hk3 ET3. wp_step.
  pose proof (skeep_trans _ _ _ (skeep_trans _ _ _ Hk1 Hk2) Hk3) as [Hrest3 Hn3].
  eapply wp_LOS_Schedule_sys; [apply HS3|right; apply HS3|by rewrite Hn3|].
  intros s' LS' n nc HS' Hpe _ Hrest Hfr Hpr Hnow. rewrite Hn3 in Hnow. apply wp_ret.
  eapply HQ; [exact HS'|exact Hpe|by eapply rest_same_trans| |by eapply unwaited_gone| |exact Hnow].
  - unfold members. rewrite Hfr by (by destruct hd). by rewrite E2.
  - destruct (woken_tcb_fields s1 t (f c)) as (_ & _ & _ & _ & _ & Hpw).
    rewrite Hpr, ET3, ET2. rewrite (prios_insert _ _ (f c)); [|rewrite ET1; apply lookup_insert_eq|done].
    rewrite ET1. by apply (prios_insert _ _ c).
Qed.

(** ** The invariant is decidable *)

#[export] Instance sem_ok_dec LS i c : Decision (sem_ok LS i c).
Proof. unfold sem_ok. apply _. Defined.
#[export] Instance owner_ok_dec idle T o : Decision (owner_ok idle T o).
Proof. unfold owner_ok. destruct o as [o|]; [|apply _]. destruct (T !! o); apply _. Defined.
#[export] Instance mux_ok_dec idle T LS i m : Decision (mux_ok idle T LS i m).
Proof. unfold mux_ok. apply _. Defined.
#[export] Instance event_ok_dec LS u v : Decision (event_ok LS u v).
Proof. unfold event_ok. apply _. Defined.

#[export] Instance IpcInv_dec `{Config} s T LS : Decision (IpcInv s T LS).
Proof.
  refine (cast_if (decide (
    Forall (fun i => is_Some (g_allSem s !! i)) (seqZ 0 LOSCFG_BASE_IPC_SEM_LIMIT) ∧
    map_Forall (sem_ok LS) (g_allSem s) ∧
    Forall (fun i => is_Some (g_allMux s !! i)) (seqZ 0 LOSCFG_BASE_IPC_MUX_LIMIT) ∧
    map_Forall (mux_ok (g_idleTaskID s) T LS) (g_allMux s) ∧
    map_Forall (event_ok LS) (userEvents s))));
    abstract (first [by intros; destruct_and?; constructor | intros []; tauto]).
Defined.

#[export] Instance most_urgent_dec s n nc : Decision (most_urgent s n nc).
Proof.
  refine (cast_if (decide (map_Forall (fun t c => live c → st c OS_TASK_STATUS_READY = true →
    t ≠ g_idleTaskID s → n ≠ g_idleTaskID s ∧ priority nc ≤ priority c) (g_taskCBArray s)))); done.
Defined.

#[export] Instance preempting_dec s : Decision (preempting s).
Proof.
  unfold preempting. destruct (runTask s) as [r|]; [|by left].
  destruct (g_taskCBArray s !! r) as [rc|] eqn:E; [|left; intros ? ? [= <-]; congruence].
  destruct (decide (g_losTaskLock s = 0)) as [Hl|]; [|by left].
  destruct (decide (most_urgent s r rc)) as [Hm|Hm]; [left|right].
  - intros ? ? [= <-] Er _. by replace rc0 with rc by congruence.
  - intros Hp. apply Hm. by apply (Hp r rc).
Defined.

#[export] Instance SInv_dec `{Config} s LS r rc : Decision (SInv s LS r rc).
Proof.
  refine (cast_if (decide (
    (KInv s LS ∧ Running s r rc ∧ IpcInv s (g_taskCBArray s) LS ∧ g_taskScheduled s = true ∧
     Forall (fun t => is_Some (g_taskCBArray s !! t)) (seqZ 0 (g_taskMaxNum s)) ∧
     map_Forall (fun _ c => live c → st c OS_TASK_STATUS_EXIT = false) (g_taskCBArray s) ∧
     (g_swtmrScan s = false ∧ 0 ≤ g_tickIntLock s < 2 ^ 16) ∧
     0 ≤ g_losTaskLock s < 2 ^ 16) ∧ unblocked rc)));
    abstract (first [by destruct_and?; split; [constructor|] | intros [[] ?]; tauto]).
Defined.
