(* ===== verification/SysTask.v ===== *)
(** The system calls of los_task.c that change the state of tasks keep the invariant of the
    system. *)

From S2P Require Import Prelude DList Kernel Tick SortLink Mem Pmcu Sched SchedInv SchedOps SchedDelay.
From S2P Require Import SchedSwitch SchedTop SchedTrans SchedTick SchedState Event Sem Mux Task SysInv.

(** The state after [LOS_IntLock], with its invariant. *)
Ltac locked s HB :=
  unfold LOS_IntLock, PMCU_BE_Disable_Irq; wp_step; wp_step; wp_step; rsimpl;
  set (s0 := s <| interrupt_flag := 0 |>);
  assert (api_frame s s0) as Hf0 by (apply api_frame_int, api_frame_refl);
  pose proof (BInv_api s _ _ _ s0 HB Hf0) as HB0.

(** Another task changes and is not ready afterwards. *)
Lemma preempting_other s s' t c c' r :
  runTask s = Some r → runTask s' = runTask s → g_idleTaskID s' = g_idleTaskID s →
  g_losTaskLock s' = g_losTaskLock s → g_taskCBArray s !! t = Some c → t ≠ r →
  g_taskCBArray s' = <[t := c']> (g_taskCBArray s) → st c' OS_TASK_STATUS_READY = false →
  preempting s → preempting s'.
Proof.
  intros Hr Er Ei El Et Htr ET Hrd. apply preempting_le; [done..| |].
  - rewrite ET. apply (ready_le_insert _ _ c); [done|]. by rewrite Hrd.
  - intros r' rc' Hr'. rewrite Hr in Hr'. injection Hr' as <-. rewrite ET, lookup_insert_ne by done.
    intros E. exists rc'. split; [done|lia].
Qed.

Section calls.
  Context `{Config}.

(** ** Yielding and delaying *)

Lemma safe_LOS_TaskYield : safe_call LOS_TaskYield.
Proof.
  intros s LS r rc [HB Hub] Hi Hh. unfold LOS_TaskYield. do 2 wp_step.
  locked s HB. pose proof HB0 as [B1 (Hr & HR & Hm) B3 _ _ _ _ _].
  wp_steps. apply wp_view. eapply wpu_OsSchedYield; [apply B1|exact Hr|exact HR|].
  intros c' HI' HR'. wpu_steps.
  assert (tstep (g_taskCBArray s0) (<[r := c']> (g_taskCBArray s0))) as Ht
    by (by apply (tstep_insert _ _ rc); [apply HR|..]).
  eapply (schedule_sys_post s); [| |exact Hh|done|done|by intros; wp_steps].
  - eapply BInv_upd; [exact HB0|auto with api|done|apply B1|exact HI'|exact Ht|exact HR'|done|].
    by eapply (IpcInv_shrink s0).
  - by right.
Qed.

Lemma safe_LOS_TaskDelay tick : 0 ≤ tick < 2 ^ 32 → safe_call (LOS_TaskDelay tick).
Proof.
  intros Ht s LS r rc HS Hi Hh. pose proof HS as [HB Hub].
  pose proof (b_run HB) as (Hr & HR & _). pose proof (r_tcb _ _ _ _ HR) as Er.
  assert (∀ s1, api_frame s s1 → sys_post s s1) as Hsame by (intros; by eapply sys_post_api).
  unfold LOS_TaskDelay, ArchIsIntActive, status_flag. wp_steps.
  destruct (0 <? g_intCount s); wp_steps; [auto with api|].
  destruct (Z.eqb_spec (g_losTaskLock s) 0) as [Hlk|]; simpl; wp_steps; [|auto with api].
  destruct (st rc OS_TASK_FLAG_SYSTEM_TASK); wp_steps; [auto with api|].
  destruct (tick =? 0); [by apply (safe_LOS_TaskYield s LS r rc)|]. wp_step.
  locked s HB. pose proof HB0 as [B1 (Hr0 & HR0 & Hm0) B3 _ _ _ _ _].
  wp_steps. apply wp_view. eapply wpu_OsSchedDelay; [apply B1|exact HR0|exact Hub|exact Hi|exact Ht|].
  intros T' HI' HR'. wpu_steps.
  assert (tstep (g_taskCBArray s0) T') as Hts.
  { apply (tstep_insert _ _ rc); [apply HR0|unfold delay_tcb; rsimpl; by fsimpl..]. }
  eapply (schedule_sys_post s); [| |exact Hh|done|done|by intros; wp_steps].
  - eapply BInv_upd; [exact HB0|auto with api|done|apply B1|exact HI'|exact Hts|exact HR'|done|].
    by eapply (IpcInv_shrink s0).
  - by left.
Qed.

(** ** The scheduler lock *)

Lemma BInv_lock s LS r rc v :
  BInv s LS r rc → 0 ≤ v < 2 ^ 16 → BInv (s <| g_losTaskLock := v |>) LS r rc.
Proof.
  intros HB Hv. pose proof HB as [B1 B2 B3 B4 B5 B6 B7 B8].
  assert (ksame s (s <| g_losTaskLock := v |>)) as Hs by (by split_and!).
  eapply (BInv_intro s); [exact HB|by eapply KInv_same|by eapply Running_same| |apply tstep_refl|done..].
  by eapply (IpcInv_shrink s); [exact B3|..|apply tstep_refl].
Qed.

(** The 16-bit count of locks does not wrap around with the next call. *)
Definition lock_room (s : kstate) : Prop := g_losTaskLock s < 2 ^ 16 - 1.

Lemma safe_LOS_TaskLock s LS r rc :
  SInv s LS r rc → wp LOS_TaskLock (λ _ s', sys_ok s s' ∧ (lock_room s → preempting s')) s.
Proof.
  intros [HB Hub]. unfold LOS_TaskLock. wp_step. locked s HB. wp_steps.
  split; [eexists LS, r, rc; split; [|split; [|reflexivity]]|].
  3: { intros Hroom n nc _ _ Hz. exfalso. pose proof (b_lock HB) as Hlk. unfold lock_room in Hroom.
    change (u16 (g_losTaskLock s + 1) = 0) in Hz. unfold u16 in Hz. rewrite Z.mod_small in Hz; lia. }
  - split; [|done]. eapply (BInv_api (s0 <| g_losTaskLock := u16 (g_losTaskLock s0 + 1) |>));
      [|by exists 1, (g_schedResponseTime s); tframe_eq s].
    apply BInv_lock; [done|]. unfold u16. apply Z.mod_pos_bound. lia.
  - change (now (_ <| _ := _ |>)) with (now s). lia.
Qed.

Lemma safe_LOS_TaskUnlock : safe_call LOS_TaskUnlock.
Proof.
  intros s LS r rc HS Hi Hh. pose proof HS as [HB Hub].
  unfold LOS_TaskUnlock. wp_step. locked s HB. wp_steps.
  destruct (Z.ltb_spec 0 (g_losTaskLock s0)) as [Hlk|]; wp_steps.
  2: { eapply sys_post_api; [exact HS|]. unfold s0. auto with api. }
  set (s2 := s0 <| g_losTaskLock := _ |> <| interrupt_flag := 1 |>).
  assert (BInv s2 LS r rc) as HB2.
  { eapply (BInv_api (s0 <| g_losTaskLock := g_losTaskLock s0 - 1 |>)); [|unfold s2; auto with api].
    apply BInv_lock; [done|]. pose proof (b_lock HB0). lia. }
  destruct (Z.eqb_spec (g_losTaskLock s0 - 1) 0) as [|Hne].
  - by eapply (schedule_sys_post s); [exact HB2|right|..].
  - split; [|by intros _ n nc _ _ Hz]. exists LS, r, rc. split; [done|]. split; [|reflexivity].
    change (now s2) with (now s). lia.
Qed.

(** ** Suspending and resuming *)

Lemma b_tcb s LS r rc t :
  BInv s LS r rc → 0 ≤ t < g_taskMaxNum s → ∃ c, g_taskCBArray s !! t = Some c.
Proof.
  intros HB Ht. pose proof (b_dom HB) as HF. rewrite Forall_forall in HF.
  apply HF, elem_of_seqZ. lia.
Qed.

Lemma suspend_tcb_fields c :
  let c' := suspend_tcb c in
  st c' OS_TASK_STATUS_UNUSED = st c OS_TASK_STATUS_UNUSED ∧
  st c' OS_TASK_STATUS_EXIT = st c OS_TASK_STATUS_EXIT ∧ topOfStack c' = topOfStack c ∧
  st c' OS_TASK_STATUS_RUNNING = st c OS_TASK_STATUS_RUNNING ∧ waitTimes c' = waitTimes c ∧
  st c' OS_TASK_STATUS_READY = false ∧
  sortList_responseTime c' = sortList_responseTime c ∧ startTime c' = startTime c ∧
  taskID c' = taskID c.
Proof.
  unfold suspend_tcb. destruct (st c OS_TASK_STATUS_READY) eqn:E; rsimpl; fsimpl; done.
Qed.

Lemma safe_LOS_TaskSuspend t :
  LOSCFG_KERNEL_PM = false → 0 ≤ t → safe_call (LOS_TaskSuspend t).
Proof.
  intros Hpm Ht s LS r rc HS Hi Hh. pose proof HS as [HB Hub].
  pose proof (b_run HB) as (Hr & HR & _). pose proof (r_tcb _ _ _ _ HR) as Er.
  assert (∀ s1, api_frame s s1 → sys_post s s1) as Hsame by (intros; by eapply sys_post_api).
  unfold LOS_TaskSuspend, OsCheckTaskIDValid. wp_steps.
  destruct (Z.eqb_spec t (g_idleTaskID s)) as [|Hti]; simpl; wp_steps; [auto with api|].
  destruct (_ && _); simpl; wp_steps; [auto with api|].
  destruct (Z.leb_spec (g_taskMaxNum s) t) as [|Htn]; simpl; [wp_steps; auto with api|].
  destruct (b_tcb _ _ _ _ t HB ltac:(lia)) as [c Et]. wp_step.
  locked s HB. pose proof HB0 as [B1 (Hr0 & HR0 & Hm0) B3 _ _ _ _ _]. wp_steps.
  destruct (st c OS_TASK_STATUS_UNUSED) eqn:Hl; wp_steps; [unfold s0; auto with api|].
  destruct (st c OS_TASK_FLAG_SYSTEM_TASK); wp_steps; [unfold s0; auto with api|].
  destruct (st c OS_TASK_STATUS_SUSPEND); wp_steps; [unfold s0; auto with api|].
  destruct (st c OS_TASK_STATUS_RUNNING && negb (g_losTaskLock s0 =? 0)) eqn:Hrl;
    wp_steps; [unfold s0; auto with api|].
  destruct (suspend_tcb_fields c) as (E1 & E2 & E3 & E4 & E5 & E6 & E7 & E8 & E9).
  apply wp_view. eapply wpu_OsSchedSuspend; [done|apply B1|apply B1|exact Et|exact Hl|exact Hti|].
  intros LS' h' b' Hfr HW' HI'. do 3 wpu_step.
  destruct (decide (t = r)) as [->|Htr].
  - simplify_eq. rewrite (r_running _ _ _ _ HR) in Hrl. apply negb_false_iff, Z.eqb_eq in Hrl.
    wpu_steps. rewrite E9.
    destruct (live_ok _ _ _ _ _ _ (k_queues B1) Er Hl) as (-> & _). rewrite Z.eqb_refl.
    eapply (schedule_sys_post s); [|by left|exact Hh|done|done|by intros; wp_steps].
    eapply BInv_upd; [exact HB0|auto with api|by apply q_frame_lists|exact HW'|exact HI'| | |exact E3|].
    + by eapply tstep_insert.
    + pose proof HR0 as [_ ? ? _ _ ? Hw _ _]. eapply RunInv_run; [exact HR0|by left|congruence|done|congruence|done|done|by rewrite E8|].
      rewrite E5. by apply (Hw _ _ Er).
    + eapply (IpcInv_shrink s0); [exact B3|done..|by apply q_frame_shrink|by eapply tstep_insert].
  - assert (BInv (sched_upd (s0 <| interrupt_flag := 1 |>) (<[t := suspend_tcb c]> (g_taskCBArray s0)) h' b') LS' r rc) as HB'.
    { eapply BInv_other; [exact HB0|auto with api|by apply q_frame_lists|by apply q_frame_shrink|
        exact HW'|exact Et|done|done|done|exact HI'|done..]. }
    eapply wpu_get_tcb; [by rewrite lookup_insert_ne|]. wpu_steps.
    destruct (live_ok _ _ _ _ _ _ (k_queues B1) Er) as (-> & _); [apply Hub|].
    destruct (Z.eqb_spec t r); [done|]. wpu_steps.
    split; [|by eapply preempting_other]. exists LS', r, rc. split; [done|].
    split; [|reflexivity]. change (now (sched_upd _ _ _ _)) with (now s). lia.
Qed.

Lemma resume_tcb_fields s t c :
  let c' := resume_tcb s t c in
  st c' OS_TASK_STATUS_UNUSED = st c OS_TASK_STATUS_UNUSED ∧
  st c' OS_TASK_STATUS_EXIT = st c OS_TASK_STATUS_EXIT ∧ topOfStack c' = topOfStack c ∧
  st c' OS_TASK_STATUS_RUNNING = st c OS_TASK_STATUS_RUNNING ∧ waitTimes c' = waitTimes c.
Proof.
  unfold resume_tcb. destruct (st c _); [unfold unsuspend_tcb; rsimpl; by fsimpl|].
  destruct (enq_tcb_tstep s t (unsuspend_tcb c)) as (-> & -> & -> & -> & -> & _).
  unfold unsuspend_tcb. rsimpl. by fsimpl.
Qed.

(** Neither the running task nor the idle task is suspended or waiting. *)
Lemma suspended_other s LS r rc t c m :
  SInv s LS r rc → g_taskCBArray s !! t = Some c → st c m = true →
  m = OS_TASK_STATUS_SUSPEND ∨ m = OS_TASK_STATUS_PEND → t ≠ r ∧ t ≠ g_idleTaskID s.
Proof.
  intros [HB Hub] Et Hm Hor. pose proof (b_run HB) as (_ & HR & _).
  destruct (r_idle _ _ _ _ HR) as (ic & Ei & Hic & _). pose proof (r_tcb _ _ _ _ HR) as Er.
  apply unblocked_alt in Hub as (_ & _ & _ & Hp & Hs & _).
  apply unblocked_alt in Hic as (_ & _ & _ & Hp' & Hs' & _).
  split; intros ->; simplify_eq; destruct Hor as [-> | ->]; congruence.
Qed.

Lemma safe_LOS_TaskResume t : 0 ≤ t → safe_call (LOS_TaskResume t).
Proof.
  intros Ht s LS r rc HS Hi Hh. pose proof HS as [HB Hub].
  assert (∀ s1, api_frame s s1 → sys_post s s1) as Hsame by (intros; by eapply sys_post_api).
  unfold LOS_TaskResume, OS_TASK_ID_CHECK. wp_steps.
  destruct (Z.ltb_spec t (g_taskMaxNum s)) as [Htn|]; simpl; [|wp_steps; auto with api].
  destruct (b_tcb _ _ _ _ t HB ltac:(lia)) as [c Et]. wp_step.
  locked s HB. pose proof HB0 as [B1 _ B3 B4 _ B6 _ _]. wp_steps.
  destruct (st c OS_TASK_STATUS_UNUSED) eqn:Hl; wp_steps; [unfold s0; auto with api|].
  destruct (st c OS_TASK_STATUS_SUSPEND) eqn:Hsu; simpl; wp_steps; [|unfold s0; auto with api].
  destruct (suspended_other _ _ _ _ _ _ _ HS Et Hsu) as [Htr Hti]; [by left|].
  destruct (resume_tcb_fields s0 t c) as (E1 & E2 & E3 & E4 & E5).
  apply wp_view. eapply wpu_OsSchedResume; [apply B1|apply B1|exact Et|exact Hl|exact Hsu|by apply (B6 t c)|].
  intros LS' h' b' Hfr HW' HI'. wpu_steps.
  assert (∀ s1, api_frame s0 s1 →
    BInv (sched_upd s1 (<[t := resume_tcb s0 t c]> (g_taskCBArray s0)) h' b') LS' r rc) as HB'.
  { intros. eapply BInv_other; [exact HB0|done|by apply q_frame_lists|by apply q_frame_shrink|
        exact HW'|exact Et|done|done|done|exact HI'|done..]. }
  destruct (_ && _) eqn:Hneed.
  - eapply (schedule_sys_post s); [by eapply HB'; auto with api|by right|exact Hh|done|done|by intros; wp_steps].
  - wpu_steps. split.
    + exists LS', r, rc. split; [split; [by eapply HB'; auto with api|done]|].
      split; [|reflexivity]. change (now (sched_upd _ _ _ _)) with (now s). lia.
    + apply andb_false_iff in Hneed as [Hneed|Hneed]; [|change (g_taskScheduled s0 = false) in Hneed; congruence].
      apply negb_false_iff in Hneed.
      eapply preempting_other; [apply (b_run HB)|done..|exact Et|exact Htr|reflexivity|].
      destruct (q_tasks (k_queues B1) _ _ Et) as [_ Hok]. specialize (Hok Hl).
      unfold resume_tcb. rewrite Hneed. unfold unsuspend_tcb. rsimpl. fsimpl.
      destruct (st c OS_TASK_STATUS_READY); intuition congruence.
Qed.

(** ** Priorities *)

Lemma safe_LOS_TaskPriSet t p : 0 ≤ t → 0 ≤ p → safe_call (LOS_TaskPriSet t p).
Proof.
  intros Ht Hp s LS r rc HS Hi Hh. pose proof HS as [HB Hub].
  assert (∀ s1, api_frame s s1 → sys_post s s1) as Hsame by (intros; by eapply sys_post_api).
  unfold LOS_TaskPriSet, OS_CHECK_TSK_PID_NOIDLE.
  destruct (Z.ltb_spec OS_TASK_PRIORITY_LOWEST p) as [|Hpl]; wp_steps; [auto with api|].
  destruct (Z.eqb_spec t (g_idleTaskID s)) as [|Hti]; wp_steps; [auto with api|].
  destruct (_ && _); wp_steps; [auto with api|].
  destruct (Z.leb_spec (g_taskMaxNum s) t) as [|Htn]; [wp_steps; auto with api|].
  destruct (b_tcb _ _ _ _ t HB ltac:(lia)) as [c Et]. wp_step.
  locked s HB. pose proof HB0 as [B1 _ B3 B4 _ B6 _ _]. wp_steps.
  destruct (st c OS_TASK_STATUS_UNUSED) eqn:Hl; wp_steps; [unfold s0; auto with api|].
  destruct (st c OS_TASK_FLAG_SYSTEM_TASK); wp_steps; [unfold s0; auto with api|].
  apply wp_view. eapply wpu_OsSchedModifyTaskSchedParam;
    [apply B1|apply B1|exact Et|exact Hl|exact Hti| |].
  { unfold OS_TASK_PRIORITY_LOWEST, OS_PRIORITY_QUEUE_NUM in *. lia. }
  intros LS' h' b' Hfr HW' HI'. wpu_steps.
  edestruct (BInv_prio s0 LS r rc t c p LS' h' b' (s0 <| interrupt_flag := 1 |>))
    as (rc' & HB' & Es); [exact HB0|auto with api|done..|].
  assert (unblocked rc') as Hub' by (unfold unblocked; by rewrite Es).
  destruct (_ || _) eqn:Hor.
  - by eapply (schedule_sys_post s); [exact HB'|right|..|intros; wp_steps].
  - wpu_steps. split.
    + exists LS', r, rc'. split; [done|].
      split; [|reflexivity]. change (now (sched_upd _ _ _ _)) with (now s). lia.
    + apply orb_false_iff in Hor as [Hrd Hrun]. pose proof (b_run HB) as (Hr & HR & _).
      eapply preempting_other; [exact Hr|done..|exact Et| |reflexivity|].
      * intros ->. pose proof (r_tcb _ _ _ _ HR). simplify_eq.
        by rewrite (r_running _ _ _ _ HR) in Hrun.
      * unfold prio_tcb. by rewrite Hrd.
Qed.
End calls.
