(* ===== verification/SysSem.v ===== *)
(** Semaphores: what the calls of los_sem.c do to the count and to the waiting tasks, and
    that they keep the invariant of the system. *)

From S2P Require Import Prelude DList Kernel Tick SortLink Mem Pmcu Sched SchedInv SchedOps SchedDelay.
From S2P Require Import SchedSwitch SchedTop SchedTrans SchedTick SchedState Event Sem Mux Task SysInv.

Lemma wp_get_sem i c s (Q : LosSemCB → kstate → Prop) :
  g_allSem s !! i = Some c → Q c s → wp (get_sem i) Q s.
Proof. intros E HQ. unfold get_sem. wp_steps. by rewrite E. Qed.

(** The reasons for which [LOS_SemPend] refuses to wait. *)
Definition pend_refused (s : kstate) (rc : LosTaskCB) (c : LosSemCB) : Prop :=
  semStat c = OS_SEM_UNUSED ∨ 0 < g_intCount s ∨ g_losTaskLock s ≠ 0 ∨
  st rc OS_TASK_FLAG_SYSTEM_TASK = true.

(** What [LOS_SemPend] on the semaphore [c] does in a state [s] in which [r] runs: it refuses,
    takes one unit, reports that there is none, or makes [r] the last waiting task and
    switches to another task. *)
Inductive sem_pended `{Config} (s : kstate) (LS : lists) (r : Z) (rc : LosTaskCB)
    (i timeout : Z) (c : LosSemCB) : outcome Z → kstate → Prop :=
| sem_pend_refused e s' :
    e ≠ LOS_OK → pend_refused s rc c → SInv s' LS r rc → skeep s s' → quiet s s' →
    sem_pended s LS r rc i timeout c (Done e) s'
| sem_pend_taken s' :
    ¬ pend_refused s rc c → 0 < semCount c → SInv s' LS r rc →
    g_allSem s' = <[i := c <| semCount := semCount c - 1 |>]> (g_allSem s) → quiet s s' →
    sem_pended s LS r rc i timeout c (Done LOS_OK) s'
| sem_pend_none s' :
    ¬ pend_refused s rc c → semCount c = 0 → timeout = 0 → SInv s' LS r rc → skeep s s' →
    quiet s s' →
    sem_pended s LS r rc i timeout c (Done LOS_ERRNO_SEM_UNAVAILABLE) s'
| sem_pend_waiting s' LS' n nc :
    ¬ pend_refused s rc c → semCount c = 0 → timeout ≠ 0 → SInv s' LS' n nc → preempting s' → n ≠ r →
    rest_same s s' → members LS' (SemList i) = members LS (SemList i) ++ [PendList r] →
    now s ≤ now s' < now s + 2 ^ 32 →
    sem_pended s LS r rc i timeout c Switched s'.

(** What [LOS_SemPost] does: it refuses, gives the unit to the first waiting task, or counts
    it. *)
Inductive sem_posted `{Config} (s : kstate) (LS : lists) (r : Z) (rc : LosTaskCB) (i : Z)
    (c : LosSemCB) : Z → kstate → Prop :=
| sem_post_refused e s' :
    e ≠ LOS_OK → semStat c = OS_SEM_UNUSED ∨ semCount c = maxSemCount c →
    SInv s' LS r rc → skeep s s' → quiet s s' → sem_posted s LS r rc i c e s'
| sem_post_counted s' :
    semStat c ≠ OS_SEM_UNUSED → semCount c < maxSemCount c → members LS (SemList i) = [] →
    SInv s' LS r rc →
    g_allSem s' = <[i := c <| semCount := semCount c + 1 |>]> (g_allSem s) →
    quiet s s' → sem_posted s LS r rc i c LOS_OK s'
| sem_post_given t xs s' LS' n nc :
    semStat c ≠ OS_SEM_UNUSED → semCount c < maxSemCount c →
    members LS (SemList i) = PendList t :: xs → SInv s' LS' n nc → preempting s' → rest_same s s' →
    members LS' (SemList i) = xs → ¬ waits LS' t → now s ≤ now s' < now s + 2 ^ 32 →
    sem_posted s LS r rc i c LOS_OK s'.

Section sem.
  Context `{Config}.

Section state.
  Context (s : kstate) (LS : lists) (r : Z) (rc : LosTaskCB) (HS : SInv s LS r rc).

(** The count of a semaphore changes within its limits. *)
Lemma wp_mod_sem i f c (Q : unit → kstate → Prop) :
  g_allSem s !! i = Some c → sem_ok LS i (f c) →
  (∀ s1, SInv s1 LS r rc → g_allSem s1 = <[i := f c]> (g_allSem s) → quiet s s1 → Q tt s1) →
  wp (mod_sem i f) Q s.
Proof.
  intros Ei Hc HQ. unfold mod_sem. wp_step. eapply wp_get_sem; [exact Ei|]. wp_steps.
  set (s' := s <| g_allSem := _ |>). apply HQ; [|reflexivity|by split_and!].
  destruct HS as [HB Hub]. split; [|done].
  pose proof HB as [B1 B2 [I1 I2 I3 I4 I5] B4 B5 B6 B7 B8].
  assert (ksame s s') as Hs by (by split_and!).
  eapply (BInv_intro s); [exact HB|by eapply KInv_same|by eapply Running_same| |apply tstep_refl|done..].
  constructor; try done.
  - eapply Forall_impl; [exact I1|]. intros j Hj. change (is_Some (<[i := f c]> (g_allSem s) !! j)).
    destruct (decide (i = j)) as [<-|]; [rewrite lookup_insert_eq; eauto|by rewrite lookup_insert_ne].
  - change (map_Forall (sem_ok LS) (<[i := f c]> (g_allSem s))).
    intros j cj [[<- <-]|[? Ej]]%lookup_insert_Some; [done|by apply (I2 j cj)].
Qed.

Lemma sem_Some i : 0 ≤ i < LOSCFG_BASE_IPC_SEM_LIMIT → ∃ c, g_allSem s !! i = Some c.
Proof.
  intros Hi. pose proof (i_sem_dom (b_ipc (proj1 HS))) as HF. rewrite Forall_forall in HF.
  apply HF, elem_of_seqZ. lia.
Qed.

(** The checks of [OsSemValidCheck] only look. *)
Lemma wp_OsSemValidCheck i c (Q : Z → kstate → Prop) :
  g_allSem s !! i = Some c →
  (∀ e, e ≠ LOS_OK → pend_refused s rc c → Q e s) →
  (¬ pend_refused s rc c → Q LOS_OK s) →
  wp (OsSemValidCheck i) Q s.
Proof.
  intros Ei He Hok. pose proof (b_run (proj1 HS)) as (Hr & HR & _).
  pose proof (r_tcb _ _ _ _ HR) as Er. unfold pend_refused in *.
  unfold OsSemValidCheck, ArchIsIntActive, status_flag. wp_step.
  eapply wp_get_sem; [exact Ei|]. zcase; wp_steps; [apply He; [done|tauto]|].
  destruct (Z.ltb_spec 0 (g_intCount s)); wp_steps; [apply He; [done|tauto]|].
  destruct (Z.eqb_spec (g_losTaskLock s) 0); simpl; wp_steps; [|apply He; [done|tauto]].
  destruct (st rc OS_TASK_FLAG_SYSTEM_TASK); [apply He; [done|tauto]|].
  apply Hok. intuition (congruence || lia).
Qed.
End state.

(** ** Taking *)

Section pend.
  Context (s : kstate) (LS : lists) (r : Z) (rc : LosTaskCB) (i timeout : Z) (c : LosSemCB).
  Context (HS : SInv s LS r rc) (Hi : r ≠ g_idleTaskID s) (Hh : now s < TIME_HORIZON).
  Context (Hi0 : 0 ≤ i < LOSCFG_BASE_IPC_SEM_LIMIT) (Ei : g_allSem s !! i = Some c).
  Context (Ht : 0 ≤ timeout < 2 ^ 32).

Lemma wp_LOS_SemPend : wp (LOS_SemPend i timeout) (sem_pended s LS r rc i timeout c) s.
Proof.
  unfold LOS_SemPend.
  destruct (Z.leb_spec LOSCFG_BASE_IPC_SEM_LIMIT i); [lia|]. wp_step.
  eapply wp_IntLock; [exact HS|]. intros s0 HS0 Hk0 ET0. pose proof Hk0 as [Hrest0 Hn0].
  pose proof (skeep_quiet _ _ Hk0 ET0) as Hq0.
  pose proof Hrest0 as (Es0 & _ & _ & Hid0 & _ & _ & _ & _ & Hlk0 & _ & _ & _ & Hic0).
  assert (pend_refused s0 rc c ↔ pend_refused s rc c) as Href
    by (unfold pend_refused; by rewrite Hlk0, Hic0).
  rewrite <- Es0 in Ei. wp_step. eapply wp_OsSemValidCheck; [exact HS0|exact Ei|..].
  { intros e He Hr%Href. destruct (Z.eqb_spec e 0); [done|]. simpl.
    eapply wp_IntRestore_ret; [exact HS0|]. intros s1 HS1 Hk1 ET1.
    apply sem_pend_refused; [done..|by eapply skeep_trans|eauto using quiet_trans, skeep_quiet]. }
  intros Hok. assert (¬ pend_refused s rc c) as Hok' by (by rewrite <- Href). simpl.
  pose proof (b_run (proj1 HS0)) as (Hr & HR & _).
  assert (semStat c ≠ OS_SEM_UNUSED ∧ g_losTaskLock s0 = 0) as [Hu Hlk].
  { unfold pend_refused in Hok. split; [tauto|]. destruct (Z.eq_dec (g_losTaskLock s0) 0); tauto. }
  destruct (i_sem (b_ipc (proj1 HS0)) i c Ei Hu) as (Hc & Hmx & [xs E] & Hw).
  wp_steps. eapply wp_get_sem; [exact Ei|].
  destruct (Z.ltb_spec 0 (semCount c)) as [Hpos|].
  - assert (u16 (semCount c - 1) = semCount c - 1) as Hdec.
    { unfold OS_SEM_COUNTING_MAX_COUNT in *. unfold u16. apply Z.mod_small. lia. }
    wp_step. eapply wp_mod_sem; [exact HS0|exact Ei|rewrite Hdec|rewrite Hdec].
    { intros _. rsimpl. split; [lia|]. split; [done|]. split; [by eauto|].
      intros Hne. specialize (Hw Hne). lia. }
    intros s1 HS1 Es1 Hq1. eapply wp_IntRestore_ret; [exact HS1|].
    intros s2 HS2 Hk2 ET2. pose proof Hk2 as [(Es2 & _) _].
    apply sem_pend_taken; [done|done|exact HS2|by rewrite Es2, Es1, Es0|eauto using quiet_trans, skeep_quiet].
  - assert (semCount c = 0) as Hz by lia. destruct (Z.eqb_spec timeout 0) as [Htz|Htz].
    { eapply wp_IntRestore_ret; [exact HS0|]. intros s1 HS1 Hk1 ET1. subst timeout.
      apply sem_pend_none; [done..|by eapply skeep_trans|eauto using quiet_trans, skeep_quiet]. }
    wp_step. eapply wp_self; [exact HS0|by split_and!|]. intros s1 HS1 [Hk1 Hn1] _.
    pose proof Hk1 as (Es1 & _ & _ & Hid1 & _ & _ & _ & _ & Hlk1 & _).
    eapply wp_block; [exact HS1|congruence|by rewrite Hn1, Hn0|by rewrite Hlk1|exact Ht|done|exact E| |].
    + intros j cj [= <-]. rewrite Es1, Ei. by intros [= <-].
    + intros s' LS' n nc HS' Hpe Hnr Hrest Hfr _ Hnow. rewrite Hn1, Hn0 in Hnow.
      eapply sem_pend_waiting; [done|done|done|exact HS'|done|done| | |exact Hnow].
      * eapply rest_same_trans; [exact Hrest0|]. by eapply rest_same_trans.
      * unfold members. rewrite Hfr by done. by rewrite lookup_insert_eq, E.
Qed.
End pend.

Lemma safe_LOS_SemPend i timeout :
  0 ≤ i → 0 ≤ timeout < 2 ^ 32 → safe_call (LOS_SemPend i timeout).
Proof.
  intros Hi0 Ht s LS r rc HS Hi Hh. destruct (Z.leb_spec LOSCFG_BASE_IPC_SEM_LIMIT i).
  { unfold LOS_SemPend. destruct (Z.leb_spec LOSCFG_BASE_IPC_SEM_LIMIT i); [|lia].
    wp_steps. eapply sys_post_quiet; [exact HS|exact HS|apply quiet_refl]. }
  destruct (sem_Some _ _ _ _ HS i) as [c Ei]; [lia|].
  eapply wp_mono; [by eapply wp_LOS_SemPend|]. intros o s1 Ho. destruct Ho; eauto with sys.
Qed.

(** ** Giving *)

Section post.
  Context (s : kstate) (LS : lists) (r : Z) (rc : LosTaskCB) (i : Z) (c : LosSemCB).
  Context (HS : SInv s LS r rc) (Hh : now s < TIME_HORIZON).
  Context (Hi0 : 0 ≤ i < LOSCFG_BASE_IPC_SEM_LIMIT) (Ei : g_allSem s !! i = Some c).

Lemma wp_LOS_SemPost : wp (LOS_SemPost i) (sem_posted s LS r rc i c) s.
Proof.
  unfold LOS_SemPost.
  destruct (Z.leb_spec LOSCFG_BASE_IPC_SEM_LIMIT i); [lia|]. wp_step.
  eapply wp_IntLock; [exact HS|]. intros s0 HS0 Hk0 ET0. pose proof Hk0 as [Hrest0 Hn0].
  pose proof (skeep_quiet _ _ Hk0 ET0) as Hq0. pose proof Hrest0 as (Es0 & _ & _ & Hid0 & _).
  rewrite <- Es0 in Ei. wp_step. eapply wp_get_sem; [exact Ei|].
  assert (∀ e, e ≠ LOS_OK → semStat c = OS_SEM_UNUSED ∨ semCount c = maxSemCount c →
    wp (LOS_IntRestore 0;; mret e) (sem_posted s LS r rc i c) s0) as Herr.
  { intros e He Hor. eapply wp_IntRestore_ret; [exact HS0|]. intros s1 HS1 Hk1 ET1.
    apply sem_post_refused; [done..|by eapply skeep_trans|eauto using quiet_trans, skeep_quiet]. }
  destruct (Z.eqb_spec (semStat c) OS_SEM_UNUSED) as [|Hu]; [apply Herr; [done|tauto]|].
  pose proof (b_kernel (proj1 HS0)) as HK.
  destruct (i_sem (b_ipc (proj1 HS0)) i c Ei Hu) as (Hc & Hmx & [xs E] & Hw).
  destruct (Z.eqb_spec (maxSemCount c) (semCount c)) as [|Hlt]; [apply Herr; [done|by right]|].
  wp_step. eapply wp_list_empty; [apply HK|exact E|]. destruct xs as [|x xs].
  - rewrite bool_decide_eq_true_2 by done. cbn [negb]. wp_step.
    assert (u16 (semCount c + 1) = semCount c + 1) as Hinc.
    { unfold OS_SEM_COUNTING_MAX_COUNT in *. unfold u16. apply Z.mod_small. lia. }
    eapply wp_mod_sem; [exact HS0|exact Ei|rewrite Hinc|rewrite Hinc].
    { intros _. rsimpl. split; [lia|]. split; [done|]. split; [by eauto|].
      by rewrite (members_Some _ _ _ E). }
    intros s1 HS1 Es1 Hq1. eapply wp_IntRestore_ret; [exact HS1|].
    intros s2 HS2 Hk2 ET2. pose proof Hk2 as [(Es2 & _) _].
    apply sem_post_counted; [done|lia|by rewrite (members_Some _ _ _ E)|exact HS2| |].
    { by rewrite Es2, Es1, Es0. } eauto using quiet_trans, skeep_quiet.
  - rewrite bool_decide_eq_false_2 by done. cbn [negb]. wp_step.
    eapply wp_list_first; [apply HK|exact E|]. cbn [List.hd].
    destruct (wait_member _ _ _ _ (SemList i) x (k_queues HK)) as (t & ct & -> & Et & Hl & Hp);
      [rewrite (members_Some _ _ _ E); set_solver|done|].
    do 2 wp_step. eapply (wp_wake_schedule s0 _ _ _ t ct _ (SemList i) [] xs);
      [exact HS0|done|done|done|by split_and!|done|exact E|by rewrite Hn0|].
    intros s' LS' n nc HS' Hpe Hrest E' Hnw _ Hnow. rewrite Hn0 in Hnow.
    eapply sem_post_given; [exact Hu|lia|by rewrite (members_Some _ _ _ E)|exact HS'|exact Hpe|
      by eapply rest_same_trans|done..].
Qed.
End post.

Lemma safe_LOS_SemPost i : 0 ≤ i → safe_call (LOS_SemPost i).
Proof.
  intros Hi0 s LS r rc HS Hi Hh. destruct (Z.leb_spec LOSCFG_BASE_IPC_SEM_LIMIT i).
  { unfold LOS_SemPost. destruct (Z.leb_spec LOSCFG_BASE_IPC_SEM_LIMIT i); [|lia].
    wp_steps. eapply sys_post_quiet; [exact HS|exact HS|apply quiet_refl]. }
  destruct (sem_Some _ _ _ _ HS i) as [c Ei]; [lia|].
  eapply wp_mono; [by eapply wp_LOS_SemPost|]. intros o s1 Ho. destruct Ho; eauto with sys.
Qed.

(** The part of [LOS_SemPend] that runs when the task is chosen again. *)
Lemma safe_LOS_SemPend_resume : safe_call (r ← get_runTask; LOS_SemPend_resume r).
Proof.
  intros s LS r rc HS Hi Hh. pose proof (b_run (proj1 HS)) as (Hr & _).
  wp_steps. eapply wp_resume; [exact HS|..].
  - done.
  - intros s1 HS1 _ Hq _. eapply wp_IntRestore_ret; [exact HS1|]. intros s2 HS2 Hk2 ET2.
    eapply sys_post_quiet; [exact HS|exact HS2|eauto using quiet_trans, skeep_quiet].
Qed.
End sem.
