(* ===== verification/SysMux.v ===== *)
(** Mutexes: what the calls of los_mux.c do to the owner, to the waiting tasks and to the
    priorities, and that they keep the invariant of the system. *)

From S2P Require Import Prelude DList Kernel Tick SortLink Mem Pmcu Sched SchedInv SchedOps SchedDelay.
From S2P Require Import SchedSwitch SchedTop SchedTrans SchedTick SchedState Event Sem Mux Task SysInv.

Lemma wp_get_mux i m s (Q : LosMuxCB → kstate → Prop) :
  g_allMux s !! i = Some m → Q m s → wp (get_mux i) Q s.
Proof. intros E HQ. unfold get_mux. wp_steps. by rewrite E. Qed.

(** Two changes of a mutex in a row are one. *)
Lemma mod_mux_fuse {A} i f g (k : K A) (Q : A → kstate → Prop) s :
  wp (mod_mux i (fun c => g (f c));; k) Q s → wp (mod_mux i f;; (mod_mux i g;; k)) Q s.
Proof.
  unfold wp, mod_mux, get_mux, gets, unwrap, modify, mbind, M_bind. simpl.
  destruct (g_allMux s !! i) as [m|] eqn:E; [|done].
  cbn [g_allMux setf]. change (g_allMux (s <| g_allMux := ?x |>)) with x.
  rewrite lookup_insert_eq.
  change (g_allMux (s <| g_allMux := ?x |>)) with x. rewrite insert_insert_eq.
  by destruct s.
Qed.

(** The reasons for which [LOS_MuxPend] refuses to lock. *)
Definition mux_refused (s : kstate) (rc : LosTaskCB) (m : LosMuxCB) : Prop :=
  muxStat m = OS_MUX_UNUSED ∨ 0 < g_intCount s ∨ g_losTaskLock s ≠ 0 ∨
  st rc OS_TASK_FLAG_SYSTEM_TASK = true.

(** The mutex with a new owner. *)
Definition mux_given (m : LosMuxCB) (t p : Z) : LosMuxCB :=
  m <| muxCount := 1 |> <| owner := Some t |> <| muxPriority := p |>.

(** What [LOS_MuxPend] on the mutex [m] does when [r] runs and is allowed to lock: it takes the
    free mutex, locks its own once more, reports that another task has it, or lends its
    priority to the owner and waits behind the other waiting tasks. *)
Inductive mux_locked `{Config} (s : kstate) (LS : lists) (r : Z) (rc : LosTaskCB)
    (i timeout : Z) (m : LosMuxCB) : outcome Z → kstate → Prop :=
| mux_pend_free s' :
    muxCount m = 0 → SInv s' LS r rc →
    g_allMux s' = <[i := mux_given m r (priority rc)]> (g_allMux s) → quiet s s' →
    mux_locked s LS r rc i timeout m (Done LOS_OK) s'
| mux_pend_again s' :
    muxCount m ≠ 0 → owner m = Some r → SInv s' LS r rc →
    g_allMux s' = <[i := m <| muxCount := u16 (muxCount m + 1) |>]> (g_allMux s) →
    quiet s s' → mux_locked s LS r rc i timeout m (Done LOS_OK) s'
| mux_pend_busy s' :
    muxCount m ≠ 0 → owner m ≠ Some r → timeout = 0 → SInv s' LS r rc → skeep s s' → quiet s s' →
    mux_locked s LS r rc i timeout m (Done LOS_ERRNO_MUX_UNAVAILABLE) s'
| mux_pend_waiting o oc s' LS' n nc :
    muxCount m ≠ 0 → owner m = Some o → o ≠ r → timeout ≠ 0 →
    g_taskCBArray s !! o = Some oc → SInv s' LS' n nc → preempting s' → n ≠ r → rest_same s s' →
    members LS' (MuxList i) = members LS (MuxList i) ++ [PendList r] →
    prios (g_taskCBArray s') =
      <[o := Z.min (priority rc) (priority oc)]> (prios (g_taskCBArray s)) →
    now s ≤ now s' < now s + 2 ^ 32 →
    mux_locked s LS r rc i timeout m Switched s'.

Inductive mux_pended `{Config} (s : kstate) (LS : lists) (r : Z) (rc : LosTaskCB)
    (i timeout : Z) (m : LosMuxCB) : outcome Z → kstate → Prop :=
| mux_pend_refused e s' :
    e ≠ LOS_OK → mux_refused s rc m → SInv s' LS r rc → skeep s s' → quiet s s' →
    mux_pended s LS r rc i timeout m (Done e) s'
| mux_pend_allowed o s' :
    ¬ mux_refused s rc m → mux_locked s LS r rc i timeout m o s' →
    mux_pended s LS r rc i timeout m o s'.

Lemma mux_locked_keep `{Config} s s0 LS r rc i timeout m o s' :
  skeep s s0 → g_taskCBArray s0 = g_taskCBArray s →
  mux_locked s0 LS r rc i timeout m o s' → mux_locked s LS r rc i timeout m o s'.
Proof.
  intros Hk ET Hm. pose proof (skeep_quiet _ _ Hk ET) as Hq. pose proof Hk as [Hr Hn].
  pose proof Hr as (_ & Em & _ & Hid & _). destruct Hm; rewrite ?ET, ?Em, ?Hn, ?Hid in *;
    [eapply mux_pend_free|eapply mux_pend_again|eapply mux_pend_busy|eapply mux_pend_waiting];
    eauto using skeep_trans, rest_same_trans, quiet_trans.
Qed.

(** What [LOS_MuxPost] does when [r] runs: it refuses a mutex that [r] does not hold, leaves a
    mutex that is locked more than once to [r], and otherwise gives [r] its own priority back
    and hands the mutex to the first waiting task, or frees it. *)
Inductive mux_posted `{Config} (s : kstate) (LS : lists) (r : Z) (rc : LosTaskCB) (i : Z)
    (m : LosMuxCB) : Z → kstate → Prop :=
| mux_post_refused e s' :
    e ≠ LOS_OK →
    muxStat m = OS_MUX_UNUSED ∨ 0 < g_intCount s ∨ muxCount m = 0 ∨ owner m ≠ Some r →
    SInv s' LS r rc → skeep s s' → quiet s s' → mux_posted s LS r rc i m e s'
| mux_post_nested s' :
    owner m = Some r → 1 < muxCount m → SInv s' LS r rc →
    g_allMux s' = <[i := m <| muxCount := muxCount m - 1 |>]> (g_allMux s) →
    quiet s s' → mux_posted s LS r rc i m LOS_OK s'
| mux_post_freed s' LS' rc' :
    owner m = Some r → muxCount m = 1 → members LS (MuxList i) = [] → SInv s' LS' r rc' →
    g_allMux s' = <[i := m <| muxCount := 0 |> <| owner := None |>]> (g_allMux s) →
    g_taskCBArray s' = <[r := rc']> (g_taskCBArray s) → priority rc' = muxPriority m →
    now s' = now s → g_idleTaskID s' = g_idleTaskID s → g_losTaskLock s' = g_losTaskLock s →
    mux_posted s LS r rc i m LOS_OK s'
| mux_post_given t ct xs s' LS' n nc :
    owner m = Some r → muxCount m = 1 → members LS (MuxList i) = PendList t :: xs →
    g_taskCBArray s !! t = Some ct → SInv s' LS' n nc → preempting s' →
    g_allMux s' = <[i := mux_given m t (priority ct)]> (g_allMux s) →
    members LS' (MuxList i) = xs → ¬ waits LS' t →
    prios (g_taskCBArray s') = <[r := muxPriority m]> (prios (g_taskCBArray s)) →
    now s ≤ now s' < now s + 2 ^ 33 → g_idleTaskID s' = g_idleTaskID s →
    mux_posted s LS r rc i m LOS_OK s'.

Section mux.
  Context `{Config}.

Section state.
  Context (s : kstate) (LS : lists) (r : Z) (rc : LosTaskCB) (HS : SInv s LS r rc).

Lemma mux_Some i : 0 ≤ i < LOSCFG_BASE_IPC_MUX_LIMIT → ∃ m, g_allMux s !! i = Some m.
Proof.
  intros Hi. pose proof (i_mux_dom (b_ipc (proj1 HS))) as HF. rewrite Forall_forall in HF.
  apply HF, elem_of_seqZ. lia.
Qed.

(** A mutex changes. *)
Lemma wp_mod_mux i f m (Q : unit → kstate → Prop) :
  g_allMux s !! i = Some m → mux_ok (g_idleTaskID s) (g_taskCBArray s) LS i (f m) →
  (∀ s1, SInv s1 LS r rc → g_allMux s1 = <[i := f m]> (g_allMux s) → quiet s s1 → Q tt s1) →
  wp (mod_mux i f) Q s.
Proof.
  intros Ei Hm HQ. unfold mod_mux. wp_step. eapply wp_get_mux; [exact Ei|]. wp_steps.
  set (s' := s <| g_allMux := _ |>). apply HQ; [|reflexivity|by split_and!].
  destruct HS as [HB Hub]. split; [|done].
  pose proof HB as [B1 B2 [I1 I2 I3 I4 I5] B4 B5 B6 B7 B8].
  assert (ksame s s') as Hs by (by split_and!).
  eapply (BInv_intro s); [exact HB|by eapply KInv_same|by eapply Running_same| |apply tstep_refl|done..].
  constructor; try done.
  - eapply Forall_impl; [exact I3|]. intros j Hj.
    change (is_Some (<[i := f m]> (g_allMux s) !! j)).
    destruct (decide (i = j)) as [<-|]; [rewrite lookup_insert_eq; eauto|by rewrite lookup_insert_ne].
  - change (map_Forall (mux_ok (g_idleTaskID s) (g_taskCBArray s) LS) (<[i := f m]> (g_allMux s))).
    intros j mj [[<- <-]|[? Ej]]%lookup_insert_Some; [done|by apply (I4 j mj)].
Qed.

Lemma wp_OsMuxValidCheck i m (Q : Z → kstate → Prop) :
  g_allMux s !! i = Some m → (∀ e, e ≠ LOS_OK → mux_refused s rc m → Q e s) →
  (¬ mux_refused s rc m → Q LOS_OK s) →
  wp (OsMuxValidCheck i) Q s.
Proof.
  intros Ei He Hok. pose proof (b_run (proj1 HS)) as (Hr & HR & _).
  pose proof (r_tcb _ _ _ _ HR) as Er. unfold mux_refused in *.
  unfold OsMuxValidCheck, ArchIsIntActive, status_flag. wp_step.
  eapply wp_get_mux; [exact Ei|]. zcase; wp_steps; [apply He; [done|tauto]|].
  destruct (Z.ltb_spec 0 (g_intCount s)); wp_steps; [apply He; [done|tauto]|].
  destruct (Z.eqb_spec (g_losTaskLock s) 0); simpl; wp_steps; [|apply He; [done|tauto]].
  destruct (st rc OS_TASK_FLAG_SYSTEM_TASK); [apply He; [done|tauto]|].
  apply Hok. intuition (congruence || lia).
Qed.
End state.

Lemma run_prio s LS r rc :
  SInv s LS r rc → 0 ≤ priority rc < OS_PRIORITY_QUEUE_NUM ∧
  runTask s = Some r ∧ g_taskCBArray s !! r = Some rc ∧ live rc.
Proof.
  intros [HB Hub]. pose proof (b_run HB) as (Hr & HR & _). pose proof (r_tcb _ _ _ _ HR) as Er.
  destruct (live_ok _ _ _ _ _ _ (k_queues (b_kernel HB)) Er) as (_ & Hp & _); [apply Hub|].
  split_and!; try done; [apply Hp..|apply Hub].
Qed.

(** ** Locking *)

Section pend.
  Context (s : kstate) (LS : lists) (r : Z) (rc : LosTaskCB) (i timeout : Z) (m : LosMuxCB).
  Context (HS : SInv s LS r rc) (Hi : r ≠ g_idleTaskID s) (Hh : now s < TIME_HORIZON).
  Context (Em : g_allMux s !! i = Some m) (Ht : 0 ≤ timeout < 2 ^ 32).

(** The running task raises the owner to its own priority and waits. *)
Lemma wp_mux_block o oc xs (Q : outcome Z → kstate → Prop) :
  g_losTaskLock s = 0 → o ≠ r → o ≠ g_idleTaskID s → g_taskCBArray s !! o = Some oc → live oc →
  LS !! MuxList i = Some xs →
  (∀ s' LS' n nc, SInv s' LS' n nc → preempting s' → n ≠ r → rest_same s s' →
     members LS' (MuxList i) = xs ++ [PendList r] →
     prios (g_taskCBArray s') =
       <[o := Z.min (priority rc) (priority oc)]> (prios (g_taskCBArray s)) →
     now s ≤ now s' < now s + 2 ^ 32 → Q Switched s') →
  wp (mod_tcb r (fun c => c <| taskMux := Some i |>);;
      (o' ← unwrap NullDeref (Some o);
      (oc' ← get_tcb o';
      (when (priority rc <? priority oc')
        (OsSchedModifyTaskSchedParam o' (priority rc);; mret tt);;
      (OsSchedTaskWait (MuxList i) timeout;;
      (LOS_IntRestore 0;;
      schedule_then (LOS_MuxPend_resume r))))))) Q s.
Proof.
  intros Hlk Hor Hoi Eo Hlo E HQ. destruct (run_prio _ _ _ _ HS) as (Hp & Hr & Er & Hlr).
  wp_step. eapply wp_self; [exact HS|by split_and!|]. intros s1 HS1 Hk1 ET1.
  assert (g_taskCBArray s1 !! o = Some oc) as Eo1 by (by rewrite ET1, lookup_insert_ne).
  assert (prios (g_taskCBArray s1) = prios (g_taskCBArray s)) as Hp1
    by (rewrite ET1; by apply (prios_insert _ _ rc)).
  pose proof Hk1 as [(_ & _ & _ & Hid1 & _ & _ & _ & _ & Hlk1 & _) Hn1].
  assert (∀ s2 LS2 rc2, SInv s2 LS2 r rc2 → skeep s1 s2 → q_frame LS LS2 →
    prios (g_taskCBArray s2) =
      <[o := Z.min (priority rc) (priority oc)]> (prios (g_taskCBArray s)) →
    wp (OsSchedTaskWait (MuxList i) timeout;;
        (LOS_IntRestore 0;; schedule_then (LOS_MuxPend_resume r))) Q s2) as Hblk.
  { intros s2 LS2 rc2 HS2 Hk2 Hfr Hpr. pose proof (skeep_trans _ _ _ Hk1 Hk2) as [Hrest Hn].
    pose proof Hrest as (_ & _ & _ & Hid & _ & _ & _ & _ & Hlk2 & _).
    eapply wp_block; [exact HS2|congruence|by rewrite Hn|by rewrite Hlk2|exact Ht|
      done|rewrite Hfr by done; exact E|done|].
    intros s' LS' n nc HS' Hpe Hnr Hrest' Hfr' Hpr' Hnow. rewrite Hn in Hnow.
    eapply HQ; [exact HS'|exact Hpe|exact Hnr|by eapply rest_same_trans| |by rewrite Hpr'|exact Hnow].
    unfold members. rewrite Hfr' by done. by rewrite lookup_insert_eq. }
  do 2 wp_step. wp_step. eapply wp_get_tcb; [exact Eo1|]. wp_step.
  destruct (Z.ltb_spec (priority rc) (priority oc)); unfold when; cbn [andb].
  - wp_step. eapply wp_prio; [exact HS1|exact Eo1|exact Hlo|congruence|exact Hp|].
    intros s2 LS2 rc2 HS2 Hk2 Hfr ET2. wp_step. eapply Hblk; [exact HS2|exact Hk2|exact Hfr|].
    by rewrite ET2, prios_prio, Hp1, Z.min_l by lia.
  - wp_step. eapply Hblk; [exact HS1|apply skeep_refl|done|]. rewrite Hp1, Z.min_r by lia.
    symmetry. apply insert_id. unfold prios. by rewrite lookup_fmap, Eo.
Qed.

(** The rest of [LOS_MuxPend], once [OsMuxValidCheck] has passed. *)
Lemma wp_mux_lock :
  muxStat m ≠ OS_MUX_UNUSED → g_losTaskLock s = 0 →
  wp (if muxCount m =? 0 then
        mod_mux i (fun c => c <| muxCount := u16 (muxCount c + 1) |>);;
        mod_mux i (fun c => c <| owner := Some r |>);;
        mod_mux i (fun c => c <| muxPriority := priority rc |>);;
        LOS_IntRestore 0;;
        mret (Done LOS_OK)
      else if decide (owner m = Some r) then
        mod_mux i (fun c => c <| muxCount := u16 (muxCount c + 1) |>);;
        LOS_IntRestore 0;;
        mret (Done LOS_OK)
      else if timeout =? 0 then
        LOS_IntRestore 0;; mret (Done LOS_ERRNO_MUX_UNAVAILABLE)
      else
        mod_tcb r (fun c => c <| taskMux := Some i |>);;
        o ← unwrap NullDeref (owner m);
        oc ← get_tcb o;
        when (priority rc <? priority oc)
          (OsSchedModifyTaskSchedParam o (priority rc);; mret tt);;
        OsSchedTaskWait (MuxList i) timeout;;
        LOS_IntRestore 0;;
        schedule_then (LOS_MuxPend_resume r)) (mux_locked s LS r rc i timeout m) s.
Proof.
  intros Hu Hlk. destruct (run_prio _ _ _ _ HS) as (Hp & Hr & Er & Hlr).
  destruct (i_mux (b_ipc (proj1 HS)) i m Em Hu) as (Hc & [xs E] & Hown).
  assert (owner_ok (g_idleTaskID s) (g_taskCBArray s) (Some r)) as Hro by (simpl; by rewrite Er).
  destruct (Z.eqb_spec (muxCount m) 0) as [Hz|Hnz].
  - apply mod_mux_fuse. apply mod_mux_fuse. wp_step. eapply wp_mod_mux; [exact HS|exact Em|..].
    { intros _. rsimpl. rewrite Hz. split_and!; try done; eauto. }
    intros s1 HS1 Em1 Hq1. eapply wp_IntRestore_ret; [exact HS1|]. intros s2 HS2 Hk2 ET2.
    apply mux_pend_free; [done..| |eauto using quiet_trans, skeep_quiet].
    destruct Hk2 as [(_ & Em2 & _) _]. rewrite Em2, Em1, Hz. by destruct m.
  - destruct (Hown Hnz) as [Hmp Ho]. destruct (owner m) as [o|] eqn:Eo; [|done].
    destruct (decide (Some o = Some r)) as [[= ->]|Hor].
    + wp_step. eapply wp_mod_mux; [exact HS|exact Em|..].
      { intros _. rsimpl. unfold u16. rewrite Eo. split; [apply Z.mod_pos_bound; lia|].
        split; [by eauto|done]. }
      intros s1 HS1 Em1 Hq1. eapply wp_IntRestore_ret; [exact HS1|]. intros s2 HS2 Hk2 ET2.
      apply mux_pend_again; [done..| |eauto using quiet_trans, skeep_quiet].
      destruct Hk2 as [(_ & Em2 & _) _]. congruence.
    + destruct (Z.eqb_spec timeout 0) as [->|Htz].
      { eapply wp_IntRestore_ret; [exact HS|]. intros s1 HS1 Hk1 ET1.
        apply mux_pend_busy; [done|congruence|done..|by apply skeep_quiet]. }
      simpl in Ho. destruct Ho as [Hoi Ho]. destruct (g_taskCBArray s !! o) as [oc|] eqn:Eoc; [|done].
      eapply wp_mux_block; [exact Hlk|congruence|done|exact Eoc|exact Ho|exact E|].
      intros s' LS' n nc HS' Hpe Hnr Hrest Hm Hpr Hnow.
      eapply mux_pend_waiting; [done|done|congruence|done|done|done|done|done|done| |done..].
      by rewrite Hm, (members_Some _ _ _ E).
Qed.
End pend.

Lemma wp_LOS_MuxPend s LS r rc i timeout m :
  SInv s LS r rc → r ≠ g_idleTaskID s → now s < TIME_HORIZON →
  0 ≤ i < LOSCFG_BASE_IPC_MUX_LIMIT → g_allMux s !! i = Some m → 0 ≤ timeout < 2 ^ 32 →
  wp (LOS_MuxPend i timeout) (mux_pended s LS r rc i timeout m) s.
Proof.
  intros HS Hi Hh Hi0 Em Ht. unfold LOS_MuxPend.
  destruct (Z.leb_spec LOSCFG_BASE_IPC_MUX_LIMIT i); [lia|]. wp_step.
  eapply wp_IntLock; [exact HS|]. intros s0 HS0 Hk0 ET0. pose proof Hk0 as [Hrest0 Hn0].
  pose proof Hrest0 as (_ & Em0 & _ & Hid0 & _ & _ & _ & _ & Hlk0 & _ & _ & _ & Hic0).
  assert (mux_refused s0 rc m ↔ mux_refused s rc m) as Href
    by (unfold mux_refused; by rewrite Hlk0, Hic0).
  rewrite <- Em0 in Em. wp_step. eapply wp_OsMuxValidCheck; [exact HS0|exact Em|..].
  { intros e He Hr%Href. destruct (Z.eqb_spec e 0); [done|]. simpl.
    eapply wp_IntRestore_ret; [exact HS0|]. intros s1 HS1 Hk1 ET1.
    apply mux_pend_refused; [done..|by eapply skeep_trans|].
    eapply quiet_trans; by apply skeep_quiet. }
  intros Hok. assert (¬ mux_refused s rc m) as Hok' by (by rewrite <- Href). simpl.
  assert (muxStat m ≠ OS_MUX_UNUSED ∧ g_losTaskLock s0 = 0) as [Hu Hlk].
  { unfold mux_refused in Hok. split; [tauto|]. destruct (Z.eq_dec (g_losTaskLock s0) 0); tauto. }
  destruct (run_prio _ _ _ _ HS0) as (Hp & Hr & Er & Hlr).
  do 2 wp_step. wp_step. eapply wp_get_mux; [exact Em|]. wp_step. eapply wp_get_tcb; [exact Er|].
  eapply wp_mono; [eapply wp_mux_lock; [exact HS0|congruence|by rewrite Hn0|exact Em|done..]|].
  intros o s' Ho. apply mux_pend_allowed; [done|]. by eapply mux_locked_keep.
Qed.

Lemma safe_LOS_MuxPend i timeout :
  0 ≤ i → 0 ≤ timeout < 2 ^ 32 → safe_call (LOS_MuxPend i timeout).
Proof.
  intros Hi0 Ht s LS r rc HS Hi Hh. destruct (Z.leb_spec LOSCFG_BASE_IPC_MUX_LIMIT i).
  { unfold LOS_MuxPend. destruct (Z.leb_spec LOSCFG_BASE_IPC_MUX_LIMIT i); [|lia].
    wp_steps. eapply sys_post_quiet; [exact HS|exact HS|apply quiet_refl]. }
  destruct (mux_Some _ _ _ _ HS i) as [m Em]; [lia|].
  eapply wp_mono; [by eapply wp_LOS_MuxPend|]. intros o s1 [|? ? ? Ho]; [eauto with sys|].
  destruct Ho; eauto with sys.
Qed.

(** ** Unlocking *)

(** The end of [LOS_MuxPost]: the mutex goes to the first waiting task, or becomes free. *)
Definition mux_hand_over (i : Z) : K Z :=
  e ← list_empty (MuxList i);
  if negb e then
    first ← list_first (MuxList i);
    resumedTask ← OS_TCB_FROM_PENDLIST first;
    mod_mux i (fun c => c <| muxCount := 1 |>);;
    mod_mux i (fun c => c <| owner := Some resumedTask |>);;
    rc ← get_tcb resumedTask;
    mod_mux i (fun c => c <| muxPriority := priority rc |>);;
    mod_tcb resumedTask (fun c => c <| taskMux := None |>);;
    OsSchedTaskWake resumedTask;;
    LOS_IntRestore 0;;
    LOS_Schedule;;
    mret LOS_OK
  else
    mod_mux i (fun c => c <| owner := None |>);;
    LOS_IntRestore 0;;
    mret LOS_OK.

(** Before it, the owner [o] gets the priority [p] back it had when it took the mutex. *)
Definition mux_release (i o p : Z) : K Z :=
  oc ← get_tcb o;
  when (negb (priority oc =? p)) (OsSchedModifyTaskSchedParam o p;; mret tt);;
  mux_hand_over i.

Section post.
  Context (s : kstate) (LS : lists) (r : Z) (rc : LosTaskCB) (i : Z) (m : LosMuxCB).
  Context (HS : SInv s LS r rc) (Hh : now s < TIME_HORIZON).
  Context (Em : g_allMux s !! i = Some m) (Hu : muxStat m ≠ OS_MUX_UNUSED).
  Context (Hz : muxCount m = 0) (Hmp : 0 ≤ muxPriority m < OS_PRIORITY_QUEUE_NUM).

Lemma wp_mux_hand_over xs (Q : Z → kstate → Prop) :
  LS !! MuxList i = Some xs →
  (∀ s', xs = [] → SInv s' LS r rc → g_allMux s' = <[i := m <| owner := None |>]> (g_allMux s) →
     quiet s s' → Q LOS_OK s') →
  (∀ t ct ys s' LS' n nc, xs = PendList t :: ys → g_taskCBArray s !! t = Some ct → t ≠ r →
     SInv s' LS' n nc → preempting s' →
     g_allMux s' = <[i := mux_given m t (priority ct)]> (g_allMux s) →
     members LS' (MuxList i) = ys → ¬ waits LS' t →
     prios (g_taskCBArray s') = prios (g_taskCBArray s) →
     now s ≤ now s' < now s + 2 ^ 32 → g_idleTaskID s' = g_idleTaskID s → Q LOS_OK s') →
  wp (mux_hand_over i) Q s.
Proof.
  intros E Qfree Qgive. unfold mux_hand_over. pose proof (b_kernel (proj1 HS)) as HK.
  wp_step. eapply wp_list_empty; [apply HK|exact E|]. destruct xs as [|x xs].
  - rewrite bool_decide_eq_true_2 by done. simpl. wp_step.
    eapply wp_mod_mux; [exact HS|exact Em|intros _; rsimpl; rewrite Hz; split_and!; try done; by eauto|].
    intros s1 HS1 Em1 Hq1. eapply wp_IntRestore_ret; [exact HS1|]. intros s2 HS2 Hk2 ET2.
    apply Qfree; [done..| |eauto using quiet_trans, skeep_quiet]. destruct Hk2 as [(_ & Em2 & _) _]. congruence.
  - rewrite bool_decide_eq_false_2 by done. cbn [negb]. wp_step.
    eapply wp_list_first; [apply HK|exact E|]. cbn [List.hd].
    destruct (wait_member _ _ _ _ (MuxList i) x (k_queues HK)) as (t & ct & -> & Et & Hlt & Hp);
      [rewrite (members_Some _ _ _ E); set_solver|done|].
    destruct (waiter_other _ _ _ _ HS _ _ Et Hlt Hp) as [Htr Hti].
    destruct (live_ok _ _ _ _ _ _ (k_queues HK) Et Hlt) as (_ & Hpt & _).
    do 2 wp_step. apply mod_mux_fuse. wp_step.
    assert (∀ p, 0 ≤ p < OS_PRIORITY_QUEUE_NUM →
      mux_ok (g_idleTaskID s) (g_taskCBArray s) LS i (mux_given m t p)) as Hok.
    { intros p Hpr _. unfold mux_given. rsimpl. split; [lia|]. split; [by eauto|]. intros _.
      split; [done|]. simpl. by rewrite Et. }
    eapply wp_mod_mux; [exact HS|exact Em|..].
    { specialize (Hok (muxPriority m) Hmp). by destruct m. }
    intros s1 HS1 EM1 (Hn1 & Hid1 & _ & ET1). wp_step. eapply wp_get_tcb; [by rewrite ET1|].
    wp_step. eapply wp_mod_mux; [exact HS1|rewrite EM1; apply lookup_insert_eq|..].
    { rewrite Hid1, ET1. by apply Hok. }
    intros s2 HS2 EM2 (Hn2 & Hid2 & _ & ET2). rewrite ET1 in ET2. rewrite EM1, insert_insert_eq in EM2.
    eapply (wp_wake_schedule s2 _ _ _ t ct _ (MuxList i) [] xs);
      [exact HS2|by rewrite ET2|done|done|by split_and!|done|exact E|congruence|].
    intros s' LS' n nc HS' Hpe (_ & EM' & _ & Hid' & _) Hm Hnw Hpr Hnow. rewrite Hn2, Hn1 in Hnow.
    eapply Qgive; [done|exact Et|exact Htr|exact HS'|exact Hpe|by rewrite EM', EM2|done|done|by rewrite Hpr, ET2|
      exact Hnow|congruence].
Qed.
End post.

Section release.
  Context (s s1 : kstate) (LS : lists) (r : Z) (rc : LosTaskCB) (i : Z) (m : LosMuxCB).
  Context (HS1 : SInv s1 LS r rc) (Hi : r ≠ g_idleTaskID s1) (Hh : now s < TIME_HORIZON).
  Context (Ho : owner m = Some r) (Hc : muxCount m = 1) (Hu : muxStat m ≠ OS_MUX_UNUSED).
  Context (Hmp : 0 ≤ muxPriority m < OS_PRIORITY_QUEUE_NUM).
  Context (EM1 : g_allMux s1 = <[i := m <| muxCount := 0 |>]> (g_allMux s)).
  Context (ET1 : g_taskCBArray s1 = g_taskCBArray s) (Hn1 : now s1 = now s).
  Context (Hid1 : g_idleTaskID s1 = g_idleTaskID s) (Hlk1 : g_losTaskLock s1 = g_losTaskLock s).

(** The owner unlocks for the last time; [s] is the state at the call, [s1] the current one. *)
Lemma wp_mux_release xs :
  LS !! MuxList i = Some xs →
  wp (mux_release i r (muxPriority m)) (mux_posted s LS r rc i m) s1.
Proof.
  intros E. destruct (run_prio _ _ _ _ HS1) as (Hp & Hr & Er & Hlr). unfold mux_release.
  assert (∀ s2 LS2 rc2, SInv s2 LS2 r rc2 → skeep s1 s2 → q_frame LS LS2 →
    (∃ c2, g_taskCBArray s2 = <[r := c2]> (g_taskCBArray s) ∧ priority c2 = muxPriority m) →
    wp (mux_hand_over i) (mux_posted s LS r rc i m) s2) as Hend.
  { intros s2 LS2 rc2 HS2 [(_ & EM2 & _ & Hid2 & _ & _ & _ & _ & Hlk2 & _) Hn2] Hfr (c2 & ET2 & Hc2).
    destruct (run_prio _ _ _ _ HS2) as (_ & _ & Er2 & _).
    rewrite ET2, lookup_insert_eq in Er2. injection Er2 as ->.
    assert (prios (g_taskCBArray s2) = <[r := muxPriority m]> (prios (g_taskCBArray s))) as Hpr.
    { rewrite ET2. unfold prios. by rewrite fmap_insert, Hc2. }
    rewrite EM1 in EM2.
    eapply (wp_mux_hand_over s2 LS2 r rc2 i _ HS2); [by rewrite Hn2, Hn1|
      rewrite EM2; apply lookup_insert_eq|exact Hu|done|exact Hmp|by rewrite Hfr| |].
    - intros s' -> HS' EM' (Hn' & Hid' & Hlk' & ET').
      eapply mux_post_freed; [done|done| |exact HS'| |by rewrite ET'|done|congruence..].
      + by rewrite (members_Some _ _ _ E).
      + by rewrite EM', EM2, insert_insert_eq.
    - intros t ct ys s' LS' n nc -> Et Htr HS' Hpe EM' Hm Hnw Hpr' Hnow Hid'.
      eapply mux_post_given; [done|done| | |exact HS'|exact Hpe| |done|done|by rewrite Hpr'|lia|congruence].
      + by rewrite (members_Some _ _ _ E).
      + rewrite ET2, lookup_insert_ne in Et; done.
      + rewrite EM', EM2, insert_insert_eq. by destruct m. }
  wp_step. eapply wp_get_tcb; [exact Er|]. wp_step. unfold when. destruct (negb _) eqn:Hb.
  - wp_step. eapply wp_prio; [exact HS1|exact Er|exact Hlr|exact Hi|exact Hmp|].
    intros s2 LS2 rc2 HS2 Hk2 Hfr ET2. wp_step. eapply Hend; [done..|].
    destruct (prio_tcb_fields s1 r (muxPriority m) rc) as (_ & _ & _ & _ & _ & Hc2).
    eexists. split; [by rewrite ET2, ET1|done].
  - wp_step. eapply Hend; [exact HS1|apply skeep_refl|done|]. exists rc.
    apply negb_false_iff, Z.eqb_eq in Hb. split; [|done].
    by rewrite ET1, insert_id by (by rewrite <- ET1).
Qed.
End release.

Lemma wp_LOS_MuxPost s LS r rc i m :
  SInv s LS r rc → r ≠ g_idleTaskID s → now s < TIME_HORIZON →
  0 ≤ i < LOSCFG_BASE_IPC_MUX_LIMIT → g_allMux s !! i = Some m →
  wp (LOS_MuxPost i) (mux_posted s LS r rc i m) s.
Proof.
  intros HS Hi Hh Hi0 Em. unfold LOS_MuxPost. wp_step.
  eapply wp_IntLock; [exact HS|]. intros s0 HS0 Hk0 ET0. pose proof Hk0 as [Hrest0 Hn0].
  pose proof Hrest0 as (_ & Em0 & _ & Hid0 & _ & _ & _ & _ & _ & _ & _ & _ & Hic0).
  rewrite <- Em0 in Em. rewrite <- Hid0 in Hi.
  assert (∀ e, e ≠ LOS_OK → muxStat m = OS_MUX_UNUSED ∨ 0 < g_intCount s0 ∨ muxCount m = 0 ∨
    owner m ≠ Some r → wp (LOS_IntRestore 0;; mret e) (mux_posted s LS r rc i m) s0) as Herr.
  { intros e He Hor. eapply wp_IntRestore_ret; [exact HS0|]. intros s1 HS1 Hk1 ET1. rewrite Hic0 in Hor.
    apply mux_post_refused; [done..|by eapply skeep_trans|]. eapply quiet_trans; by apply skeep_quiet. }
  destruct (Z.leb_spec LOSCFG_BASE_IPC_MUX_LIMIT i); [lia|]. wp_step. eapply wp_get_mux; [exact Em|].
  destruct (Z.eqb_spec (muxStat m) OS_MUX_UNUSED) as [|Hu]; [apply Herr; [done|tauto]|].
  unfold ArchIsIntActive. wp_steps.
  destruct (Z.ltb_spec 0 (g_intCount s0)); [apply Herr; [done|tauto]|]. wp_steps.
  destruct (run_prio _ _ _ _ HS0) as (Hp & Hr & Er & Hlr). rewrite Hr.
  destruct (Z.eqb_spec (muxCount m) 0) as [|Hnz]; [apply Herr; [done|tauto]|].
  case_bool_decide as Ho; [|apply Herr; [done|tauto]]. simpl.
  destruct (i_mux (b_ipc (proj1 HS0)) i m Em Hu) as (Hc & [xs E] & Hown).
  destruct (Hown Hnz) as [Hmp _].
  assert (u16 (muxCount m - 1) = muxCount m - 1) as Hdec by (unfold u16; apply Z.mod_small; lia).
  wp_step. eapply wp_mod_mux; [exact HS0|exact Em|..].
  { intros _. rsimpl. rewrite Hdec. split; [lia|]. split; [by eauto|]. intros _. by apply Hown. }
  rewrite Hdec. intros s1 HS1 EM1 Hq. wp_step.
  pose proof (quiet_trans _ _ _ (skeep_quiet _ _ Hk0 ET0) Hq) as Hq1.
  eapply wp_get_mux; [rewrite EM1; apply lookup_insert_eq|]. rsimpl. rewrite Ho.
  destruct (Z.eqb_spec (muxCount m - 1) 0) as [Hz|Hnz1]; simpl.
  2: { eapply wp_IntRestore_ret; [exact HS1|]. intros s2 HS2 Hk2 ET2.
       apply mux_post_nested; [done|lia|done| |eauto using quiet_trans, skeep_quiet].
       destruct Hk2 as [(_ & EM2 & _) _]. congruence. }
  do 2 wp_step. rewrite Hz in EM1. destruct Hq1 as (Hn1 & Hid1 & Hlk1 & ET1).
  eapply (wp_mux_release s s1 LS r rc i m); [exact HS1|congruence|done|done|lia|done|done|congruence..|exact E].
Qed.

(** The running task gives up an inherited priority with its mutex [i]: nothing is scheduled
    after that unless a task waits for the mutex. *)
Definition lowers_owner (s : kstate) (i : Z) : Prop :=
  ∃ m r rc, g_allMux s !! i = Some m ∧ owner m = Some r ∧ muxCount m = 1 ∧
    runTask s = Some r ∧ g_taskCBArray s !! r = Some rc ∧ priority rc < muxPriority m.

Lemma safe_LOS_MuxPost s LS r rc i :
  SInv s LS r rc → r ≠ g_idleTaskID s → now s < TIME_HORIZON → 0 ≤ i →
  wp (LOS_MuxPost i) (λ _ s', sys_ok s s' ∧ (¬ lowers_owner s i → sys_post s s')) s.
Proof.
  intros HS Hi Hh Hi0. assert (∀ s', sys_post s s' → sys_ok s s' ∧ (¬ lowers_owner s i → sys_post s s')) as Hall
    by (by intros s' HP; split; [apply HP|]).
  destruct (Z.leb_spec LOSCFG_BASE_IPC_MUX_LIMIT i).
  { unfold LOS_MuxPost. wp_step. eapply wp_IntLock; [exact HS|]. intros s0 HS0 Hk0 ET0.
    destruct (Z.leb_spec LOSCFG_BASE_IPC_MUX_LIMIT i); [|lia].
    eapply wp_IntRestore_ret; [exact HS0|]. intros s1 HS1 Hk1 ET1. apply Hall.
    eapply sys_post_quiet; [exact HS|exact HS1|eauto using quiet_trans, skeep_quiet]. }
  destruct (mux_Some _ _ _ _ HS i) as [m Em]; [lia|].
  eapply wp_mono; [by eapply wp_LOS_MuxPost|].
  intros o s1 Ho. destruct Ho; try (by apply Hall; eauto with sys).
  destruct (run_prio _ _ _ _ HS) as (_ & Hr & Er & _). split.
  - exists LS', r, rc'. split; [done|]. split; [lia|done].
  - intros Hno. eapply sys_post_self; [done..|]. apply Z.nlt_ge. intros Hlt. apply Hno.
    exists m, r, rc. split_and!; try done. congruence.
Qed.

Lemma safe_LOS_MuxPend_resume : safe_call (r ← get_runTask; LOS_MuxPend_resume r).
Proof.
  intros s LS r rc HS Hi Hh. pose proof (b_run (proj1 HS)) as (Hr & _).
  wp_steps. eapply wp_resume; [exact HS|..].
  - done.
  - intros s1 HS1 _ Hq _. eapply wp_IntRestore_ret; [exact HS1|]. intros s2 HS2 Hk2 ET2.
    eapply sys_post_quiet; [exact HS|exact HS2|eauto using quiet_trans, skeep_quiet].
Qed.
End mux.
