(* ===== verification/SysEvent.v ===== *)
(** Events: which flags a read takes, which waiting tasks a write wakes, and that the calls
    of los_event.c keep the invariant of the system. *)

From S2P Require Import Prelude DList Kernel Tick SortLink Mem Pmcu Sched SchedInv SchedOps SchedDelay.
From S2P Require Import SchedSwitch SchedTop SchedTrans SchedTick SchedState Event Sem Mux Task SysInv.

(** The error a read with this mask and mode gets; [LOS_OK] for none. *)
Definition read_param_error (mask mode : Z) : Z :=
  if mask =? 0 then LOS_ERRNO_EVENT_EVENTMASK_INVALID
  else if flag mask LOS_ERRTYPE_ERROR then LOS_ERRNO_EVENT_SETBIT_INVALID
  else if (flag mode LOS_WAITMODE_OR && flag mode LOS_WAITMODE_AND)
       || negb (Z.ldiff mode (Z.lor LOS_WAITMODE_OR
                  (Z.lor LOS_WAITMODE_AND LOS_WAITMODE_CLR)) =? 0)
       || negb (flag mode (Z.lor LOS_WAITMODE_OR LOS_WAITMODE_AND))
  then LOS_ERRNO_EVENT_FLAGS_INVALID
  else LOS_OK.

(** The flags after a poll. *)
Definition event_after (id mask mode : Z) : Z :=
  if negb (event_match id mask mode =? 0) && flag mode LOS_WAITMODE_CLR
  then Z.ldiff id (event_match id mask mode) else id.

(** What [LOS_EventRead] on the event [u] with the flags [id] does when [r] runs. *)
Inductive event_read `{Config} (s : kstate) (LS : lists) (r : Z) (rc : LosTaskCB)
    (u id mask mode timeout : Z) : outcome Z → kstate → Prop :=
| event_read_refused e s' :
    e ≠ LOS_OK →
    e = read_param_error mask mode ∨ 0 < g_intCount s ∨ st rc OS_TASK_FLAG_SYSTEM_TASK = true ∨
      event_match id mask mode = 0 ∧ timeout ≠ 0 ∧ g_losTaskLock s ≠ 0 →
    SInv s' LS r rc → userEvents s' = userEvents s → quiet s s' →
    event_read s LS r rc u id mask mode timeout (Done e) s'
| event_read_polled s' :
    read_param_error mask mode = LOS_OK → event_match id mask mode ≠ 0 ∨ timeout = 0 →
    SInv s' LS r rc → userEvents s' = <[u := event_after id mask mode]> (userEvents s) →
    quiet s s' →
    event_read s LS r rc u id mask mode timeout (Done (event_match id mask mode)) s'
| event_read_waiting s' LS' n nc :
    read_param_error mask mode = LOS_OK → event_match id mask mode = 0 → timeout ≠ 0 →
    SInv s' LS' n nc → preempting s' → n ≠ r → userEvents s' = userEvents s →
    members LS' (EventList (EvUser u)) = members LS (EventList (EvUser u)) ++ [PendList r] →
    now s ≤ now s' < now s + 2 ^ 33 → g_idleTaskID s' = g_idleTaskID s →
    event_read s LS r rc u id mask mode timeout Switched s'.

(** Whether a write of [events] that makes the flags [id] wakes the task of a list node. *)
Definition node_wakes (T : tasks) (id events : Z) (x : lnode) : bool :=
  match x with
  | PendList t => match T !! t with Some c => event_wakes c id events | None => false end
  | _ => false
  end.

Definition still_waiting (T : tasks) (id events : Z) (xs : list lnode) : list lnode :=
  filter (fun x => node_wakes T id events x = false) xs.

Definition other_waits (hd : lnode) (LS LS' : lists) : Prop :=
  ∀ hd', is_wait hd' = true → hd' ≠ hd → LS' !! hd' = LS !! hd'.

(** What [LOS_EventWrite] on the event [u] with the flags [id] does when [r] runs. *)
Inductive event_written `{Config} (s : kstate) (LS : lists) (r : Z) (rc : LosTaskCB)
    (u id events : Z) : Z → kstate → Prop :=
| event_write_refused s' :
    flag events LOS_ERRTYPE_ERROR = true → SInv s' LS r rc → skeep s s' → quiet s s' →
    event_written s LS r rc u id events LOS_ERRNO_EVENT_SETBIT_INVALID s'
| event_write_done s' LS' n nc :
    flag events LOS_ERRTYPE_ERROR = false → SInv s' LS' n nc →
    preempting s' ∨ n = r ∧ quiet s s' →
    userEvents s' = <[u := Z.lor id events]> (userEvents s) →
    members LS' (EventList (EvUser u)) =
      still_waiting (g_taskCBArray s) (Z.lor id events) events
        (members LS (EventList (EvUser u))) →
    other_waits (EventList (EvUser u)) LS LS' →
    now s ≤ now s' < now s + 2 ^ 32 → g_idleTaskID s' = g_idleTaskID s →
    event_written s LS r rc u id events LOS_OK s'.

Section event.
  Context `{Config}.

Section state.
  Context (s : kstate) (LS : lists) (r : Z) (rc : LosTaskCB) (HS : SInv s LS r rc).
  Context (u id : Z) (Eu : userEvents s !! u = Some id).

Lemma event_list : ∃ xs, LS !! EventList (EvUser u) = Some xs.
Proof. apply (i_event (b_ipc (proj1 HS)) u id Eu). Qed.

Lemma wp_get_event (Q : Z → kstate → Prop) : Q id s → wp (get_event (EvUser u)) Q s.
Proof. intros HQ. unfold get_event. wp_steps. by rewrite Eu. Qed.

Lemma wp_event_initialized (Q : bool → kstate → Prop) :
  Q false s → wp (event_uninitialized (EvUser u)) Q s.
Proof.
  intros HQ. unfold event_uninitialized. apply wp_gets. destruct event_list as [xs E].
  pose proof (k_wf (b_kernel (proj1 HS))) as HW.
  pose proof (WF_first _ _ _ _ HW E) as E1. pose proof (WF_last _ _ _ _ HW E) as E2.
  unfold LOS_DL_LIST_FIRST in E1. by rewrite E1, E2.
Qed.

(** The flags change. *)
Lemma wp_set_event v (Q : unit → kstate → Prop) :
  (∀ s1, SInv s1 LS r rc → userEvents s1 = <[u := v]> (userEvents s) → quiet s s1 → Q tt s1) →
  wp (set_event (EvUser u) v) Q s.
Proof.
  intros HQ. unfold set_event. wp_steps. set (s' := s <| userEvents := _ |>).
  apply HQ; [|reflexivity|by split_and!]. destruct event_list as [xs E].
  destruct HS as [HB Hub]. split; [|done].
  pose proof HB as [B1 B2 [I1 I2 I3 I4 I5] B4 B5 B6 B7 B8].
  assert (ksame s s') as Hs by (by split_and!).
  eapply (BInv_intro s); [exact HB|by eapply KInv_same|by eapply Running_same| |apply tstep_refl|done..].
  constructor; try done. change (map_Forall (event_ok LS) (<[u := v]> (userEvents s))).
  intros j vj [[<- <-]|[? Ej]]%lookup_insert_Some; [by exists xs|by apply (I5 j vj)].
Qed.
End state.

(** ** Polling *)

Lemma wp_LOS_EventPoll s LS r rc u id mask mode (Q : Z → kstate → Prop) :
  SInv s LS r rc → userEvents s !! u = Some id →
  (∀ s1, SInv s1 LS r rc →
     userEvents s1 = <[u := event_after id mask mode]> (userEvents s) → quiet s s1 →
     Q (event_match id mask mode) s1) →
  wp (LOS_EventPoll (Some (EvUser u)) mask mode) Q s.
Proof.
  intros HS Eu HQ. unfold LOS_EventPoll, event_after in *. wp_step.
  eapply wp_IntLock; [exact HS|]. intros s0 HS0 Hk0 ET0. pose proof (skeep_quiet _ _ Hk0 ET0) as Hq0.
  destruct Hk0 as [(_ & _ & Ev0 & _) _].
  rewrite <- Ev0 in Eu. wp_step. eapply wp_get_event; [exact Eu|]. wp_step. unfold when.
  destruct (_ && _).
  - eapply wp_set_event; [exact HS0|exact Eu|]. intros s1 HS1 Ev1 Hq1.
    eapply wp_IntRestore_ret; [exact HS1|]. intros s2 HS2 Hk2 ET2.
    apply HQ; [done| |eauto using quiet_trans, skeep_quiet].
    destruct Hk2 as [(_ & _ & Ev2 & _) _]. by rewrite Ev2, Ev1, Ev0.
  - wp_step. eapply wp_IntRestore_ret; [exact HS0|]. intros s2 HS2 Hk2 ET2.
    apply HQ; [done| |eauto using quiet_trans, skeep_quiet].
    destruct Hk2 as [(_ & _ & Ev2 & _) _]. rewrite Ev2, <- Ev0. symmetry. by apply insert_id.
Qed.

Lemma event_after_0 id mask mode : event_match id mask mode = 0 → event_after id mask mode = id.
Proof. intros E. unfold event_after. by rewrite E. Qed.

(** The running task notes what it waits for and waits. *)
Lemma wp_event_block s LS r rc u mask mode timeout xs (k : K Z) (Q : outcome Z → kstate → Prop) :
  SInv s LS r rc → r ≠ g_idleTaskID s → now s < TIME_HORIZON → g_losTaskLock s = 0 →
  0 ≤ timeout < 2 ^ 32 → LS !! EventList (EvUser u) = Some xs →
  (∀ s' LS' n nc, SInv s' LS' n nc → preempting s' → n ≠ r → rest_same s s' →
     members LS' (EventList (EvUser u)) = xs ++ [PendList r] →
     now s ≤ now s' < now s + 2 ^ 32 → Q Switched s') →
  wp (mod_tcb r (fun c => c <| eventMask := mask |>);;
      (mod_tcb r (fun c => c <| eventMode := mode |>);;
      (OsSchedTaskWait (EventList (EvUser u)) timeout;;
      (LOS_IntRestore 0;; schedule_then k)))) Q s.
Proof.
  intros HS Hi Hh Hlk Ht E HQ. wp_step.
  eapply wp_self; [exact HS|by split_and!|]. intros s1 HS1 Hk1 _. wp_step.
  eapply wp_self; [exact HS1|by split_and!|]. intros s2 HS2 Hk2 _.
  pose proof (skeep_trans _ _ _ Hk1 Hk2) as [Hrest2 Hn2].
  pose proof Hrest2 as (_ & _ & Ev2 & Hid2 & _ & _ & _ & _ & Hlk2 & _).
  eapply wp_block; [exact HS2|congruence|by rewrite Hn2|congruence|exact Ht|done|exact E|done|].
  intros s' LS' n nc HS' Hpe Hnr Hrest Hfr _ Hnow. rewrite Hn2 in Hnow.
  eapply HQ; [exact HS'|done|done|by eapply rest_same_trans| |done].
  unfold members. rewrite Hfr by done. by rewrite lookup_insert_eq.
Qed.

Lemma wp_LOS_EventRead s LS r rc u id mask mode timeout :
  SInv s LS r rc → r ≠ g_idleTaskID s → now s < TIME_HORIZON → userEvents s !! u = Some id →
  0 ≤ timeout < 2 ^ 32 →
  wp (LOS_EventRead (Some (EvUser u)) mask mode timeout)
     (event_read s LS r rc u id mask mode timeout) s.
Proof.
  intros HS Hi Hh Eu Ht. pose proof (b_run (proj1 HS)) as (Hr & HR & _).
  pose proof (r_tcb _ _ _ _ HR) as Er. destruct (event_list _ _ _ _ HS u id Eu) as [xs E].
  assert (∀ e, e ≠ LOS_OK → e = read_param_error mask mode ∨ 0 < g_intCount s ∨
    st rc OS_TASK_FLAG_SYSTEM_TASK = true →
    event_read s LS r rc u id mask mode timeout (Done e) s) as Herr
    by (intros e He Hor; apply event_read_refused; (apply quiet_refl || tauto)).
  unfold LOS_EventRead, OsEventReadParamCheck. do 2 wp_step.
  eapply wp_event_initialized; [exact HS|exact Eu|]. wp_step. cbn [orb].
  fold (read_param_error mask mode).
  destruct (Z.eqb_spec (read_param_error mask mode) LOS_OK) as [Hpar|]; [|wp_steps; apply Herr; [done|by left]].
  cbn [negb]. unfold ArchIsIntActive, status_flag. wp_steps.
  destruct (Z.ltb_spec 0 (g_intCount s)); wp_steps; [apply Herr; [done|tauto]|].
  destruct (st rc OS_TASK_FLAG_SYSTEM_TASK) eqn:Esys; [wp_steps; apply Herr; [done|tauto]|].
  wp_step. eapply wp_IntLock; [exact HS|]. intros s0 HS0 Hk0 ET0.
  pose proof (skeep_quiet _ _ Hk0 ET0) as Hq0. destruct Hk0 as [(_ & _ & Ev0 & _) _].
  rewrite <- Ev0 in Eu. wp_step. eapply wp_LOS_EventPoll; [exact HS0|exact Eu|].
  intros s1 HS1 Ev1 Hq. rewrite Ev0 in Ev1. pose proof (quiet_trans _ _ _ Hq0 Hq) as Hq1.
  assert (∀ a, (∀ s2, SInv s2 LS r rc → userEvents s2 = userEvents s1 → quiet s s2 →
      event_read s LS r rc u id mask mode timeout (Done a) s2) →
    wp (LOS_IntRestore 0;; mret (Done a)) (event_read s LS r rc u id mask mode timeout) s1) as Hret.
  { intros a Ha. eapply wp_IntRestore_ret; [exact HS1|]. intros s2 HS2 Hk2 ET2.
    apply Ha; [done| |eauto using quiet_trans, skeep_quiet]. by destruct Hk2 as [(_ & _ & Ev2 & _) _]. }
  destruct (Z.eqb_spec (event_match id mask mode) 0) as [Hz|Hnz].
  2: { apply Hret. intros. apply event_read_polled; [done|by left|done|congruence|done]. }
  destruct (Z.eqb_spec timeout 0) as [->|Htz].
  { apply Hret. intros. apply event_read_polled; [done|by right|done|congruence|done]. }
  rewrite event_after_0, insert_id in Ev1 by (done || by rewrite <- Ev0). wp_step.
  pose proof Hq1 as (Hn1 & Hid1 & Hlk1 & _).
  wp_step. destruct (Z.eqb_spec (g_losTaskLock s1) 0) as [Hlk|Hlk]; cbn [negb].
  2: { apply Hret. intros. apply event_read_refused; [done| |done|congruence|done].
       right; right; right. split_and!; [done..|congruence]. }
  pose proof (b_run (proj1 HS1)) as (Hr1 & _). do 2 wp_step.
  eapply wp_event_block; [exact HS1|congruence|congruence|exact Hlk|exact Ht|exact E|].
  intros s' LS' n nc HS' Hpe Hnr (_ & _ & Ev' & Hid' & _) Hm Hnow. rewrite Hn1 in Hnow.
  eapply event_read_waiting; [done..|exact HS'|done|done|congruence| |lia|congruence].
  by rewrite Hm, (members_Some _ _ _ E).
Qed.

(** ** Writing *)

Section loop.
  Context (u id events r : Z) (rc : LosTaskCB) (T : tasks).

Lemma wp_list_next s LS hd l1 x l2 (Q : lnode → kstate → Prop) :
  WF (dlheap s) LS → LS !! hd = Some (l1 ++ x :: l2) → Q (List.hd hd l2) s →
  wp (list_first x) Q s.
Proof.
  intros HW E HQ. unfold list_first, LOS_DL_LIST_FIRST. wp_steps. rewrite (WF_next _ _ _ _ _ _ HW E).
  by wp_step.
Qed.

(** The loop over the waiting tasks: [kept] are those it has passed and left waiting. *)
Lemma wp_event_loop rest : ∀ fuel s LS kept flag (Q : bool → kstate → Prop),
  SInv s LS r rc → userEvents s !! u = Some id →
  LS !! EventList (EvUser u) = Some (kept ++ rest) → (length rest ≤ fuel)%nat →
  (∀ t, PendList t ∈ rest → g_taskCBArray s !! t = T !! t) →
  (∀ b s' LS', SInv s' LS' r rc → skeep s s' → (b = false → flag = false ∧ quiet s s') → other_waits (EventList (EvUser u)) LS LS' →
     LS' !! EventList (EvUser u) = Some (kept ++ still_waiting T id events rest) → Q b s') →
  wp (LOS_EventWrite_loop fuel (EvUser u) (List.hd (EventList (EvUser u)) rest) events flag) Q s.
Proof.
  induction rest as [|x rest IH]; intros fuel s LS kept fl Q HS Eu E Hf HT HQ.
  { destruct fuel; simpl; rewrite decide_True by done; wp_steps;
      by eapply HQ; [exact HS|apply skeep_refl|split; [|apply quiet_refl]|done|]. }
  pose proof (b_kernel (proj1 HS)) as HK. pose proof (k_wf HK) as HW.
  destruct (wait_member _ _ _ _ (EventList (EvUser u)) x (k_queues HK)) as (t & c & -> & Et & Hl & Hp);
    [rewrite (members_Some _ _ _ E); set_solver|done|].
  destruct fuel as [|fuel]; [simpl in Hf; lia|]. cbn [List.hd LOS_EventWrite_loop].
  rewrite decide_False by done. do 3 wp_step. eapply wp_list_next; [exact HW|exact E|].
  do 2 wp_step. wp_step. eapply wp_get_event; [exact Eu|].
  assert (node_wakes T id events (PendList t) = event_wakes c id events) as Ew
    by (simpl; by rewrite <- HT, Et by set_solver).
  unfold still_waiting in *. rewrite filter_cons, Ew in HQ. simpl in Hf.
  destruct (event_wakes c id events); [rewrite decide_False in HQ by done|rewrite decide_True in HQ by done].
  - wp_step. eapply wp_wake; [exact HS|exact Et|exact Hl|exact Hp|].
    intros s1 LS1 HS1 Hk1 Huw ET1.
    destruct (unwaited_at _ _ _ _ _ _ _ HW Huw E) as [E1 Ho1].
    eapply (IH _ s1 LS1 kept); [exact HS1|by destruct Hk1 as [(_ & _ & -> & _) _]|exact E1|lia| |].
    { intros t' Ht'. rewrite ET1, lookup_insert_ne; [apply HT; set_solver|]. intros ->.
      pose proof (WF_members_NoDup _ _ (EventList (EvUser u)) HW) as HN.
      rewrite (members_Some _ _ _ E) in HN. apply NoDup_app in HN as (_ & _ & [HN _]%NoDup_cons). done. }
    intros b s' LS' HS' Hk' Hb' Ho' E'. eapply HQ; [exact HS'|by eapply skeep_trans|by intros Hf'; destruct (Hb' Hf')| |exact E'].
    intros hd' Hw' Hne. by rewrite Ho', Ho1.
  - eapply (IH _ s LS (kept ++ [PendList t])); [exact HS|done|by rewrite <- app_assoc|lia|set_solver|].
    intros b s' LS' HS' Hk' Hb' Ho' E'. rewrite <- app_assoc in E'. by eapply HQ.
Qed.
End loop.

(** The end of a call that schedules when it has woken a task. *)
Lemma wp_schedule_if {A} s LS r rc i (b : bool) (a : A) (Q : A → kstate → Prop) :
  SInv s LS r rc → now s < TIME_HORIZON →
  (∀ s' LS' n nc, SInv s' LS' n nc → (if b then preempting s' else n = r ∧ quiet s s') →
     rest_same s s' → q_frame LS LS' → now s ≤ now s' < now s + 2 ^ 32 → Q a s') →
  wp (LOS_IntRestore i;; (when b LOS_Schedule;; mret a)) Q s.
Proof.
  intros HS Hh HQ. wp_step. eapply wp_IntRestore; [exact HS|]. intros s1 HS1 Hk1 ET1.
  pose proof Hk1 as [Hr1 Hn1]. wp_step. unfold when. destruct b.
  - eapply wp_LOS_Schedule_sys; [apply HS1|right; apply HS1|by rewrite Hn1|].
    intros s' LS' n nc HS' Hpe _ Hrest Hfr _ Hnow. wp_step. rewrite Hn1 in Hnow.
    eapply HQ; [exact HS'|exact Hpe|by eapply rest_same_trans|done|done].
  - do 2 wp_step. eapply HQ; [exact HS1|split; [done|by apply skeep_quiet]|exact Hr1|done|lia].
Qed.

Lemma wp_LOS_EventWrite s LS r rc u id events :
  SInv s LS r rc → now s < TIME_HORIZON → userEvents s !! u = Some id →
  wp (LOS_EventWrite (Some (EvUser u)) events) (event_written s LS r rc u id events) s.
Proof.
  intros HS Hh Eu. destruct (event_list _ _ _ _ HS u id Eu) as [xs E]. unfold LOS_EventWrite.
  wp_step. eapply wp_event_initialized; [exact HS|exact Eu|].
  destruct (flag events LOS_ERRTYPE_ERROR) eqn:Efl.
  { wp_step. apply event_write_refused; [done|done|apply skeep_refl|apply quiet_refl]. }
  wp_step. eapply wp_IntLock; [exact HS|]. intros s0 HS0 Hk0 ET0.
  pose proof (skeep_quiet _ _ Hk0 ET0) as Hq0. destruct Hk0 as [(_ & _ & Ev0 & _) _].
  rewrite <- Ev0 in Eu. wp_step. eapply wp_get_event; [exact Eu|]. wp_step.
  eapply wp_set_event; [exact HS0|exact Eu|]. intros s1 HS1 Ev1 Hq.
  pose proof (quiet_trans _ _ _ Hq0 Hq) as Hq1. pose proof Hq1 as (Hn1 & Hid1 & _ & ET1).
  rewrite Ev0 in Ev1. pose proof (k_wf (b_kernel (proj1 HS1))) as HW.
  assert (∀ s2 LS2, SInv s2 LS2 r rc → skeep s1 s2 → other_waits (EventList (EvUser u)) LS LS2 →
    LS2 !! EventList (EvUser u) =
      Some (still_waiting (g_taskCBArray s) (Z.lor id events) events xs) →
    ∀ b, (b = false → quiet s s2) → wp (LOS_IntRestore 0;; (when b LOS_Schedule;; mret LOS_OK))
      (event_written s LS r rc u id events) s2) as Hend.
  { intros s2 LS2 HS2 [(_ & _ & Ev2 & Hid2 & _) Hn2] Ho2 E2 b Hb.
    eapply wp_schedule_if; [exact HS2|by rewrite Hn2, Hn1|].
    intros s' LS' n nc HS' Hsch (_ & _ & Ev' & Hid' & _) Hfr Hnow. rewrite Hn2, Hn1 in Hnow.
    eapply event_write_done; [done|exact HS'| |congruence| | |exact Hnow|congruence].
    - destruct b; [by left|right]. destruct Hsch. split; [done|]. eauto using quiet_trans.
    - unfold members. rewrite Hfr by done. by rewrite E2, E.
    - intros hd' Hw' Hne. rewrite Hfr by (by destruct hd'). by apply Ho2. }
  wp_step. eapply wp_list_empty; [exact HW|exact E|]. destruct xs as [|x xs].
  - rewrite bool_decide_eq_true_2 by done. cbn [negb].
    by apply (Hend s1 LS HS1 (skeep_refl _) (λ _ _ _, eq_refl) E false).
  - rewrite bool_decide_eq_false_2 by done. cbn [negb]. wp_step.
    eapply wp_list_first; [exact HW|exact E|]. do 2 wp_step. wp_step.
    eapply (wp_event_loop u (Z.lor id events) events r rc (g_taskCBArray s) (x :: xs) _ s1 LS []);
      [exact HS1|rewrite Ev1; apply lookup_insert_eq|exact E| |by intros; rewrite ET1|].
    + pose proof (WF_size _ _ _ _ HW E). simpl in *. lia.
    + intros b s2 LS2 HS2 Hk2 Hb2 Ho2 E2. eapply Hend; [done..|].
      intros [_ Hq2]%Hb2. by eapply quiet_trans.
Qed.

Lemma safe_LOS_EventRead s LS r rc u mask mode timeout :
  SInv s LS r rc → r ≠ g_idleTaskID s → now s < TIME_HORIZON → is_Some (userEvents s !! u) →
  0 ≤ timeout < 2 ^ 32 →
  wp (LOS_EventRead (Some (EvUser u)) mask mode timeout) (λ _ s', sys_post s s') s.
Proof.
  intros HS Hi Hh [id Eu] Ht. eapply wp_mono; [by eapply wp_LOS_EventRead|].
  intros o s' Ho. destruct Ho; eauto with sys.
Qed.

Lemma safe_LOS_EventWrite s LS r rc u events :
  SInv s LS r rc → now s < TIME_HORIZON → is_Some (userEvents s !! u) →
  wp (LOS_EventWrite (Some (EvUser u)) events) (λ _ s', sys_post s s') s.
Proof.
  intros HS Hh [id Eu]. eapply wp_mono; [by eapply wp_LOS_EventWrite|].
  intros o s' Ho. destruct Ho as [|s' LS' n nc ? ? [Hpe|[-> Hq]]]; eauto with sys.
  eapply sys_post_sched; [done..|lia|done].
Qed.

(** [LOS_EventClear] keeps the flags of the mask. *)
Lemma wp_LOS_EventClear s LS r rc u id mask :
  SInv s LS r rc → userEvents s !! u = Some id →
  wp (LOS_EventClear (Some (EvUser u)) mask)
     (λ e s', e = LOS_OK ∧ SInv s' LS r rc ∧
        userEvents s' = <[u := Z.land id mask]> (userEvents s) ∧ quiet s s') s.
Proof.
  intros HS Eu. unfold LOS_EventClear. wp_step. eapply wp_IntLock; [exact HS|].
  intros s0 HS0 Hk0 ET0. pose proof (skeep_quiet _ _ Hk0 ET0) as Hq0.
  destruct Hk0 as [(_ & _ & Ev0 & _) _]. rewrite <- Ev0 in Eu.
  wp_step. eapply wp_get_event; [exact Eu|]. wp_step.
  eapply wp_set_event; [exact HS0|exact Eu|]. intros s1 HS1 Ev1 Hq1.
  eapply wp_IntRestore_ret; [exact HS1|]. intros s2 HS2 Hk2 ET2.
  split; [done|]. split; [done|]. split; [|eauto using quiet_trans, skeep_quiet].
  destruct Hk2 as [(_ & _ & Ev2 & _) _]. congruence.
Qed.

(** The part of [LOS_EventRead] that runs when the task is chosen again. *)
Lemma safe_LOS_EventRead_resume s LS r rc u mask mode :
  SInv s LS r rc → is_Some (userEvents s !! u) →
  wp (r ← get_runTask; LOS_EventRead_resume r (EvUser u) mask mode) (λ _ s', sys_post s s') s.
Proof.
  intros HS [id Eu]. pose proof (b_run (proj1 HS)) as (Hr & _).
  wp_steps. eapply wp_resume; [exact HS|..].
  - done.
  - intros s1 HS1 [(_ & _ & Ev1 & _) _] Hq1 _. rewrite <- Ev1 in Eu. wp_step.
    eapply wp_LOS_EventPoll; [exact HS1|exact Eu|]. intros s2 HS2 _ Hq2.
    eapply wp_IntRestore_ret; [exact HS2|]. intros s3 HS3 Hk3 ET3.
    eapply sys_post_quiet; [exact HS|exact HS3|eauto using quiet_trans, skeep_quiet].
Qed.
End event.
