(* ===== verification/SysTick.v ===== *)
(** The tick interrupt: the handler of los_tick.c and los_sched.c keeps the invariant of the
    system, and leaves no task asleep whose time has come. *)

From S2P Require Import Prelude DList Kernel Tick SortLink Mem Pmcu Sched SchedInv SchedOps SchedDelay.
From S2P Require Import SchedSwitch SchedTop SchedTrans SchedTick SchedState Event Sem Mux Task SysInv.

Section tick.
  Context `{Config}.

(** The time base moves on. *)
Lemma SInv_base s LS r rc b u :
  SInv s LS r rc → g_tickTimerBase s ≤ b →
  SInv (s <| g_tickTimerBase := b |> <| g_tickTimerBaseUpdate := u |>) LS r rc.
Proof.
  intros [HB Hub] Hb. split; [|done]. pose proof HB as [B1 B2 B3 B4 B5 B6 B7 B8].
  set (s1 := _ <| g_tickTimerBaseUpdate := u |>).
  assert (ClockOk s1) as Hc.
  { destruct (k_time B1) as (? & ? & ?). unfold ClockOk, now in *.
    change (g_tickTimerBase s1) with b. change (g_oldTickTimerBase s1) with (g_oldTickTimerBase s).
    change (g_SysTickLoad s1) with (g_SysTickLoad s). lia. }
  eapply (BInv_intro s); [exact HB| | | |apply tstep_refl|done..].
  - rewrite <- (sched_upd_id s1). eapply (KInv_upd s); [exact B1|done|done|apply B1|apply B1|exact Hc|eauto].
  - destruct B2 as (Hr & HR & Hm). split; [exact Hr|]. split; [by apply (RunInv_ext s)|exact Hm].
  - by destruct B3.
Qed.

Lemma wp_OsUpdateSysTimeBase s LS r rc (Q : unit → kstate → Prop) :
  SInv s LS r rc → now s + 2 ^ 32 < TIME_HORIZON →
  (∀ s1, SInv s1 LS r rc → rest_same s s1 → now s ≤ now s1 < now s + 2 ^ 32 →
     g_taskCBArray s1 = g_taskCBArray s → g_schedResponseID s1 = g_schedResponseID s → Q tt s1) →
  wp OsUpdateSysTimeBase Q s.
Proof.
  intros HS Hh HQ. unfold OsUpdateSysTimeBase, SysTickCycleGet.
  destruct (k_time (b_kernel (proj1 HS))) as (Hb & Ho & Hl). do 2 wp_step. wp_step. unfold when.
  unfold now, u32 in *.
  pose proof (Z.mod_pos_bound (g_SysTickLoad s - 1) (2 ^ 32) ltac:(lia)) as Hm.
  destruct (g_tickTimerBaseUpdate s); simpl; wp_steps.
  - replace (s <| g_tickTimerBaseUpdate := false |>)
      with (s <| g_tickTimerBase := g_tickTimerBase s |> <| g_tickTimerBaseUpdate := false |>)
      by (by destruct s).
    apply HQ; [by apply SInv_base|by split_and!| |done..]. unfold now, u32. rsimpl. lia.
  - assert (u64 (g_tickTimerBase s + g_SysTickLoad s) = g_tickTimerBase s + g_SysTickLoad s) as E.
    { unfold u64, TIME_HORIZON in *. apply Z.mod_small. lia. }
    rewrite E. apply HQ; [apply SInv_base; [done|lia]|by split_and!| |done..].
    unfold now, u32. rsimpl. lia.
Qed.

(** The timer is set to another time. *)
Lemma BInv_clock s s1 T h b LS r rc :
  tframe s s1 → (clock_moved s s1 ∨ s1 = s) →
  BInv (sched_upd s T h b) LS r rc → BInv (sched_upd s1 T h b) LS r rc.
Proof.
  intros Hf [Hc| ->] HB; [|done]. pose proof HB as [B1 (Hr & HR & Hm) B3 B4 B5 B6 B7 B8].
  pose proof Hc as (Hc1 & Hc2 & Hc3 & Hc4 & Hc5).
  assert (kframe (sched_upd s T h b) s1) as Hk
    by (destruct Hf as (? & ? & ? & ? & ? & ? & ->); by split_and!).
  eapply (BInv_intro (sched_upd s T h b)); [exact HB| | | |apply tstep_refl|
    by destruct Hf as (i & o & bs & ld & rt & rid & ->)..].
  - eapply (KInv_upd (sched_upd s T h b)); [exact B1|exact Hk|done|apply B1|apply B1|done|eauto].
  - destruct (k_time B1) as (_ & Ho & _). destruct HR as [R1 R2 R3 R4 R5 R6 R7 R8 R9].
    destruct Hf as (i & o & bs & ld & rt & rid & ->). split; [exact Hr|]. split; [|exact Hm].
    constructor; try done. change (0 ≤ startTime rc ≤ o). change (o = now s) in Hc3.
    change (0 ≤ startTime rc ≤ g_oldTickTimerBase s) in R6.
    change (0 ≤ g_oldTickTimerBase s ≤ now s) in Ho. lia.
  - destruct Hf as (i & o & bs & ld & rt & rid & ->). by destruct B3.
Qed.

(** What the tick handler does: at a time [cur] it wakes every task whose time has come, then
    it lets the most urgent task run, unless the scheduler is locked. *)
Definition ticked (s : kstate) (r : Z) (s' : kstate) : Prop :=
  ∃ LS' n nc cur, SInv s' LS' n nc ∧ now s ≤ cur ≤ now s' ∧ now s' < now s + 2 ^ 33 ∧
    (g_losTaskLock s ≠ 0 → n = r) ∧ preempting s' ∧ rest_same s s' ∧
    (g_schedResponseID s = OS_INVALID → no_sleeper cur (g_taskCBArray s')).

Lemma tick_tasks_tstep s r rc :
  g_taskCBArray s !! r = Some rc → unblocked rc →
  (live rc → sortList_responseTime rc = OS_SORT_LINK_INVALID_TIME) →
  tick_tasks s !! r = Some rc ∧
  tstep (g_taskCBArray s) (<[r := tick_run s rc]> (tick_tasks s)) ∧
  (g_schedResponseID s = OS_INVALID → no_sleeper (now s) (<[r := tick_run s rc]> (tick_tasks s))).
Proof.
  intros Er Hub Hrt. destruct (tick_run_fields s rc) as (E1 & _ & _ & _ & E5 & E6 & _).
  assert (tick_tasks s !! r = Some rc) as Er'.
  { unfold tick_tasks. destruct (_ =? _); [|done].
    rewrite scan_tasks_lookup, Er. simpl. by rewrite scan_not_expired. }
  split; [done|]. split.
  - eapply tstep_trans; [|apply (tstep_insert _ _ rc); by rewrite ?E1].
    unfold tick_tasks. destruct (_ =? _); [apply scan_tstep|apply tstep_refl].
  - intros E. apply (no_sleeper_insert _ _ _ rc); [|done|by rewrite E1|done].
    unfold tick_tasks. rewrite E, Z.eqb_refl. apply scan_no_sleeper.
Qed.

Lemma wp_LOS_SchedTickHandler_sys s LS r rc swtmrScan :
  SInv s LS r rc → now s < TIME_HORIZON →
  wp (LOS_SchedTickHandler swtmrScan)
    (fun _ s' => ∃ LS' n nc, SInv s' LS' n nc ∧ now s ≤ now s' < now s + 2 ^ 32 ∧
       (g_losTaskLock s ≠ 0 → n = r) ∧ preempting s' ∧ rest_same s s' ∧
       (g_schedResponseID s = OS_INVALID → no_sleeper (now s) (g_taskCBArray s'))) s.
Proof.
  intros [HB Hub] Hh. pose proof HB as [B1 B2 B3 B4 B5 B6 [B7 B7'] B8].
  pose proof B2 as (Hr & HR & Hm). pose proof (r_tcb _ _ _ _ HR) as Er.
  destruct (tick_tasks_tstep s r rc Er Hub (r_time _ _ _ _ HR)) as (_ & Hts & Hns).
  eapply wp_LOS_SchedTickHandler; [exact B1|exact B2|exact Hh|exact B4|exact B7|exact B7'|].
  intros s1 LS1 h' b' Hsf Hfr Hws Hn1 s2 HK2 HR2.
  pose proof (sframe_rest _ _ Hsf) as Hrest. assert (rest_same s s2) as Hrest2 by exact Hrest.
  destruct Hrest as (F1 & F2 & F3 & F4 & F5 & F6 & F7 & F8 & F9 & _).
  assert (BInv s2 LS1 r (tick_run s rc)) as HB2.
  { eapply (BInv_intro s); [exact HB|exact HK2|exact HR2| |exact Hts|done..|].
    - eapply (IpcInv_shrink s); [exact B3|done..|exact Hws|exact Hts].
    - change (0 ≤ g_losTaskLock s1 < 2 ^ 16). by rewrite F9. }
  assert (unblocked (tick_run s rc)) as Hub2.
  { destruct (tick_run_fields s rc) as (E1 & _). unfold unblocked. by rewrite E1. }
  assert (now s2 = now s) as Hn2 by exact Hn1.
  assert (∀ s3 i, api_frame s3 (s3 <| interrupt_flag := i |>)) as Hi by auto with api.
  destruct (Z.eqb_spec (g_losTaskLock s) 0) as [E0|Hne].
  - eapply wp_ArchTaskSchedule_sys; [exact HB2|by rewrite Hn2|].
    intros s' LS' n nc HS' Hpe _ Hrest' _ _ Hns' Hnow. rewrite Hn2 in Hnow.
    destruct (SInv_api _ _ _ _ HS' _ (Hi s' 1)) as [HS3 [Hr3 Hn3]].
    exists LS', n, nc. split; [exact HS3|]. split; [by rewrite Hn3|]. split; [done|].
    split; [by apply (preempting_same s')|].
    split; [|intros E; apply Hns'; [done|by apply Hns]].
    eapply rest_same_trans; [exact Hrest2|by eapply rest_same_trans].
  - eapply (wpu_OsSchedUpdateExpireTime s1); [apply HK2|exact (k_queues HK2)|exact (k_swtmr HK2)| |
      exact (k_tick HK2)|exact (proj1 HR2)|apply lookup_insert_eq|].
    { apply (KInv_TimeOk _ _ HK2). by rewrite Hn2. }
    intros s3 Hf Hc. assert (SInv (sched_upd s3 (<[r:=tick_run s rc]> (tick_tasks s)) h' b') LS1 r
      (tick_run s rc)) as HS3 by (split; [by apply (BInv_clock s1)|done]).
    destruct (SInv_api _ _ _ _ HS3 _ (Hi _ 1)) as [HS4 [Hr4 Hn4]].
    match goal with |- ∃ _ _ _, SInv ?s5 _ _ _ ∧ _ => set (s' := s5) in * end.
    assert (rest_same s s') as Hrest'.
    { eapply rest_same_trans; [exact Hrest2|]. eapply rest_same_trans; [|exact Hr4].
      destruct Hf as (? & ? & ? & ? & ? & ? & ->). by split_and!. }
    exists LS1, r, (tick_run s rc). split; [exact HS4|].
    split; [|split; [done|split; [|split; [exact Hrest'|exact Hns]]]].
    + rewrite Hn4. change (now (sched_upd s3 _ _ _)) with (now s3). rewrite <- Hn1.
      destruct Hc as [(_ & _ & _ & Hc & _)| ->]; lia.
    + destruct Hrest' as (_ & _ & _ & _ & _ & _ & _ & _ & Hlk' & _). intros ? ? _ _ Hz. congruence.
Qed.

Lemma wp_OsTickHandler s LS r rc swtmrScan :
  SInv s LS r rc → now s + 2 ^ 32 < TIME_HORIZON →
  wp (OsTickHandler swtmrScan) (fun _ s' => ticked s r s') s.
Proof.
  intros HS Hh. unfold OsTickHandler. wp_step.
  eapply wp_OsUpdateSysTimeBase; [exact HS|exact Hh|]. intros s1 HS1 Hr1 Hn1 ET1 Eid1.
  eapply wp_mono; [eapply wp_LOS_SchedTickHandler_sys; [exact HS1|lia]|].
  intros [] s' (LS' & n & nc & HS' & Hn & Hlk & Hpe & Hrest & Hns).
  pose proof Hr1 as (_ & _ & _ & _ & _ & _ & _ & _ & Hlk1 & _). rewrite Hlk1 in Hlk.
  rewrite Eid1 in Hns. exists LS', n, nc, (now s1).
  split; [done|]. split; [lia|]. split; [lia|]. split; [done|]. split; [done|].
  split; [by eapply rest_same_trans|done].
Qed.
End tick.
