(* ===== verification/System.v ===== *)
(** The running system: the calls the tasks make and the tick interrupt, in any order, as a
    step relation; every state it reaches satisfies the invariant, and no call ever fails. *)

From S2P Require Import Prelude DList Kernel Tick SortLink Mem Pmcu Sched SchedInv SchedOps SchedDelay.
From S2P Require Import SchedSwitch SchedTop SchedTrans SchedTick SchedState Event Sem Mux Task SysInv.
From S2P Require Import SysTask SysSem SysMux SysEvent SysTick.

(** What can happen next.  The [..Resume] events are the second halves of the blocking calls:
    the code behind their [LOS_Schedule()], which runs when the task is chosen again. *)
Inductive action : Type :=
| Tick
| TaskYield
| TaskDelay (tick : Z)
| TaskLock
| TaskUnlock
| TaskSuspend (taskID : Z)
| TaskResume (taskID : Z)
| TaskPriSet (taskID taskPrio : Z)
| SemPend (semHandle timeout : Z)
| SemPendResume
| SemPost (semHandle : Z)
| MuxPend (muxHandle timeout : Z)
| MuxPendResume
| MuxPost (muxHandle : Z)
| EventRead (event eventMask mode timeout : Z)
| EventReadResume (event eventMask mode : Z)
| EventPoll (event eventMask mode : Z)
| EventWrite (event events : Z)
| EventClear (event eventMask : Z).

Definition uint32 (v : Z) : Prop := 0 ≤ v < 2 ^ 32.
Definition uint16 (v : Z) : Prop := 0 ≤ v < 2 ^ 16.

(** The arguments are values of their C types, and events are initialised ones. *)
Definition action_ok (s : kstate) (a : action) : Prop :=
  match a with
  | Tick | TaskYield | TaskLock | TaskUnlock | SemPendResume | MuxPendResume => True
  | TaskDelay tick => uint32 tick
  | TaskSuspend t | TaskResume t => uint32 t
  | TaskPriSet t p => uint32 t ∧ uint16 p
  | SemPend i timeout | MuxPend i timeout => uint32 i ∧ uint32 timeout
  | SemPost i | MuxPost i => uint32 i
  | EventRead u mask mode timeout =>
      is_Some (userEvents s !! u) ∧ uint32 mask ∧ uint32 mode ∧ uint32 timeout
  | EventReadResume u mask mode | EventPoll u mask mode =>
      is_Some (userEvents s !! u) ∧ uint32 mask ∧ uint32 mode
  | EventWrite u v | EventClear u v => is_Some (userEvents s !! u) ∧ uint32 v
  end.
#[export] Instance action_ok_dec s a : Decision (action_ok s a).
Proof. destruct a; unfold action_ok, uint32, uint16; apply _. Defined.

Definition discard {A} (m : K A) : K unit := m;; mret tt.

Section system.
  Context `{Config} (swtmrScan : K bool).

Definition perform (a : action) : K unit :=
  match a with
  | Tick => OsTickHandler swtmrScan
  | TaskYield => discard LOS_TaskYield
  | TaskDelay tick => discard (LOS_TaskDelay tick)
  | TaskLock => LOS_TaskLock
  | TaskUnlock => LOS_TaskUnlock
  | TaskSuspend t => discard (LOS_TaskSuspend t)
  | TaskResume t => discard (LOS_TaskResume t)
  | TaskPriSet t p => discard (LOS_TaskPriSet t p)
  | SemPend i timeout => discard (LOS_SemPend i timeout)
  | SemPendResume => discard (r ← get_runTask; LOS_SemPend_resume r)
  | SemPost i => discard (LOS_SemPost i)
  | MuxPend i timeout => discard (LOS_MuxPend i timeout)
  | MuxPendResume => discard (r ← get_runTask; LOS_MuxPend_resume r)
  | MuxPost i => discard (LOS_MuxPost i)
  | EventRead u mask mode timeout => discard (LOS_EventRead (Some (EvUser u)) mask mode timeout)
  | EventReadResume u mask mode =>
      discard (r ← get_runTask; LOS_EventRead_resume r (EvUser u) mask mode)
  | EventPoll u mask mode => discard (LOS_EventPoll (Some (EvUser u)) mask mode)
  | EventWrite u v => discard (LOS_EventWrite (Some (EvUser u)) v)
  | EventClear u v => discard (LOS_EventClear (Some (EvUser u)) v)
  end.

(** The tick comes at any time; the other actions are those of the running task, and the idle
    task takes none. *)
Definition enabled (s : kstate) (a : action) : Prop :=
  action_ok s a ∧ (a = Tick ∨ runTask s ≠ Some (g_idleTaskID s)).

Inductive sys_step : kstate → kstate → Prop :=
| sys_step_action a s s' : enabled s a → perform a s = Ok tt s' → sys_step s s'.

(** ** Every action succeeds and keeps the invariant *)

(** The clock may move by this much in one action. *)
Definition ACTION_TIME : Z := 2 ^ 33.

Lemma wp_discard {A} (m : K A) (P : kstate → Prop) s :
  wp m (fun _ s' => P s') s → wp (discard m) (fun _ s' => P s') s.
Proof. intros Hm. unfold discard. wp_step. eapply wp_mono; [exact Hm|]. intros a s' HP. by wp_step. Qed.

Lemma ticked_post s r s' : ticked s r s' → sys_post s s'.
Proof.
  intros (LS' & n & nc & cur & HS' & Hn & Hn' & _ & Hpe & (_ & _ & _ & Hid & _) & _).
  eapply sys_post_sched; [done..|lia|done].
Qed.

(** The actions after which the most urgent task runs if it did before: all but the call of
    [LOS_MuxPost] that gives up an inherited priority, and the call of [LOS_TaskLock] that makes
    the 16-bit count of locks wrap around. *)
Definition keeps_preemption (s : kstate) (a : action) : Prop :=
  match a with
  | MuxPost i => ¬ lowers_owner s i
  | TaskLock => lock_room s
  | _ => True
  end.

Context (Hpm : LOSCFG_KERNEL_PM = false).

(** What an action does. *)
Definition performed (s : kstate) (a : action) (s' : kstate) : Prop :=
  sys_ok s s' ∧ (keeps_preemption s a → preempting s → preempting s').

Lemma post_performed s a s' : sys_post s s' → performed s a s'.
Proof. by intros []. Qed.

Lemma perform_safe s LS r rc a :
  SInv s LS r rc → enabled s a → now s + ACTION_TIME < TIME_HORIZON →
  wp (perform a) (fun _ s' => performed s a s') s.
Proof.
  intros HS [Hok Hrun] Hh. unfold ACTION_TIME in Hh.
  pose proof (b_run (proj1 HS)) as (Hr & _). rewrite Hr in Hrun.
  assert (∀ {A} (m : K A), wp m (fun _ s' => sys_post s s') s →
    wp m (fun _ s' => performed s a s') s) as Hpost.
  { intros A m Hm. eapply wp_mono; [exact Hm|]. intros ? ?. apply post_performed. }
  destruct Hrun as [->|Hi].
  { eapply wp_mono; [eapply wp_OsTickHandler; [exact HS|lia]|].
    intros [] s' Ht. by eapply post_performed, ticked_post. }
  assert (r ≠ g_idleTaskID s) as Hne by congruence. assert (now s < TIME_HORIZON) as Hlt by lia.
  destruct a; simpl in *; unfold uint32, uint16 in *; 
    try lazymatch goal with |- wp (discard _) _ _ => apply wp_discard end;
    try lazymatch goal with
        | |- wp LOS_TaskLock _ _ => idtac
        | |- wp (LOS_MuxPost _) _ _ => idtac
        | |- _ => apply Hpost
        end.
  - eapply wp_mono; [eapply wp_OsTickHandler; [exact HS|lia]|]. intros [] s'. apply ticked_post.
  - by eapply safe_LOS_TaskYield.
  - by eapply safe_LOS_TaskDelay.
  - eapply wp_mono; [by eapply safe_LOS_TaskLock|]. intros [] s' [Hs Hp]. by split; [|intros ? _; apply Hp].
  - by eapply safe_LOS_TaskUnlock.
  - eapply safe_LOS_TaskSuspend; try done; lia.
  - eapply safe_LOS_TaskResume; try done; lia.
  - eapply safe_LOS_TaskPriSet; try done; lia.
  - eapply safe_LOS_SemPend; try done; lia.
  - by eapply safe_LOS_SemPend_resume.
  - eapply safe_LOS_SemPost; try done; lia.
  - eapply safe_LOS_MuxPend; try done; lia.
  - by eapply safe_LOS_MuxPend_resume.
  - eapply wp_mono; [eapply safe_LOS_MuxPost; try done; lia|].
    intros e s' [Hs Hp]. split; [exact Hs|]. intros Hno. apply (Hp Hno).
  - by eapply safe_LOS_EventRead; try apply Hok.
  - by eapply safe_LOS_EventRead_resume; try apply Hok.
  - destruct Hok as ([id Eu] & _). eapply wp_LOS_EventPoll; [exact HS|exact Eu|].
    intros s1 HS1 _ Hq. by eapply sys_post_quiet.
  - by eapply safe_LOS_EventWrite; try apply Hok.
  - destruct Hok as ([id Eu] & _). eapply wp_mono; [by eapply wp_LOS_EventClear|].
    intros e s' (_ & HS' & _ & Hq). by eapply sys_post_quiet.
Qed.

(** ** Reachable states *)

Lemma perform_Ok s LS r rc a :
  SInv s LS r rc → enabled s a → now s + ACTION_TIME < TIME_HORIZON →
  ∃ s', perform a s = Ok tt s' ∧ performed s a s'.
Proof.
  intros HS He Hh. pose proof (perform_safe s LS r rc a HS He Hh) as Hw. unfold wp in Hw.
  destruct (perform a s) as [[] s'|] eqn:E; [eauto|done].
Qed.

Lemma steps_post (n : nat) s s' LS r rc :
  SInv s LS r rc → now s + Z.of_nat n * ACTION_TIME < TIME_HORIZON →
  nsteps sys_step n s s' →
  ∃ LS' r' rc', SInv s' LS' r' rc' ∧ now s ≤ now s' ≤ now s + Z.of_nat n * ACTION_TIME.
Proof.
  intros HS Hh Hs. revert LS r rc HS Hh.
  induction Hs as [s|n s s1 s2 Hst _ IH]; intros LS r rc HS Hh.
  - exists LS, r, rc. split; [done|lia].
  - destruct Hst as [a s s1 He Ha].
    destruct (perform_Ok s LS r rc a HS He) as (s1' & Ha' & (LS1 & r1 & rc1 & HS1 & Hn1 & _) & _).
    { unfold ACTION_TIME in *. lia. }
    rewrite Ha in Ha'. injection Ha' as <-.
    destruct (IH LS1 r1 rc1 HS1) as (LS2 & r2 & rc2 & HS2 & Hn2).
    { unfold ACTION_TIME in *. lia. }
    exists LS2, r2, rc2. split; [done|]. unfold ACTION_TIME in *. lia.
Qed.

(** Steps that do not give up an inherited priority. *)
Inductive urgent_step : kstate → kstate → Prop :=
| urgent_step_action a s s' :
    enabled s a → keeps_preemption s a → perform a s = Ok tt s' → urgent_step s s'.

Lemma urgent_steps_post (n : nat) s s' LS r rc :
  SInv s LS r rc → preempting s → now s + Z.of_nat n * ACTION_TIME < TIME_HORIZON →
  nsteps urgent_step n s s' → preempting s'.
Proof.
  intros HS Hp Hh Hs. revert LS r rc HS Hp Hh.
  induction Hs as [s|n s s1 s2 Hst _ IH]; intros LS r rc HS Hp Hh; [done|].
  destruct Hst as [a s s1 He Hk Ha].
  destruct (perform_Ok s LS r rc a HS He) as (s1' & Ha' & (LS1 & r1 & rc1 & HS1 & Hn1 & _) & Hpe).
  { unfold ACTION_TIME in *. lia. }
  rewrite Ha in Ha'. injection Ha' as <-.
  apply (IH LS1 r1 rc1 HS1 (Hpe Hk Hp)). unfold ACTION_TIME in *. lia.
Qed.
End system.
