(* ===== verification/Bytes.v ===== *)
(** The byte memory: what stores and loads do to ranges of bytes, little-endian words, and
    the heap of malloc'd blocks. *)

From S2P Require Import Prelude DList Kernel Mem.

(** ** Little-endian words *)

Definition bytes (bs : list Z) : Prop := Forall (fun b => 0 ≤ b < 256) bs.

Lemma le_split_length n v : length (le_split n v) = n.
Proof. revert v. induction n as [|n IH]; intros v; simpl; [done|]. by rewrite IH. Qed.

Lemma le_split_bytes n v : bytes (le_split n v).
Proof.
  revert v. induction n as [|n IH]; intros v; simpl; constructor; [|apply IH].
  apply Z.mod_pos_bound. lia.
Qed.

Lemma le_combine_split n v : 0 ≤ v < 256 ^ Z.of_nat n → le_combine (le_split n v) = v.
Proof.
  revert v. induction n as [|n IH]; intros v Hv; simpl.
  - change (256 ^ Z.of_nat 0) with 1 in Hv. lia.
  - rewrite Nat2Z.inj_succ, Z.pow_succ_r in Hv by lia. rewrite IH.
    + pose proof (Z.div_mod v 256 ltac:(lia)). lia.
    + split; [apply Z.div_pos; lia|apply Z.div_lt_upper_bound; lia].
Qed.

Lemma le_split_combine bs : bytes bs → le_split (length bs) (le_combine bs) = bs.
Proof.
  induction 1 as [|b bs Hb _ IH]; simpl; [done|].
  rewrite (Z.mul_comm 256), Z.mod_add, Z.mod_small, Z.div_add, Z.div_small by lia. by rewrite Z.add_0_l, IH.
Qed.

Lemma le_combine_bound bs : bytes bs → 0 ≤ le_combine bs < 256 ^ Z.of_nat (length bs).
Proof.
  induction 1 as [|b bs Hb _ IH]; cbn [le_combine length].
  - change (256 ^ Z.of_nat 0) with 1. lia.
  - rewrite Nat2Z.inj_succ, Z.pow_succ_r by lia. lia.
Qed.

(** ** Ranges of bytes *)

Fixpoint write_bytes (a : Z) (bs : list Z) (m : gmap Z Z) : gmap Z Z :=
  match bs with
  | [] => m
  | b :: bs => write_bytes (a + 1) bs (<[a := b]> m)
  end.

(** The [n] bytes from [a] on exist. *)
Definition mapped (m : gmap Z Z) (a : Z) (n : nat) : Prop :=
  ∀ i, a ≤ i < a + Z.of_nat n → is_Some (m !! i).

Lemma write_bytes_other a bs m i :
  i < a ∨ a + Z.of_nat (length bs) ≤ i → write_bytes a bs m !! i = m !! i.
Proof.
  revert a m. induction bs as [|b bs IH]; intros a m Hi; simpl; [done|]. simpl in Hi.
  rewrite IH by lia. by rewrite lookup_insert_ne by lia.
Qed.

Lemma write_bytes_in a bs m k v :
  bs !! k = Some v → write_bytes a bs m !! (a + Z.of_nat k) = Some v.
Proof.
  revert a m k. induction bs as [|b bs IH]; intros a m [|k] E; simplify_eq/=.
  - rewrite write_bytes_other by lia. by rewrite Z.add_0_r, lookup_insert_eq.
  - rewrite <- (IH (a + 1) (<[a := b]> m) k E). f_equal. lia.
Qed.

Lemma write_bytes_mapped a bs m b n : mapped m b n → mapped (write_bytes a bs m) b n.
Proof.
  intros Hm i Hi. revert a m Hm. induction bs as [|v bs IH]; intros a m Hm; simpl; [auto|].
  apply IH. intros j Hj. destruct (decide (a = j)) as [->|]; [rewrite lookup_insert_eq; eauto|].
  rewrite lookup_insert_ne by done. auto.
Qed.

Lemma read_bytes_lookup m a n bs :
  read_bytes m a n = Some bs ↔
  length bs = n ∧ ∀ k, (k < n)%nat → m !! (a + Z.of_nat k) = bs !! k.
Proof.
  revert a bs. induction n as [|n IH]; intros a bs; simpl.
  - split; [intros [= <-]; split; [done|lia]|]. intros [E _]. by destruct bs.
  - split.
    + destruct (m !! a) as [v|] eqn:Ev; [|done]. simpl.
      destruct (read_bytes m (a + 1) n) as [vs|] eqn:Er; [|done]. intros [= <-].
      apply IH in Er as [El Ek]. split; [simpl; congruence|]. intros [|k] Hk; [by rewrite Z.add_0_r|].
      simpl. rewrite <- Ek by lia. f_equal. lia.
    + intros [El Ek]. destruct bs as [|v bs]; [done|]. simplify_eq/=.
      pose proof (Ek 0%nat ltac:(lia)) as E0. rewrite Z.add_0_r in E0. rewrite E0. simpl.
      assert (read_bytes m (a + 1) (length bs) = Some bs) as ->; [|done].
      apply IH. split; [done|]. intros k Hk. change (bs !! k) with ((v :: bs) !! S k).
      rewrite <- (Ek (S k)) by lia. f_equal. lia.
Qed.

Lemma read_write_same m a bs : read_bytes (write_bytes a bs m) a (length bs) = Some bs.
Proof.
  apply read_bytes_lookup. split; [done|]. intros k Hk.
  destruct (lookup_lt_is_Some_2 bs k Hk) as [v Ev]. rewrite Ev. by apply write_bytes_in.
Qed.

Lemma read_bytes_ext m m' a n :
  (∀ i, a ≤ i < a + Z.of_nat n → m' !! i = m !! i) → read_bytes m' a n = read_bytes m a n.
Proof.
  revert a. induction n as [|n IH]; intros a He; simpl; [done|].
  rewrite He by lia. by rewrite IH by (intros; apply He; lia).
Qed.

Lemma read_write_other m a bs b n :
  b + Z.of_nat n ≤ a ∨ a + Z.of_nat (length bs) ≤ b →
  read_bytes (write_bytes a bs m) b n = read_bytes m b n.
Proof. intros Hd. apply read_bytes_ext. intros i Hi. apply write_bytes_other. lia. Qed.

Lemma read_bytes_mapped m a n : mapped m a n ↔ is_Some (read_bytes m a n).
Proof.
  split.
  - revert a. induction n as [|n IH]; intros a Hm; simpl; [eauto|].
    destruct (Hm a) as [v ->]; [lia|]. simpl.
    destruct (IH (a + 1)) as [vs ->]; [intros i Hi; apply Hm; lia|]. simpl. eauto.
  - intros [bs [El Ek]%read_bytes_lookup] i Hi.
    replace i with (a + Z.of_nat (Z.to_nat (i - a))) by lia. rewrite Ek by lia.
    apply lookup_lt_is_Some_2. lia.
Qed.

Lemma read_bytes_firstn m a n k bs :
  read_bytes m a n = Some bs → (k ≤ n)%nat → read_bytes m a k = Some (take k bs).
Proof.
  intros [El Ek]%read_bytes_lookup Hk. apply read_bytes_lookup.
  split; [rewrite length_take; lia|]. intros j Hj. rewrite lookup_take_lt by done. apply Ek. lia.
Qed.

(** ** Loads and stores *)

Lemma wp_store_bytes a bs s (Q : unit → kstate → Prop) :
  mapped (ram s) a (length bs) → Q tt (s <| ram := write_bytes a bs (ram s) |>) →
  wp (store_bytes a bs) Q s.
Proof.
  revert a s. induction bs as [|b bs IH]; intros a s Hm HQ; simpl.
  - wp_step. simpl in HQ. by destruct s.
  - unfold store8, load8. destruct (Hm a) as [v Ev]; [simpl; lia|].
    wp_steps. rewrite Ev. wp_steps. apply IH.
    + intros i Hi. change (is_Some (<[a := b]> (ram s) !! i)).
      destruct (decide (a = i)) as [->|]; [rewrite lookup_insert_eq; eauto|].
      rewrite lookup_insert_ne by done. apply Hm. simpl. lia.
    + simpl in HQ. by destruct s.
Qed.

Lemma wp_store32 a v s (Q : unit → kstate → Prop) :
  mapped (ram s) a 4 → Q tt (s <| ram := write_bytes a (le_split 4 v) (ram s) |>) →
  wp (store32 a v) Q s.
Proof. intros Hm HQ. apply wp_store_bytes; [by rewrite le_split_length|done]. Qed.

Lemma read32_write m a v :
  0 ≤ v < 2 ^ 32 → read32 (write_bytes a (le_split 4 v) m) a = Some v.
Proof.
  intros Hv. unfold read32.
  replace 4%nat with (length (le_split 4 v)) at 2 by apply le_split_length.
  rewrite read_write_same. simpl fmap. f_equal. apply (le_combine_split 4). exact Hv.
Qed.

Lemma read32_other m a bs b :
  b + 4 ≤ a ∨ a + Z.of_nat (length bs) ≤ b → read32 (write_bytes a bs m) b = read32 m b.
Proof. intros Hd. unfold read32. by rewrite read_write_other. Qed.

Lemma read32_mapped m a v : read32 m a = Some v → mapped m a 4.
Proof. unfold read32. intros (bs & E & _)%fmap_Some. apply read_bytes_mapped. eauto. Qed.

(** ** Words *)

Definition w32 (a v : Z) (m : gmap Z Z) : gmap Z Z := write_bytes a (le_split 4 v) m.

Lemma read32_w32 m a v : 0 ≤ v < 2 ^ 32 → read32 (w32 a v m) a = Some v.
Proof. apply read32_write. Qed.

Lemma read32_w32_ne m a v b : b + 4 ≤ a ∨ a + 4 ≤ b → read32 (w32 a v m) b = read32 m b.
Proof. intros Hd. apply read32_other. by rewrite le_split_length. Qed.

Lemma w32_comm m a v b u : b + 4 ≤ a ∨ a + 4 ≤ b → w32 a v (w32 b u m) = w32 b u (w32 a v m).
Proof.
  intros Hd. apply map_eq. intros i. unfold w32.
  destruct (decide (a ≤ i < a + 4)); [|destruct (decide (b ≤ i < b + 4))].
  - rewrite (write_bytes_other b) by (rewrite le_split_length; lia).
    destruct (lookup_lt_is_Some_2 (le_split 4 v) (Z.to_nat (i - a))) as [x Ex];
      [rewrite le_split_length; lia|].
    replace i with (a + Z.of_nat (Z.to_nat (i - a))) by lia. by rewrite !(write_bytes_in a _ _ _ x).
  - rewrite (write_bytes_other a) by (rewrite le_split_length; lia).
    destruct (lookup_lt_is_Some_2 (le_split 4 u) (Z.to_nat (i - b))) as [x Ex];
      [rewrite le_split_length; lia|].
    replace i with (b + Z.of_nat (Z.to_nat (i - b))) by lia. by rewrite !(write_bytes_in b _ _ _ x).
  - by rewrite !write_bytes_other by (rewrite le_split_length; lia).
Qed.

(** ** Copies *)

(** The bytes of a copy's source. *)
Definition cbuf_bytes (m : gmap Z Z) (b : cbuf) (n : Z) : option (list Z) :=
  match b with
  | BufMem a => read_bytes m a (Z.to_nat n)
  | BufLocal bs => if Z.of_nat (length bs) <? n then None else Some (take (Z.to_nat n) bs)
  end.

Lemma wp_load_cbuf b n s bs (Q : list Z → kstate → Prop) :
  cbuf_bytes (ram s) b n = Some bs → Q bs s → wp (load_cbuf b n) Q s.
Proof.
  destruct b as [a|l]; simpl; [apply wp_load_bytes|].
  destruct (_ <? n); [done|]. intros [= <-] HQ. by wp_step.
Qed.

Lemma cbuf_bytes_length m b n bs :
  0 ≤ n → cbuf_bytes m b n = Some bs → length bs = Z.to_nat n.
Proof.
  destruct b as [a|l]; simpl; intros Hn.
  - by intros [El _]%read_bytes_lookup.
  - destruct (Z.ltb_spec (Z.of_nat (length l)) n); [done|]. intros [= <-]. rewrite length_take. lia.
Qed.

(** A copy within the limits of its target. *)
Lemma wp_memcpy_s dest destMax src count bs s (Q : Z → kstate → Prop) :
  0 < dest → 0 ≤ count ≤ destMax → 0 < destMax ≤ SECUREC_MEM_MAX_LEN →
  match src with BufMem a => a ≠ 0 | BufLocal _ => True end →
  SECUREC_MEMORY_IS_OVERLAP dest src count = false →
  cbuf_bytes (ram s) src count = Some bs → mapped (ram s) dest (Z.to_nat count) →
  Q EOK (s <| ram := write_bytes dest bs (ram s) |>) →
  wp (memcpy_s dest destMax src count) Q s.
Proof.
  intros Hd Hc Hm Hs Ho Hb Hmap HQ. unfold memcpy_s.
  destruct (Z.eqb_spec destMax 0); [lia|]. destruct (Z.ltb_spec SECUREC_MEM_MAX_LEN destMax); [lia|].
  destruct (Z.eqb_spec dest 0); [lia|]. simpl.
  assert (match src with BufMem a => a =? 0 | BufLocal _ => false end = false) as ->.
  { destruct src; [by apply Z.eqb_neq|done]. }
  destruct (Z.ltb_spec destMax count); [lia|]. rewrite Ho. wp_step.
  eapply wp_load_cbuf; [exact Hb|]. wp_step. apply wp_store_bytes.
  - erewrite cbuf_bytes_length; [exact Hmap|lia|exact Hb].
  - by wp_step.
Qed.

(** ** The heap *)

(** The allocated blocks exist, lie in the address space and do not overlap. *)
Record HeapInv (s : kstate) : Prop := {
  h_range : map_Forall (fun a n => 0 < a ∧ 0 ≤ n ∧ a + n ≤ 2 ^ 32) (malloced s);
  h_apart : map_Forall (fun a n => map_Forall (fun b m =>
    a ≠ b → a + n ≤ b ∨ b + m ≤ a) (malloced s)) (malloced s);
  h_mapped : map_Forall (fun a n => mapped (ram s) a (Z.to_nat n)) (malloced s)
}.

(** The blocks of [live] have the same contents in [s] and [s']. *)
Definition same_contents (live : gmap Z Z) (s s' : kstate) : Prop :=
  ∀ b m, live !! b = Some m → read_bytes (ram s') b (Z.to_nat m) = read_bytes (ram s) b (Z.to_nat m).

Lemma map_block_lookup f a n m i :
  map_block f a n m !! i = if decide (a ≤ i < a + Z.of_nat n) then Some (f i) else m !! i.
Proof.
  revert a. induction n as [|n IH]; intros a; cbn [map_block].
  - rewrite decide_False by lia. done.
  - destruct (decide (a = i)) as [->|Hne].
    + rewrite lookup_insert_eq, decide_True by lia. done.
    + rewrite lookup_insert_ne, IH by done. apply decide_ext. lia.
Qed.

Lemma unmap_block_lookup a n m i :
  unmap_block a n m !! i = if decide (a ≤ i < a + Z.of_nat n) then None else m !! i.
Proof.
  revert a. induction n as [|n IH]; intros a; cbn [unmap_block].
  - rewrite decide_False by lia. done.
  - destruct (decide (a = i)) as [->|Hne].
    + rewrite lookup_delete_eq, decide_True by lia. done.
    + rewrite lookup_delete_ne, IH by done. apply decide_ext. lia.
Qed.

Section alloc.
  Context `{Malloc} `{!MallocLaws}.

Lemma wp_LOS_MemAlloc n s (Q : Z → kstate → Prop) :
  HeapInv s → 0 ≤ n → Q 0 s →
  (∀ a s', 0 < a → a mod 8 = 0 → malloced s !! a = None → HeapInv s' →
     malloced s' = <[a := n]> (malloced s) → same_contents (malloced s) s s' →
     (∃ r, s' = s <| malloced := <[a := n]> (malloced s) |> <| ram := r |>) → Q a s') →
  wp (LOS_MemAlloc n) Q s.
Proof.
  intros [H1 H2 H3] Hn Q0 QA. unfold LOS_MemAlloc. wp_step. wp_step.
  destruct (malloc_choose (malloced s) n) as [a|] eqn:Ea; wp_steps; [|done].
  pose proof (malloc_nonnull _ _ _ Ea) as Ha. pose proof (malloc_range _ _ _ Ea) as Hr.
  pose proof (malloc_distinct _ _ _ Ea) as Hd.
  assert (∀ b m, malloced s !! b = Some m → a + n ≤ b ∨ b + m ≤ a) as Hf
    by (intros b m; by apply malloc_fresh).
  set (R := map_block malloc_garbage a (Z.to_nat n) (ram s)).
  assert (∀ b m i, malloced s !! b = Some m → b ≤ i < b + Z.of_nat (Z.to_nat m) → R !! i = ram s !! i)
    as HR.
  { intros b m i Eb Hi. unfold R. rewrite map_block_lookup, decide_False; [done|].
    destruct (H1 b m Eb) as (? & ? & ?). specialize (Hf b m Eb). lia. }
  apply QA; [done|by eapply malloc_aligned|done| |done| |by eexists].
  - constructor.
    + apply map_Forall_insert_2; [lia|done].
    + change (map_Forall (fun a0 n0 => map_Forall (fun b m => a0 ≠ b → a0 + n0 ≤ b ∨ b + m ≤ a0)
        (<[a := n]> (malloced s))) (<[a := n]> (malloced s))).
      apply map_Forall_insert_2.
      * apply map_Forall_insert_2; [done|]. intros b m Eb _. by apply Hf.
      * intros b m Eb. apply map_Forall_insert_2; [|by apply (H2 b m)].
        intros _. destruct (Hf b m Eb); lia.
    + change (map_Forall (fun a0 n0 => mapped R a0 (Z.to_nat n0)) (<[a := n]> (malloced s))).
      apply map_Forall_insert_2.
      * intros i Hi. unfold R. rewrite map_block_lookup, decide_True by lia. eauto.
      * intros b m Eb i Hi. rewrite (HR b m i Eb Hi). by apply (H3 b m).
  - intros b m Eb. apply read_bytes_ext. intros i Hi. by apply (HR b m).
Qed.

Lemma wp_LOS_MemFree p n s (Q : Z → kstate → Prop) :
  HeapInv s → malloced s !! p = Some n →
  (∀ s', HeapInv s' → malloced s' = delete p (malloced s) →
     same_contents (delete p (malloced s)) s s' →
     (∃ r, s' = s <| malloced := delete p (malloced s) |> <| ram := r |>) → Q 0 s') →
  wp (LOS_MemFree p) Q s.
Proof.
  intros [H1 H2 H3] Ep HQ. destruct (H1 p n Ep) as (Hp & Hn & _). unfold LOS_MemFree.
  destruct (Z.eqb_spec p 0); [lia|]. wp_steps. rewrite Ep. wp_steps.
  set (R := unmap_block p (Z.to_nat n) (ram s)).
  assert (∀ b m i, delete p (malloced s) !! b = Some m → b ≤ i < b + Z.of_nat (Z.to_nat m) →
    R !! i = ram s !! i) as HR.
  { intros b m i [Hne Eb]%lookup_delete_Some Hi. unfold R.
    rewrite unmap_block_lookup, decide_False; [done|].
    destruct (H1 b m Eb) as (? & ? & ?). pose proof (H2 p n Ep b m Eb Hne). lia. }
  apply HQ; [|done| |by eexists].
  - constructor.
    + by apply map_Forall_delete.
    + apply map_Forall_delete. eapply map_Forall_impl; [exact H2|]. intros b m Hb. by apply map_Forall_delete.
    + change (map_Forall (fun a0 n0 => mapped R a0 (Z.to_nat n0)) (delete p (malloced s))).
      intros b m Eb i Hi. rewrite (HR b m i Eb Hi). apply lookup_delete_Some in Eb as [_ Eb].
      by apply (H3 b m).
  - intros b m Eb. apply read_bytes_ext. intros i Hi. by apply (HR b m).
Qed.
End alloc.

#[export] Instance mapped_dec m a n : Decision (mapped m a n).
Proof. refine (cast_if (decide (is_Some (read_bytes m a n)))); abstract (by rewrite read_bytes_mapped). Defined.
