(* ===== verification/Pool.v ===== *)
(** The memory pools of mm/los_memoey.c: two-level segregated free lists on the byte memory.
    [LOS_MemAlloc] and [LOS_MemFree] of this port bypass them (Mem.v), the initialisation, the
    reallocation, the release by task and the queries work on them.

    The layout is that of the target configuration (32-bit pointers; LOSCFG_MEM_WATERLINE,
    LOSCFG_MEM_MUL_POOL and LOSCFG_MEM_FREE_BY_TASKID are 1, the integrity check of nodes, the
    leak check, multiple regions and pool expansion are off).  A node starts with [ptr.prev] and
    a word that holds the bit fields [taskID : 6] and [sizeAndFlag : 26]; a free node has the
    links [prev] and [next] of its free list behind them.  The print-outs are left out. *)

From S2P Require Import Prelude DList Kernel Tick SortLink Mem Pmcu Sched Event Task.

(** [LOS_MEM_POOL_STATUS]. *)
Record LOS_MEM_POOL_STATUS := mkPoolStatus {
  totalUsedSize : Z;
  totalFreeSize : Z;
  maxFreeNodeSize : Z;
  usedNodeNum : Z;
  freeNodeNum : Z;
  usageWaterLine : Z
}.
#[export] Instance eta_pool_status : Eta LOS_MEM_POOL_STATUS := fun r =>
  mkPoolStatus (totalUsedSize r) (totalFreeSize r) (maxFreeNodeSize r) (usedNodeNum r)
    (freeNodeNum r) (usageWaterLine r).

Section Pool.
  Context `{Config} `{Malloc} `{Symbols}.

(** ** Two-level indices *)

Definition OS_MEM_SLI : Z := 3.
Definition OS_MEM_SMALL_BUCKET_COUNT : Z := 31.
Definition OS_MEM_SMALL_BUCKET_MAX_SIZE : Z := 128.
Definition OS_MEM_LARGE_BUCKET_COUNT : Z := 24.
Definition OS_MEM_LARGE_START_BUCKET : Z := 7.
Definition OS_MEM_FREE_LIST_COUNT : Z :=
  OS_MEM_SMALL_BUCKET_COUNT + Z.shiftl OS_MEM_LARGE_BUCKET_COUNT OS_MEM_SLI.
Definition OS_MEM_BITMAP_WORDS : Z := Z.shiftr OS_MEM_FREE_LIST_COUNT 5 + 1.
Definition OS_MEM_BITMAP_MASK : Z := 0x1F.

Definition OsMemFFS (bitmap : Z) : Z :=
  let bitmap := Z.land bitmap (u32 (Z.lnot bitmap + 1)) in
  u16 (OS_MEM_BITMAP_MASK - CLZ bitmap).
Definition OsMemFLS (bitmap : Z) : Z := u16 (OS_MEM_BITMAP_MASK - CLZ bitmap).
Definition OsMemLog2 (size : Z) : Z := if 0 <? size then OsMemFLS size else 0.

Definition OsMemFlGet (size : Z) : Z :=
  if size <? OS_MEM_SMALL_BUCKET_MAX_SIZE then u32 (Z.shiftr size 2 - 1)
  else u32 (OsMemLog2 size - OS_MEM_LARGE_START_BUCKET + OS_MEM_SMALL_BUCKET_COUNT).

Definition OsMemSlGet (size fl : Z) : Z :=
  if (fl <? OS_MEM_SMALL_BUCKET_COUNT) || (size <? OS_MEM_SMALL_BUCKET_MAX_SIZE) then 0
  else
    let sl := Z.shiftr (u32 (Z.shiftl size OS_MEM_SLI))
                (fl - OS_MEM_SMALL_BUCKET_COUNT + OS_MEM_LARGE_START_BUCKET) in
    u32 (sl - Z.shiftl 1 OS_MEM_SLI).

Definition OsMemFreeListIndexGet (size : Z) : Z :=
  let fl := OsMemFlGet size in
  if fl <? OS_MEM_SMALL_BUCKET_COUNT then fl
  else
    let sl := OsMemSlGet size fl in
    u32 (OS_MEM_SMALL_BUCKET_COUNT + Z.shiftl (fl - OS_MEM_SMALL_BUCKET_COUNT) OS_MEM_SLI + sl).

(** ** Nodes *)

Definition OS_MEM_NODE_HEAD_SIZE : Z := 8.
Definition OS_MEM_MIN_LEFT_SIZE : Z := 16.
Definition OS_MEM_ALIGN_SIZE : Z := 4.
Definition OS_MEM_ALIGN (p alignSize : Z) : Z := Z.ldiff (u32 (p + alignSize - 1)) (alignSize - 1).
Definition OS_MEM_NODE_GET_SIZE (sizeAndFlag : Z) : Z :=
  Z.ldiff sizeAndFlag (Z.lor OS_MEM_NODE_USED_FLAG OS_MEM_NODE_ALIGNED_FLAG).

(** The addresses of the words of a node. *)
Definition node_prev (node : Z) : Z := node.
Definition node_word (node : Z) : Z := node + 4.
Definition free_prev (node : Z) : Z := node + 8.
Definition free_next (node : Z) : Z := node + 12.

(** The bit fields. *)
Definition get_sizeAndFlag (node : Z) : K Z :=
  w ← load32 (node_word node); mret (Z.shiftr w 6).
Definition set_sizeAndFlag (node v : Z) : K unit :=
  w ← load32 (node_word node);
  store32 (node_word node) (Z.lor (Z.land w 0x3F) (Z.shiftl (Z.land v 0x3FFFFFF) 6)).
Definition get_node_taskID (node : Z) : K Z :=
  w ← load32 (node_word node); mret (Z.land w 0x3F).
Definition set_node_taskID (node v : Z) : K unit :=
  w ← load32 (node_word node);
  store32 (node_word node) (Z.lor (Z.land v 0x3F) (Z.shiftl (Z.shiftr w 6) 6)).

Definition OS_MEM_NODE_SET_USED_FLAG (node : Z) : K unit :=
  v ← get_sizeAndFlag node; set_sizeAndFlag node (Z.lor v OS_MEM_NODE_USED_FLAG).
Definition OS_MEM_NODE_GET_USED_FLAG (sizeAndFlag : Z) : bool :=
  flag sizeAndFlag OS_MEM_NODE_USED_FLAG.
Definition OS_MEM_NEXT_NODE (node : Z) : K Z :=
  v ← get_sizeAndFlag node; mret (u32 (node + OS_MEM_NODE_GET_SIZE v)).

(** ** Pools *)

(** The addresses of the fields of [struct OsMemPoolHead]. *)
Definition info_pool (pool : Z) : Z := pool.
Definition info_totalSize (pool : Z) : Z := pool + 4.
Definition info_attr (pool : Z) : Z := pool + 8.
Definition info_waterLine (pool : Z) : Z := pool + 12.
Definition info_curUsedSize (pool : Z) : Z := pool + 16.
Definition freeListBitmap (pool i : Z) : Z := pool + 20 + 4 * i.
Definition freeList (pool i : Z) : Z := pool + 48 + 4 * i.
Definition nextPool (pool : Z) : Z := pool + 940.
Definition sizeof_OsMemPoolHead : Z := 944.

Definition OS_MEM_MIN_POOL_SIZE : Z := OS_MEM_NODE_HEAD_SIZE + sizeof_OsMemPoolHead.
Definition OS_MEM_FIRST_NODE (pool : Z) : Z := u32 (pool + sizeof_OsMemPoolHead).
Definition OS_MEM_END_NODE (pool size : Z) : Z := u32 (pool + size - OS_MEM_NODE_HEAD_SIZE).

Definition OS_MEM_POOL_EXPAND_ENABLE : Z := 0x01.
Definition OS_MEM_POOL_UNLOCK_ENABLE : Z := 0x02.
Definition MEM_LOCK (pool state : Z) : K Z :=
  attr ← load32 (info_attr pool);
  if flag attr OS_MEM_POOL_UNLOCK_ENABLE then mret state else LOS_IntLock.
Definition MEM_UNLOCK (pool state : Z) : K unit :=
  attr ← load32 (info_attr pool);
  if flag attr OS_MEM_POOL_UNLOCK_ENABLE then mret tt else LOS_IntRestore state.

Definition OsMemWaterUsedRecord (pool size : Z) : K unit :=
  cur ← load32 (info_curUsedSize pool);
  store32 (info_curUsedSize pool) (u32 (cur + size));;
  cur ← load32 (info_curUsedSize pool);
  water ← load32 (info_waterLine pool);
  when (water <? cur) (store32 (info_waterLine pool) cur).

(** ** Free lists *)

(** The loop of [OsMemFindCurSuitableBlock] from [node] on. *)
Fixpoint OsMemFindCurSuitableBlock_loop (fuel : nat) (node size : Z) : K Z :=
  if node =? 0 then mret 0
  else
    match fuel with
    | O => fail OutOfFuel
    | S fuel =>
        v ← get_sizeAndFlag node;
        if size <=? v then mret node
        else
          next ← load32 (free_next node);
          OsMemFindCurSuitableBlock_loop fuel next size
    end.
Definition OsMemFindCurSuitableBlock (poolHead index size : Z) : K Z :=
  node ← load32 (freeList poolHead index);
  fuel ← gets (fun s => base.size (ram s));
  OsMemFindCurSuitableBlock_loop fuel node size.

Definition OsMemNotEmptyIndexGet (poolHead index : Z) : K Z :=
  mask ← load32 (freeListBitmap poolHead (Z.shiftr index 5));
  let mask := Z.ldiff mask (Z.shiftl 1 (Z.land index OS_MEM_BITMAP_MASK) - 1) in
  if negb (mask =? 0) then
    mret (OsMemFFS mask + Z.ldiff index OS_MEM_BITMAP_MASK)
  else mret OS_MEM_FREE_LIST_COUNT.

(** The loop of [OsMemFindNextSuitableBlock] over the words of the bitmap; [None] when all of
    them are 0. *)
Fixpoint OsMemFindNextSuitableBlock_loop (fuel : nat) (poolHead index : Z) : K (option Z) :=
  if negb (index <? OS_MEM_FREE_LIST_COUNT) then mret None
  else
    match fuel with
    | O => fail OutOfFuel
    | S fuel =>
        mask ← load32 (freeListBitmap poolHead (Z.shiftr index 5));
        if negb (mask =? 0) then mret (Some (OsMemFFS mask + index))
        else OsMemFindNextSuitableBlock_loop fuel poolHead (index + 32)
    end.

(** The result is the node, 0 for NULL, and [*outIndex]. *)
Definition OsMemFindNextSuitableBlock (pool size : Z) : K (Z * Z) :=
  let fl := OsMemFlGet size in
  let small := fl <? OS_MEM_SMALL_BUCKET_COUNT in
  let sl := OsMemSlGet size fl in
  let curIndex := if small then OS_MEM_FREE_LIST_COUNT
    else u32 (Z.shiftl (fl - OS_MEM_SMALL_BUCKET_COUNT) OS_MEM_SLI + sl + OS_MEM_SMALL_BUCKET_COUNT) in
  let index := if small then fl else u32 (curIndex + 1) in
  tmp ← OsMemNotEmptyIndexGet pool index;
  if negb (tmp =? OS_MEM_FREE_LIST_COUNT) then
    node ← load32 (freeList pool tmp); mret (node, tmp)
  else
    found ← OsMemFindNextSuitableBlock_loop (Z.to_nat OS_MEM_BITMAP_WORDS) pool
              (LOS_Align (index + 1) 32);
    match found with
    | Some index => node ← load32 (freeList pool index); mret (node, index)
    | None =>
        if curIndex =? OS_MEM_FREE_LIST_COUNT then mret (0, OS_MEM_FREE_LIST_COUNT)
        else
          node ← OsMemFindCurSuitableBlock pool curIndex size;
          mret (node, curIndex)
    end.

Definition OsMemSetFreeListBit (head index : Z) : K unit :=
  let a := freeListBitmap head (Z.shiftr index 5) in
  w ← load32 a;
  store32 a (Z.lor w (Z.shiftl 1 (Z.land index 0x1f))).
Definition OsMemClearFreeListBit (head index : Z) : K unit :=
  let a := freeListBitmap head (Z.shiftr index 5) in
  w ← load32 a;
  store32 a (Z.ldiff w (Z.shiftl 1 (Z.land index 0x1f))).

Definition OsMemListAdd (pool listIndex node : Z) : K unit :=
  firstNode ← load32 (freeList pool listIndex);
  when (negb (firstNode =? 0)) (store32 (free_prev firstNode) node);;
  store32 (free_prev node) 0;;
  store32 (free_next node) firstNode;;
  store32 (freeList pool listIndex) node;;
  OsMemSetFreeListBit pool listIndex.

Definition OsMemListDelete (pool listIndex node : Z) : K unit :=
  first ← load32 (freeList pool listIndex);
  if node =? first then
    next ← load32 (free_next node);
    store32 (freeList pool listIndex) next;;
    next ← load32 (free_next node);
    if next =? 0 then OsMemClearFreeListBit pool listIndex
    else
      next ← load32 (free_next node);
      store32 (free_prev next) 0
  else
    prev ← load32 (free_prev node);
    next ← load32 (free_next node);
    store32 (free_next prev) next;;
    next ← load32 (free_next node);
    when (negb (next =? 0))
      (next ← load32 (free_next node);
       prev ← load32 (free_prev node);
       store32 (free_prev next) prev).

Definition OsMemFreeNodeAdd (pool node : Z) : K unit :=
  v ← get_sizeAndFlag node;
  let index := OsMemFreeListIndexGet v in
  if OS_MEM_FREE_LIST_COUNT <=? index then fail Panic
  else OsMemListAdd pool index node.

Definition OsMemFreeNodeDelete (pool node : Z) : K unit :=
  v ← get_sizeAndFlag node;
  OsMemListDelete pool (OsMemFreeListIndexGet v) node.

(** 0 is NULL. *)
Definition OsMemFreeNodeGet (pool size : Z) : K Z :=
  '(firstNode, index) ← OsMemFindNextSuitableBlock pool size;
  if firstNode =? 0 then mret 0
  else
    OsMemListDelete pool index firstNode;;
    mret firstNode.

(** ** Merging and splitting *)

Definition OsMemMergeNode (node : Z) : K unit :=
  prev ← load32 (node_prev node);
  p ← get_sizeAndFlag prev;
  v ← get_sizeAndFlag node;
  set_sizeAndFlag prev (p + v);;
  v ← get_sizeAndFlag node;
  prev ← load32 (node_prev node);
  store32 (node_prev (u32 (node + v))) prev.

Definition OsMemSplitNode (pool allocNode allocSize : Z) : K unit :=
  let newFreeNode := u32 (allocNode + allocSize) in
  store32 (node_prev newFreeNode) allocNode;;
  v ← get_sizeAndFlag allocNode;
  set_sizeAndFlag newFreeNode (v - allocSize);;
  set_sizeAndFlag allocNode allocSize;;
  nextNode ← OS_MEM_NEXT_NODE newFreeNode;
  store32 (node_prev nextNode) newFreeNode;;
  n ← get_sizeAndFlag nextNode;
  when (negb (OS_MEM_NODE_GET_USED_FLAG n))
    (OsMemFreeNodeDelete pool nextNode;;
     OsMemMergeNode nextNode);;
  OsMemFreeNodeAdd pool newFreeNode.

(** The address behind the header is what the caller gets. *)
Definition OsMemCreateUsedNode (addr : Z) : K Z :=
  id ← LOS_CurTaskIDGet;
  set_node_taskID addr id;;
  mret (u32 (addr + OS_MEM_NODE_HEAD_SIZE)).

(** ** Initialisation *)

(** [memset_s] of bounds_checking_function. *)
Definition memset_s (dest destMax c count : Z) : K Z :=
  if (destMax <=? SECUREC_MEM_MAX_LEN) && negb (dest =? 0) && (count <=? destMax) then
    store_bytes dest (replicate (Z.to_nat count) (u8 c));; mret EOK
  else if (destMax =? 0) || (SECUREC_MEM_MAX_LEN <? destMax) then mret ERANGE
  else if dest =? 0 then mret EINVAL
  else
    store_bytes dest (replicate (Z.to_nat destMax) (u8 c));; mret ERANGE_AND_RESET.

Definition OsMemPoolInit (pool size : Z) : K Z :=
  memset_s pool size 0 sizeof_OsMemPoolHead;;
  store32 (info_pool pool) pool;;
  store32 (info_totalSize pool) size;;
  attr ← load32 (info_attr pool);
  store32 (info_attr pool)
    (Z.ldiff attr (Z.lor OS_MEM_POOL_UNLOCK_ENABLE OS_MEM_POOL_EXPAND_ENABLE));;
  let newNode := OS_MEM_FIRST_NODE pool in
  set_sizeAndFlag newNode (u32 (size - sizeof_OsMemPoolHead - OS_MEM_NODE_HEAD_SIZE));;
  store32 (node_prev newNode) (OS_MEM_END_NODE pool size);;
  OsMemFreeNodeAdd pool newNode;;
  let endNode := OS_MEM_END_NODE pool size in
  set_sizeAndFlag endNode 0;;
  store32 (node_prev endNode) newNode;;
  OS_MEM_NODE_SET_USED_FLAG endNode;;
  store32 (info_curUsedSize pool) (sizeof_OsMemPoolHead + OS_MEM_NODE_HEAD_SIZE);;
  cur ← load32 (info_curUsedSize pool);
  store32 (info_waterLine pool) cur;;
  mret LOS_OK.

Definition OsMemPoolDeInit (pool size : Z) : K unit :=
  memset_s pool size 0 sizeof_OsMemPoolHead;; mret tt.

Definition LOS_MemPoolSizeGet (pool : Z) : K Z :=
  if pool =? 0 then mret LOS_NOK else load32 (info_totalSize pool).

(** The loop of [OsMemPoolAdd] over the pools; the result is the last of them, or an error. *)
Fixpoint OsMemPoolAdd_loop (fuel : nat) (pool size curPool nextPool_ : Z) : K (Z + Z) :=
  if nextPool_ =? 0 then mret (inl curPool)
  else
    match fuel with
    | O => fail OutOfFuel
    | S fuel =>
        poolSize ← LOS_MemPoolSizeGet nextPool_;
        let poolEnd := u32 (nextPool_ + poolSize) in
        if ((pool <=? nextPool_) && (nextPool_ <? u32 (pool + size)))
           || ((pool <? poolEnd) && (poolEnd <=? u32 (pool + size)))
        then mret (inr LOS_NOK)
        else
          next ← load32 (nextPool nextPool_);
          OsMemPoolAdd_loop fuel pool size nextPool_ next
    end.
Definition OsMemPoolAdd (pool size : Z) : K Z :=
  head ← gets g_poolHead;
  fuel ← gets (fun s => base.size (ram s));
  r ← OsMemPoolAdd_loop fuel pool size head head;
  match r with
  | inr e => mret e
  | inl curPool =>
      (if head =? 0 then modify (fun s => s <| g_poolHead := pool |>)
       else store32 (nextPool curPool) pool);;
      store32 (nextPool pool) 0;;
      mret LOS_OK
  end.

Fixpoint OsMemPoolDelete_loop (fuel : nat) (pool curPool nextPool_ : Z) : K Z :=
  if nextPool_ =? 0 then mret LOS_NOK
  else
    match fuel with
    | O => fail OutOfFuel
    | S fuel =>
        if pool =? nextPool_ then
          next ← load32 (nextPool nextPool_);
          store32 (nextPool curPool) next;;
          mret LOS_OK
        else
          next ← load32 (nextPool nextPool_);
          OsMemPoolDelete_loop fuel pool nextPool_ next
    end.
Definition OsMemPoolDelete (pool : Z) : K Z :=
  head ← gets g_poolHead;
  if pool =? head then
    next ← load32 (nextPool head);
    modify (fun s => s <| g_poolHead := next |>);;
    mret LOS_OK
  else
    fuel ← gets (fun s => base.size (ram s));
    OsMemPoolDelete_loop fuel pool head head.

Definition LOS_MemInit (pool size : Z) : K Z :=
  if (pool =? 0) || (size <=? OS_MEM_MIN_POOL_SIZE) then mret LOS_NOK
  else if negb (Z.land pool (OS_MEM_ALIGN_SIZE - 1) =? 0)
          || negb (Z.land size (OS_MEM_ALIGN_SIZE - 1) =? 0) then mret LOS_NOK
  else
    ret ← OsMemPoolInit pool size;
    if negb (ret =? 0) then mret LOS_NOK
    else
      ret ← OsMemPoolAdd pool size;
      if negb (ret =? 0) then OsMemPoolDeInit pool size;; mret LOS_NOK
      else mret LOS_OK.

Definition LOS_MemDeInit (pool : Z) : K Z :=
  if pool =? 0 then mret LOS_NOK
  else
    self ← load32 (info_pool pool);
    total ← load32 (info_totalSize pool);
    if negb (self =? pool) || (total <=? OS_MEM_MIN_POOL_SIZE) then mret LOS_NOK
    else
      ret ← OsMemPoolDelete pool;
      if negb (ret =? 0) then mret LOS_NOK
      else
        total ← load32 (info_totalSize pool);
        OsMemPoolDeInit pool total;;
        mret LOS_OK.

(** ** Checks *)

Definition OsMemAddrValidCheck (pool addr : Z) : K bool :=
  size ← load32 (info_totalSize pool);
  mret ((pool + sizeof_OsMemPoolHead <=? addr) && (addr <? u32 (pool + size))).

Definition OsMemIsNodeValid (node startNode endNode poolInfo : Z) : K bool :=
  if negb ((startNode <=? node) && (node <=? endNode)) then mret false
  else
    v ← get_sizeAndFlag node;
    if OS_MEM_NODE_GET_USED_FLAG v then mret true
    else
      prev ← load32 (node_prev node);
      OsMemAddrValidCheck poolInfo prev.

Definition OsMemCheckUsedNode (pool node : Z) : K Z :=
  let startNode := OS_MEM_FIRST_NODE pool in
  size ← load32 (info_totalSize pool);
  let endNode := OS_MEM_END_NODE pool size in
  ok ← OsMemIsNodeValid node startNode endNode pool;
  if negb ok then mret LOS_NOK else
  v ← get_sizeAndFlag node;
  if negb (OS_MEM_NODE_GET_USED_FLAG v) then mret LOS_NOK else
  nextNode ← OS_MEM_NEXT_NODE node;
  ok ← OsMemIsNodeValid nextNode startNode endNode pool;
  if negb ok then mret LOS_NOK else
  back ← load32 (node_prev nextNode);
  if negb (back =? node) then mret LOS_NOK else
  if node =? startNode then mret LOS_OK
  else
    prev ← load32 (node_prev node);
    ok ← OsMemIsNodeValid prev startNode endNode pool;
    if negb ok then mret LOS_NOK
    else
      prev ← load32 (node_prev node);
      next ← OS_MEM_NEXT_NODE prev;
      mret (if next =? node then LOS_OK else LOS_NOK).

(** ** Release *)

Definition OsMemFree (pool node : Z) : K Z :=
  ret ← OsMemCheckUsedNode pool node;
  if negb (ret =? LOS_OK) then mret ret
  else
    cur ← load32 (info_curUsedSize pool);
    v ← get_sizeAndFlag node;
    store32 (info_curUsedSize pool) (u32 (cur - OS_MEM_NODE_GET_SIZE v));;
    v ← get_sizeAndFlag node;
    set_sizeAndFlag node (OS_MEM_NODE_GET_SIZE v);;
    preNode ← load32 (node_prev node);
    p ← (if preNode =? 0 then mret 0 else get_sizeAndFlag preNode);
    node ← (if negb (preNode =? 0) && negb (OS_MEM_NODE_GET_USED_FLAG p) then
              OsMemFreeNodeDelete pool preNode;;
              OsMemMergeNode node;;
              mret preNode
            else mret node);
    nextNode ← OS_MEM_NEXT_NODE node;
    n ← (if nextNode =? 0 then mret 0 else get_sizeAndFlag nextNode);
    when (negb (nextNode =? 0) && negb (OS_MEM_NODE_GET_USED_FLAG n))
      (OsMemFreeNodeDelete pool nextNode;;
       OsMemMergeNode nextNode);;
    OsMemFreeNodeAdd pool node;;
    mret ret.

(** ** Reallocation *)

Definition OS_MEM_GAPSIZE_USED_FLAG : Z := 0x80000000.
Definition OS_MEM_GAPSIZE_ALIGNED_FLAG : Z := 0x40000000.

(** 0 is NULL. *)
Definition OsGetRealPtr (pool ptr : Z) : K Z :=
  gapSize ← load32 (u32 (ptr - 4));
  if flag gapSize OS_MEM_GAPSIZE_ALIGNED_FLAG && flag gapSize OS_MEM_GAPSIZE_USED_FLAG then mret 0
  else if flag gapSize OS_MEM_GAPSIZE_ALIGNED_FLAG then
    let gapSize := Z.ldiff gapSize OS_MEM_GAPSIZE_ALIGNED_FLAG in
    if negb (Z.land gapSize (OS_MEM_ALIGN_SIZE - 1) =? 0)
       || (u32 (ptr - OS_MEM_NODE_HEAD_SIZE - pool) <? gapSize) then mret 0
    else mret (u32 (ptr - gapSize))
  else mret ptr.

Definition OsMemReAllocSmaller (pool allocSize node nodeSize : Z) : K unit :=
  set_sizeAndFlag node nodeSize;;
  when (u32 (allocSize + OS_MEM_MIN_LEFT_SIZE) <=? nodeSize)
    (OsMemSplitNode pool node allocSize;;
     cur ← load32 (info_curUsedSize pool);
     store32 (info_curUsedSize pool) (u32 (cur - (nodeSize - allocSize))));;
  OS_MEM_NODE_SET_USED_FLAG node.

Definition OsMemMergeNodeForReAllocBigger (pool allocSize node nodeSize nextNode : Z) : K unit :=
  set_sizeAndFlag node nodeSize;;
  OsMemFreeNodeDelete pool nextNode;;
  OsMemMergeNode nextNode;;
  v ← get_sizeAndFlag node;
  when (u32 (allocSize + OS_MEM_MIN_LEFT_SIZE) <=? v) (OsMemSplitNode pool node allocSize);;
  OS_MEM_NODE_SET_USED_FLAG node;;
  v ← get_sizeAndFlag node;
  OsMemWaterUsedRecord pool (u32 (OS_MEM_NODE_GET_SIZE v - nodeSize)).

(** The port returns what malloc returns; the code behind that is not reached. *)
Definition OsMemAlloc (pool size intSave : Z) : K Z := LOS_MemAlloc size.

Definition OsMemRealloc (pool ptr node size intSave : Z) : K Z :=
  let allocSize := OS_MEM_ALIGN (u32 (size + OS_MEM_NODE_HEAD_SIZE)) OS_MEM_ALIGN_SIZE in
  v ← get_sizeAndFlag node;
  let nodeSize := OS_MEM_NODE_GET_SIZE v in
  if allocSize <=? nodeSize then
    OsMemReAllocSmaller pool allocSize node nodeSize;; mret ptr
  else
    nextNode ← OS_MEM_NEXT_NODE node;
    n ← get_sizeAndFlag nextNode;
    if negb (OS_MEM_NODE_GET_USED_FLAG n) && (allocSize <=? n + nodeSize) then
      OsMemMergeNodeForReAllocBigger pool allocSize node nodeSize nextNode;; mret ptr
    else
      tmpPtr ← OsMemAlloc pool size intSave;
      if negb (tmpPtr =? 0) then
        e ← memcpy_s tmpPtr size (BufMem ptr) (u32 (nodeSize - OS_MEM_NODE_HEAD_SIZE));
        if negb (e =? EOK) then
          MEM_UNLOCK pool intSave;;
          LOS_MemFree tmpPtr;;
          MEM_LOCK pool intSave;;
          mret 0
        else
          OsMemFree pool node;;
          mret tmpPtr
      else mret tmpPtr.

Definition LOS_MemRealloc (pool ptr size : Z) : K Z :=
  if (pool =? 0) || OS_MEM_NODE_GET_USED_FLAG size || flag size OS_MEM_NODE_ALIGNED_FLAG then mret 0
  else if ptr =? 0 then LOS_MemAlloc size
  else if size =? 0 then LOS_MemFree ptr;; mret 0
  else
    let size := if size <? OS_MEM_MIN_ALLOC_SIZE then OS_MEM_MIN_ALLOC_SIZE else size in
    intSave ← MEM_LOCK pool 0;
    ptr ← OsGetRealPtr pool ptr;
    newPtr ← (if ptr =? 0 then mret 0
              else
                let node := u32 (ptr - OS_MEM_NODE_HEAD_SIZE) in
                ok ← OsMemCheckUsedNode pool node;
                if negb (ok =? LOS_OK) then mret 0
                else OsMemRealloc pool ptr node size intSave);
    MEM_UNLOCK pool intSave;;
    mret newPtr.

Definition LOS_MemUnlockEnable (pool : Z) : K unit :=
  if pool =? 0 then mret tt
  else
    attr ← load32 (info_attr pool);
    store32 (info_attr pool) (Z.lor attr OS_MEM_POOL_UNLOCK_ENABLE).

(** ** Walks over all nodes *)

Definition OsMemAddrValidCheckPrint (pool tmpNode : Z) : K Z :=
  prev ← load32 (free_prev tmpNode);
  ok ← (if prev =? 0 then mret true else OsMemAddrValidCheck pool prev);
  if negb ok then mret LOS_NOK
  else
    next ← load32 (free_next tmpNode);
    ok ← (if next =? 0 then mret true else OsMemAddrValidCheck pool next);
    mret (if (ok : bool) then LOS_OK else LOS_NOK).

Definition OsMemIntegrityCheckSub (tmpNode pool : Z) : K Z :=
  prev ← load32 (node_prev tmpNode);
  ok ← OsMemAddrValidCheck pool prev;
  if negb ok then mret LOS_NOK
  else
    v ← get_sizeAndFlag tmpNode;
    if negb (OS_MEM_NODE_GET_USED_FLAG v) then OsMemAddrValidCheckPrint pool tmpNode
    else mret LOS_OK.

Definition OsMemFreeListNodeCheck (pool node : Z) : K Z :=
  ok ← OsMemAddrValidCheck pool node;
  if negb ok then mret LOS_NOK else
  prev ← load32 (free_prev node);
  ok ← (if prev =? 0 then mret true else OsMemAddrValidCheck pool prev);
  if negb ok then mret LOS_NOK else
  next ← load32 (free_next node);
  ok ← (if next =? 0 then mret true else OsMemAddrValidCheck pool next);
  if negb ok then mret LOS_NOK else
  back ← load32 (node_prev node);
  ok ← OsMemAddrValidCheck pool back;
  if negb ok then mret LOS_NOK
  else if negb (OS_MEM_IS_ALIGNED node 4) || negb (OS_MEM_IS_ALIGNED prev 4)
          || negb (OS_MEM_IS_ALIGNED next 4) || negb (OS_MEM_IS_ALIGNED back 4) then mret LOS_NOK
  else mret LOS_OK.

(** [OsMemPoolHeadCheck]: the loops over the lists and over the nodes of a list.  The result is
    the local [flag], which decides on a print-out. *)
Fixpoint OsMemPoolHeadCheck_list (fuel : nat) (pool tmpNode flag : Z) : K Z :=
  if tmpNode =? 0 then mret flag
  else
    match fuel with
    | O => fail OutOfFuel
    | S fuel =>
        r ← OsMemFreeListNodeCheck pool tmpNode;
        next ← load32 (free_next tmpNode);
        OsMemPoolHeadCheck_list fuel pool next (if negb (r =? 0) then 1 else flag)
    end.
Fixpoint OsMemPoolHeadCheck_loop (n : nat) (pool index flag : Z) : K Z :=
  match n with
  | O => mret flag
  | S n =>
      tmpNode ← load32 (freeList pool index);
      fuel ← gets (fun s => base.size (ram s));
      flag ← OsMemPoolHeadCheck_list fuel pool tmpNode flag;
      OsMemPoolHeadCheck_loop n pool (index + 1) flag
  end.
Definition OsMemPoolHeadCheck (pool : Z) : K Z :=
  self ← load32 (info_pool pool);
  if negb (self =? pool) || negb (OS_MEM_IS_ALIGNED pool 4) then mret 0
  else OsMemPoolHeadCheck_loop (Z.to_nat OS_MEM_FREE_LIST_COUNT) pool 0 0.

(** The result is the error code and the node before the broken one. *)
Fixpoint OsMemIntegrityCheck_loop (fuel : nat) (pool endNode preNode tmpNode : Z) : K (Z * Z) :=
  if negb (tmpNode <? endNode) then mret (LOS_OK, preNode)
  else
    match fuel with
    | O => fail OutOfFuel
    | S fuel =>
        r ← OsMemIntegrityCheckSub tmpNode pool;
        if r =? LOS_NOK then mret (LOS_NOK, preNode)
        else
          next ← OS_MEM_NEXT_NODE tmpNode;
          OsMemIntegrityCheck_loop fuel pool endNode tmpNode next
    end.
Definition OsMemIntegrityCheck (pool : Z) : K (Z * Z) :=
  size ← load32 (info_totalSize pool);
  OsMemPoolHeadCheck pool;;
  fuel ← gets (fun s => base.size (ram s));
  OsMemIntegrityCheck_loop fuel pool (OS_MEM_END_NODE pool size) (OS_MEM_FIRST_NODE pool)
    (OS_MEM_FIRST_NODE pool).

(** The error report stops the machine; when the node before the broken one is free, it follows
    the NULL pointer [taskCB] before it does. *)
Definition OsMemIntegrityCheckError (preNode : Z) : K Z :=
  v ← get_sizeAndFlag preNode;
  if OS_MEM_NODE_GET_USED_FLAG v then fail Panic else fail NullDeref.

Definition LOS_MemIntegrityCheck (pool : Z) : K Z :=
  if pool =? 0 then mret LOS_NOK
  else
    intSave ← MEM_LOCK pool 0;
    '(r, preNode) ← OsMemIntegrityCheck pool;
    if negb (r =? LOS_OK) then OsMemIntegrityCheckError preNode
    else
      MEM_UNLOCK pool intSave;;
      mret LOS_OK.

(** [OsAllMemNodeDoHandle]; [acc] is what the handler keeps behind [arg]. *)
Fixpoint OsAllMemNodeDoHandle_loop {A} (fuel : nat) (handle : A → Z → K A) (acc : A)
    (tmpNode endNode : Z) : K A :=
  if negb (tmpNode <? endNode) then mret acc
  else
    match fuel with
    | O => fail OutOfFuel
    | S fuel =>
        acc ← handle acc tmpNode;
        next ← OS_MEM_NEXT_NODE tmpNode;
        OsAllMemNodeDoHandle_loop fuel handle acc next endNode
    end.
Definition OsAllMemNodeDoHandle {A} (pool : Z) (handle : A → Z → K A) (acc : A) : K A :=
  if pool =? 0 then mret acc
  else
    r ← LOS_MemIntegrityCheck pool;
    if negb (r =? 0) then mret acc
    else
      intSave ← MEM_LOCK pool 0;
      size ← load32 (info_totalSize pool);
      fuel ← gets (fun s => base.size (ram s));
      acc ← OsAllMemNodeDoHandle_loop fuel handle acc (OS_MEM_FIRST_NODE pool) (OS_MEM_END_NODE pool size);
      MEM_UNLOCK pool intSave;;
      mret acc.

Definition MemNodeFreeByTaskIDHandle (taskID poolHead : Z) (_ : unit) (curNode : Z) : K unit :=
  v ← get_sizeAndFlag curNode;
  if negb (OS_MEM_NODE_GET_USED_FLAG v) then mret tt
  else
    id ← get_node_taskID curNode;
    when (id =? taskID) (OsMemFree poolHead curNode;; mret tt).

Definition LOS_MemFreeByTaskID (pool taskID : Z) : K Z :=
  if pool =? 0 then mret LOS_NOK
  else if LOSCFG_BASE_CORE_TSK_LIMIT <=? taskID then mret LOS_NOK
  else
    OsAllMemNodeDoHandle pool (MemNodeFreeByTaskIDHandle taskID pool) tt;;
    mret LOS_OK.

Definition MemUsedGetHandle (memUsed curNode : Z) : K Z :=
  v ← get_sizeAndFlag curNode;
  mret (if OS_MEM_NODE_GET_USED_FLAG v then u32 (memUsed + OS_MEM_NODE_GET_SIZE v) else memUsed).

Definition LOS_MemTotalUsedGet (pool : Z) : K Z :=
  if pool =? 0 then mret LOS_NOK
  else OsAllMemNodeDoHandle pool MemUsedGetHandle 0.

Definition OsMemInfoGet (st : LOS_MEM_POOL_STATUS) (node : Z) : K LOS_MEM_POOL_STATUS :=
  v ← get_sizeAndFlag node;
  let size := OS_MEM_NODE_GET_SIZE v in
  mret (if negb (OS_MEM_NODE_GET_USED_FLAG v) then
          st <| totalFreeSize := u32 (totalFreeSize st + size) |>
             <| maxFreeNodeSize := Z.max (maxFreeNodeSize st) size |>
             <| freeNodeNum := u32 (freeNodeNum st + 1) |>
        else
          st <| totalUsedSize := u32 (totalUsedSize st + size) |>
             <| usedNodeNum := u32 (usedNodeNum st + 1) |>).

(** [out] is false when the pointer for the result is NULL. *)
Definition LOS_MemInfoGet (pool : Z) (out : bool) : K (Z * option LOS_MEM_POOL_STATUS) :=
  if negb out then mret (LOS_NOK, None)
  else if pool =? 0 then mret (LOS_NOK, None)
  else
    self ← load32 (info_pool pool);
    if negb (self =? pool) then mret (LOS_NOK, None)
    else
      st ← OsAllMemNodeDoHandle pool OsMemInfoGet (mkPoolStatus 0 0 0 0 0 0);
      intSave ← MEM_LOCK pool 0;
      water ← load32 (info_waterLine pool);
      MEM_UNLOCK pool intSave;;
      mret (LOS_OK, Some (st <| usageWaterLine := water |>)).

(** The body of [OsMemAlloc] behind its [return malloc(size)], the allocation from the pool; this
    port does not reach it. *)
Definition OsMemAlloc_pool (pool size intSave : Z) : K Z :=
  let allocSize := OS_MEM_ALIGN (u32 (size + OS_MEM_NODE_HEAD_SIZE)) OS_MEM_ALIGN_SIZE in
  allocNode ← OsMemFreeNodeGet pool allocSize;
  if allocNode =? 0 then
    MEM_UNLOCK pool intSave;;
    LOS_MemInfoGet pool true;;
    MEM_LOCK pool intSave;;
    mret 0
  else
    v ← get_sizeAndFlag allocNode;
    when (u32 (allocSize + OS_MEM_MIN_LEFT_SIZE) <=? v) (OsMemSplitNode pool allocNode allocSize);;
    OS_MEM_NODE_SET_USED_FLAG allocNode;;
    v ← get_sizeAndFlag allocNode;
    OsMemWaterUsedRecord pool (OS_MEM_NODE_GET_SIZE v);;
    OsMemCreateUsedNode allocNode.

(** [LOS_MemPoolList] counts the pools and looks each of them through for [OsMemInfoPrint]. *)
Fixpoint LOS_MemPoolList_loop (fuel : nat) (nextPool_ index : Z) : K Z :=
  if nextPool_ =? 0 then mret index
  else
    match fuel with
    | O => fail OutOfFuel
    | S fuel =>
        LOS_MemInfoGet nextPool_ true;;
        next ← load32 (nextPool nextPool_);
        LOS_MemPoolList_loop fuel next (u32 (index + 1))
    end.
Definition LOS_MemPoolList : K Z :=
  head ← gets g_poolHead;
  fuel ← gets (fun s => base.size (ram s));
  LOS_MemPoolList_loop fuel head 0.

(** [OsMemSystemInit] with the address of [g_memStart]; it clears as many bytes as the constant
    [LOSCFG_SYS_HEAP_SIZE] itself takes, an [int]. *)
Definition OsMemSystemInit (g_memStart : Z) : K Z :=
  store_bytes g_memStart (replicate 4 0);;
  LOS_MemInit g_memStart LOSCFG_SYS_HEAP_SIZE.

End Pool.
