(* ===== verification/PoolIndex.v ===== *)
(** The two-level index of the memory pools: which free list holds blocks of which size, and
    the search for the first bit of a bitmap word. *)

From S2P Require Import Prelude DList Kernel Tick SortLink Mem Pmcu Sched Event Task Pool.

(** ** Bits *)

(** A positive number is an odd multiple of a power of two. *)
Lemma odd_part b : 0 < b → ∃ k q, 0 ≤ k ∧ 0 ≤ q ∧ b = q * 2 ^ (k + 1) + 2 ^ k.
Proof.
  destruct b as [|p|p]; try lia. intros _. induction p as [p _|p (k & q & Hk & Hq & E)|].
  - exists 0, (Z.pos p). lia.
  - exists (k + 1), q. split_and!; [lia|lia|]. rewrite Pos2Z.inj_xO, E.
    rewrite (Z.pow_add_r 2 (k + 1) 1), (Z.pow_add_r 2 k 1) by lia. lia.
  - exists 0, 0. lia.
Qed.

Lemma high_low_bits q r n j :
  0 ≤ n → 0 ≤ r < 2 ^ n → 0 ≤ j →
  Z.testbit (q * 2 ^ n + r) j = if j <? n then Z.testbit r j else Z.testbit q (j - n).
Proof.
  intros Hn Hr Hj. destruct (Z.ltb_spec j n).
  - rewrite <- (Z.mod_pow2_bits_low _ n j) by lia.
    rewrite Z.add_comm, Z.mod_add, Z.mod_small by lia. done.
  - replace j with (j - n + n) at 1 by lia. rewrite <- Z.div_pow2_bits by lia.
    rewrite Z.add_comm, Z.div_add, Z.div_small, Z.add_0_l by lia. done.
Qed.

Lemma lor_high_low q r n : 0 ≤ n → 0 ≤ r < 2 ^ n → Z.lor r (Z.shiftl q n) = q * 2 ^ n + r.
Proof.
  intros Hn Hr. apply Z.bits_inj'. intros j Hj. rewrite high_low_bits, Z.lor_spec, Z.shiftl_spec by done.
  destruct (Z.ltb_spec j n).
  - rewrite (Z.testbit_neg_r q) by lia. apply orb_false_r.
  - assert (Z.testbit r j = false) as ->; [|done]. destruct (decide (r = 0)) as [->|]; [apply Z.bits_0|].
    apply Z.bits_above_log2; [lia|]. apply Z.log2_lt_pow2; [lia|].
    apply (Z.lt_le_trans _ (2 ^ n)); [lia|]. apply Z.pow_le_mono_r; lia.
Qed.

Lemma odd_part_bits k q j :
  0 ≤ k → 0 ≤ j → Z.testbit (q * 2 ^ (k + 1) + 2 ^ k) j =
    if j <? k then false else if j =? k then true else Z.testbit q (j - (k + 1)).
Proof.
  intros Hk Hj. pose proof (Z.pow_pos_nonneg 2 k ltac:(lia) Hk).
  rewrite high_low_bits by (rewrite ?(Z.pow_add_r 2 k 1) by lia; lia).
  rewrite Z.pow2_bits_eqb by lia.
  destruct (Z.ltb_spec j (k + 1)), (Z.ltb_spec j k), (Z.eqb_spec j k), (Z.eqb_spec k j); try lia; done.
Qed.

Lemma odd_part_pred_bits k q j :
  0 ≤ k → 0 ≤ j → Z.testbit (Z.pred (q * 2 ^ (k + 1) + 2 ^ k)) j =
    if j <? k then true else if j =? k then false else Z.testbit q (j - (k + 1)).
Proof.
  intros Hk Hj. pose proof (Z.pow_pos_nonneg 2 k ltac:(lia) Hk).
  replace (Z.pred (q * 2 ^ (k + 1) + 2 ^ k)) with (q * 2 ^ (k + 1) + Z.ones k)
    by (rewrite Z.ones_equiv; lia).
  rewrite high_low_bits by (rewrite ?Z.ones_equiv, ?(Z.pow_add_r 2 k 1) by lia; lia).
  destruct (Z.ltb_spec j (k + 1)), (Z.ltb_spec j k), (Z.eqb_spec j k); try lia; try done.
  - by apply Z.ones_spec_low.
  - apply Z.ones_spec_high. lia.
Qed.

(** [OsMemFFS] finds the lowest bit. *)
Lemma OsMemFFS_spec b :
  0 < b < 2 ^ 32 →
  0 ≤ OsMemFFS b < 32 ∧ Z.testbit b (OsMemFFS b) = true ∧
  ∀ j, 0 ≤ j < OsMemFFS b → Z.testbit b j = false.
Proof.
  intros Hb. destruct (odd_part b) as (k & q & Hk & Hq & E); [lia|].
  assert (k < 32) as Hk32.
  { destruct (decide (k < 32)); [done|]. assert (2 ^ 32 ≤ 2 ^ k) by (apply Z.pow_le_mono_r; lia).
    pose proof (Z.pow_pos_nonneg 2 (k + 1)). nia. }
  assert (Z.land b (u32 (Z.lnot b + 1)) = 2 ^ k) as Hl.
  { apply Z.bits_inj'. intros j Hj. replace (Z.lnot b + 1) with (- b) by (unfold Z.lnot; lia).
    unfold u32. rewrite Z.land_spec, Z.pow2_bits_eqb by lia. destruct (decide (j < 32)).
    - rewrite Z.mod_pow2_bits_low, Z.bits_opp by lia. rewrite E, odd_part_pred_bits, odd_part_bits by done.
      destruct (Z.ltb_spec j k), (Z.eqb_spec j k), (Z.eqb_spec k j); try lia; try done.
      by destruct (Z.testbit q _).
    - assert (Z.log2 b < 32) by (apply Z.log2_lt_pow2; lia).
      rewrite (Z.bits_above_log2 b) by lia. symmetry. apply Z.eqb_neq. lia. }
  assert (OsMemFFS b = k) as ->.
  { unfold OsMemFFS, CLZ, OS_MEM_BITMAP_MASK. rewrite Hl, Z.log2_pow2 by lia.
    unfold u16. rewrite Z.mod_small; lia. }
  split; [lia|]. rewrite E. split.
  - rewrite odd_part_bits by lia. rewrite Z.ltb_irrefl. by rewrite Z.eqb_refl.
  - intros j Hj. rewrite odd_part_bits by lia. by destruct (Z.ltb_spec j k); [|lia].
Qed.

(** ** The index of a size *)

(** The free list of a size: one list for every multiple of 4 below 128, eight lists for every
    power of two above. *)
Definition size_index (z : Z) : Z :=
  if z <? 128 then z / 4 - 1 else 31 + 8 * (Z.log2 z - 7) + (8 * z / 2 ^ Z.log2 z - 8).

Lemma OsMemLog2_spec z : 0 < z < 2 ^ 32 → OsMemLog2 z = Z.log2 z.
Proof.
  intros Hz. assert (0 ≤ Z.log2 z < 32) by (split; [apply Z.log2_nonneg|apply Z.log2_lt_pow2; lia]).
  unfold OsMemLog2, OsMemFLS, CLZ, OS_MEM_BITMAP_MASK, u16.
  destruct (Z.ltb_spec 0 z); [|lia]. rewrite Z.mod_small; lia.
Qed.

Lemma log2_large z : 128 ≤ z < 2 ^ 26 → 7 ≤ Z.log2 z < 26.
Proof. intros Hz. split; [apply Z.log2_le_pow2; lia|apply Z.log2_lt_pow2; lia]. Qed.

Lemma OsMemFlGet_spec z :
  4 ≤ z < 2 ^ 26 → OsMemFlGet z = if z <? 128 then z / 4 - 1 else Z.log2 z + 24.
Proof.
  intros Hz. unfold OsMemFlGet, OS_MEM_SMALL_BUCKET_MAX_SIZE, OS_MEM_LARGE_START_BUCKET, OS_MEM_SMALL_BUCKET_COUNT.
  destruct (Z.ltb_spec z 128).
  - rewrite Z.shiftr_div_pow2 by lia. change (2 ^ 2) with 4. unfold u32. apply Z.mod_small.
    assert (1 ≤ z / 4) by (apply Z.div_le_lower_bound; lia).
    assert (z / 4 < 32) by (apply Z.div_lt_upper_bound; lia). lia.
  - rewrite OsMemLog2_spec by lia. pose proof (log2_large z ltac:(lia)). unfold u32.
    rewrite Z.mod_small; lia.
Qed.

(** The position of a size between two powers of two, in eighths. *)
Lemma eighths z : 0 < z → 8 ≤ 8 * z / 2 ^ Z.log2 z < 16.
Proof.
  intros Hz. pose proof (Z.log2_spec z Hz) as [H1 H2]. pose proof (Z.log2_nonneg z).
  rewrite Z.pow_succ_r in H2 by lia. pose proof (Z.pow_pos_nonneg 2 (Z.log2 z)).
  split; [apply Z.div_le_lower_bound; lia|apply Z.div_lt_upper_bound; lia].
Qed.

Lemma OsMemSlGet_spec z :
  128 ≤ z < 2 ^ 26 → OsMemSlGet z (Z.log2 z + 24) = 8 * z / 2 ^ Z.log2 z - 8.
Proof.
  intros Hz. pose proof (log2_large z Hz). pose proof (eighths z ltac:(lia)).
  unfold OsMemSlGet, OS_MEM_SMALL_BUCKET_COUNT, OS_MEM_SMALL_BUCKET_MAX_SIZE, OS_MEM_SLI, OS_MEM_LARGE_START_BUCKET.
  destruct (Z.ltb_spec (Z.log2 z + 24) 31); [lia|]. destruct (Z.ltb_spec z 128); [lia|]. simpl orb.
  cbn [orb]. rewrite Z.shiftl_mul_pow2 by lia. unfold u32. rewrite (Z.mod_small (z * 2 ^ 3)) by lia.
  replace (Z.log2 z + 24 - 31 + 7) with (Z.log2 z) by lia. rewrite Z.shiftr_div_pow2 by lia.
  change (Z.shiftl 1 3) with 8. replace (z * 2 ^ 3) with (8 * z) by lia. apply Z.mod_small. lia.
Qed.

Lemma OsMemFreeListIndexGet_spec z :
  4 ≤ z < 2 ^ 26 → OsMemFreeListIndexGet z = size_index z.
Proof.
  intros Hz. unfold OsMemFreeListIndexGet, size_index. rewrite OsMemFlGet_spec by done.
  unfold OS_MEM_SMALL_BUCKET_COUNT, OS_MEM_SLI. destruct (Z.ltb_spec z 128).
  - assert (z / 4 < 32) by (apply Z.div_lt_upper_bound; lia). by destruct (Z.ltb_spec (z / 4 - 1) 31); [|lia].
  - pose proof (log2_large z ltac:(lia)). pose proof (eighths z ltac:(lia)).
    destruct (Z.ltb_spec (Z.log2 z + 24) 31); [lia|]. rewrite OsMemSlGet_spec by lia.
    rewrite Z.shiftl_mul_pow2 by lia. unfold u32. rewrite Z.mod_small; lia.
Qed.

Lemma size_index_range z : 4 ≤ z < 2 ^ 26 → 0 ≤ size_index z < OS_MEM_FREE_LIST_COUNT.
Proof.
  intros Hz. change OS_MEM_FREE_LIST_COUNT with 223. unfold size_index. destruct (Z.ltb_spec z 128).
  - assert (1 ≤ z / 4) by (apply Z.div_le_lower_bound; lia).
    assert (z / 4 < 32) by (apply Z.div_lt_upper_bound; lia). lia.
  - pose proof (log2_large z ltac:(lia)). pose proof (eighths z ltac:(lia)). lia.
Qed.

(** Larger blocks are in later lists. *)
Lemma size_index_mono z z' : 4 ≤ z ≤ z' → size_index z ≤ size_index z'.
Proof.
  intros Hz. unfold size_index. destruct (Z.ltb_spec z 128), (Z.ltb_spec z' 128).
  - pose proof (Z.div_le_mono z z' 4). lia.
  - assert (z / 4 < 32) by (apply Z.div_lt_upper_bound; lia).
    assert (7 ≤ Z.log2 z') by (apply Z.log2_le_pow2; lia). pose proof (eighths z' ltac:(lia)). lia.
  - lia.
  - pose proof (eighths z ltac:(lia)). pose proof (eighths z' ltac:(lia)).
    assert (Z.log2 z ≤ Z.log2 z') by (apply Z.log2_le_mono; lia).
    destruct (decide (Z.log2 z = Z.log2 z')) as [El|]; [|lia].
    pose proof (Z.div_le_mono (8 * z) (8 * z') (2 ^ Z.log2 z')) as Hd. rewrite El.
    pose proof (Z.pow_pos_nonneg 2 (Z.log2 z')). pose proof (Z.log2_nonneg z'). lia.
Qed.

(** A block from a later list is larger. *)
Lemma size_index_lt z z' : 4 ≤ z → 4 ≤ z' → size_index z < size_index z' → z < z'.
Proof. intros Hz Hz' Hi. destruct (decide (z' ≤ z)); [|lia]. pose proof (size_index_mono z' z). lia. Qed.

(** The small lists hold blocks of one size. *)
Lemma size_index_small z z' :
  4 ≤ z < 128 → 4 ≤ z' → z mod 4 = 0 → size_index z ≤ size_index z' → z ≤ z'.
Proof.
  intros Hz Hz' Hm Hi. destruct (decide (z' < z)); [|lia]. unfold size_index in Hi.
  destruct (Z.ltb_spec z 128), (Z.ltb_spec z' 128); try lia.
  pose proof (Z.div_mod z 4). pose proof (Z.div_mod z' 4). pose proof (Z.mod_pos_bound z' 4). lia.
Qed.
