(* ===== verification/PoolInv.v ===== *)
(** The representation of a memory pool: a row of blocks that tile the pool, each behind a
    header that knows its size, its use and its predecessor, and the free ones chained in the
    free list of their size, with a bitmap of the lists that are not empty. *)

From stdpp Require Import functions.
From S2P Require Import Prelude DList Kernel Tick SortLink Mem Pmcu Sched Event Task Pool PoolIndex.
From S2P Require Import Bytes.

(** ** Writes to a set of words *)

(** [m'] is [m] after stores to words of the set [A]. *)
Inductive writes (A : Z → Prop) (m : gmap Z Z) : gmap Z Z → Prop :=
| writes_refl : writes A m m
| writes_step x v m' : A x → writes A m m' → writes A m (w32 x v m').

Lemma writes_trans A m1 m2 m3 : writes A m1 m2 → writes A m2 m3 → writes A m1 m3.
Proof. intros H1 H2. induction H2; [done|]. by constructor. Qed.

Lemma writes_mono (A B : Z → Prop) m m' : (∀ x, A x → B x) → writes A m m' → writes B m m'.
Proof. intros Hs Hw. induction Hw; constructor; auto. Qed.

Lemma writes_one (A : Z → Prop) m x v : A x → writes A m (w32 x v m).
Proof. intros HA. apply writes_step; [done|apply writes_refl]. Qed.

Lemma writes_read32 A m m' y :
  writes A m m' → (∀ x, A x → y + 4 ≤ x ∨ x + 4 ≤ y) → read32 m' y = read32 m y.
Proof. intros Hw Hd. induction Hw; [done|]. rewrite read32_w32_ne; auto. Qed.

Lemma writes_lookup A m m' i :
  writes A m m' → (∀ x, A x → i < x ∨ x + 4 ≤ i) → m' !! i = m !! i.
Proof.
  intros Hw Hd. induction Hw as [|x v m' Hx Hw IH]; [done|]. unfold w32.
  rewrite write_bytes_other; [done|]. rewrite le_split_length. by apply Hd.
Qed.

Lemma w32_mapped m x v a n : mapped m a n → mapped (w32 x v m) a n.
Proof. apply write_bytes_mapped. Qed.

Lemma writes_mapped A m m' a n : writes A m m' → mapped m a n → mapped m' a n.
Proof. intros Hw Hm. induction Hw; [done|]. by apply w32_mapped. Qed.

Lemma mapped_read32 m a n x :
  mapped m a n → a ≤ x → x + 4 ≤ a + Z.of_nat n → is_Some (read32 m x).
Proof.
  intros Hm Hx Hn. unfold read32. destruct (proj1 (read_bytes_mapped m x 4)) as [bs Eb].
  - intros i Hi. apply Hm. lia.
  - rewrite Eb. by eexists.
Qed.

(** ** Stepping through stores *)

Definition rset (s : kstate) (m : gmap Z Z) : kstate := s <| ram := m |>.

Lemma rset_id s : rset s (ram s) = s.
Proof. by destruct s. Qed.

Lemma wp_rset {A} (e : K A) Q s : wp e Q (rset s (ram s)) → wp e Q s.
Proof. by rewrite rset_id. Qed.

Lemma wpm_load32 s m a w (Q : Z → kstate → Prop) :
  read32 m a = Some w → Q w (rset s m) → wp (load32 a) Q (rset s m).
Proof. apply (wp_load32 a (rset s m)). Qed.

Lemma wpm_store32 s m a v (Q : unit → kstate → Prop) :
  is_Some (read32 m a) → Q tt (rset s (w32 a v m)) → wp (store32 a v) Q (rset s m).
Proof.
  intros [w Ew] HQ. apply wp_store32; [|exact HQ]. apply (read32_mapped _ _ w). exact Ew.
Qed.

Lemma u32_small x : 0 ≤ x < 2 ^ 32 → u32 x = x.
Proof. intros Hx. unfold u32. by rewrite Z.mod_small. Qed.

(** ** The word of a header *)

Lemma land_3 x : Z.land x 3 = x mod 4.
Proof. change 3 with (Z.ones 2). by rewrite Z.land_ones. Qed.
Lemma land_3F w : Z.land w 0x3F = w mod 64.
Proof. change 0x3F with (Z.ones 6). by rewrite Z.land_ones. Qed.

(** A store to the size keeps the task and stays a word. *)
Lemma set_word w v :
  0 ≤ v < 2 ^ 26 →
  let w' := Z.lor (Z.land w 0x3F) (Z.shiftl (Z.land v 0x3FFFFFF) 6) in
  0 ≤ w' < 2 ^ 32 ∧ Z.shiftr w' 6 = v ∧ w' mod 64 = w mod 64.
Proof.
  intros Hv w'. pose proof (Z.mod_pos_bound w 64 ltac:(lia)).
  assert (w' = v * 64 + w mod 64) as ->.
  { unfold w'. rewrite land_3F. change 0x3FFFFFF with (Z.ones 26).
    rewrite Z.land_ones, (Z.mod_small v) by lia. by apply (lor_high_low v (w mod 64) 6). }
  split; [lia|]. split.
  - rewrite Z.shiftr_div_pow2 by lia. change (2 ^ 6) with 64.
    rewrite Z.add_comm, Z.div_add, Z.div_small by lia. lia.
  - by rewrite Z.add_comm, Z.mod_add, Z.mod_mod by lia.
Qed.

(** The flags of a size below 16 MB. *)
Lemma size_flags z :
  0 ≤ z < 2 ^ 24 →
  OS_MEM_NODE_GET_SIZE z = z ∧ OS_MEM_NODE_GET_SIZE (z + 2 ^ 25) = z ∧
  OS_MEM_NODE_GET_USED_FLAG z = false ∧ OS_MEM_NODE_GET_USED_FLAG (z + 2 ^ 25) = true ∧
  Z.lor z OS_MEM_NODE_USED_FLAG = z + 2 ^ 25.
Proof.
  intros Hz. unfold OS_MEM_NODE_GET_SIZE, OS_MEM_NODE_GET_USED_FLAG, flag.
  assert (∀ j, 24 ≤ j → Z.testbit z j = false) as Hb.
  { intros j Hj. destruct (decide (z = 0)) as [->|]; [apply Z.bits_0|].
    apply Z.bits_above_log2; [lia|]. apply (Z.lt_le_trans _ 24); [apply Z.log2_lt_pow2; lia|lia]. }
  assert (Z.lor z OS_MEM_NODE_USED_FLAG = z + 2 ^ 25) as Hl.
  { change OS_MEM_NODE_USED_FLAG with (Z.shiftl 1 25). rewrite lor_high_low by lia. lia. }
  rewrite <- Hl. change OS_MEM_NODE_USED_FLAG with (Z.shiftl 1 25) in *.
  change OS_MEM_NODE_ALIGNED_FLAG with (Z.shiftl 1 24).
  assert (∀ n j, 0 ≤ j → 0 ≤ n → Z.testbit (Z.shiftl 1 n) j = (n =? j)) as Hs
    by (intros n j Hj Hn; rewrite Z.shiftl_1_l; by apply Z.pow2_bits_eqb).
  assert (Z.land z (Z.shiftl 1 25) = 0) as Hz0.
  { apply Z.bits_inj'. intros j Hj. rewrite Z.land_spec, Hs, Z.bits_0 by lia.
    destruct (Z.eqb_spec 25 j) as [<-|]; [by rewrite Hb|apply andb_false_r]. }
  split_and!; try done.
  - apply Z.bits_inj'. intros j Hj. rewrite Z.ldiff_spec, Z.lor_spec, !Hs by lia.
    destruct (Z.eqb_spec 25 j), (Z.eqb_spec 24 j); simpl;
      rewrite ?andb_true_r, ?andb_false_r; try done; by rewrite Hb by lia.
  - apply Z.bits_inj'. intros j Hj. rewrite Z.ldiff_spec, !Z.lor_spec, !Hs by lia.
    destruct (Z.eqb_spec 25 j), (Z.eqb_spec 24 j); simpl;
      rewrite ?orb_false_r, ?andb_true_r, ?andb_false_r; try done; by rewrite Hb by lia.
  - by rewrite Hz0.
  - rewrite Z.land_lor_distr_l, Hz0, Z.land_diag. done.
Qed.

(** ** Blocks *)

(** A block is in use by a task, free and in its list, or taken out of the lists for a moment;
    during a reallocation a block is held for its task although its header says it is unused. *)
Inductive bstate : Type := Used (tid : Z) | Held (tid : Z) | Free | Loose.
Record mblk : Type := mkBlk { bsize : Z; bstat : bstate }.

Definition is_used (b : mblk) : bool := match bstat b with Used _ => true | _ => false end.
Definition is_held (b : mblk) : bool := match bstat b with Used _ | Held _ => true | _ => false end.

(** The blocks of a row that starts at [a], with their addresses. *)
Fixpoint blocks (a : Z) (bs : list mblk) : list (Z * mblk) :=
  match bs with
  | [] => []
  | b :: bs => (a, b) :: blocks (a + bsize b) bs
  end.

Fixpoint total (bs : list mblk) : Z :=
  match bs with
  | [] => 0
  | b :: bs => bsize b + total bs
  end.

(** The address of the last block, [p] when there is none. *)
Fixpoint last_addr (p a : Z) (bs : list mblk) : Z :=
  match bs with
  | [] => p
  | b :: bs => last_addr a (a + bsize b) bs
  end.

Definition sized (bs : list mblk) : Prop := Forall (fun b => 16 ≤ bsize b ∧ bsize b mod 4 = 0) bs.

Lemma total_app l1 l2 : total (l1 ++ l2) = total l1 + total l2.
Proof. induction l1 as [|b l1 IH]; simpl; lia. Qed.

Lemma blocks_app a l1 l2 : blocks a (l1 ++ l2) = blocks a l1 ++ blocks (a + total l1) l2.
Proof.
  revert a. induction l1 as [|b l1 IH]; intros a; simpl; [by rewrite Z.add_0_r|].
  rewrite IH. by rewrite Z.add_assoc.
Qed.

Lemma last_addr_app p a l1 l2 :
  last_addr p a (l1 ++ l2) = last_addr (last_addr p a l1) (a + total l1) l2.
Proof.
  revert p a. induction l1 as [|b l1 IH]; intros p a; simpl; [by rewrite Z.add_0_r|].
  rewrite IH. by rewrite Z.add_assoc.
Qed.

Lemma total_nonneg bs : sized bs → 0 ≤ total bs.
Proof. induction 1; simpl; lia. Qed.

Lemma blocks_range a bs c b :
  sized bs → (c, b) ∈ blocks a bs → a ≤ c ∧ c + bsize b ≤ a + total bs ∧ 16 ≤ bsize b.
Proof.
  intros Hs. revert a. induction Hs as [|b0 bs [H1 _] Hs IH]; intros a; simpl; [set_solver|].
  pose proof (total_nonneg bs Hs). intros [[= -> ->]|Hin]%elem_of_cons; [lia|].
  destruct (IH _ Hin) as (? & ? & ?). lia.
Qed.

(** Two blocks are the same or apart. *)
Lemma blocks_apart a bs c b c' b' :
  sized bs → (c, b) ∈ blocks a bs → (c', b') ∈ blocks a bs →
  c = c' ∧ b = b' ∨ c + bsize b ≤ c' ∨ c' + bsize b' ≤ c.
Proof.
  intros Hs. revert a. induction Hs as [|b0 bs [H1 _] Hs IH]; intros a; simpl; [set_solver|].
  intros [E|Hin]%elem_of_cons [E'|Hin']%elem_of_cons; simplify_eq; [by left|..|by eapply IH].
  - pose proof (blocks_range _ _ _ _ Hs Hin'). lia.
  - pose proof (blocks_range _ _ _ _ Hs Hin). lia.
Qed.

Lemma blocks_mid a l1 b l2 : (a + total l1, b) ∈ blocks a (l1 ++ b :: l2).
Proof. rewrite blocks_app. simpl. set_solver. Qed.

Lemma blocks_split a bs c b :
  (c, b) ∈ blocks a bs → ∃ l1 l2, bs = l1 ++ b :: l2 ∧ c = a + total l1.
Proof.
  revert a. induction bs as [|d bs IH]; intros a; simpl; [set_solver|].
  intros [[= -> ->]|Hin]%elem_of_cons; [exists [], bs; simpl; split; [done|lia]|].
  destruct (IH _ Hin) as (l1 & l2 & -> & ->). exists (d :: l1), l2. simpl. split; [done|lia].
Qed.

(** ** The row in memory *)

Definition tid_word (st : bstate) (w : Z) : Prop :=
  match st with Used t | Held t => w mod 64 = t | _ => True end.

Definition hdr_word (b : mblk) (w : Z) : Prop :=
  Z.shiftr w 6 = bsize b + (if is_used b then 2 ^ 25 else 0) ∧
  tid_word (bstat b) w.

(** The header of [b] at [a], behind the block at [p]. *)
Definition node_at (m : gmap Z Z) (a p : Z) (b : mblk) : Prop :=
  read32 m (node_prev a) = Some p ∧ ∃ w, read32 m (node_word a) = Some w ∧ hdr_word b w.

Fixpoint seg (m : gmap Z Z) (p a : Z) (bs : list mblk) : Prop :=
  match bs with
  | [] => True
  | b :: bs => node_at m a p b ∧ seg m a (a + bsize b) bs
  end.

Lemma seg_app m p a l1 l2 :
  seg m p a (l1 ++ l2) ↔ seg m p a l1 ∧ seg m (last_addr p a l1) (a + total l1) l2.
Proof.
  revert p a. induction l1 as [|b l1 IH]; intros p a; simpl; [rewrite Z.add_0_r; tauto|].
  rewrite IH, Z.add_assoc. tauto.
Qed.

Lemma seg_ext m m' p a bs :
  (∀ c b, (c, b) ∈ blocks a bs → read32 m' (node_prev c) = read32 m (node_prev c) ∧
     read32 m' (node_word c) = read32 m (node_word c)) →
  seg m p a bs → seg m' p a bs.
Proof.
  revert p a. induction bs as [|b bs IH]; intros p a He; simpl; [done|].
  intros [[H1 H2] Hs]. destruct (He a b) as [E1 E2]; [set_solver|]. split.
  - unfold node_at. rewrite E1, E2. done.
  - apply IH; [|done]. intros c b' Hin. apply (He c b'). simpl. set_solver.
Qed.

(** ** Free lists *)

(** The nodes [l] are chained in both directions; [p] is before the first. *)
Fixpoint dll (m : gmap Z Z) (p : Z) (l : list Z) : Prop :=
  match l with
  | [] => True
  | c :: l => read32 m (free_prev c) = Some p ∧ read32 m (free_next c) = Some (List.hd 0 l) ∧ dll m c l
  end.

Lemma dll_ext m m' p l :
  (∀ c, c ∈ l → read32 m' (free_prev c) = read32 m (free_prev c) ∧
     read32 m' (free_next c) = read32 m (free_next c)) →
  dll m p l → dll m' p l.
Proof.
  revert p. induction l as [|c l IH]; intros p He; simpl; [done|]. intros (H1 & H2 & H3).
  destruct (He c) as [-> ->]; [set_solver|]. split_and!; [done..|]. apply IH; [|done].
  intros d Hd. apply He. set_solver.
Qed.

Definition bitmap_ok (m : gmap Z Z) (P : Z) (L : Z → list Z) (j : Z) : Prop :=
  ∃ w, read32 m (freeListBitmap P j) = Some w ∧ 0 ≤ w < 2 ^ 32 ∧
    ∀ k, 0 ≤ k < 32 → Z.testbit w k = bool_decide (L (32 * j + k) ≠ []).

Record Lists (m : gmap Z Z) (P : Z) (L : Z → list Z) : Prop := {
  l_head i : 0 ≤ i < OS_MEM_FREE_LIST_COUNT → read32 m (freeList P i) = Some (List.hd 0 (L i));
  l_chain i : 0 ≤ i < OS_MEM_FREE_LIST_COUNT → dll m 0 (L i);
  l_bits j : 0 ≤ j < OS_MEM_BITMAP_WORDS → bitmap_ok m P L j
}.

(** The nodes of the lists do not overlap, and lie behind the head of the pool. *)
Record spaced (P : Z) (L : Z → list Z) : Prop := {
  sp_range i c : c ∈ L i → P + sizeof_OsMemPoolHead ≤ c < 2 ^ 32;
  sp_apart i j c d : c ∈ L i → d ∈ L j → c = d ∨ c + 16 ≤ d ∨ d + 16 ≤ c;
  sp_one i j c : c ∈ L i → c ∈ L j → i = j;
  sp_nodup i : NoDup (L i)
}.

(** The words of the lists. *)
Definition link_word (P : Z) (L : Z → list Z) (x : Z) : Prop :=
  (∃ i, 0 ≤ i < OS_MEM_FREE_LIST_COUNT ∧ x = freeList P i) ∨
  (∃ j, 0 ≤ j < OS_MEM_BITMAP_WORDS ∧ x = freeListBitmap P j) ∨
  (∃ i c, c ∈ L i ∧ (x = free_prev c ∨ x = free_next c)).

(** Unfold the addresses of fields for [lia]. *)
Ltac addrs :=
  unfold node_prev, node_word, free_prev, free_next, freeList, freeListBitmap, info_pool,
    info_totalSize, info_attr, info_waterLine, info_curUsedSize, nextPool in *;
  change OS_MEM_FREE_LIST_COUNT with 223 in *; change OS_MEM_BITMAP_WORDS with 7 in *;
  change sizeof_OsMemPoolHead with 944 in *; change OS_MEM_NODE_HEAD_SIZE with 8 in *;
  change OS_MEM_MIN_POOL_SIZE with 952 in *; change OS_MEM_MIN_LEFT_SIZE with 16 in *.

(** Read a word after stores. *)
Ltac rd := repeat first
  [ rewrite read32_w32 by (addrs; lia)
  | rewrite read32_w32_ne by (addrs; lia) ].

Lemma elem_of_fn_cons (L : Z → list Z) i j c d :
  d ∈ (<[i := c :: L i]> L) j → (j = i ∧ d = c) ∨ d ∈ L j.
Proof.
  destruct (decide (i = j)) as [<-|]; [rewrite fn_lookup_insert|by rewrite fn_lookup_insert_ne; auto].
  set_solver.
Qed.

(** The bit of the list [i] in its word. *)
Lemma bit_index i : 0 ≤ i → Z.shiftr i 5 = i / 32 ∧ Z.land i 0x1f = i mod 32.
Proof.
  intros Hi. split; [by rewrite Z.shiftr_div_pow2 by lia|].
  change 0x1f with (Z.ones 5). by rewrite Z.land_ones by lia.
Qed.

Lemma word_bits w k : 0 ≤ w < 2 ^ 32 → 32 ≤ k → Z.testbit w k = false.
Proof.
  intros Hw Hk. destruct (decide (w = 0)) as [->|]; [apply Z.bits_0|].
  apply Z.bits_above_log2; [lia|]. apply (Z.lt_le_trans _ 32); [apply Z.log2_lt_pow2; lia|lia].
Qed.

Lemma bits_word w : 0 ≤ w → (∀ k, 32 ≤ k → Z.testbit w k = false) → 0 ≤ w < 2 ^ 32.
Proof.
  intros Hw Hb. split; [done|]. destruct (decide (w = 0)) as [->|]; [lia|].
  apply Z.log2_lt_pow2; [lia|]. destruct (decide (Z.log2 w < 32)) as [|Hl]; [done|].
  specialize (Hb (Z.log2 w)). rewrite Z.bit_log2 in Hb by lia. specialize (Hb ltac:(lia)). done.
Qed.

Lemma set_bit w k : 0 ≤ w < 2 ^ 32 → 0 ≤ k < 32 →
  0 ≤ Z.lor w (Z.shiftl 1 k) < 2 ^ 32 ∧
  ∀ j, 0 ≤ j → Z.testbit (Z.lor w (Z.shiftl 1 k)) j = Z.testbit w j || (k =? j).
Proof.
  intros Hw Hk. assert (∀ j, 0 ≤ j → Z.testbit (Z.lor w (Z.shiftl 1 k)) j = Z.testbit w j || (k =? j)) as Hb.
  { intros j Hj. by rewrite Z.lor_spec, Z.shiftl_1_l, Z.pow2_bits_eqb by lia. }
  split; [|done]. apply bits_word.
  - apply Z.lor_nonneg. split; [lia|]. apply Z.shiftl_nonneg. lia.
  - intros j Hj. rewrite Hb, word_bits by (done || lia). apply Z.eqb_neq. lia.
Qed.

Lemma clear_bit w k : 0 ≤ w < 2 ^ 32 → 0 ≤ k < 32 →
  0 ≤ Z.ldiff w (Z.shiftl 1 k) < 2 ^ 32 ∧
  ∀ j, 0 ≤ j → Z.testbit (Z.ldiff w (Z.shiftl 1 k)) j = Z.testbit w j && negb (k =? j).
Proof.
  intros Hw Hk. assert (∀ j, 0 ≤ j → Z.testbit (Z.ldiff w (Z.shiftl 1 k)) j = Z.testbit w j && negb (k =? j)) as Hb.
  { intros j Hj. by rewrite Z.ldiff_spec, Z.shiftl_1_l, Z.pow2_bits_eqb by lia. }
  split; [|done]. apply bits_word.
  - apply Z.ldiff_nonneg. lia.
  - intros j Hj. rewrite Hb, word_bits by (done || lia). done.
Qed.
