(* ===== verification/PoolLists.v ===== *)
(** The free lists of a memory pool: adding a node, taking one out and searching for a block
    that is large enough. *)

From stdpp Require Import functions.
From S2P Require Import Prelude DList Kernel Tick SortLink Mem Pmcu Sched Event Task Pool PoolIndex.
From S2P Require Import Bytes PoolInv.

(** ** The bitmap *)

Section bits.
  Context (s : kstate) (m : gmap Z Z) (P : Z) (L L' : Z → list Z) (i : Z).
  Context (Hi : 0 ≤ i < OS_MEM_FREE_LIST_COUNT).
  Context (Hb : ∀ j, 0 ≤ j < OS_MEM_BITMAP_WORDS → bitmap_ok m P L j).
  Context (HL : ∀ x, x ≠ i → L' x = L x).

Lemma word_index : 0 ≤ i / 32 < OS_MEM_BITMAP_WORDS.
Proof. addrs. split; [apply Z.div_pos; lia|apply Z.div_lt_upper_bound; lia]. Qed.

(** The word of [i] changes in the bit of [i] only. *)
Lemma bitmap_update w w' :
  read32 m (freeListBitmap P (i / 32)) = Some w → 0 ≤ w' < 2 ^ 32 →
  (∀ k, 0 ≤ k < 32 → Z.testbit w' k =
     if i mod 32 =? k then bool_decide (L' i ≠ []) else Z.testbit w k) →
  ∀ j, 0 ≤ j < OS_MEM_BITMAP_WORDS → bitmap_ok (w32 (freeListBitmap P (i / 32)) w' m) P L' j.
Proof.
  intros Ew Hw' Hbits j Hj. pose proof word_index as Hx. destruct (Hb j Hj) as (wj & Ej & Hwj & Htj).
  pose proof (Z.div_mod i 32 ltac:(lia)) as Hdm.
  destruct (decide (j = i / 32)) as [->|Hne].
  - exists w'. rewrite read32_w32 by done. split_and!; [done|lia|lia|]. intros k Hk.
    rewrite Hbits by done. destruct (Z.eqb_spec (i mod 32) k) as [<-|].
    + by rewrite <- Hdm.
    + simplify_eq. rewrite Htj by done. by rewrite HL by lia.
  - exists wj. rewrite read32_w32_ne by (addrs; lia). split_and!; [done|lia|lia|]. intros k Hk.
    rewrite Htj, HL; [done| |done]. pose proof (Z.mod_pos_bound i 32). lia.
Qed.

Lemma wp_OsMemSetFreeListBit (Q : unit → kstate → Prop) :
  L' i ≠ [] →
  (∀ w', (∀ j, 0 ≤ j < OS_MEM_BITMAP_WORDS →
       bitmap_ok (w32 (freeListBitmap P (i / 32)) w' m) P L' j) →
     Q tt (rset s (w32 (freeListBitmap P (i / 32)) w' m))) →
  wp (OsMemSetFreeListBit P i) Q (rset s m).
Proof.
  intros Hne HQ. unfold OsMemSetFreeListBit. destruct (bit_index i) as [-> ->]; [lia|].
  destruct (Hb (i / 32) word_index) as (w & Ew & Hw & Ht). wp_step. eapply wpm_load32; [exact Ew|].
  pose proof (Z.mod_pos_bound i 32 ltac:(lia)). destruct (set_bit w (i mod 32)) as [Hr Hbit]; [done..|].
  apply wpm_store32; [by eexists|]. apply HQ. eapply bitmap_update; [exact Ew|exact Hr|].
  intros k Hk. rewrite Hbit by lia. destruct (Z.eqb_spec (i mod 32) k); [|by rewrite orb_false_r].
  by rewrite bool_decide_eq_true_2, orb_true_r.
Qed.

Lemma wp_OsMemClearFreeListBit (Q : unit → kstate → Prop) :
  L' i = [] →
  (∀ w', (∀ j, 0 ≤ j < OS_MEM_BITMAP_WORDS →
       bitmap_ok (w32 (freeListBitmap P (i / 32)) w' m) P L' j) →
     Q tt (rset s (w32 (freeListBitmap P (i / 32)) w' m))) →
  wp (OsMemClearFreeListBit P i) Q (rset s m).
Proof.
  intros Hne HQ. unfold OsMemClearFreeListBit. destruct (bit_index i) as [-> ->]; [lia|].
  destruct (Hb (i / 32) word_index) as (w & Ew & Hw & Ht). wp_step. eapply wpm_load32; [exact Ew|].
  pose proof (Z.mod_pos_bound i 32 ltac:(lia)). destruct (clear_bit w (i mod 32)) as [Hr Hbit]; [done..|].
  apply wpm_store32; [by eexists|]. apply HQ. eapply bitmap_update; [exact Ew|exact Hr|].
  intros k Hk. rewrite Hbit by lia. destruct (Z.eqb_spec (i mod 32) k); [|by rewrite andb_true_r].
  by rewrite bool_decide_eq_false_2, andb_false_r by tauto.
Qed.
End bits.

(** The bitmap does not depend on other words. *)
Lemma bitmap_ext m m' P L L' :
  (∀ j, 0 ≤ j < OS_MEM_BITMAP_WORDS → read32 m' (freeListBitmap P j) = read32 m (freeListBitmap P j)) →
  (∀ x, L' x = [] ↔ L x = []) →
  ∀ j, 0 ≤ j < OS_MEM_BITMAP_WORDS → bitmap_ok m P L j → bitmap_ok m' P L' j.
Proof.
  intros He HL j Hj (w & Ew & Hw & Ht). exists w. rewrite He by done. split_and!; [done|lia|lia|].
  intros k Hk. rewrite Ht by done. apply bool_decide_ext. by rewrite HL.
Qed.

(** ** Adding a node *)

Section add.
  Context (s : kstate) (m : gmap Z Z) (P : Z) (L : Z → list Z) (i c : Z).
  Context (HL : Lists m P L) (Hsp : spaced P L) (HP : 0 ≤ P) (Hi : 0 ≤ i < OS_MEM_FREE_LIST_COUNT).
  Context (Hc : P + sizeof_OsMemPoolHead ≤ c < 2 ^ 32).
  Context (Hfresh : ∀ j d, d ∈ L j → c + 16 ≤ d ∨ d + 16 ≤ c).
  Context (Hc1 : is_Some (read32 m (free_prev c))) (Hc2 : is_Some (read32 m (free_next c))).

Lemma spaced_add : spaced P (<[i := c :: L i]> L).
Proof.
  destruct Hsp as [S1 S2 S3 S4]. constructor.
  - intros j d [[-> ->]|Hd]%elem_of_fn_cons; [done|by apply (S1 j)].
  - intros j k d e [[-> ->]|Hd]%elem_of_fn_cons [[-> ->]|He]%elem_of_fn_cons;
      [by left|right; by eapply Hfresh| |by eapply S2].
    destruct (Hfresh j d Hd); auto.
  - intros j k d Hd%elem_of_fn_cons He%elem_of_fn_cons.
    destruct Hd as [[-> ->]|Hd], He as [[-> E]|He]; [done| | |by eapply S3].
    + destruct (Hfresh k c He); lia.
    + subst d. destruct (Hfresh j c Hd); lia.
  - intros j. destruct (decide (i = j)) as [<-|]; [rewrite fn_lookup_insert|by rewrite fn_lookup_insert_ne].
    apply NoDup_cons. split; [|done]. intros Hin. destruct (Hfresh i c Hin); lia.
Qed.

(** The words of the lists afterwards. *)
Definition list_added : Z → list Z := <[i := c :: L i]> L.

Lemma link_head : link_word P list_added (freeList P i).
Proof. left. by exists i. Qed.
Lemma link_bits : link_word P list_added (freeListBitmap P (i / 32)).
Proof. right; left. exists (i / 32). split; [by apply word_index|done]. Qed.
Lemma link_node d : d ∈ c :: L i → link_word P list_added (free_prev d) ∧ link_word P list_added (free_next d).
Proof. intros Hd. unfold list_added. split; right; right; exists i, d; rewrite fn_lookup_insert; auto. Qed.

(** The chain of the list before its head and bit are stored. *)
Definition chain_word (l : list Z) (x : Z) : Prop := ∃ d, d ∈ l ∧ (x = free_prev d ∨ x = free_next d).

Lemma wp_list_push (k : K unit) (Q : unit → kstate → Prop) :
  (∀ m', dll m' 0 (c :: L i) → writes (chain_word (c :: take 1 (L i))) m m' → wp k Q (rset s m')) →
  wp (when (negb (List.hd 0 (L i) =? 0)) (store32 (free_prev (List.hd 0 (L i))) c);;
      (store32 (free_prev c) 0;; (store32 (free_next c) (List.hd 0 (L i));; k))) Q (rset s m).
Proof.
  intros HQ. pose proof (l_chain _ _ _ HL i Hi) as Hd. destruct Hsp as [S1 S2 S3 S4].
  specialize (S1 i). specialize (S2 i i). specialize (S4 i). specialize (Hfresh i). 
  destruct (L i) as [|d l] eqn:El; cbn [List.hd take] in *; unfold when; wp_step.
  - rewrite Z.eqb_refl. cbn [negb]. wp_step. wp_step. apply wpm_store32; [done|]. wp_step.
    apply wpm_store32; [by rd|]. apply HQ; [cbn [dll List.hd]; by rd|].
    apply writes_step; [exists c; set_solver|]. apply writes_one. exists c. set_solver.
  - destruct Hd as (D1 & D2 & D3). pose proof (S1 d ltac:(set_solver)) as Hdr.
    pose proof (Hfresh d ltac:(set_solver)) as Hdc. apply NoDup_cons in S4 as [Hdl _].
    destruct (Z.eqb_spec d 0) as [->|_]; [addrs; lia|]. cbn [negb].
    apply wpm_store32; [by eexists|]. wp_step. apply wpm_store32; [by rd|]. wp_step.
    apply wpm_store32; [by rd|]. apply HQ.
    + cbn [dll List.hd]. rd. split_and!; [done..|]. eapply dll_ext; [|exact D3]. intros e He.
      assert (e ≠ d) by (intros ->; done).
      pose proof (S2 d e ltac:(set_solver) ltac:(set_solver)).
      pose proof (Hfresh e ltac:(set_solver)). rd. done.
    + apply writes_step; [exists c; set_solver|]. apply writes_step; [exists c; set_solver|].
      apply writes_one. exists d. set_solver.
Qed.

Lemma chain_word_link x : chain_word (c :: take 1 (L i)) x → link_word P list_added x.
Proof.
  intros (d & Hd & Hx). right; right. exists i, d. split; [|done]. unfold list_added. rewrite fn_lookup_insert.
  apply elem_of_cons in Hd as [->|Hd]; [set_solver|]. apply elem_of_cons. right.
  by apply (subseteq_take 1 (L i)).
Qed.

Lemma chain_word_far x : chain_word (c :: take 1 (L i)) x → P + 952 ≤ x.
Proof.
  intros (d & Hd & Hx). assert (P + 944 ≤ d); [|addrs; lia].
  apply elem_of_cons in Hd as [->|Hd]; [addrs; lia|].
  apply (sp_range _ _ Hsp i d). by apply (subseteq_take 1 (L i)).
Qed.

Lemma wp_OsMemListAdd (Q : unit → kstate → Prop) :
  (∀ m', Lists m' P list_added → writes (link_word P list_added) m m' → Q tt (rset s m')) →
  wp (OsMemListAdd P i c) Q (rset s m).
Proof.
  intros HQ. unfold OsMemListAdd. wp_step. eapply wpm_load32; [by apply HL|].
  apply wp_list_push. intros m1 Hd1 Hw1.
  assert (∀ y, y + 4 ≤ P + 944 → read32 m1 y = read32 m y) as Hhead.
  { intros y Hy. eapply writes_read32; [exact Hw1|]. intros x Hx%chain_word_far. lia. }
  wp_step. apply wpm_store32; [rewrite Hhead by (addrs; lia); by eexists; apply HL|].
  eapply (wp_OsMemSetFreeListBit s _ P L list_added i); [done| |by intros; unfold list_added; rewrite fn_lookup_insert_ne| |].
  { intros j Hj. eapply bitmap_ext; [|done|exact Hj|by apply HL]. intros j' Hj'. rd. apply Hhead. addrs. lia. }
  { unfold list_added. by rewrite fn_lookup_insert. }
  intros w' Hbits. apply HQ.
  2: { apply writes_step; [apply link_bits|]. apply writes_step; [apply link_head|].
       eapply writes_mono; [|exact Hw1]. apply chain_word_link. }
  pose proof (word_index i Hi) as Hwi. constructor.
  - intros j Hj. rd. unfold list_added. destruct (decide (i = j)) as [<-|].
    + rewrite fn_lookup_insert. by rd.
    + rewrite fn_lookup_insert_ne by done. rd. rewrite Hhead by (addrs; lia). by apply HL.
  - intros j Hj. unfold list_added. destruct (decide (i = j)) as [<-|Hne].
    + rewrite fn_lookup_insert. eapply dll_ext; [|exact Hd1]. intros d Hd.
      assert (P + 944 ≤ d) by (apply elem_of_cons in Hd as [->|Hd]; [addrs; lia|by apply (sp_range _ _ Hsp i)]).
      split; by rd.
    + rewrite fn_lookup_insert_ne by done. eapply dll_ext; [|by apply HL]. intros d Hd.
      pose proof (sp_range _ _ Hsp j d Hd) as Hr. pose proof (Hfresh j d Hd) as Hf.
      assert (∀ y, y = free_prev d ∨ y = free_next d → read32 m1 y = read32 m y) as Hsame.
      { intros y Hy. eapply writes_read32; [exact Hw1|]. intros x (e & He & Hx).
        apply elem_of_cons in He as [->|He]; [addrs; lia|].
        apply (subseteq_take 1 (L i)) in He. destruct (sp_apart _ _ Hsp i j e d He Hd) as [->|Ha]; [|addrs; lia].
        destruct Hne. by apply (sp_one _ _ Hsp i j d). }
      split; rd; apply Hsame; auto.
  - exact Hbits.
Qed.
End add.

(** ** Taking a node out *)

Lemma last_cons (a p : Z) l : List.last (a :: l) p = List.last l a.
Proof.
  revert a p. induction l as [|b l IH]; intros a p; [done|].
  change (List.last (b :: l) p = List.last (b :: l) a). by rewrite !IH.
Qed.

Lemma dll_mid m p l1 c l2 :
  dll m p (l1 ++ c :: l2) →
  read32 m (free_prev c) = Some (List.last l1 p) ∧ read32 m (free_next c) = Some (List.hd 0 l2).
Proof.
  revert p. induction l1 as [|a l1 IH]; intros p; simpl; [tauto|].
  intros (_ & _ & Hd). destruct (IH _ Hd) as [E1 E2]. split; [|done]. by rewrite E1, <- (last_cons a p).
Qed.

(** The neighbours of a node are linked to each other. *)
Lemma dll_remove m m' l1 c l2 : ∀ p,
  NoDup (l1 ++ l2) → dll m p (l1 ++ c :: l2) →
  (∀ d l, l2 = d :: l → read32 m' (free_prev d) = Some (List.last l1 p)) →
  (∀ l e, l1 = l ++ [e] → read32 m' (free_next e) = Some (List.hd 0 l2)) →
  (∀ d, d ∈ l1 ++ l2 → head l2 ≠ Some d → read32 m' (free_prev d) = read32 m (free_prev d)) →
  (∀ d, d ∈ l1 ++ l2 → last l1 ≠ Some d → read32 m' (free_next d) = read32 m (free_next d)) →
  dll m' p (l1 ++ l2).
Proof.
  induction l1 as [|a l1 IH]; intros p HN Hd H1 H2 H3 H4; simpl in *.
  - destruct Hd as (_ & _ & Hd). destruct l2 as [|d l]; [done|]. destruct Hd as (_ & D2 & D3). simpl.
    apply NoDup_cons in HN as [Hdl _]. rewrite (H1 d l eq_refl), H4, D2 by (done || set_solver). split_and!; [done..|].
    eapply dll_ext; [|exact D3]. intros e He. split; [apply H3|apply H4]; [set_solver| |set_solver|done].
    intros [= ->]. done.
  - destruct Hd as (D1 & D2 & D3). apply NoDup_cons in HN as [Ha HN].
    rewrite H3, D1; [|set_solver|intros E; apply Ha; destruct l2; simplify_eq/=; set_solver].
    split; [done|]. split.
    + destruct l1 as [|b l1].
      * simpl. by rewrite (H2 [] a).
      * simpl in *. rewrite H4, D2; [done|set_solver|]. intros E. apply Ha.
        apply last_Some in E as [l' E]. assert (a ∈ b :: l1) by (rewrite E; set_solver). set_solver.
    + apply IH; [done|exact D3|..].
      * intros d l ->. by rewrite (H1 d l), <- (last_cons a p).
      * intros l e ->. by apply (H2 (a :: l)).
      * intros d Hd Hh. apply H3; [set_solver|done].
      * intros d Hd Hl. apply H4; [set_solver|]. destruct l1; [|done]. intros [= ->]. done.
Qed.

Section delete.
  Context (s : kstate) (m : gmap Z Z) (P : Z) (L : Z → list Z) (i c : Z) (l1 l2 : list Z).
  Context (HL : Lists m P L) (Hsp : spaced P L) (HP : 0 ≤ P) (Hi : 0 ≤ i < OS_MEM_FREE_LIST_COUNT).
  Context (El : L i = l1 ++ c :: l2).

Definition list_removed : Z → list Z := <[i := l1 ++ l2]> L.

(** The words that change. *)
Definition unlink_word (x : Z) : Prop :=
  x = freeList P i ∨ x = freeListBitmap P (i / 32) ∨
  (∃ e, last l1 = Some e ∧ x = free_next e) ∨ (∃ d, head l2 = Some d ∧ x = free_prev d).

Lemma last_in e : last l1 = Some e → e ∈ l1 ++ l2.
Proof. intros [l' ->]%last_Some. set_solver. Qed.
Lemma head_in d : head l2 = Some d → d ∈ l1 ++ l2.
Proof. destruct l2; [done|]. intros [= ->]. set_solver. Qed.
Lemma rest_in d : d ∈ l1 ++ l2 → d ∈ L i.
Proof. rewrite El. set_solver. Qed.
Lemma rest_nodup : NoDup (l1 ++ l2) ∧ c ∉ l1 ++ l2.
Proof.
  pose proof (sp_nodup _ _ Hsp i) as HN. rewrite El in HN. apply NoDup_app in HN as (N1 & N2 & N3).
  apply NoDup_cons in N3 as [N3 N4]. split; [|set_solver]. apply NoDup_app. set_solver.
Qed.

Lemma unlink_link x : unlink_word x → link_word P L x.
Proof.
  intros [->|[->|[(e & He & ->)|(d & Hd & ->)]]].
  - left. eauto.
  - right; left. exists (i / 32). split; [by apply word_index|done].
  - right; right. exists i, e. split; [by apply rest_in, last_in|by right].
  - right; right. exists i, d. split; [by apply rest_in, head_in|by left].
Qed.

Lemma spaced_removed : spaced P list_removed.
Proof.
  assert (∀ j d, d ∈ list_removed j → d ∈ L j) as Hsub.
  { intros j d. unfold list_removed. destruct (decide (i = j)) as [<-|];
      [rewrite fn_lookup_insert; apply rest_in|by rewrite fn_lookup_insert_ne]. }
  destruct Hsp as [S1 S2 S3 S4]. constructor.
  - intros j d Hd. by apply (S1 j), Hsub.
  - intros j k d e Hd He. apply (S2 j k); by apply Hsub.
  - intros j k d Hd He. apply (S3 j k d); by apply Hsub.
  - intros j. unfold list_removed. destruct (decide (i = j)) as [<-|];
      [rewrite fn_lookup_insert; apply rest_nodup|by rewrite fn_lookup_insert_ne].
Qed.

(** The lists after the neighbours of [c] were linked. *)
Lemma Lists_removed m' :
  writes unlink_word m m' → read32 m' (freeList P i) = Some (List.hd 0 (l1 ++ l2)) →
  (∀ d l, l2 = d :: l → read32 m' (free_prev d) = Some (List.last l1 0)) →
  (∀ l e, l1 = l ++ [e] → read32 m' (free_next e) = Some (List.hd 0 l2)) →
  (∀ j, 0 ≤ j < OS_MEM_BITMAP_WORDS → bitmap_ok m' P list_removed j) → Lists m' P list_removed.
Proof.
  intros Hw Hh H1 H2 Hb. pose proof (word_index i Hi) as Hwi.
  assert (∀ e, e ∈ l1 ++ l2 → P + 944 ≤ e) as Hlow.
  { intros e He. apply (sp_range _ _ Hsp i). by apply rest_in. }
  constructor; [| |done].
  - intros j Hj. unfold list_removed. destruct (decide (i = j)) as [<-|]; [by rewrite fn_lookup_insert|].
    rewrite fn_lookup_insert_ne by done. rewrite <- (l_head _ _ _ HL j Hj). eapply writes_read32; [exact Hw|].
    intros x [->|[->|[(e & He%last_in%Hlow & ->)|(d & Hd%head_in%Hlow & ->)]]]; addrs; lia.
  - intros j Hj. unfold list_removed. destruct (decide (i = j)) as [<-|Hne].
    + rewrite fn_lookup_insert. pose proof (l_chain _ _ _ HL i Hi) as Hd. rewrite El in Hd.
      eapply dll_remove; [apply rest_nodup|exact Hd|done|done|..].
      * intros d Hd' Hne. eapply writes_read32; [exact Hw|]. pose proof (Hlow d Hd').
        intros x [->|[->|[(e & He & ->)|(d' & Hd2 & ->)]]]; [addrs; lia..| |].
        -- pose proof (sp_apart _ _ Hsp i i e d (rest_in _ (last_in _ He)) (rest_in _ Hd')). addrs; lia.
        -- pose proof (sp_apart _ _ Hsp i i d' d (rest_in _ (head_in _ Hd2)) (rest_in _ Hd')).
           assert (d ≠ d') by congruence. addrs; lia.
      * intros d Hd' Hne. eapply writes_read32; [exact Hw|]. pose proof (Hlow d Hd').
        intros x [->|[->|[(e & He & ->)|(d' & Hd2 & ->)]]]; [addrs; lia..| |].
        -- pose proof (sp_apart _ _ Hsp i i e d (rest_in _ (last_in _ He)) (rest_in _ Hd')).
           assert (d ≠ e) by congruence. addrs; lia.
        -- pose proof (sp_apart _ _ Hsp i i d' d (rest_in _ (head_in _ Hd2)) (rest_in _ Hd')). addrs; lia.
    + rewrite fn_lookup_insert_ne by done. eapply dll_ext; [|by apply HL]. intros d Hd.
      pose proof (sp_range _ _ Hsp j d Hd).
      assert (∀ e, e ∈ l1 ++ l2 → e + 16 ≤ d ∨ d + 16 ≤ e) as Hfar.
      { intros e He%rest_in. destruct (sp_apart _ _ Hsp i j e d He Hd) as [->|]; [|lia].
        destruct Hne. by apply (sp_one _ _ Hsp i j d). }
      split; (eapply writes_read32; [exact Hw|]);
        intros x [->|[->|[(e & He%last_in%Hfar & ->)|(d' & Hd2%head_in%Hfar & ->)]]]; addrs; lia.
Qed.

Lemma removed_other x : x ≠ i → list_removed x = L x.
Proof. intros. unfold list_removed. by rewrite fn_lookup_insert_ne. Qed.

(** The bitmap, when the list does not become empty. *)
Lemma removed_bits m' :
  l1 ++ l2 ≠ [] → (∀ j, 0 ≤ j < OS_MEM_BITMAP_WORDS →
    read32 m' (freeListBitmap P j) = read32 m (freeListBitmap P j)) →
  ∀ j, 0 ≤ j < OS_MEM_BITMAP_WORDS → bitmap_ok m' P list_removed j.
Proof.
  intros Hne He j Hj. eapply bitmap_ext; [exact He| |exact Hj|by apply HL]. intros x.
  destruct (decide (x = i)) as [->|]; [|by rewrite removed_other].
  unfold list_removed. rewrite fn_lookup_insert, El. split; [done|]. by destruct l1.
Qed.

(** The words of the node and of the nodes around it. *)
Lemma node_words :
  read32 m (freeList P i) = Some (List.hd 0 (l1 ++ c :: l2)) ∧
  read32 m (free_prev c) = Some (List.last l1 0) ∧ read32 m (free_next c) = Some (List.hd 0 l2) ∧
  P + 944 ≤ c < 2 ^ 32.
Proof.
  pose proof (l_chain _ _ _ HL i Hi) as Hd. pose proof (l_head _ _ _ HL i Hi) as Hh. rewrite El in Hd, Hh.
  destruct (dll_mid _ _ _ _ _ Hd) as [Ep En]. split_and!; try done; apply (sp_range _ _ Hsp i c); rewrite El; set_solver.
Qed.

Lemma rest_words d : d ∈ l1 ++ l2 →
  P + 944 ≤ d < 2 ^ 32 ∧ (d + 16 ≤ c ∨ c + 16 ≤ d) ∧
  is_Some (read32 m (free_prev d)) ∧ is_Some (read32 m (free_next d)).
Proof.
  intros Hd. pose proof (rest_in d Hd) as Hin. pose proof rest_nodup as [_ Hc].
  split; [by apply (sp_range _ _ Hsp i)|]. split.
  - destruct (sp_apart _ _ Hsp i i d c) as [->|]; [done|rewrite El; set_solver|done|lia].
  - pose proof (l_chain _ _ _ HL i Hi) as Hch. apply list_elem_of_split in Hin as (k1 & k2 & Ek). rewrite Ek in Hch.
    destruct (dll_mid _ _ _ _ _ Hch) as [-> ->]. split; by eexists.
Qed.

Lemma wp_delete_first (Q : unit → kstate → Prop) :
  l1 = [] → (∀ m', Lists m' P list_removed → writes unlink_word m m' → Q tt (rset s m')) →
  wp (OsMemListDelete P i c) Q (rset s m).
Proof.
  intros E1 HQ. destruct node_words as (Hh & _ & En & Hcr). pose proof (word_index i Hi) as Hwi.
  rewrite E1 in Hh. cbn [List.hd app] in Hh. unfold OsMemListDelete. wp_step. eapply wpm_load32; [exact Hh|].
  rewrite Z.eqb_refl. wp_step. eapply wpm_load32; [exact En|]. wp_step. apply wpm_store32; [by eexists|]. wp_step.
  eapply wpm_load32; [by rd|].
  assert (l2 = [] ∨ ∃ d l', l2 = d :: l') as [E2|(d & l' & E2)] by (destruct l2; eauto);
    rewrite E2 in En |- *; cbn [List.hd] in *.
  - rewrite Z.eqb_refl. eapply (wp_OsMemClearFreeListBit s _ P L list_removed i); [done| |apply removed_other| |].
    + intros j Hj. eapply bitmap_ext; [|done|exact Hj|by apply HL]. intros j' Hj'. by rd.
    + unfold list_removed. by rewrite fn_lookup_insert, E1, E2.
    + intros w' Hb. apply HQ; [|apply writes_step; [right; by left|]; apply writes_one; by left].
      apply Lists_removed; rewrite ?E1, ?E2; [|by rd|done|by intros []|done].
      apply writes_step; [right; by left|]. apply writes_one. by left.
  - destruct (rest_words d) as (Hdr & Hdf & Hds & _); [rewrite E1, E2; set_solver|].
    destruct (Z.eqb_spec d 0); [lia|]. wp_step. eapply wpm_load32; [by rd|]. apply wpm_store32; [by rd|].
    assert (writes unlink_word m (w32 (free_prev d) 0 (w32 (freeList P i) d m))) as Hw.
    { apply writes_step; [right; right; right; exists d; by rewrite E2|]. apply writes_one. by left. }
    apply HQ; [|done].
    apply Lists_removed; rewrite ?E1, ?E2; [done|by rd|intros ? ? [= <- <-]; by rd|by intros []|].
    apply removed_bits; [by rewrite E1, E2|]. intros j Hj. by rd.
Qed.

Lemma wp_delete_later k e (Q : unit → kstate → Prop) :
  l1 = k ++ [e] → (∀ m', Lists m' P list_removed → writes unlink_word m m' → Q tt (rset s m')) →
  wp (OsMemListDelete P i c) Q (rset s m).
Proof.
  intros E1 HQ. destruct node_words as (Hh & Ep & En & Hcr). pose proof (word_index i Hi) as Hwi.
  pose proof rest_nodup as [HN Hc]. destruct (rest_words e) as (Her & Hef & _ & He); [rewrite E1; set_solver|].
  assert (∃ a, a ∈ l1 ∧ ∀ l, List.hd 0 (l1 ++ l) = a) as (a & Ha & Hhd).
  { rewrite E1. destruct k as [|a k]; [exists e|exists a]; split; set_solver. }
  rewrite Hhd in Hh. rewrite E1, List.last_last in Ep.
  unfold OsMemListDelete. wp_step. eapply wpm_load32; [exact Hh|]. destruct (Z.eqb_spec c a) as [->|_]; [set_solver|].
  wp_step. eapply wpm_load32; [exact Ep|]. wp_step. eapply wpm_load32; [exact En|]. wp_step.
  apply wpm_store32; [done|]. wp_step. eapply wpm_load32; [by rd|].
  assert (unlink_word (free_next e)) as Hu1 by (right; right; left; exists e; by rewrite E1, last_snoc).
  assert (l1 ++ l2 ≠ []) as Hne by (rewrite E1; by destruct k).
  assert (∀ l e', l1 = l ++ [e'] → e' = e) as Hlast.
  { intros l'' e'. rewrite E1. intros [_ [= ->]]%app_inj_2; done. }
  assert (l2 = [] ∨ ∃ d l', l2 = d :: l') as [E2|(d & l' & E2)] by (destruct l2; eauto);
    rewrite E2 in En |- *; cbn [List.hd] in *.
  - rewrite Z.eqb_refl. unfold when. cbn [negb]. wp_step. apply HQ; [|by apply writes_one].
    apply Lists_removed; [by apply writes_one|rewrite Hhd; rd; exact Hh|by rewrite E2| |].
    + intros l'' e' ->%Hlast. rewrite E2. by rd.
    + apply removed_bits; [done|]. intros j Hj. by rd.
  - destruct (rest_words d) as (Hdr & Hdf & Hds & _); [rewrite E2; set_solver|].
    assert (e + 16 ≤ d ∨ d + 16 ≤ e) as Hap.
    { destruct (sp_apart _ _ Hsp i i e d) as [->|]; [apply rest_in; rewrite E1; set_solver|apply rest_in; rewrite E2; set_solver| |done].
      rewrite E1, E2 in HN. apply NoDup_app in HN as (_ & HN & _). destruct (HN d); set_solver. }
    destruct (Z.eqb_spec d 0); [lia|]. unfold when. cbn [negb]. wp_step. eapply wpm_load32; [by rd|].
    wp_step. eapply wpm_load32; [by rd|]. apply wpm_store32; [by rd|].
    assert (writes unlink_word m (w32 (free_prev d) e (w32 (free_next e) d m))) as Hw.
    { apply writes_step; [right; right; right; exists d; by rewrite E2|by apply writes_one]. }
    apply HQ; [|done]. apply Lists_removed; [done|rewrite Hhd; rd; exact Hh|..].
    + rewrite E2, E1, List.last_last. intros ? ? [= <- <-]. by rd.
    + intros l'' e' ->%Hlast. rewrite E2. by rd.
    + apply removed_bits; [done|]. intros j Hj. by rd.
Qed.

Lemma wp_OsMemListDelete (Q : unit → kstate → Prop) :
  (∀ m', Lists m' P list_removed → writes (link_word P L) m m' → Q tt (rset s m')) →
  wp (OsMemListDelete P i c) Q (rset s m).
Proof.
  intros HQ. assert (∀ m', Lists m' P list_removed → writes unlink_word m m' → Q tt (rset s m')) as HQ'.
  { intros m' HL' Hw. apply HQ; [done|]. eapply writes_mono; [|exact Hw]. apply unlink_link. }
  assert (l1 = [] ∨ ∃ k e, l1 = k ++ [e]) as [E1|(k & e & E1)].
  { destruct l1 as [|a l _] using rev_ind; [by left|right; eauto]. }
  - by apply wp_delete_first.
  - by eapply wp_delete_later.
Qed.
End delete.
