(* ===== verification/PoolRep.v ===== *)
(** A memory pool in memory: the invariant of a pool, what the primitive operations on its
    blocks do to it, and which bytes they leave alone. *)

From stdpp Require Import functions.
From S2P Require Import Prelude DList Kernel Tick SortLink Mem Pmcu Sched Event Task Pool PoolIndex.
From S2P Require Import Bytes PoolInv PoolLists.

(** ** The invariant *)

(** The row of blocks between the head of the pool and its end node, and the counters. *)
Record Core (m : gmap Z Z) (P S : Z) (bs : list mblk) (cu wl : Z) : Prop := {
  p_geom : 0 < P ∧ P mod 4 = 0 ∧ 968 ≤ S < 2 ^ 24 ∧ P + S < 2 ^ 32;
  p_mapped : mapped m P (Z.to_nat S);
  p_self : read32 m (info_pool P) = Some P;
  p_total : read32 m (info_totalSize P) = Some S;
  p_sized : sized bs;
  p_sum : total bs = S - 952;
  p_seg : seg m (P + S - 8) (P + 944) bs;
  p_end_prev : read32 m (node_prev (P + S - 8)) = Some (last_addr (P + S - 8) (P + 944) bs);
  p_end_word : ∃ w, read32 m (node_word (P + S - 8)) = Some w ∧ Z.shiftr w 6 = 2 ^ 25;
  p_cur : read32 m (info_curUsedSize P) = Some cu;
  p_water : read32 m (info_waterLine P) = Some wl
}.

(** Every free block is in the list of its size, and nothing else is in the lists. *)
Record Match (P : Z) (bs : list mblk) (L : Z → list Z) : Prop := {
  p_free i c : c ∈ L i ↔ ∃ b, (c, b) ∈ blocks (P + 944) bs ∧ bstat b = Free ∧ size_index (bsize b) = i;
  p_nodup i : NoDup (L i)
}.

Record PRep (m : gmap Z Z) (P S : Z) (bs : list mblk) (L : Z → list Z) (cu wl : Z) : Prop := {
  p_core : Core m P S bs cu wl;
  p_lists : Lists m P L;
  p_match : Match P bs L
}.

(** The bytes that belong to others: those outside the pool, the link to the next pool and the
    contents of used blocks. *)
Definition prot (P S : Z) (bs : list mblk) (i : Z) : Prop :=
  (i < P ∨ P + 940 ≤ i < P + 944) ∨ P + S ≤ i ∨
  ∃ c b, (c, b) ∈ blocks (P + 944) bs ∧ is_held b = true ∧ c + 8 ≤ i < c + bsize b.

Definition kept (P S : Z) (bs : list mblk) (m m' : gmap Z Z) : Prop :=
  ∀ i, prot P S bs i → m' !! i = m !! i.

Lemma kept_refl P S bs m : kept P S bs m m.
Proof. done. Qed.
Lemma kept_trans P S bs m1 m2 m3 : kept P S bs m1 m2 → kept P S bs m2 m3 → kept P S bs m1 m3.
Proof. intros H1 H2 i Hi. by rewrite H2, H1. Qed.

(** A word that the pool may write. *)
Definition own_word (P S : Z) (bs : list mblk) (x : Z) : Prop :=
  ∀ i, x ≤ i < x + 4 → ¬ prot P S bs i.

Lemma writes_kept P S bs m m' : writes (own_word P S bs) m m' → kept P S bs m m'.
Proof.
  intros Hw i Hi. eapply writes_lookup; [exact Hw|]. intros x Hx.
  destruct (decide (x ≤ i < x + 4)) as [Hin|]; [|lia]. by destruct (Hx i Hin).
Qed.

Section core.
  Context (m : gmap Z Z) (P S : Z) (bs : list mblk) (cu wl : Z) (HC : Core m P S bs cu wl).

Lemma block_range c b :
  (c, b) ∈ blocks (P + 944) bs →
  P + 944 ≤ c ∧ c + bsize b ≤ P + S - 8 ∧ 16 ≤ bsize b < 2 ^ 24 ∧ bsize b mod 4 = 0.
Proof.
  intros Hin. pose proof (p_geom _ _ _ _ _ _ HC). pose proof (p_sum _ _ _ _ _ _ HC).
  destruct (blocks_range _ _ _ _ (p_sized _ _ _ _ _ _ HC) Hin) as (? & ? & ?).
  assert (b ∈ bs) as Hb.
  { clear -Hin. revert Hin. generalize (P + 944). induction bs as [|b0 l IH]; intros a; simpl; set_solver. }
  pose proof (p_sized _ _ _ _ _ _ HC) as Hs. unfold sized in Hs. rewrite Forall_forall in Hs.
  destruct (Hs b Hb). lia.
Qed.

Lemma block_apart c b c' b' :
  (c, b) ∈ blocks (P + 944) bs → (c', b') ∈ blocks (P + 944) bs →
  c = c' ∧ b = b' ∨ c + bsize b ≤ c' ∨ c' + bsize b' ≤ c.
Proof. apply blocks_apart, HC. Qed.

(** The head of the pool, the end node and the headers belong to the pool. *)
Lemma own_head x : P ≤ x → x + 4 ≤ P + 940 → own_word P S bs x.
Proof.
  intros H1 H2 i Hi [|[|(c & b & Hin & _ & Hr)]]; pose proof (p_geom _ _ _ _ _ _ HC); [lia..|].
  destruct (block_range c b Hin) as (? & _). lia.
Qed.

Lemma own_end x : P + S - 8 ≤ x → x + 4 ≤ P + S → own_word P S bs x.
Proof.
  intros H1 H2 i Hi [|[|(c & b & Hin & _ & Hr)]]; pose proof (p_geom _ _ _ _ _ _ HC); [lia..|].
  destruct (block_range c b Hin) as (? & ? & _). lia.
Qed.

Lemma own_header c b x :
  (c, b) ∈ blocks (P + 944) bs → c ≤ x → x + 4 ≤ c + 8 → own_word P S bs x.
Proof.
  intros Hin H1 H2 i Hi. destruct (block_range c b Hin) as (? & ? & ? & _).
  intros [|[|(c' & b' & Hin' & _ & Hr)]]; pose proof (p_geom _ _ _ _ _ _ HC); [lia..|].
  pose proof (block_apart _ _ _ _ Hin Hin'). lia.
Qed.

Lemma own_block c b x :
  (c, b) ∈ blocks (P + 944) bs → is_held b = false → c ≤ x → x + 4 ≤ c + bsize b → own_word P S bs x.
Proof.
  intros Hin Hu H1 H2 i Hi. destruct (block_range c b Hin) as (? & ? & ? & _).
  intros [|[|(c' & b' & Hin' & Hu' & Hr)]]; pose proof (p_geom _ _ _ _ _ _ HC); [lia..|].
  destruct (block_apart _ _ _ _ Hin Hin') as [[-> ->]|]; [congruence|lia].
Qed.

(** Stores to the lists and to the contents of blocks leave the row alone. *)
Definition inner_word (x : Z) : Prop :=
  (P + 20 ≤ x ∧ x + 4 ≤ P + 944) ∨
  ∃ c b, (c, b) ∈ blocks (P + 944) bs ∧ c + 8 ≤ x ∧ x + 4 ≤ c + bsize b.

Lemma Core_inner m' : writes inner_word m m' → Core m' P S bs cu wl.
Proof.
  intros Hw. pose proof HC as [C1 C2 C3 C4 C5 C6 C7 C8 C9 C10 C11].
  assert (∀ y, y + 4 ≤ P + 20 ∨ P + S - 8 ≤ y → read32 m' y = read32 m y) as Hout.
  { intros y Hy. eapply writes_read32; [exact Hw|]. intros x [[]|(c & b & Hin & ? & ?)]; [lia|].
    destruct (block_range c b Hin) as (? & ? & _). lia. }
  constructor; try done; rewrite ?Hout; try done; try (addrs; lia).
  - by eapply writes_mapped.
  - eapply seg_ext; [|done]. intros c b Hin. destruct (block_range c b Hin) as (? & ? & ? & _).
    split; (eapply writes_read32; [exact Hw|]); intros x [[]|(c' & b' & Hin' & ? & ?)]; try (addrs; lia);
      pose proof (block_apart _ _ _ _ Hin Hin'); addrs; lia.
Qed.
End core.

(** ** Membership *)

Lemma elem_of_blocks_mid a l1 b l2 c x :
  (c, x) ∈ blocks a (l1 ++ b :: l2) ↔
  (c, x) ∈ blocks a l1 ∨ (c = a + total l1 ∧ x = b) ∨ (c, x) ∈ blocks (a + total l1 + bsize b) l2.
Proof. rewrite blocks_app. simpl. set_solver. Qed.

(** The address of a block tells where it is. *)
Lemma block_at a l1 b l2 c x :
  sized (l1 ++ b :: l2) → (c, x) ∈ blocks a (l1 ++ b :: l2) → c = a + total l1 → x = b.
Proof.
  intros Hs Hin ->. pose proof (blocks_mid a l1 b l2) as Hm.
  destruct (blocks_apart _ _ _ _ _ _ Hs Hin Hm) as [[_ ->]|Ha]; [done|].
  destruct (blocks_range _ _ _ _ Hs Hin) as (_ & _ & ?).
  destruct (blocks_range _ _ _ _ Hs Hm) as (_ & _ & ?). lia.
Qed.

Lemma PRep_spaced m P S bs L cu wl : PRep m P S bs L cu wl → spaced P L.
Proof.
  intros [HC _ [Hf Hn]]. pose proof (p_geom _ _ _ _ _ _ HC). constructor; [| | |done].
  - intros i c (b & Hin & _)%Hf. destruct (block_range _ _ _ _ _ _ HC c b Hin) as (? & ? & ? & _). addrs. lia.
  - intros i j c d (b & Hb & _)%Hf (b' & Hb' & _)%Hf.
    destruct (block_range _ _ _ _ _ _ HC c b Hb) as (? & ? & ? & _).
    destruct (block_range _ _ _ _ _ _ HC d b' Hb') as (? & ? & ? & _).
    destruct (block_apart _ _ _ _ _ _ HC _ _ _ _ Hb Hb') as [[]|]; lia.
  - intros i j c (b & Hb & _ & <-)%Hf (b' & Hb' & _ & <-)%Hf.
    destruct (block_apart _ _ _ _ _ _ HC _ _ _ _ Hb Hb') as [[_ ->]|Ha]; [done|].
    destruct (block_range _ _ _ _ _ _ HC c b Hb) as (? & ? & ? & _).
    destruct (block_range _ _ _ _ _ _ HC c b' Hb') as (? & ? & ? & _). lia.
Qed.

Lemma link_inner m P S bs L cu wl x :
  PRep m P S bs L cu wl → link_word P L x → inner_word P bs x.
Proof.
  intros [HC _ [Hf _]] [(i & Hi & ->)|[(j & Hj & ->)|(i & c & (b & Hb & _)%Hf & Hx)]].
  - left. addrs. lia.
  - left. addrs. lia.
  - right. exists c, b. destruct (block_range _ _ _ _ _ _ HC c b Hb) as (? & ? & ? & _).
    split; [done|]. addrs. lia.
Qed.

Lemma link_own m P S bs L cu wl x :
  PRep m P S bs L cu wl → link_word P L x → own_word P S bs x.
Proof.
  intros [HC _ [Hf _]] [(i & Hi & ->)|[(j & Hj & ->)|(i & c & (b & Hb & Hst & _)%Hf & Hx)]].
  - eapply own_head; [exact HC|addrs; lia..].
  - eapply own_head; [exact HC|addrs; lia..].
  - destruct (block_range _ _ _ _ _ _ HC c b Hb) as (? & ? & ? & _).
    eapply own_block; [exact HC|exact Hb|unfold is_held; by rewrite Hst|addrs; lia..].
Qed.

(** Blocks that are not in use look the same in memory. *)
Lemma seg_restat m p a l1 b b' l2 :
  bsize b' = bsize b → is_used b = false → is_held b' = false →
  seg m p a (l1 ++ b :: l2) → seg m p a (l1 ++ b' :: l2).
Proof.
  intros Hz Hu Hu' Hs. apply seg_app in Hs as [H1 [[Hp (w & Ew & Hw & _)] H2]]. apply seg_app.
  split; [done|]. cbn [seg]. rewrite Hz. split; [|done]. split; [done|]. exists w. split; [done|].
  unfold hdr_word, is_held, is_used, tid_word in *. rewrite Hu in Hw. rewrite Hz. by destruct (bstat b').
Qed.

Lemma total_restat l1 b b' l2 :
  bsize b' = bsize b → total (l1 ++ b' :: l2) = total (l1 ++ b :: l2).
Proof. intros Hz. rewrite !total_app. simpl. by rewrite Hz. Qed.

Lemma last_addr_restat p a l1 b b' l2 :
  bsize b' = bsize b → last_addr p a (l1 ++ b' :: l2) = last_addr p a (l1 ++ b :: l2).
Proof. intros Hz. rewrite !last_addr_app. simpl. by rewrite Hz. Qed.

Lemma sized_restat l1 b b' l2 : bsize b' = bsize b → sized (l1 ++ b :: l2) → sized (l1 ++ b' :: l2).
Proof. unfold sized. intros Hz. rewrite !Forall_app, !Forall_cons, Hz. done. Qed.

Lemma Core_restat m P S l1 b b' l2 cu wl :
  bsize b' = bsize b → is_used b = false → is_held b' = false →
  Core m P S (l1 ++ b :: l2) cu wl → Core m P S (l1 ++ b' :: l2) cu wl.
Proof.
  intros Hz Hu Hu' [C1 C2 C3 C4 C5 C6 C7 C8 C9 C10 C11]. constructor; try done.
  - by eapply sized_restat.
  - by rewrite (total_restat _ b).
  - by eapply seg_restat.
  - by rewrite (last_addr_restat _ _ _ b).
Qed.

Lemma prot_restat P S l1 b b' l2 i :
  bsize b' = bsize b → is_held b = false → is_held b' = false →
  prot P S (l1 ++ b' :: l2) i → prot P S (l1 ++ b :: l2) i.
Proof.
  intros Hz Hu Hu' [?|[?|(c & x & Hin & Hx & Hi)]]; [by left|by right; left|]. right; right.
  exists c, x. split; [|done]. rewrite elem_of_blocks_mid in *. rewrite Hz in Hin.
  destruct Hin as [?|[[_ ->]|?]]; [by left|congruence|by right; right].
Qed.

Lemma kept_restat P S l1 b b' l2 m m' :
  bsize b' = bsize b → is_held b = false → is_held b' = false →
  kept P S (l1 ++ b :: l2) m m' → kept P S (l1 ++ b' :: l2) m m'.
Proof. intros Hz Hu Hu' Hk i Hi. apply Hk. by eapply prot_restat. Qed.

(** ** Reading a header *)

Lemma seg_node m p a bs c b : seg m p a bs → (c, b) ∈ blocks a bs → ∃ p', node_at m c p' b.
Proof.
  revert p a. induction bs as [|b0 bs IH]; intros p a; simpl; [set_solver|].
  intros [Hn Hs] [[= -> ->]|Hin]%elem_of_cons; [by exists p|by eapply IH].
Qed.

(** The block at the end of [l1]. *)
Lemma seg_mid m p a l1 b l2 :
  seg m p a (l1 ++ b :: l2) → node_at m (a + total l1) (last_addr p a l1) b.
Proof. intros [_ [Hn _]]%seg_app. exact Hn. Qed.

Definition size_word (b : mblk) : Z := bsize b + (if is_used b then 2 ^ 25 else 0).

Lemma wp_get_size s m c p b (Q : Z → kstate → Prop) :
  node_at m c p b → Q (size_word b) (rset s m) → wp (get_sizeAndFlag c) Q (rset s m).
Proof.
  intros (_ & w & Ew & Hw & _) HQ. unfold get_sizeAndFlag. wp_step.
  eapply wpm_load32; [exact Ew|]. wp_step. by rewrite Hw.
Qed.

Lemma size_word_free b : is_used b = false → size_word b = bsize b.
Proof. intros Hu. unfold size_word. rewrite Hu. lia. Qed.

(** ** Taking a free block out of its list *)

Definition loose (z : Z) : mblk := mkBlk z Loose.
Definition free_blk (z : Z) : mblk := mkBlk z Free.

Section unlist.
  Context (s : kstate) (m : gmap Z Z) (P S z : Z) (l1 l2 : list mblk) (L : Z → list Z) (cu wl : Z).
  Context (HR : PRep m P S (l1 ++ free_blk z :: l2) L cu wl).
  Abbreviation a := (P + 944 + total l1).

Lemma free_in_list : 0 ≤ size_index z < OS_MEM_FREE_LIST_COUNT ∧ a ∈ L (size_index z) ∧ 16 ≤ z < 2 ^ 24.
Proof.
  pose proof (p_core _ _ _ _ _ _ _ HR) as HC. pose proof (blocks_mid (P + 944) l1 (free_blk z) l2) as Hin.
  destruct (block_range _ _ _ _ _ _ HC _ _ Hin) as (_ & _ & Hz & _). cbn [bsize free_blk] in Hz.
  split; [apply size_index_range; lia|]. split; [|done].
  apply (p_free _ _ _ (p_match _ _ _ _ _ _ _ HR)). exists (free_blk z). done.
Qed.

Lemma Match_unlist L' k1 k2 :
  L (size_index z) = k1 ++ a :: k2 → L' = <[size_index z := k1 ++ k2]> L →
  Match P (l1 ++ loose z :: l2) L'.
Proof.
  intros Ei ->. pose proof (p_core _ _ _ _ _ _ _ HR) as HC. destruct (p_match _ _ _ _ _ _ _ HR) as [Hf Hn].
  assert (∀ c, c ∈ k1 ++ k2 ↔ c ∈ L (size_index z) ∧ c ≠ a) as Hk.
  { pose proof (Hn (size_index z)) as HN. rewrite Ei in *. intros c.
    apply NoDup_app in HN as (N1 & N2 & [N3 N4]%NoDup_cons). set_solver. }
  constructor.
  - intros i c. assert (c ∈ (<[size_index z := k1 ++ k2]> L) i ↔ c ∈ L i ∧ c ≠ a) as ->.
    { destruct (decide (i = size_index z)) as [->|Hne]; [by rewrite fn_lookup_insert|].
      rewrite fn_lookup_insert_ne by done. split; [|tauto]. intros Hc. split; [done|]. intros ->.
      apply Hne. eapply (sp_one _ _ (PRep_spaced _ _ _ _ _ _ _ HR)); [exact Hc|apply free_in_list]. }
    rewrite Hf. split.
    + intros [(b & Hin & Hst & Hi) Hca]. exists b. split; [|done]. rewrite elem_of_blocks_mid in *.
      destruct Hin as [?|[[? _]|?]]; [by left|done|by right; right].
    + intros (b & Hin & Hst & Hi). assert (c ≠ a) as Hca.
      { intros ->. assert (b = loose z) as ->; [|done].
        eapply block_at; [|exact Hin|done]. eapply sized_restat; [|apply HC]. done. }
      split; [|done]. exists b. split; [|done]. rewrite elem_of_blocks_mid in *.
      destruct Hin as [?|[[? _]|?]]; [by left|done|by right; right].
  - intros i. destruct (decide (i = size_index z)) as [->|Hne]; [|by rewrite fn_lookup_insert_ne].
    rewrite fn_lookup_insert. pose proof (Hn (size_index z)) as HN. rewrite Ei in HN.
    apply NoDup_app in HN as (N1 & N2 & [N3 N4]%NoDup_cons). apply NoDup_app. set_solver.
Qed.

Lemma wp_ListDelete_block (Q : unit → kstate → Prop) :
  (∀ m' L', PRep m' P S (l1 ++ loose z :: l2) L' cu wl → kept P S (l1 ++ loose z :: l2) m m' →
     Q tt (rset s m')) →
  wp (OsMemListDelete P (size_index z) a) Q (rset s m).
Proof.
  intros HQ. destruct free_in_list as (Hi & Ha & _). pose proof (p_core _ _ _ _ _ _ _ HR) as HC.
  pose proof (p_geom _ _ _ _ _ _ HC) as (HP & _). apply list_elem_of_split in Ha as (k1 & k2 & Ei).
  eapply (wp_OsMemListDelete s m P L); [apply HR|by eapply PRep_spaced|lia|exact Hi|exact Ei|].
  intros m' HL' Hw. eapply HQ.
  - constructor; [|exact HL'|by eapply Match_unlist]. apply (Core_restat _ _ _ _ (free_blk z)); [done..|]. eapply Core_inner; [exact HC|].
    eapply writes_mono; [|exact Hw]. intros x. apply (link_inner _ _ _ _ _ _ _ _ HR).
  - apply (kept_restat _ _ _ (free_blk z)); [done..|]. eapply writes_kept, writes_mono; [|exact Hw].
    intros x. apply (link_own _ _ _ _ _ _ _ _ HR).
Qed.

Lemma wp_OsMemFreeNodeDelete (Q : unit → kstate → Prop) :
  (∀ m' L', PRep m' P S (l1 ++ loose z :: l2) L' cu wl → kept P S (l1 ++ loose z :: l2) m m' →
     Q tt (rset s m')) →
  wp (OsMemFreeNodeDelete P a) Q (rset s m).
Proof.
  intros HQ. unfold OsMemFreeNodeDelete. wp_step.
  eapply wp_get_size; [apply (seg_mid _ _ _ _ _ _ (p_seg _ _ _ _ _ _ (p_core _ _ _ _ _ _ _ HR)))|].
  destruct free_in_list as (_ & _ & Hz).
  rewrite size_word_free, OsMemFreeListIndexGet_spec by (done || (cbn [bsize free_blk]; lia)).
  by apply wp_ListDelete_block.
Qed.
End unlist.

(** ** Putting a block into the list of its size *)

Section enlist.
  Context (s : kstate) (m : gmap Z Z) (P S z : Z) (l1 l2 : list mblk) (L : Z → list Z) (cu wl : Z).
  Context (HR : PRep m P S (l1 ++ loose z :: l2) L cu wl).
  Abbreviation a := (P + 944 + total l1).

Lemma loose_fresh j d : d ∈ L j → a + 16 ≤ d ∨ d + 16 ≤ a.
Proof.
  pose proof (p_core _ _ _ _ _ _ _ HR) as HC. pose proof (blocks_mid (P + 944) l1 (loose z) l2) as Ha.
  intros (b & Hb & Hst & _)%(p_free _ _ _ (p_match _ _ _ _ _ _ _ HR)).
  destruct (block_range _ _ _ _ _ _ HC _ _ Ha) as (? & ? & ? & _).
  destruct (block_range _ _ _ _ _ _ HC _ _ Hb) as (? & ? & ? & _).
  destruct (block_apart _ _ _ _ _ _ HC _ _ _ _ Ha Hb) as [[_ <-]|]; [done|lia].
Qed.

Lemma Match_enlist : Match P (l1 ++ free_blk z :: l2) (<[size_index z := a :: L (size_index z)]> L).
Proof.
  pose proof (p_core _ _ _ _ _ _ _ HR) as HC. destruct (p_match _ _ _ _ _ _ _ HR) as [Hf Hn].
  assert (∀ i c, c ∈ (<[size_index z := a :: L (size_index z)]> L) i ↔ c ∈ L i ∨ (c = a ∧ i = size_index z)) as Hk.
  { intros i c. destruct (decide (size_index z = i)) as [<-|Hne].
    - rewrite fn_lookup_insert. set_solver.
    - rewrite fn_lookup_insert_ne by done. intuition congruence. }
  constructor.
  - intros i c. rewrite Hk, Hf. split.
    + intros [(b & Hin & Hst & Hi)|[-> ->]].
      * exists b. split; [|done]. rewrite elem_of_blocks_mid in *.
        destruct Hin as [?|[[_ ->]|?]]; [by left|done|by right; right].
      * exists (free_blk z). split; [apply blocks_mid|done].
    + intros (b & Hin & Hst & Hi). rewrite elem_of_blocks_mid in Hin. destruct Hin as [?|[[-> ->]|?]].
      * left. exists b. rewrite elem_of_blocks_mid. auto.
      * right. by split.
      * left. exists b. rewrite elem_of_blocks_mid. auto.
  - intros i. destruct (decide (size_index z = i)) as [<-|Hne]; [|by rewrite fn_lookup_insert_ne].
    rewrite fn_lookup_insert. apply NoDup_cons. split; [|done]. intros Hin.
    pose proof (loose_fresh _ _ Hin). lia.
Qed.

Lemma wp_OsMemFreeNodeAdd (Q : unit → kstate → Prop) :
  (∀ m' L', PRep m' P S (l1 ++ free_blk z :: l2) L' cu wl → kept P S (l1 ++ free_blk z :: l2) m m' →
     Q tt (rset s m')) →
  wp (OsMemFreeNodeAdd P a) Q (rset s m).
Proof.
  intros HQ. pose proof (p_core _ _ _ _ _ _ _ HR) as HC. pose proof (p_geom _ _ _ _ _ _ HC) as (HP & _ & HS & HPS).
  pose proof (blocks_mid (P + 944) l1 (loose z) l2) as Ha.
  destruct (block_range _ _ _ _ _ _ HC _ _ Ha) as (Ha1 & Ha2 & Hz & _). cbn [bsize loose] in *.
  pose proof (size_index_range z ltac:(lia)) as Hi. unfold OsMemFreeNodeAdd. wp_step.
  eapply wp_get_size; [apply (seg_mid _ _ _ _ _ _ (p_seg _ _ _ _ _ _ HC))|].
  rewrite size_word_free, OsMemFreeListIndexGet_spec by (done || (cbn [bsize loose]; lia)).
  cbn [bsize loose]. destruct (Z.leb_spec OS_MEM_FREE_LIST_COUNT (size_index z)); [lia|].
  assert (∀ x, a + 8 ≤ x → x + 4 ≤ a + 16 → is_Some (read32 m x)) as Hmap.
  { intros x H1 H2. eapply mapped_read32; [apply HC|lia|lia]. }
  eapply (wp_OsMemListAdd s m P L); [apply HR|by eapply PRep_spaced|lia|exact Hi|addrs; lia|
    exact loose_fresh|apply Hmap; addrs; lia|apply Hmap; addrs; lia|].
  intros m' HL' Hw.
  assert (∀ x, link_word P (list_added L (size_index z) a) x → link_word P L x ∨ x = free_prev a ∨ x = free_next a) as Hlw.
  { intros x [?|[?|(i & c & Hc & Hx)]]; [by left; left|by left; right; left|].
    unfold list_added in Hc. apply elem_of_fn_cons in Hc as [[_ ->]|Hc]; [by right|]. left; right; right. eauto. }
  eapply HQ.
  - constructor; [|exact HL'|exact Match_enlist]. apply (Core_restat _ _ _ _ (loose z)); [done..|].
    eapply Core_inner; [exact HC|]. eapply writes_mono; [|exact Hw].
    intros x [Hx|Hx]%Hlw; [apply (link_inner _ _ _ _ _ _ _ _ HR Hx)|].
    right. exists a, (loose z). split; [done|]. cbn [bsize loose]. addrs. lia.
  - apply (kept_restat _ _ _ (loose z)); [done..|]. eapply writes_kept, writes_mono; [|exact Hw].
    intros x [Hx|Hx]%Hlw; [apply (link_own _ _ _ _ _ _ _ _ HR Hx)|].
    eapply (own_block _ _ _ _ _ _ HC a (loose z)); [done|done|cbn [bsize loose]; addrs; lia..].
Qed.
End enlist.

(** ** The row behind a block *)

(** The blocks [bs] from [a] to the end node at [E], which knows the last of them. *)
Definition row (m : gmap Z Z) (E p a : Z) (bs : list mblk) : Prop :=
  seg m p a bs ∧ read32 m (node_prev E) = Some (last_addr p a bs).

Lemma row_app m E p a l1 l2 :
  row m E p a (l1 ++ l2) ↔ seg m p a l1 ∧ row m E (last_addr p a l1) (a + total l1) l2.
Proof. unfold row. rewrite seg_app, last_addr_app. tauto. Qed.

(** Words before the row do not matter. *)
Lemma row_ext m m' E p a bs :
  sized bs → E = a + total bs →
  (∀ y, a ≤ y → read32 m' y = read32 m y) → row m E p a bs → row m' E p a bs.
Proof.
  intros Hs HE Hy [H1 H2]. pose proof (total_nonneg bs Hs). split.
  - eapply seg_ext; [|exact H1]. intros c b Hin. pose proof (blocks_range _ _ _ _ Hs Hin).
    split; apply Hy; addrs; lia.
  - rewrite Hy; [done|addrs; lia].
Qed.

(** The row gets another predecessor. *)
Lemma row_relink m E p p' a bs :
  sized bs → E = a + total bs → 0 ≤ p' < 2 ^ 32 →
  row m E p a bs → row (w32 (node_prev a) p' m) E p' a bs.
Proof.
  intros Hs HE Hp [H1 H2]. destruct bs as [|b bs]; simpl in *.
  - split; [done|]. subst E. rewrite Z.add_0_r. by rd.
  - destruct H1 as [(Ha & w & Ew & Hw) H1]. apply Forall_cons in Hs as [[Hb _] Hs].
    pose proof (total_nonneg bs Hs). split.
    + split.
      * split; [by rd|]. exists w. by rd.
      * eapply seg_ext; [|exact H1]. intros c b' Hin. pose proof (blocks_range _ _ _ _ Hs Hin).
        split; by rd.
    + rd. done.
Qed.

(** Words behind a segment do not matter. *)
Lemma seg_before m m' p a bs :
  sized bs → (∀ y, a ≤ y → y + 4 ≤ a + total bs → read32 m' y = read32 m y) →
  seg m p a bs → seg m' p a bs.
Proof.
  intros Hs Hy Hg. eapply seg_ext; [|exact Hg]. intros c b Hin.
  pose proof (blocks_range _ _ _ _ Hs Hin). split; apply Hy; addrs; lia.
Qed.

Lemma Core_row m P S bs cu wl : Core m P S bs cu wl → row m (P + S - 8) (P + S - 8) (P + 944) bs.
Proof. intros HC. split; apply HC. Qed.

(** A pool whose row changed, and nothing before it. *)
Lemma Core_new_row m m' P S bs bs' cu wl :
  Core m P S bs cu wl → sized bs' → total bs' = total bs →
  row m' (P + S - 8) (P + S - 8) (P + 944) bs' → mapped m' P (Z.to_nat S) →
  (∀ y, y + 4 ≤ P + 944 → read32 m' y = read32 m y) →
  read32 m' (node_word (P + S - 8)) = read32 m (node_word (P + S - 8)) →
  Core m' P S bs' cu wl.
Proof.
  intros [C1 C2 C3 C4 C5 C6 C7 C8 C9 C10 C11] Hs Ht [H1 H2] Hm Hy He.
  constructor; try done; rewrite ?He, ?Hy by (addrs; lia); try done. congruence.
Qed.

Lemma Lists_ext m m' P L :
  (∀ y, link_word P L y → read32 m' y = read32 m y) → Lists m P L → Lists m' P L.
Proof.
  intros Hy [L1 L2 L3]. constructor.
  - intros i Hi. rewrite Hy; [by apply L1|left; eauto].
  - intros i Hi. eapply dll_ext; [|by apply L2]. intros c Hc.
    split; apply Hy; right; right; exists i, c; auto.
  - intros j Hj. eapply bitmap_ext; [|done|exact Hj|by apply L3]. intros j' Hj'. apply Hy. right; left. eauto.
Qed.
