(* ===== verification/PoolOps.v ===== *)
(** The operations on the blocks of a pool: a change of the header of a block, merging two
    neighbours, splitting a block, and the counters. *)

From stdpp Require Import functions.
From S2P Require Import Prelude DList Kernel Tick SortLink Mem Pmcu Sched Event Task Pool PoolIndex.
From S2P Require Import Bytes PoolInv PoolLists PoolRep.

(** ** Replacing blocks of the row *)

Lemma elem_of_blocks_app3 a l1 k l2 c x :
  (c, x) ∈ blocks a (l1 ++ k ++ l2) ↔
  (c, x) ∈ blocks a l1 ∨ (c, x) ∈ blocks (a + total l1) k ∨ (c, x) ∈ blocks (a + total l1 + total k) l2.
Proof. rewrite !blocks_app. set_solver. Qed.

Lemma blocks_elem a bs c b : (c, b) ∈ blocks a bs → b ∈ bs.
Proof. revert a. induction bs as [|b0 bs IH]; intros a; simpl; set_solver. Qed.

Definition unlisted (b : mblk) : Prop := bstat b ≠ Free.
Definition idle (b : mblk) : Prop := is_held b = false.

(** Blocks that hold nothing of a task may be cut differently. *)
Lemma prot_replace P S l1 k k' l2 i :
  Forall idle k' → total k' = total k → prot P S (l1 ++ k' ++ l2) i → prot P S (l1 ++ k ++ l2) i.
Proof.
  intros Hk Ht [?|[?|(c & x & Hin & Hx & Hi)]]; [by left|by right; left|]. right; right.
  exists c, x. split; [|done]. rewrite elem_of_blocks_app3, Ht in *.
  destruct Hin as [?|[Hin|?]]; [by left| |by right; right].
  rewrite Forall_forall in Hk. specialize (Hk x (blocks_elem _ _ _ _ Hin)). unfold idle in Hk. congruence.
Qed.

Lemma kept_replace P S l1 k k' l2 m m' :
  Forall idle k' → total k' = total k → kept P S (l1 ++ k ++ l2) m m' → kept P S (l1 ++ k' ++ l2) m m'.
Proof. intros Hk Ht H i Hi. apply H. by eapply prot_replace. Qed.

Lemma Match_replace P l1 k k' l2 L :
  Forall unlisted k → Forall unlisted k' → total k' = total k →
  Match P (l1 ++ k ++ l2) L → Match P (l1 ++ k' ++ l2) L.
Proof.
  intros Hk Hk' Ht [Hf Hn]. constructor; [|done]. intros i c. rewrite Hf. rewrite Forall_forall in Hk, Hk'.
  split; intros (b & Hin & Hst & Hi); exists b; (split; [|done]); rewrite elem_of_blocks_app3, Ht in *;
    (destruct Hin as [?|[Hin|?]]; [by left| |by right; right]); apply blocks_elem in Hin.
  - by destruct (Hk b Hin).
  - by destruct (Hk' b Hin).
Qed.

Section replace.
  Context (m : gmap Z Z) (P S : Z) (l1 k l2 : list mblk) (L : Z → list Z) (cu wl : Z).
  Context (HR : PRep m P S (l1 ++ k ++ l2) L cu wl).
  Abbreviation a := (P + 944 + total l1).
  Abbreviation p := (last_addr (P + S - 8) (P + 944) l1).

Lemma row_parts : sized l1 ∧ sized k ∧ sized l2 ∧ P + S - 8 = a + total k + total l2 ∧
  seg m (P + S - 8) (P + 944) l1 ∧ seg m p a k ∧ row m (P + S - 8) (last_addr p a k) (a + total k) l2.
Proof.
  pose proof (p_core _ _ _ _ _ _ _ HR) as HC. pose proof (p_sum _ _ _ _ _ _ HC) as Ht.
  pose proof (p_sized _ _ _ _ _ _ HC) as Hs. rewrite !total_app in Ht. unfold sized in Hs.
  rewrite !Forall_app in Hs. destruct Hs as (S1 & S2 & S3).
  pose proof (Core_row _ _ _ _ _ _ HC) as Hr. apply row_app in Hr as [H1 Hr].
  apply row_app in Hr as [H2 H3]. split_and!; try done. lia.
Qed.

(** Only the blocks [k], which are in no list, and the link back to them change. *)
Lemma PRep_replace m' k' :
  Forall unlisted k → Forall unlisted k' → sized k' → total k' = total k →
  writes (fun x => a ≤ x ≤ a + total k) m m' →
  seg m' p a k' → row m' (P + S - 8) (last_addr p a k') (a + total k) l2 →
  PRep m' P S (l1 ++ k' ++ l2) L cu wl.
Proof.
  intros Hk Hk' Hs' Ht Hw H2 H3. destruct row_parts as (Hs1 & Hs & Hs2 & HE & H1 & _ & _).
  pose proof (p_core _ _ _ _ _ _ _ HR) as HC. pose proof (p_geom _ _ _ _ _ _ HC).
  pose proof (total_nonneg _ Hs1). pose proof (total_nonneg _ Hs). pose proof (total_nonneg _ Hs2).
  assert (∀ y, y + 4 ≤ a ∨ a + total k + 4 ≤ y → read32 m' y = read32 m y) as Hout.
  { intros y Hy. eapply writes_read32; [exact Hw|]. intros x [? ?]. lia. }
  constructor.
  - eapply Core_new_row; [exact HC|..].
    + unfold sized in *. rewrite !Forall_app. done.
    + rewrite !total_app. lia.
    + apply row_app. split; [|apply row_app; rewrite Ht; done].
      eapply seg_before; [done| |exact H1]. intros y _ Hy. apply Hout. lia.
    + eapply writes_mapped; [exact Hw|apply HC].
    + intros y Hy. apply Hout. lia.
    + apply Hout. addrs. lia.
  - eapply Lists_ext; [|apply HR].
    intros y [(i & Hi & ->)|[(j & Hj & ->)|(i & d & Hd & Hy)]]; apply Hout; [addrs; lia..|].
    apply (p_free _ _ _ (p_match _ _ _ _ _ _ _ HR)) in Hd as (b & Hb & Hst & _).
    rewrite elem_of_blocks_app3 in Hb. destruct Hb as [Hb|[Hb|Hb]].
    + pose proof (blocks_range _ _ _ _ Hs1 Hb). addrs. lia.
    + rewrite Forall_forall in Hk. by destruct (Hk b (blocks_elem _ _ _ _ Hb)).
    + pose proof (blocks_range _ _ _ _ Hs2 Hb). addrs. lia.
  - eapply Match_replace; [exact Hk|exact Hk'|exact Ht|apply HR].
Qed.
End replace.

(** ** Headers *)

Lemma wp_set_size s m c w v (Q : unit → kstate → Prop) :
  read32 m (node_word c) = Some w → 0 ≤ v < 2 ^ 26 →
  (∀ w', 0 ≤ w' < 2 ^ 32 → Z.shiftr w' 6 = v → w' mod 64 = w mod 64 →
     Q tt (rset s (w32 (node_word c) w' m))) →
  wp (set_sizeAndFlag c v) Q (rset s m).
Proof.
  intros Ew Hv HQ. unfold set_sizeAndFlag. wp_step. eapply wpm_load32; [exact Ew|].
  apply wpm_store32; [by eexists|]. destruct (set_word w v Hv) as (H1 & H2 & H3). by apply HQ.
Qed.

Section header.
  Context (s : kstate) (m : gmap Z Z) (P S : Z) (l1 l2 : list mblk) (b b' : mblk) (L : Z → list Z) (cu wl : Z).
  Context (HR : PRep m P S (l1 ++ b :: l2) L cu wl) (Hb : unlisted b) (Hb' : unlisted b').
  Context (Hz : bsize b' = bsize b).
  Abbreviation a := (P + 944 + total l1).

Lemma PRep_header w' :
  0 ≤ w' < 2 ^ 32 → hdr_word b' w' →
  let m' := w32 (node_word a) w' m in
  PRep m' P S (l1 ++ b' :: l2) L cu wl ∧ kept P S (l1 ++ b :: l2) m m' ∧ kept P S (l1 ++ b' :: l2) m m'.
Proof.
  intros Hw Hh m'. destruct (row_parts _ _ _ _ [b] l2 _ _ _ HR) as (Hs1 & Hs & Hs2 & HE & H1 & [[Hp _] _] & H3).
  simpl in HE, H3, Hp. pose proof Hs as [[Hb16 Hb4] _]%Forall_cons.
  assert (PRep m' P S (l1 ++ [b'] ++ l2) L cu wl) as HR'.
  { apply (PRep_replace m P S l1 [b] l2 L cu wl); try done; unfold sized; rewrite ?Forall_cons, ?Hz; try done.
    - simpl. lia.
    - apply writes_one. simpl. addrs. lia.
    - simpl. split; [|done]. split; [unfold m'; by rd|]. exists w'. unfold m'. by rd.
    - simpl. eapply row_ext; [done|lia| |exact H3]. intros y Hy. unfold m'. by rd. }
  split; [exact HR'|]. split; apply writes_kept, writes_one.
  - eapply own_header; [apply HR|apply blocks_mid|addrs; lia..].
  - eapply own_header; [apply HR'|apply blocks_mid|addrs; lia..].
Qed.

(** A store to the size that also changes the flags. *)
Lemma wp_set_header v (Q : unit → kstate → Prop) :
  v = size_word b' →
  (∀ w, read32 m (node_word a) = Some w → tid_word (bstat b) w → tid_word (bstat b') w) →
  (∀ m', PRep m' P S (l1 ++ b' :: l2) L cu wl → kept P S (l1 ++ b :: l2) m m' →
     kept P S (l1 ++ b' :: l2) m m' → Q tt (rset s m')) →
  wp (set_sizeAndFlag a v) Q (rset s m).
Proof.
  intros -> Ht HQ. pose proof (p_core _ _ _ _ _ _ _ HR) as HC. pose proof (blocks_mid (P + 944) l1 b l2) as Hin.
  destruct (block_range _ _ _ _ _ _ HC _ _ Hin) as (_ & _ & Hr & _).
  destruct (seg_mid _ _ _ _ _ _ (p_seg _ _ _ _ _ _ HC)) as (_ & w & Ew & _ & Htw).
  eapply wp_set_size; [exact Ew|unfold size_word; rewrite Hz; destruct (is_used b'); lia|].
  intros w' Hw' Hsh Hmod. destruct (PRep_header w' Hw') as (? & ? & ?); [|by apply HQ].
  split; [exact Hsh|]. specialize (Ht w Ew Htw). by destruct (bstat b'); simpl in *; rewrite ?Hmod.
Qed.
End header.

(** The link back of the node behind [l1] belongs to the pool. *)
Lemma own_next m P S l1 l2 cu wl :
  Core m P S (l1 ++ l2) cu wl → own_word P S (l1 ++ l2) (node_prev (P + 944 + total l1)).
Proof.
  intros HC. destruct l2 as [|b l2].
  - eapply own_end; [exact HC|..]; pose proof (p_sum _ _ _ _ _ _ HC) as Ht; rewrite app_nil_r in Ht; addrs; lia.
  - eapply own_header; [exact HC|apply blocks_mid|addrs; lia..].
Qed.

(** ** Merging *)

Section merge.
  Context (s : kstate) (m : gmap Z Z) (P S y : Z) (l1 l2 : list mblk) (b : mblk) (L : Z → list Z) (cu wl : Z).
  Context (HR : PRep m P S (l1 ++ b :: loose y :: l2) L cu wl) (Hb : unlisted b) (Hu : is_used b = false).
  Abbreviation a := (P + 944 + total l1).
  Abbreviation merged := (mkBlk (bsize b + y) (bstat b)).
  Abbreviation merge_mem w := (w32 (node_prev (a + bsize b + y)) a (w32 (node_word a) w m)).

Lemma PRep_merge w :
  0 ≤ w < 2 ^ 32 → Z.shiftr w 6 = bsize b + y → tid_word (bstat b) w →
  PRep (merge_mem w) P S (l1 ++ merged :: l2) L cu wl ∧
  kept P S (l1 ++ b :: loose y :: l2) m (merge_mem w).
Proof.
  intros Hw Hsh Htw. pose proof (p_core _ _ _ _ _ _ _ HR) as HC. pose proof (p_geom _ _ _ _ _ _ HC).
  destruct (row_parts _ _ _ _ [b; loose y] l2 _ _ _ HR) as (Hs1 & Hs & Hs2 & HE & H1 & [[Hp _] _] & H3).
  cbn [total bsize loose last_addr] in HE, H3. rewrite Z.add_0_r in HE, H3. rewrite Z.add_assoc in HE, H3.
  pose proof Hs as [[Hb16 Hb4] [[Hy16 Hy4] _]%Forall_cons]%Forall_cons. cbn [bsize loose] in *.
  pose proof (total_nonneg _ Hs1). pose proof (total_nonneg _ Hs2). split.
  - apply (PRep_replace m P S l1 [b; loose y] l2 L cu wl HR (merge_mem w) [merged]).
    + by repeat constructor.
    + by repeat constructor.
    + repeat constructor; cbn [bsize]; [lia|]. rewrite Z.add_mod, Hb4, Hy4 by lia. done.
    + simpl. lia.
    + cbn [total bsize loose]. apply writes_step; [addrs; lia|]. apply writes_one. addrs. lia.
    + simpl. split; [|done]. split; [by rd|]. exists w. split; [by rd|]. split.
      * unfold is_used in *. cbn [bsize bstat]. rewrite Hu. lia.
      * exact Htw.
    + cbn [total bsize loose last_addr]. rewrite Z.add_0_r, Z.add_assoc.
      eapply row_relink; [done|lia|lia|]. eapply row_ext; [done|lia| |exact H3]. intros x Hx. by rd.
  - apply writes_kept, writes_step, writes_one.
    + change (l1 ++ b :: loose y :: l2) with (l1 ++ [b; loose y] ++ l2) in *. rewrite app_assoc in *.
      replace (a + bsize b + y) with (P + 944 + total (l1 ++ [b; loose y])); [by eapply own_next|].
      rewrite total_app. simpl. lia.
    + eapply own_header; [exact HC|apply blocks_mid|addrs; lia..].
Qed.

Lemma wp_OsMemMergeNode (Q : unit → kstate → Prop) :
  (∀ m', PRep m' P S (l1 ++ merged :: l2) L cu wl → kept P S (l1 ++ b :: loose y :: l2) m m' →
     Q tt (rset s m')) →
  wp (OsMemMergeNode (a + bsize b)) Q (rset s m).
Proof.
  intros HQ. pose proof (p_core _ _ _ _ _ _ _ HR) as HC. pose proof (p_geom _ _ _ _ _ _ HC).
  destruct (row_parts _ _ _ _ [b; loose y] l2 _ _ _ HR) as (Hs1 & Hs & Hs2 & HE & _ & (Ha & Hn & _) & _).
  cbn [total bsize loose] in HE. pose proof Hs as [[Hb16 _] [[Hy16 _] _]%Forall_cons]%Forall_cons.
  cbn [bsize loose] in *. pose proof (total_nonneg _ Hs1). pose proof (total_nonneg _ Hs2).
  pose proof Hn as (Hnp & wn & Ewn & Hwn). pose proof Ha as (_ & wa & Ewa & _ & Hta).
  unfold OsMemMergeNode. wp_step. eapply wpm_load32; [exact Hnp|]. wp_step.
  eapply wp_get_size; [exact Ha|]. wp_step. eapply wp_get_size; [exact Hn|]. wp_step.
  rewrite !size_word_free by done. cbn [bsize loose]. eapply wp_set_size; [exact Ewa|lia|].
  intros w Hw Hsh Hmod. wp_step. eapply wp_get_size; [split; [rd; exact Hnp|exists wn; rd; by split]|].
  wp_step. rewrite size_word_free by done. cbn [bsize loose]. eapply wpm_load32; [rd; exact Hnp|].
  rewrite u32_small by lia. destruct (PRep_merge w Hw Hsh) as [HR' Hk].
  { by destruct (bstat b); simpl in *; rewrite ?Hmod. }
  apply wpm_store32; [|by apply HQ]. rd. eapply mapped_read32; [apply HC|addrs; lia..].
Qed.
End merge.

(** ** Joining with the free neighbour behind *)

(** Outside the operations a block is in use or free. *)
Definition settled (b : mblk) : Prop := bstat b = Free ∨ is_used b = true.

Definition next_used (l : list mblk) : bool := match l with [] => true | b :: _ => is_used b end.

(** The size of a block of size [z] with the free block behind it, and the blocks after that. *)
Definition absorb (z : Z) (l : list mblk) : Z * list mblk :=
  match l with
  | mkBlk y Free :: l => (z + y, l)
  | _ => (z, l)
  end.

Lemma free_settled b : settled b → is_used b = false → b = free_blk (bsize b).
Proof. destruct b as [z st]. unfold settled, is_used. simpl. intros [->|?] ?; [done|congruence]. Qed.

Lemma absorb_used z l : next_used l = true → absorb z l = (z, l).
Proof. destruct l as [|[y []] l]; done. Qed.

Lemma kept_absorb P S l1 z l2 m m' :
  kept P S (l1 ++ loose z :: l2) m m' → kept P S (l1 ++ free_blk (absorb z l2).1 :: (absorb z l2).2) m m'.
Proof.
  destruct l2 as [|[y []] l]; cbn [absorb fst snd]; try by apply kept_restat.
  apply (kept_replace P S l1 [loose z; free_blk y] [free_blk (z + y)] l); [by repeat constructor|simpl; lia].
Qed.

Lemma wp_next_used s m P S l1 l2 cu wl (Q : Z → kstate → Prop) :
  Core m P S (l1 ++ l2) cu wl →
  (∀ v, OS_MEM_NODE_GET_USED_FLAG v = next_used l2 → (∀ b l, l2 = b :: l → v = size_word b) → Q v (rset s m)) →
  wp (get_sizeAndFlag (P + 944 + total l1)) Q (rset s m).
Proof.
  intros HC HQ. destruct l2 as [|b l2].
  - pose proof (p_sum _ _ _ _ _ _ HC) as Ht. rewrite app_nil_r in Ht.
    destruct (p_end_word _ _ _ _ _ _ HC) as (w & Ew & Hw). unfold get_sizeAndFlag. wp_step.
    eapply wpm_load32; [|wp_step; apply HQ; [by rewrite Hw|done]]. rewrite <- Ew. f_equal. addrs. lia.
  - eapply wp_get_size; [apply (seg_mid _ _ _ _ _ _ (p_seg _ _ _ _ _ _ HC))|].
    destruct (block_range _ _ _ _ _ _ HC _ _ (blocks_mid _ l1 b l2)) as (_ & _ & Hb & _).
    destruct (size_flags (bsize b) ltac:(lia)) as (_ & _ & F1 & F2 & _). apply HQ; [|congruence].
    simpl. unfold size_word. destruct (is_used b); [done|]. by rewrite Z.add_0_r.
Qed.

Section absorb.
  Context (s : kstate) (m : gmap Z Z) (P S z : Z) (l1 l2 : list mblk) (L : Z → list Z) (cu wl : Z).
  Context (HR : PRep m P S (l1 ++ loose z :: l2) L cu wl) (Hl : Forall settled l2).
  Abbreviation a := (P + 944 + total l1).
  Abbreviation z' := ((absorb z l2).1).
  Abbreviation l2' := ((absorb z l2).2).

Lemma wp_absorb (Q : unit → kstate → Prop) :
  (∀ m' L', PRep m' P S (l1 ++ loose z' :: l2') L' cu wl → kept P S (l1 ++ loose z' :: l2') m m' →
     Q tt (rset s m')) →
  wp (when (negb (next_used l2)) (OsMemFreeNodeDelete P (a + z);; OsMemMergeNode (a + z))) Q (rset s m).
Proof.
  intros HQ. destruct (next_used l2) eqn:Hn.
  { rewrite absorb_used in HQ by done. simpl in *. wp_step. eapply HQ; [exact HR|apply kept_refl]. }
  assert (∃ y l, l2 = free_blk y :: l) as (y & l & El).
  { destruct l2 as [|b l]; [done|]. exists (bsize b), l. f_equal. apply free_settled; [|done].
    by apply Forall_cons in Hl as [? _]. }
  rewrite El in *. simpl in *. wp_step.
  assert (a + z = P + 944 + total (l1 ++ [loose z])) as -> by (rewrite total_app; simpl; lia).
  eapply (wp_OsMemFreeNodeDelete s m P S y (l1 ++ [loose z]) l L cu wl); [by rewrite <- app_assoc|].
  intros m1 L1 HR1 Hk1. rewrite <- app_assoc in *. simpl in *.
  assert (P + 944 + total (l1 ++ [loose z]) = a + bsize (loose z)) as -> by (rewrite total_app; simpl; lia).
  eapply (wp_OsMemMergeNode s m1 P S y l1 l (loose z)); [exact HR1|done|done|].
  intros m2 HR2 Hk2. eapply HQ; [exact HR2|].
  apply (kept_replace P S l1 [loose z; loose y] [loose (z + y)] l); [by repeat constructor|simpl; lia|].
  eapply kept_trans; [exact Hk1|exact Hk2].
Qed.

(** The end of a split: what is left over joins the free block behind it and is listed. *)
Lemma wp_absorb_add (Q : unit → kstate → Prop) :
  (∀ m' L', PRep m' P S (l1 ++ free_blk z' :: l2') L' cu wl → kept P S (l1 ++ free_blk z' :: l2') m m' →
     Q tt (rset s m')) →
  wp (n ← get_sizeAndFlag (a + z);
      when (negb (OS_MEM_NODE_GET_USED_FLAG n)) (OsMemFreeNodeDelete P (a + z);; OsMemMergeNode (a + z));;
      OsMemFreeNodeAdd P a) Q (rset s m).
Proof.
  intros HQ. wp_step.
  assert (a + z = P + 944 + total (l1 ++ [loose z])) as Ea by (rewrite total_app; simpl; lia).
  rewrite Ea at 1. eapply (wp_next_used s m P S (l1 ++ [loose z]) l2); [rewrite <- app_assoc; apply HR|].
  intros v -> _. wp_step. apply wp_absorb. intros m1 L1 HR1 Hk1.
  eapply wp_OsMemFreeNodeAdd; [exact HR1|]. intros m2 L2 HR2 Hk2. eapply HQ; [exact HR2|].
  eapply kept_trans; [|exact Hk2]. by apply (kept_restat _ _ _ (loose z')).
Qed.
End absorb.

(** ** Splitting *)

Section split.
  Context (s : kstate) (m : gmap Z Z) (P S k : Z) (l1 l2 : list mblk) (b : mblk) (L : Z → list Z) (cu wl : Z).
  Context (HR : PRep m P S (l1 ++ b :: l2) L cu wl) (Hb : unlisted b) (Hu : is_used b = false).
  Context (Hk : 16 ≤ k) (Hk4 : k mod 4 = 0) (Hkz : k + 16 ≤ bsize b) (Hl : Forall settled l2).
  Abbreviation a := (P + 944 + total l1).
  Abbreviation z := (bsize b).
  Abbreviation front := (mkBlk k (bstat b)).
  Abbreviation split_mem w1 w2 :=
    (w32 (node_prev (a + z)) (a + k) (w32 (node_word a) w2 (w32 (node_word (a + k)) w1 (w32 (node_prev (a + k)) a m)))).

Lemma PRep_split w1 w2 :
  0 ≤ w1 < 2 ^ 32 → Z.shiftr w1 6 = z - k → 0 ≤ w2 < 2 ^ 32 → Z.shiftr w2 6 = k → tid_word (bstat b) w2 →
  PRep (split_mem w1 w2) P S (l1 ++ front :: loose (z - k) :: l2) L cu wl ∧
  kept P S (l1 ++ front :: loose (z - k) :: l2) m (split_mem w1 w2).
Proof.
  intros Hw1 Hs1 Hw2 Hs2 Htw. pose proof (p_core _ _ _ _ _ _ _ HR) as HC. pose proof (p_geom _ _ _ _ _ _ HC).
  destruct (row_parts _ _ _ _ [b] l2 _ _ _ HR) as (Z1 & Z2 & Z3 & HE & H1 & [[Hp _] _] & H3).
  cbn [total last_addr] in HE, H3. rewrite Z.add_0_r in HE, H3.
  pose proof Z2 as [[Hb16 Hb4] _]%Forall_cons. pose proof (total_nonneg _ Z1). pose proof (total_nonneg _ Z3).
  assert (PRep (split_mem w1 w2) P S (l1 ++ [front; loose (z - k)] ++ l2) L cu wl) as HR'.
  { apply (PRep_replace m P S l1 [b] l2 L cu wl HR); [by repeat constructor..| | | | |].
    - repeat constructor; cbn [bsize loose]; [lia|done|lia|]. rewrite Zminus_mod, Hb4, Hk4. done.
    - simpl. lia.
    - cbn [total]. repeat (apply writes_step; [addrs; lia|]). apply writes_refl.
    - cbn [seg bsize loose]. split_and!; [| |done].
      + split; [by rd|]. exists w2. split; [by rd|]. unfold hdr_word, is_used in *. cbn [bsize bstat].
        rewrite Hu. split; [lia|exact Htw].
      + split; [by rd|]. exists w1. split; [by rd|]. split; [|done]. cbn. lia.
    - cbn [total last_addr bsize loose]. rewrite Z.add_0_r.
      eapply row_relink; [done|lia|lia|]. eapply row_ext; [done|lia| |exact H3]. intros x Hx. by rd. }
  split; [exact HR'|]. pose proof (p_core _ _ _ _ _ _ _ HR') as HC'.
  assert ((a + k, loose (z - k)) ∈ blocks (P + 944) (l1 ++ [front; loose (z - k)] ++ l2)) as Hin.
  { rewrite !blocks_app. simpl. set_solver. }
  apply writes_kept, writes_step, writes_step, writes_step, writes_one.
  - rewrite app_assoc in HC'. change (l1 ++ front :: loose (z - k) :: l2) with (l1 ++ [front; loose (z - k)] ++ l2).
    rewrite app_assoc. replace (a + z) with (P + 944 + total (l1 ++ [front; loose (z - k)])); [by eapply own_next|].
    rewrite total_app. simpl. lia.
  - eapply own_header; [exact HC'|apply blocks_mid|addrs; lia..].
  - eapply own_header; [exact HC'|exact Hin|addrs; lia..].
  - eapply own_header; [exact HC'|exact Hin|addrs; lia..].
Qed.

Abbreviation rest_size := ((absorb (z - k) l2).1).
Abbreviation rest_list := ((absorb (z - k) l2).2).

Lemma wp_OsMemSplitNode (Q : unit → kstate → Prop) :
  (∀ m' L', PRep m' P S (l1 ++ front :: free_blk rest_size :: rest_list) L' cu wl →
     kept P S (l1 ++ front :: free_blk rest_size :: rest_list) m m' → Q tt (rset s m')) →
  wp (OsMemSplitNode P a k) Q (rset s m).
Proof.
  intros HQ. pose proof (p_core _ _ _ _ _ _ _ HR) as HC. pose proof (p_geom _ _ _ _ _ _ HC).
  destruct (row_parts _ _ _ _ [b] l2 _ _ _ HR) as (Z1 & Z2 & Z3 & HE & H1 & [Ha _] & H3).
  cbn [total] in HE. pose proof Z2 as [[Hb16 Hb4] _]%Forall_cons.
  pose proof (total_nonneg _ Z1). pose proof (total_nonneg _ Z3). pose proof Ha as (Hap & wa & Ewa & Hwa).
  assert (∀ x, a ≤ x → x + 4 ≤ a + z + 8 → is_Some (read32 m x)) as Hmap.
  { intros x X1 X2. eapply mapped_read32; [apply HC|lia|lia]. }
  unfold OsMemSplitNode. rewrite u32_small by lia. wp_step. apply wpm_store32; [apply Hmap; addrs; lia|].
  wp_step. eapply wp_get_size; [split; [rd; exact Hap|exists wa; rd; by split]|]. rewrite size_word_free by done.
  destruct (Hmap (node_word (a + k))) as [wn Ewn]; [addrs; lia..|].
  wp_step. eapply wp_set_size; [rd; exact Ewn|lia|]. intros w1 Hw1 Hs1 _.
  wp_step. eapply wp_set_size; [rd; exact Ewa|lia|]. intros w2 Hw2 Hs2 Hmod.
  destruct (PRep_split w1 w2 Hw1 Hs1 Hw2 Hs2) as [HR' Hk'].
  { destruct Hwa as [_ Hta]. by destruct (bstat b); simpl in *; rewrite ?Hmod. }
  wp_step. unfold OS_MEM_NEXT_NODE. wp_step.
  eapply (wp_get_size _ _ (a + k) a (loose (z - k))).
  { split; [by rd|]. exists w1. split; [by rd|]. split; [|done]. cbn. lia. }
  wp_step. rewrite size_word_free by done. cbn [bsize loose].
  destruct (size_flags (z - k) ltac:(lia)) as (-> & _). replace (a + k + (z - k)) with (a + z) by lia.
  rewrite u32_small by lia. wp_step. apply wpm_store32; [rd; apply Hmap; addrs; lia|].
  change (l1 ++ front :: ?l) with (l1 ++ [front] ++ l) in HR', Hk', HQ. rewrite app_assoc in HR', HQ.
  assert (a + k = P + 944 + total (l1 ++ [front])) as Ek by (rewrite total_app; simpl; lia).
  assert (a + z = P + 944 + total (l1 ++ [front]) + (z - k)) as Ez by lia. rewrite Ek, Ez in *.
  eapply wp_absorb_add; [exact HR'|exact Hl|]. intros m' L' HR2 Hk2. eapply HQ; [exact HR2|].
  eapply kept_trans; [|exact Hk2]. apply kept_absorb. by rewrite <- app_assoc.
Qed.
End split.

(** ** What a pool does not depend on *)

Lemma read32_ext m m' y : (∀ i, y ≤ i < y + 4 → m' !! i = m !! i) → read32 m' y = read32 m y.
Proof. intros He. unfold read32. erewrite read_bytes_ext; [done|]. intros i Hi. apply He. lia. Qed.

(** Memory outside the pool and the link to the next pool. *)
Lemma PRep_frame m m' P S bs L cu wl :
  PRep m P S bs L cu wl → mapped m' P (Z.to_nat S) →
  (∀ i, P ≤ i < P + S → i < P + 940 ∨ P + 944 ≤ i → m' !! i = m !! i) →
  PRep m' P S bs L cu wl.
Proof.
  intros HR Hm He. pose proof HR as [HC HL HM]. pose proof HC as [C1 C2 C3 C4 C5 C6 C7 C8 C9 C10 C11].
  assert (∀ y, P ≤ y → y + 4 ≤ P + S → y + 4 ≤ P + 940 ∨ P + 944 ≤ y → read32 m' y = read32 m y) as Hy.
  { intros y Y1 Y2 Y3. apply read32_ext. intros i Hi. apply He; lia. }
  constructor; [|eapply Lists_ext; [|exact HL]|exact HM].
  - constructor; try done; rewrite ?Hy by (addrs; lia); try done.
    eapply seg_before; [done| |exact C7]. intros y Y1 Y2. apply Hy; lia.
  - intros y [(i & Hi & ->)|[(j & Hj & ->)|(i & d & Hd & Hdy)]]; [apply Hy; addrs; lia..|].
    apply (p_free _ _ _ HM) in Hd as (b & Hb & _).
    destruct (block_range _ _ _ _ _ _ HC _ _ Hb) as (? & ? & ? & _). apply Hy; addrs; lia.
Qed.
