(* ===== verification/PoolFree.v ===== *)
(** Release of a block: the check of a used node, and [OsMemFree], which joins the block with the
    free blocks before and behind it. *)

From stdpp Require Import functions.
From S2P Require Import Prelude DList Kernel Tick SortLink Mem Pmcu Sched Event Task Pool PoolIndex.
From S2P Require Import Bytes PoolInv PoolLists PoolRep PoolOps.

(** ** Reading around a block *)

Section around.
  Context (s : kstate) (m : gmap Z Z) (P S : Z) (l1 l2 : list mblk) (cu wl : Z).
  Context (HC : Core m P S (l1 ++ l2) cu wl).
  Abbreviation a := (P + 944 + total l1).

Lemma cut_range : P + 944 ≤ a ≤ P + S - 8 ∧ P + S < 2 ^ 32 ∧ 0 < P.
Proof.
  pose proof (p_geom _ _ _ _ _ _ HC). pose proof (p_sum _ _ _ _ _ _ HC) as Ht. rewrite total_app in Ht.
  pose proof (p_sized _ _ _ _ _ _ HC) as [Hs1 Hs2]%Forall_app.
  pose proof (total_nonneg _ Hs1). pose proof (total_nonneg _ Hs2). lia.
Qed.

Lemma prev_word : read32 m (node_prev a) = Some (last_addr (P + S - 8) (P + 944) l1).
Proof.
  pose proof (Core_row _ _ _ _ _ _ HC) as Hr. apply row_app in Hr as [_ [Hs He]]. destruct l2 as [|b l].
  - simpl in He. rewrite <- He. f_equal. pose proof (p_sum _ _ _ _ _ _ HC) as Ht.
    rewrite app_nil_r in Ht. addrs. lia.
  - apply Hs.
Qed.

Lemma pool_ends : OS_MEM_FIRST_NODE P = P + 944 ∧ OS_MEM_END_NODE P S = P + S - 8.
Proof.
  pose proof (p_geom _ _ _ _ _ _ HC). unfold OS_MEM_FIRST_NODE, OS_MEM_END_NODE. addrs.
  rewrite !u32_small by lia. done.
Qed.

(** Addresses between the head and the end pass the check. *)
Lemma wp_addr_valid c (Q : bool → kstate → Prop) :
  P + 944 ≤ c < P + S → Q true (rset s m) → wp (OsMemAddrValidCheck P c) Q (rset s m).
Proof.
  intros Hc HQ. unfold OsMemAddrValidCheck. wp_step. eapply wpm_load32; [apply HC|]. wp_step.
  pose proof (p_geom _ _ _ _ _ _ HC). rewrite u32_small by lia. addrs.
  destruct (Z.leb_spec (P + 944) c), (Z.ltb_spec c (P + S)); try lia. exact HQ.
Qed.
End around.

Lemma last_addr_range m P S l1 l2 cu wl :
  Core m P S (l1 ++ l2) cu wl → P + 944 ≤ last_addr (P + S - 8) (P + 944) l1 ≤ P + S - 8.
Proof.
  intros HC. pose proof (p_geom _ _ _ _ _ _ HC). destruct l1 as [|b l _] using rev_ind; [simpl; lia|].
  rewrite last_addr_app. simpl. rewrite <- app_assoc in HC. pose proof (cut_range _ _ _ _ _ _ _ HC). lia.
Qed.

Lemma wp_valid_node s m P S l1 l2 cu wl (Q : bool → kstate → Prop) :
  Core m P S (l1 ++ l2) cu wl → Q true (rset s m) →
  wp (OsMemIsNodeValid (P + 944 + total l1) (P + 944) (P + S - 8) P) Q (rset s m).
Proof.
  intros HC HQ. pose proof (cut_range _ _ _ _ _ _ _ HC). unfold OsMemIsNodeValid.
  destruct (Z.leb_spec (P + 944) (P + 944 + total l1)), (Z.leb_spec (P + 944 + total l1) (P + S - 8)); try lia.
  cbn [andb negb]. wp_step. eapply wp_next_used; [exact HC|]. intros v -> _.
  destruct (next_used l2); [by wp_step|]. wp_step. eapply wpm_load32; [by eapply prev_word|].
  eapply wp_addr_valid; [exact HC|pose proof (last_addr_range _ _ _ _ _ _ _ HC); lia|exact HQ].
Qed.

Lemma get_size_word b : 0 ≤ bsize b < 2 ^ 24 →
  OS_MEM_NODE_GET_SIZE (size_word b) = bsize b ∧ OS_MEM_NODE_GET_USED_FLAG (size_word b) = is_used b.
Proof.
  intros Hb. destruct (size_flags _ Hb) as (? & ? & ? & ? & _). unfold size_word.
  destruct (is_used b); [done|]. by rewrite Z.add_0_r.
Qed.

Section block.
  Context (s : kstate) (m : gmap Z Z) (P S : Z) (l1 l2 : list mblk) (b : mblk) (cu wl : Z).
  Context (HC : Core m P S (l1 ++ b :: l2) cu wl).
  Abbreviation a := (P + 944 + total l1).

Lemma mid_range : P + 944 ≤ a ∧ a + bsize b ≤ P + S - 8 ∧ P + S < 2 ^ 32 ∧ 0 < P ∧
  16 ≤ bsize b < 2 ^ 24 ∧ bsize b mod 4 = 0.
Proof.
  destruct (block_range _ _ _ _ _ _ HC _ _ (blocks_mid _ l1 b l2)) as (? & ? & ? & ?).
  pose proof (p_geom _ _ _ _ _ _ HC). lia.
Qed.

Lemma wp_mid_size (Q : Z → kstate → Prop) :
  Q (size_word b) (rset s m) → wp (get_sizeAndFlag a) Q (rset s m).
Proof. intros HQ. eapply wp_get_size; [apply (seg_mid _ _ _ _ _ _ (p_seg _ _ _ _ _ _ HC))|exact HQ]. Qed.

Lemma wp_next_node (Q : Z → kstate → Prop) :
  Q (a + bsize b) (rset s m) → wp (OS_MEM_NEXT_NODE a) Q (rset s m).
Proof.
  intros HQ. unfold OS_MEM_NEXT_NODE. wp_step. apply wp_mid_size. wp_step.
  pose proof mid_range. destruct (get_size_word b) as [-> _]; [lia|]. rewrite u32_small by lia. exact HQ.
Qed.
End block.

(** ** The check of a node *)

Section check.
  Context (s : kstate) (m : gmap Z Z) (P S : Z) (l1 l2 : list mblk) (b : mblk) (cu wl : Z).
  Context (HC : Core m P S (l1 ++ b :: l2) cu wl).
  Abbreviation a := (P + 944 + total l1).

Lemma HC_next : Core m P S ((l1 ++ [b]) ++ l2) cu wl.
Proof. by rewrite <- app_assoc. Qed.

Lemma next_addr : P + 944 + total (l1 ++ [b]) = a + bsize b.
Proof. rewrite total_app. simpl. lia. Qed.

(** The node before knows the way back. *)
Lemma wp_check_prev (Q : Z → kstate → Prop) :
  a ≠ P + 944 → Q LOS_OK (rset s m) →
  wp (prev ← load32 (node_prev a);
      ok ← OsMemIsNodeValid prev (P + 944) (P + S - 8) P;
      if negb ok then mret LOS_NOK
      else
        prev ← load32 (node_prev a);
        next ← OS_MEM_NEXT_NODE prev;
        mret (if next =? a then LOS_OK else LOS_NOK)) Q (rset s m).
Proof.
  intros Hne HQ. pose proof (prev_word _ _ _ _ _ _ _ HC) as Hp.
  assert (∃ l c, l1 = l ++ [c]) as (l & c & El).
  { clear -Hne. destruct l1 as [|c l _] using rev_ind; [simpl in Hne; lia|]. eauto. }
  assert (last_addr (P + S - 8) (P + 944) l1 = P + 944 + total l) as Ep
    by (rewrite El, last_addr_app; done). rewrite Ep in Hp.
  pose proof HC as HC'. rewrite El, <- app_assoc in HC'. simpl in HC'.
  assert (a = P + 944 + total l + bsize c) as Ea by (rewrite El, total_app; simpl; lia).
  wp_step. eapply wpm_load32; [exact Hp|]. wp_step. eapply wp_valid_node; [exact HC'|]. cbn [negb].
  wp_step. eapply wpm_load32; [exact Hp|]. wp_step. eapply wp_next_node; [exact HC'|]. wp_step.
  rewrite <- Ea, Z.eqb_refl. exact HQ.
Qed.

Lemma wp_OsMemCheckUsedNode (Q : Z → kstate → Prop) :
  Q (if is_used b then LOS_OK else LOS_NOK) (rset s m) → wp (OsMemCheckUsedNode P a) Q (rset s m).
Proof.
  intros HQ. pose proof (mid_range _ _ _ _ _ _ _ _ HC).
  unfold OsMemCheckUsedNode. destruct (pool_ends _ _ _ _ _ _ _ HC) as [-> HE]. wp_step.
  eapply wpm_load32; [apply HC|]. rewrite HE. wp_step. eapply wp_valid_node; [exact HC|]. cbn [negb].
  wp_step. eapply wp_mid_size; [exact HC|]. destruct (get_size_word b) as [_ ->]; [lia|].
  destruct (is_used b); cbn [negb]; [|by wp_step].
  wp_step. eapply wp_next_node; [exact HC|]. wp_step. rewrite <- next_addr.
  eapply wp_valid_node; [apply HC_next|]. cbn [negb]. wp_step.
  eapply wpm_load32; [apply (prev_word _ _ _ _ _ _ _ HC_next)|].
  rewrite last_addr_app. cbn [last_addr]. rewrite Z.eqb_refl. cbn [negb].
  destruct (Z.eqb_spec a (P + 944)) as [|Hne]; [by wp_step|]. by apply wp_check_prev.
Qed.
End check.

(** ** The counters *)

Definition counter_word (P x : Z) : Prop := x = info_curUsedSize P ∨ x = info_waterLine P.

Lemma PRep_counters m m' P S bs L cu wl cu' wl' :
  PRep m P S bs L cu wl → writes (counter_word P) m m' →
  read32 m' (info_curUsedSize P) = Some cu' → read32 m' (info_waterLine P) = Some wl' →
  PRep m' P S bs L cu' wl' ∧ kept P S bs m m'.
Proof.
  intros HR Hw Hc Hwl. pose proof HR as [HC HL HM]. pose proof (p_geom _ _ _ _ _ _ HC).
  assert (∀ y, y + 4 ≤ P + 12 ∨ P + 20 ≤ y → read32 m' y = read32 m y) as Hy.
  { intros y Hy. eapply writes_read32; [exact Hw|]. intros x [->| ->]; addrs; lia. }
  split; [constructor; [|eapply Lists_ext; [|exact HL]|exact HM]|].
  - pose proof HC as [C1 C2 C3 C4 C5 C6 C7 C8 C9 C10 C11].
    destruct (row_ext m m' (P + S - 8) (P + S - 8) (P + 944) bs) as [R1 R2];
      [done|lia|intros y ?; apply Hy; lia|by split|].
    constructor; try done; rewrite ?Hy by (addrs; lia); try done. by eapply writes_mapped.
  - intros y [(i & Hi & ->)|[(j & Hj & ->)|(i & d & Hd & Hdy)]]; apply Hy; [addrs; lia..|].
    apply (sp_range _ _ (PRep_spaced _ _ _ _ _ _ _ HR)) in Hd. addrs. lia.
  - eapply writes_kept, writes_mono; [|exact Hw].
    intros x [->| ->]; (eapply own_head; [exact HC|addrs; lia..]).
Qed.

Lemma PRep_cur m P S bs L cu cu' wl :
  PRep m P S bs L cu wl → 0 ≤ cu' < 2 ^ 32 →
  let m' := w32 (info_curUsedSize P) cu' m in PRep m' P S bs L cu' wl ∧ kept P S bs m m'.
Proof.
  intros HR Hc m'. eapply PRep_counters; [exact HR|apply writes_one; by left|unfold m'; by rd|].
  unfold m'. rd. apply HR.
Qed.

(** ** Joining with the free neighbour before *)

Definition prev_used (l : list mblk) : bool := match last l with None => true | Some b => is_used b end.

Definition absorb_back (l : list mblk) (z : Z) : list mblk * Z :=
  match last l with
  | Some (mkBlk x Free) => (removelast l, x + z)
  | _ => (l, z)
  end.

Lemma absorb_back_used l z : prev_used l = true → absorb_back l z = (l, z).
Proof. unfold prev_used, absorb_back. destruct (last l) as [[x []]|]; done. Qed.

Lemma absorb_back_free l x z : absorb_back (l ++ [free_blk x]) z = (l, x + z).
Proof. unfold absorb_back. by rewrite last_snoc, removelast_last. Qed.

Lemma wp_prev_used s m P S l1 l2 cu wl (Q : Z → kstate → Prop) :
  Core m P S (l1 ++ l2) cu wl →
  (∀ v, OS_MEM_NODE_GET_USED_FLAG v = prev_used l1 → Q v (rset s m)) →
  wp (get_sizeAndFlag (last_addr (P + S - 8) (P + 944) l1)) Q (rset s m).
Proof.
  intros HC HQ. destruct l1 as [|c l _] using rev_ind.
  - pose proof HC as HC'. rewrite <- (app_nil_r ([] ++ l2)) in HC'. pose proof (p_sum _ _ _ _ _ _ HC) as Ht.
    simpl. replace (P + S - 8) with (P + 944 + total ([] ++ l2)) by lia.
    eapply wp_next_used; [exact HC'|]. intros v Hv _. by apply HQ.
  - rewrite last_addr_app. simpl. rewrite <- app_assoc in HC. simpl in HC.
    eapply wp_mid_size; [exact HC|]. apply HQ. pose proof (mid_range _ _ _ _ _ _ _ _ HC).
    destruct (get_size_word c) as [_ ->]; [lia|]. unfold prev_used. by rewrite last_snoc.
Qed.

Section absorb_back.
  Context (s : kstate) (m : gmap Z Z) (P S z : Z) (l1 l2 : list mblk) (L : Z → list Z) (cu wl : Z).
  Context (HR : PRep m P S (l1 ++ loose z :: l2) L cu wl) (Hl : Forall settled l1).
  Abbreviation a := (P + 944 + total l1).
  Abbreviation l1' := ((absorb_back l1 z).1).
  Abbreviation z' := ((absorb_back l1 z).2).

Lemma wp_absorb_back (Q : Z → kstate → Prop) :
  (∀ m' L', PRep m' P S (l1' ++ loose z' :: l2) L' cu wl → kept P S (l1' ++ loose z' :: l2) m m' →
     Q (P + 944 + total l1') (rset s m')) →
  wp (let preNode := last_addr (P + S - 8) (P + 944) l1 in
      if negb (prev_used l1) then OsMemFreeNodeDelete P preNode;; OsMemMergeNode a;; mret preNode
      else mret a) Q (rset s m).
Proof.
  intros HQ. cbv zeta. destruct (prev_used l1) eqn:Hp; cbn [negb].
  { rewrite absorb_back_used in HQ by done. simpl in *. wp_step. eapply HQ; [exact HR|apply kept_refl]. }
  assert (∃ x l, l1 = l ++ [free_blk x]) as (x & l & El).
  { clear -Hp Hl. destruct l1 as [|c l _] using rev_ind; [done|]. unfold prev_used in Hp.
    rewrite last_snoc in Hp. exists (bsize c), l. repeat f_equal. apply free_settled; [|done].
    by apply Forall_app in Hl as [_ [? _]%Forall_cons]. }
  rewrite El in *. rewrite absorb_back_free in HQ. simpl in HQ. rewrite last_addr_app. cbn [last_addr].
  rewrite <- app_assoc in *. simpl in *. wp_step. eapply (wp_OsMemFreeNodeDelete s m P S x l); [exact HR|].
  intros m1 L1 HR1 Hk1. wp_step.
  assert (P + 944 + total (l ++ [free_blk x]) = P + 944 + total l + bsize (loose x)) as ->
    by (rewrite total_app; simpl; lia).
  eapply (wp_OsMemMergeNode s m1 P S z l l2 (loose x)); [exact HR1|done|done|].
  intros m2 HR2 Hk2. wp_step. eapply HQ; [exact HR2|].
  apply (kept_replace P S l [loose x; loose z] [loose (x + z)] l2); [by repeat constructor|simpl; lia|].
  eapply kept_trans; [exact Hk1|exact Hk2].
Qed.
End absorb_back.

(** ** [OsMemFree] *)

(** The row after the release of a block of size [z] between [l1] and [l2]. *)
Definition release (l1 : list mblk) (z : Z) (l2 : list mblk) : list mblk :=
  let '(l1, z) := absorb_back l1 z in
  let '(z, l2) := absorb z l2 in
  l1 ++ free_blk z :: l2.

Lemma kept_absorb_back P S l1 z l2 m m' :
  kept P S (l1 ++ loose z :: l2) m m' →
  kept P S ((absorb_back l1 z).1 ++ loose (absorb_back l1 z).2 :: l2) m m'.
Proof.
  destruct l1 as [|[x st] l _] using rev_ind; [done|]. unfold absorb_back. rewrite last_snoc.
  destruct st; try done. rewrite removelast_last. cbn [fst snd]. rewrite <- app_assoc.
  apply (kept_replace P S l [free_blk x; loose z] [loose (x + z)] l2); [by repeat constructor|simpl; lia].
Qed.

Section free.
  Context (s : kstate) (m : gmap Z Z) (P S z t : Z) (l1 l2 : list mblk) (L : Z → list Z) (cu wl : Z).
  Context (HR : PRep m P S (l1 ++ mkBlk z (Used t) :: l2) L cu wl).
  Context (Hl1 : Forall settled l1) (Hl2 : Forall settled l2) (Hcu : z ≤ cu < 2 ^ 32).
  Abbreviation a := (P + 944 + total l1).

(** The block is out of the count and out of use. *)
Lemma wp_free_mark {A} (k : K A) (Q : A → kstate → Prop) :
  (∀ m', PRep m' P S (l1 ++ loose z :: l2) L (cu - z) wl → kept P S (l1 ++ loose z :: l2) m m' →
     wp k Q (rset s m')) →
  wp (cur ← load32 (info_curUsedSize P);
      v ← get_sizeAndFlag a;
      store32 (info_curUsedSize P) (u32 (cur - OS_MEM_NODE_GET_SIZE v));;
      v ← get_sizeAndFlag a;
      set_sizeAndFlag a (OS_MEM_NODE_GET_SIZE v);;
      k) Q (rset s m).
Proof.
  intros HQ. pose proof (p_core _ _ _ _ _ _ _ HR) as HC. pose proof (mid_range _ _ _ _ _ _ _ _ HC) as Hz.
  destruct (get_size_word (mkBlk z (Used t))) as [Eg _]; [cbn [bsize] in *; lia|]. cbn [bsize] in *.
  wp_step. eapply wpm_load32; [apply HC|]. wp_step. eapply wp_mid_size; [exact HC|]. rewrite Eg, u32_small by lia.
  destruct (PRep_cur _ _ _ _ _ _ (cu - z) _ HR) as [HR1 Hk1]; [lia|].
  wp_step. apply wpm_store32; [exists cu; apply HC|]. wp_step. eapply wp_mid_size; [apply HR1|].
  rewrite Eg. wp_step.
  eapply (wp_set_header _ _ P S l1 l2 (mkBlk z (Used t)) (loose z)); [exact HR1|done|done|done| |done|].
  { by rewrite size_word_free. }
  intros m2 HR2 _ Hk2. eapply HQ; [exact HR2|]. eapply kept_trans; [|exact Hk2].
  by apply (kept_replace _ _ _ [mkBlk z (Used t)] [loose z]); [repeat constructor|..].
Qed.

Lemma wp_OsMemFree (Q : Z → kstate → Prop) :
  (∀ m' L', PRep m' P S (release l1 z l2) L' (cu - z) wl → kept P S (release l1 z l2) m m' →
     Q LOS_OK (rset s m')) →
  wp (OsMemFree P a) Q (rset s m).
Proof.
  intros HQ. unfold release in HQ. unfold OsMemFree. wp_step. eapply wp_OsMemCheckUsedNode; [apply HR|].
  cbn [is_used bstat negb Z.eqb LOS_OK]. apply wp_free_mark. intros m1 HR1 Hk1.
  pose proof (last_addr_range _ _ _ _ _ _ _ (p_core _ _ _ _ _ _ _ HR1)) as Hlast.
  pose proof (mid_range _ _ _ _ _ _ _ _ (p_core _ _ _ _ _ _ _ HR1)) as (_ & _ & _ & HP & _).
  wp_step. eapply wpm_load32; [eapply prev_word; apply HR1|].
  destruct (Z.eqb_spec (last_addr (P + S - 8) (P + 944) l1) 0); [lia|]. cbn [negb andb].
  wp_step. eapply wp_prev_used; [apply HR1|]. intros v ->. wp_step.
  eapply wp_absorb_back; [exact HR1|exact Hl1|]. apply kept_absorb_back in Hk1.
  destruct (absorb_back l1 z) as [l1' z1] eqn:Eb. cbn [fst snd] in *. intros m2 L2 HR2 Hk2.
  pose proof (mid_range _ _ _ _ _ _ _ _ (p_core _ _ _ _ _ _ _ HR2)) as Hr. cbn [bsize loose] in Hr.
  wp_step. eapply wp_next_node; [apply HR2|]. cbn [bsize loose].
  destruct (Z.eqb_spec (P + 944 + total l1' + z1) 0); [lia|]. cbn [negb andb].
  assert (P + 944 + total l1' + z1 = P + 944 + total (l1' ++ [loose z1])) as Ea by (rewrite total_app; simpl; lia).
  wp_step. rewrite Ea at 1. eapply (wp_next_used _ _ P S (l1' ++ [loose z1]) l2); [rewrite <- app_assoc; apply HR2|].
  intros v2 -> _. wp_step. eapply wp_absorb; [exact HR2|exact Hl2|].
  pose proof (kept_absorb P S l1' z1 l2 m m2 (kept_trans _ _ _ _ _ _ Hk1 Hk2)) as Hk.
  destruct (absorb z1 l2) as [z2 l2'] eqn:Ef. cbn [fst snd] in *. intros m3 L3 HR3 Hk3.
  wp_step. eapply wp_OsMemFreeNodeAdd; [exact HR3|]. intros m4 L4 HR4 Hk4. wp_step. eapply HQ; [exact HR4|].
  eapply kept_trans; [exact Hk|]. eapply kept_trans; [|exact Hk4]. by apply (kept_restat _ _ _ (loose z2)).
Qed.
End free.
