(* ===== verification/PoolInit.v ===== *)
(** Initialisation of a pool: [OsMemPoolInit] turns a piece of memory into a pool with one free
    block, and [LOS_MemInit] puts it on the list of pools. *)

From stdpp Require Import functions.
From S2P Require Import Prelude DList Kernel Tick SortLink Mem Pmcu Sched Event Task Pool PoolIndex.
From S2P Require Import Bytes PoolInv PoolLists PoolRep PoolOps PoolFree.

(** ** Cleared memory *)

Lemma read32_zeros m a n x :
  a ≤ x → x + 4 ≤ a + Z.of_nat n → read32 (write_bytes a (replicate n 0) m) x = Some 0.
Proof.
  intros H1 H2. unfold read32. replace (read_bytes _ x 4) with (Some [0; 0; 0; 0]); [done|].
  symmetry. apply read_bytes_lookup. split; [done|]. intros k Hk.
  replace (x + Z.of_nat k) with (a + Z.of_nat (Z.to_nat (x - a) + k)) by lia.
  rewrite (write_bytes_in a _ m _ 0); [|apply lookup_replicate; split; [done|lia]].
  do 4 (destruct k as [|k]; [done|]). lia.
Qed.

Definition no_nodes : Z → list Z := fun _ => [].

Lemma Lists_empty m P :
  (∀ x, P + 20 ≤ x → x + 4 ≤ P + 940 → read32 m x = Some 0) → Lists m P no_nodes.
Proof.
  intros Hz. constructor.
  - intros i Hi. apply Hz; addrs; lia.
  - done.
  - intros j Hj. exists 0. split; [apply Hz; addrs; lia|]. split; [lia|].
    intros k Hk. by rewrite Z.bits_0.
Qed.

Lemma spaced_empty P : spaced P no_nodes.
Proof. constructor; unfold no_nodes; try set_solver. intros _. constructor. Qed.

Section init.
  Context (s : kstate) (m : gmap Z Z) (P S : Z).
  Context (HP : 0 < P) (HP4 : P mod 4 = 0) (HS : 968 ≤ S < 2 ^ 24) (HS4 : S mod 4 = 0) (HPS : P + S < 2 ^ 32).
  Context (Hm : mapped m P (Z.to_nat S)).
  Abbreviation first := (P + 944).
  Abbreviation last := (P + S - 8).
  Abbreviation z := (S - 952).

(** The head of the pool and the header of the first node. *)
Definition head_mem (w : Z) : gmap Z Z :=
  w32 (node_prev first) last (w32 (node_word first) w
    (w32 (info_attr P) 0 (w32 (info_totalSize P) S (w32 (info_pool P) P
      (write_bytes P (replicate 944 0) m))))).

Lemma head_mapped w : mapped (head_mem w) P (Z.to_nat S).
Proof. by do 5 apply w32_mapped; apply write_bytes_mapped. Qed.

Lemma head_zeros w x : P + 12 ≤ x → x + 4 ≤ P + 944 → read32 (head_mem w) x = Some 0.
Proof. intros H1 H2. unfold head_mem. rd. apply read32_zeros; lia. Qed.

Lemma wp_pool_head (k : K Z) (Q : Z → kstate → Prop) :
  (∀ w, 0 ≤ w < 2 ^ 32 → Z.shiftr w 6 = z → wp k Q (rset s (head_mem w))) →
  wp (memset_s P S 0 sizeof_OsMemPoolHead;;
      store32 (info_pool P) P;;
      store32 (info_totalSize P) S;;
      attr ← load32 (info_attr P);
      store32 (info_attr P) (Z.ldiff attr (Z.lor OS_MEM_POOL_UNLOCK_ENABLE OS_MEM_POOL_EXPAND_ENABLE));;
      set_sizeAndFlag first (u32 (S - sizeof_OsMemPoolHead - OS_MEM_NODE_HEAD_SIZE));;
      store32 (node_prev first) last;;
      k) Q (rset s m).
Proof.
  intros Hk. unfold memset_s. destruct (Z.leb_spec S SECUREC_MEM_MAX_LEN); [|unfold SECUREC_MEM_MAX_LEN in *; lia].
  destruct (Z.eqb_spec P 0); [lia|]. destruct (Z.leb_spec sizeof_OsMemPoolHead S); [|addrs; lia]. cbn [andb negb].
  wp_step. wp_step. apply wp_store_bytes; [intros i Hi; apply Hm; rewrite length_replicate in Hi; addrs; lia|].
  change (u8 0) with 0. change (Z.to_nat sizeof_OsMemPoolHead) with 944%nat.
  change ((rset s m) <| ram := write_bytes P (replicate 944 0) (ram (rset s m)) |>)
    with (rset s (write_bytes P (replicate 944 0) m)). set (m0 := write_bytes P (replicate 944 0) m).
  assert (∀ x, P ≤ x → x + 4 ≤ P + 944 → read32 m0 x = Some 0) as Hz0 by (intros; apply read32_zeros; lia).
  assert (mapped m0 P (Z.to_nat S)) as Hm0 by by apply write_bytes_mapped.
  assert (∀ x, P ≤ x → x + 4 ≤ P + S → is_Some (read32 m0 x)) as Hs0 by (intros; eapply mapped_read32; [done|lia..]).
  wp_step. wp_step. apply wpm_store32; [rewrite Hz0 by (addrs; lia); eauto|].
  wp_step. apply wpm_store32; [rd; rewrite Hz0 by (addrs; lia); eauto|].
  wp_step. eapply wpm_load32; [rd; apply Hz0; addrs; lia|]. rewrite Z.ldiff_0_l.
  wp_step. apply wpm_store32; [rd; rewrite Hz0 by (addrs; lia); eauto|].
  destruct (Hs0 (node_word first)) as [w0 Ew0]; [addrs; lia..|].
  wp_step. addrs. rewrite u32_small by lia. eapply wp_set_size; [rd; exact Ew0|lia|].
  intros w Hw Hsh _. wp_step. apply wpm_store32; [rd; apply Hs0; addrs; lia|]. apply Hk; [done|]. rewrite Hsh. lia.
Qed.

(** The first node is put into its list. *)
Definition first_lists : Z → list Z := list_added no_nodes (size_index z) first.

Lemma first_links x : link_word P first_lists x →
  P + 20 ≤ x ∧ x + 4 ≤ P + 940 ∨ first + 8 ≤ x ∧ x + 4 ≤ first + 16.
Proof.
  intros [(i & Hi & ->)|[(j & Hj & ->)|(i & c & Hc & Hx)]]; [addrs; lia..|]. right.
  apply elem_of_fn_cons in Hc as [[_ ->]|Hc]; [addrs; lia|by apply elem_of_nil in Hc].
Qed.

Lemma first_Match : Match P [free_blk z] first_lists.
Proof.
  constructor.
  - intros i c. split.
    + intros [[-> ->]|Hc]%elem_of_fn_cons; [|by apply elem_of_nil in Hc].
      exists (free_blk z). simpl. split; [set_solver|done].
    + intros (b & Hin & _ & <-). simpl in Hin. assert (c = first ∧ b = free_blk z) as [-> ->] by set_solver.
      unfold first_lists, list_added. rewrite fn_lookup_insert. set_solver.
  - intros i. unfold first_lists, list_added. destruct (decide (size_index z = i)) as [<-|Hne].
    + rewrite fn_lookup_insert. apply NoDup_singleton.
    + rewrite fn_lookup_insert_ne by done. constructor.
Qed.

Lemma wp_first_add w (Q : unit → kstate → Prop) :
  Z.shiftr w 6 = z → 0 ≤ w < 2 ^ 32 →
  (∀ m', Lists m' P first_lists → writes (link_word P first_lists) (head_mem w) m' → Q tt (rset s m')) →
  wp (OsMemFreeNodeAdd P first) Q (rset s (head_mem w)).
Proof.
  intros Hsh Hw HQ. unfold OsMemFreeNodeAdd. wp_step.
  eapply (wp_get_size _ _ first last (free_blk z)).
  { unfold head_mem. split; [by rd|]. exists w. split; [by rd|]. split; [|done]. rewrite Hsh. cbn. lia. }
  pose proof (size_index_range z ltac:(lia)) as Hi.
  rewrite size_word_free, OsMemFreeListIndexGet_spec by (done || (cbn [bsize free_blk]; lia)).
  cbn [bsize free_blk]. destruct (Z.leb_spec OS_MEM_FREE_LIST_COUNT (size_index z)); [lia|].
  pose proof (head_mapped w) as Hmap.
  eapply (wp_OsMemListAdd s _ P no_nodes); [|apply spaced_empty|lia|exact Hi|addrs; lia|set_solver| | |exact HQ].
  - apply Lists_empty. intros x H1 H2. apply head_zeros; lia.
  - eapply mapped_read32; [exact Hmap|addrs; lia..].
  - eapply mapped_read32; [exact Hmap|addrs; lia..].
Qed.

(** The end node and the counters. *)
Definition tail_mem (w1 w2 : Z) (m1 : gmap Z Z) : gmap Z Z :=
  w32 (info_waterLine P) 952 (w32 (info_curUsedSize P) 952
    (w32 (node_word last) w2 (w32 (node_prev last) first (w32 (node_word last) w1 m1)))).

Lemma PRep_init w w1 w2 m1 :
  0 ≤ w < 2 ^ 32 → Z.shiftr w 6 = z → 0 ≤ w2 < 2 ^ 32 → Z.shiftr w2 6 = 2 ^ 25 →
  Lists m1 P first_lists → writes (link_word P first_lists) (head_mem w) m1 →
  PRep (tail_mem w1 w2 m1) P S [free_blk z] first_lists 952 952.
Proof.
  intros Hw Hsh Hw2 Hsh2 HL Hwr.
  assert (∀ y, y + 4 ≤ P + 20 ∨ first ≤ y ∧ y + 4 ≤ first + 8 → read32 m1 y = read32 (head_mem w) y) as Hout.
  { intros y Hy. eapply writes_read32; [exact Hwr|]. intros x Hx%first_links. lia. }
  constructor; [| |exact first_Match].
  - unfold tail_mem. constructor; try (by rd); try done.
    + do 5 apply w32_mapped. eapply writes_mapped; [exact Hwr|apply head_mapped].
    + rd. rewrite Hout by (addrs; lia). unfold head_mem. by rd.
    + rd. rewrite Hout by (addrs; lia). unfold head_mem. by rd.
    + repeat constructor; cbn [bsize free_blk]; [lia|]. rewrite Zminus_mod, HS4. done.
    + simpl. lia.
    + cbn [seg]. split; [|done]. split; [rd; rewrite Hout by (addrs; lia); unfold head_mem; by rd|].
      exists w. rd. rewrite Hout by (addrs; lia). split; [unfold head_mem; by rd|]. split; [|done].
      rewrite Hsh. cbn. lia.
    + exists w2. split; [by rd|done].
  - eapply Lists_ext; [|exact HL]. intros y Hy%first_links. unfold tail_mem. by rd.
Qed.

(** Nothing outside the pool changes. *)
Lemma init_outside w w1 w2 m1 i :
  writes (link_word P first_lists) (head_mem w) m1 → i < P ∨ P + S ≤ i →
  tail_mem w1 w2 m1 !! i = m !! i.
Proof.
  intros Hwr Hi. transitivity (write_bytes P (replicate 944 0) m !! i).
  - apply (writes_lookup (fun x => P ≤ x ≤ P + S - 4)); [|intros x [? ?]; lia].
    do 5 (apply writes_step; [addrs; lia|]). eapply (writes_trans _ _ (head_mem w)).
    + do 5 (apply writes_step; [addrs; lia|]). apply writes_refl.
    + eapply writes_mono; [|exact Hwr]. intros x Hx%first_links. lia.
  - apply write_bytes_other. rewrite length_replicate. lia.
Qed.

Lemma wp_OsMemPoolInit (Q : Z → kstate → Prop) :
  (∀ m', PRep m' P S [free_blk z] first_lists 952 952 →
     (∀ i, i < P ∨ P + S ≤ i → m' !! i = m !! i) → Q LOS_OK (rset s m')) →
  wp (OsMemPoolInit P S) Q (rset s m).
Proof.
  intros HQ. unfold OsMemPoolInit.
  assert (OS_MEM_FIRST_NODE P = first) as -> by (unfold OS_MEM_FIRST_NODE; addrs; apply u32_small; lia).
  assert (OS_MEM_END_NODE P S = last) as -> by (unfold OS_MEM_END_NODE; addrs; apply u32_small; lia).
  apply wp_pool_head. intros w Hw Hsh. wp_step. eapply wp_first_add; [exact Hsh|exact Hw|]. intros m1 HL Hwr.
  assert (mapped m1 P (Z.to_nat S)) as Hm1 by (eapply writes_mapped; [exact Hwr|apply head_mapped]).
  assert (∀ x, P ≤ x → x + 4 ≤ P + S → is_Some (read32 m1 x)) as Hs1 by (intros; eapply mapped_read32; [done|lia..]).
  destruct (Hs1 (node_word last)) as [w0 Ew0]; [addrs; lia..|].
  wp_step. eapply wp_set_size; [exact Ew0|lia|]. intros w1 Hw1 Hsh1 _.
  wp_step. apply wpm_store32; [rd; apply Hs1; addrs; lia|].
  wp_step. unfold OS_MEM_NODE_SET_USED_FLAG. wp_step. unfold get_sizeAndFlag. wp_step.
  eapply wpm_load32; [by rd|]. wp_step. rewrite Hsh1. destruct (size_flags 0) as (_ & _ & _ & _ & ->); [lia|].
  eapply wp_set_size; [by rd|lia|]. intros w2 Hw2 Hsh2 _. wp_step. apply wpm_store32; [rd; apply Hs1; addrs; lia|].
  wp_step. eapply wpm_load32; [addrs; by rd|]. wp_step. apply wpm_store32; [rd; apply Hs1; addrs; lia|]. wp_step.
  apply (HQ (tail_mem w1 w2 m1)); [apply (PRep_init w); try done; lia|]. intros i Hi. by eapply init_outside.
Qed.
End init.
