(* ===== verification/PoolWalk.v ===== *)
(** The walks over the nodes of a pool: the integrity check and the queries. *)

From stdpp Require Import functions.
From S2P Require Import Prelude DList Kernel Tick SortLink Mem Pmcu Sched Event Task Pool PoolIndex.
From S2P Require Import Bytes PoolInv PoolLists PoolRep PoolOps PoolFree.

(** ** The lock of a pool *)

Definition irq (i : Z) (s : kstate) : kstate := s <| interrupt_flag := i |>.

Lemma irq_id s : irq (interrupt_flag s) s = s.
Proof. by destruct s. Qed.

Lemma irq_irq i j s : irq i (irq j s) = irq i s.
Proof. by destruct s. Qed.

Lemma wp_MEM_LOCK s m P v (Q : Z → kstate → Prop) :
  is_Some (read32 m (info_attr P)) → (∀ v' i, Q v' (rset (irq i s) m)) → wp (MEM_LOCK P v) Q (rset s m).
Proof.
  intros [a Ea] HQ. unfold MEM_LOCK. wp_step. eapply wpm_load32; [exact Ea|]. destruct (flag a _).
  - wp_step. rewrite <- (irq_id s). apply HQ.
  - wp_steps. apply (HQ _ 0).
Qed.

Lemma wp_MEM_UNLOCK s m P v (Q : unit → kstate → Prop) :
  is_Some (read32 m (info_attr P)) → (∀ i, Q tt (rset (irq i s) m)) → wp (MEM_UNLOCK P v) Q (rset s m).
Proof.
  intros [a Ea] HQ. unfold MEM_UNLOCK. wp_step. eapply wpm_load32; [exact Ea|]. destruct (flag a _).
  - wp_step. rewrite <- (irq_id s). apply HQ.
  - wp_steps. apply (HQ 1).
Qed.

(** ** Fuel *)

Lemma nodup_size (m : gmap Z Z) (l : list Z) :
  NoDup l → (∀ i, i ∈ l → is_Some (m !! i)) → (length l ≤ base.size m)%nat.
Proof.
  intros Hn Hm. rewrite <- size_dom, <- (size_list_to_set (C := gset Z) l) by done.
  apply subseteq_size. intros i Hi%elem_of_list_to_set. by apply elem_of_dom, Hm.
Qed.

Lemma mapped_size m a n : mapped m a n → (n ≤ base.size m)%nat.
Proof.
  intros Hm. rewrite <- (length_seq n 0), <- (length_fmap (fun k : nat => a + Z.of_nat k) (seq 0 n)). apply nodup_size.
  - apply NoDup_fmap_2; [intros x y ?; lia|apply NoDup_seq].
  - intros i (k & -> & Hk%elem_of_seq)%list_elem_of_fmap. apply Hm. lia.
Qed.

Lemma sized_length bs : sized bs → 16 * Z.of_nat (length bs) ≤ total bs.
Proof. induction 1; cbn [total length]; lia. Qed.

Lemma pool_fuel m P S bs cu wl : Core m P S bs cu wl → (length bs ≤ base.size m)%nat.
Proof.
  intros HC. pose proof (mapped_size _ _ _ (p_mapped _ _ _ _ _ _ HC)).
  pose proof (sized_length _ (p_sized _ _ _ _ _ _ HC)). pose proof (p_sum _ _ _ _ _ _ HC). lia.
Qed.

(** ** The integrity check *)

(** The links of a listed node are NULL or listed nodes. *)
Lemma dll_links m p l c :
  dll m p l → c ∈ l →
  ∃ x y, read32 m (free_prev c) = Some x ∧ read32 m (free_next c) = Some y ∧
    (x = p ∨ x ∈ l) ∧ (y = 0 ∨ y ∈ l).
Proof.
  revert p. induction l as [|d l IH]; intros p Hd Hc; [set_solver|]. destruct Hd as (D1 & D2 & D3).
  apply elem_of_cons in Hc as [->|Hc].
  - exists p, (List.hd 0 l). split_and!; [done..|by left|]. destruct l; simpl; [by left|set_solver].
  - destruct (IH d D3 Hc) as (x & y & ? & ? & Hx & Hy). exists x, y. set_solver.
Qed.

Lemma listed_range m P S bs L cu wl i c : PRep m P S bs L cu wl → c ∈ L i → P + 944 ≤ c < P + S.
Proof.
  intros HR (b & Hb & _)%(p_free _ _ _ (p_match _ _ _ _ _ _ _ HR)).
  destruct (block_range _ _ _ _ _ _ (p_core _ _ _ _ _ _ _ HR) _ _ Hb) as (? & ? & ? & _). lia.
Qed.

Lemma wp_link_valid s m P S bs L cu wl i c (Q : bool → kstate → Prop) :
  PRep m P S bs L cu wl → c = 0 ∨ c ∈ L i → Q true (rset s m) →
  wp (if c =? 0 then mret true else OsMemAddrValidCheck P c) Q (rset s m).
Proof.
  intros HR Hc HQ. destruct (Z.eqb_spec c 0); [by wp_step|]. destruct Hc as [|Hc]; [done|].
  eapply (wp_addr_valid s m P S [] bs); [apply HR|by eapply listed_range|exact HQ].
Qed.

(** ** The check of the pool head *)

Lemma aligned_4 x : x mod 4 = 0 → OS_MEM_IS_ALIGNED x 4 = true.
Proof. intros Hx. unfold OS_MEM_IS_ALIGNED. change (u32 (4 - 1)) with 3. by rewrite land_3, Hx. Qed.

Lemma total_mod bs : sized bs → total bs mod 4 = 0.
Proof. induction 1 as [|b bs [_ Hb] _ IH]; cbn [total]; [done|]. by rewrite Z.add_mod, Hb, IH. Qed.

Section head_check.
  Context (s : kstate) (m : gmap Z Z) (P S : Z) (bs : list mblk) (L : Z → list Z) (cu wl : Z).
  Context (HR : PRep m P S bs L cu wl).

Lemma node_aligned l1 l2 : bs = l1 ++ l2 →
  (P + 944 + total l1) mod 4 = 0 ∧ last_addr (P + S - 8) (P + 944) l1 mod 4 = 0.
Proof.
  intros ->. pose proof (p_core _ _ _ _ _ _ _ HR) as HC. destruct (p_geom _ _ _ _ _ _ HC) as (_ & HP & _).
  pose proof (p_sum _ _ _ _ _ _ HC) as Ht. pose proof (total_mod _ (p_sized _ _ _ _ _ _ HC)) as HS.
  pose proof (p_sized _ _ _ _ _ _ HC) as [Hs _]%Forall_app. pose proof (total_mod _ Hs) as H1.
  apply Z.mod_divide in HP as [p HP], HS as [t HS], H1 as [u H1]; [|done..].
  split; [apply Z.mod_divide; [done|]; exists (p + 236 + u); lia|].
  apply Z.mod_divide; [done|]. destruct l1 as [|b l _] using rev_ind; [exists (p + 236 + t); simpl in *; lia|].
  rewrite last_addr_app. simpl. apply Forall_app in Hs as [Hs _].
  pose proof (total_mod _ Hs) as [v Hv]%Z.mod_divide; [|done]. exists (p + 236 + v). lia.
Qed.

Lemma listed_node i c : c ∈ L i →
  P + 944 ≤ c < P + S ∧ c mod 4 = 0 ∧
  ∃ p, read32 m (node_prev c) = Some p ∧ P + 944 ≤ p < P + S ∧ p mod 4 = 0.
Proof.
  intros Hc. split; [by eapply listed_range|].
  apply (p_free _ _ _ (p_match _ _ _ _ _ _ _ HR)) in Hc as (b & Hb & _).
  destruct (blocks_split _ _ _ _ Hb) as (l1 & l2 & Ebs & ->). destruct (node_aligned _ _ Ebs) as [H1 H2].
  split; [done|]. pose proof (p_core _ _ _ _ _ _ _ HR) as HC. rewrite Ebs in HC.
  eexists. split; [by eapply prev_word|]. pose proof (last_addr_range _ _ _ _ _ _ _ HC). lia.
Qed.

Lemma wp_node_check i c (Q : Z → kstate → Prop) :
  0 ≤ i < 223 → c ∈ L i → Q LOS_OK (rset s m) → wp (OsMemFreeListNodeCheck P c) Q (rset s m).
Proof.
  intros Hi Hc HQ. pose proof (p_core _ _ _ _ _ _ _ HR) as HC.
  destruct (dll_links _ _ _ _ (l_chain _ _ _ (p_lists _ _ _ _ _ _ _ HR) _ Hi) Hc) as (x & y & Ex & Ey & Hx & Hy).
  destruct (listed_node i c Hc) as (Hr & Hm & p & Ep & Hp & Hpm). unfold OsMemFreeListNodeCheck.
  wp_step. eapply (wp_addr_valid s m P S [] bs); [exact HC|done|]. cbn [negb].
  wp_step. eapply wpm_load32; [exact Ex|]. wp_step. eapply wp_link_valid; [exact HR|exact Hx|]. cbn [negb].
  wp_step. eapply wpm_load32; [exact Ey|]. wp_step. eapply wp_link_valid; [exact HR|exact Hy|]. cbn [negb].
  wp_step. eapply wpm_load32; [exact Ep|]. wp_step. eapply (wp_addr_valid s m P S [] bs); [exact HC|done|]. cbn [negb].
  assert (∀ z, z = 0 ∨ z ∈ L i → z mod 4 = 0) as Hal by (intros z [->|Hz%listed_node]; [done|tauto]).
  rewrite (aligned_4 c), (aligned_4 x), (aligned_4 y), (aligned_4 p) by auto. cbn [negb orb]. by wp_step.
Qed.

Lemma wp_head_list i l : ∀ p fuel (Q : Z → kstate → Prop),
  0 ≤ i < 223 → dll m p l → (∀ c, c ∈ l → c ∈ L i) → (length l ≤ fuel)%nat → Q 0 (rset s m) →
  wp (OsMemPoolHeadCheck_list fuel P (List.hd 0 l) 0) Q (rset s m).
Proof.
  induction l as [|c l IH]; intros p fuel Q Hi Hd Hl Hf HQ; [by destruct fuel; simpl; wp_step|].
  destruct fuel as [|fuel]; [simpl in Hf; lia|]. cbn [OsMemPoolHeadCheck_list List.hd].
  assert (c ∈ L i) as Hc by set_solver. pose proof (p_geom _ _ _ _ _ _ (p_core _ _ _ _ _ _ _ HR)).
  destruct (listed_node i c Hc) as (Hr & _). destruct (Z.eqb_spec c 0); [lia|]. destruct Hd as (_ & En & Hd).
  wp_step. eapply wp_node_check; [done|exact Hc|]. wp_step. eapply wpm_load32; [exact En|]. cbn [negb Z.eqb LOS_OK].
  eapply IH; [done|exact Hd|set_solver|simpl in Hf; lia|done].
Qed.

Lemma wp_head_loop n : ∀ i (Q : Z → kstate → Prop),
  0 ≤ i → i + Z.of_nat n ≤ 223 → Q 0 (rset s m) → wp (OsMemPoolHeadCheck_loop n P i 0) Q (rset s m).
Proof.
  induction n as [|n IH]; intros i Q H0 Hn HQ; cbn [OsMemPoolHeadCheck_loop]; [by wp_step|].
  pose proof (p_core _ _ _ _ _ _ _ HR) as HC. wp_step. eapply wpm_load32; [apply HR; addrs; lia|]. wp_steps.
  eapply (wp_head_list i); [lia|apply HR; addrs; lia|done| |by apply IH; [lia..|]].
  apply nodup_size; [apply HR|]. intros c Hc. pose proof (listed_range _ _ _ _ _ _ _ _ _ HR Hc).
  apply (p_mapped _ _ _ _ _ _ HC). lia.
Qed.

Lemma wp_OsMemPoolHeadCheck (Q : Z → kstate → Prop) : Q 0 (rset s m) → wp (OsMemPoolHeadCheck P) Q (rset s m).
Proof.
  intros HQ. pose proof (p_core _ _ _ _ _ _ _ HR) as HC. destruct (p_geom _ _ _ _ _ _ HC) as (_ & HP & _).
  unfold OsMemPoolHeadCheck. wp_step. eapply wpm_load32; [apply HC|].
  rewrite Z.eqb_refl, aligned_4 by done. cbn [negb orb]. by apply wp_head_loop.
Qed.
End head_check.

(** ** The nodes *)

Section integrity.
  Context (s : kstate) (m : gmap Z Z) (P S : Z) (L : Z → list Z) (cu wl : Z).

Lemma wp_links_valid l1 z l2 (Q : Z → kstate → Prop) :
  PRep m P S (l1 ++ free_blk z :: l2) L cu wl → Q LOS_OK (rset s m) →
  wp (OsMemAddrValidCheckPrint P (P + 944 + total l1)) Q (rset s m).
Proof.
  intros HR HQ. destruct (free_in_list m P S z l1 l2 L cu wl HR) as (Hi & Ha & _).
  destruct (dll_links _ _ _ _ (l_chain _ _ _ (p_lists _ _ _ _ _ _ _ HR) _ Hi) Ha) as (x & y & Ex & Ey & Hx & Hy).
  pose proof (p_core _ _ _ _ _ _ _ HR) as HC. unfold OsMemAddrValidCheckPrint.
  wp_step. eapply wpm_load32; [exact Ex|]. wp_step.
  eapply wp_link_valid; [exact HR|exact Hx|]. cbn [negb]. wp_step. eapply wpm_load32; [exact Ey|]. wp_step.
  eapply wp_link_valid; [exact HR|exact Hy|]. by wp_step.
Qed.

Lemma wp_integrity_sub l1 b l2 (Q : Z → kstate → Prop) :
  PRep m P S (l1 ++ b :: l2) L cu wl → settled b → Q LOS_OK (rset s m) →
  wp (OsMemIntegrityCheckSub (P + 944 + total l1) P) Q (rset s m).
Proof.
  intros HR Hb HQ. pose proof (p_core _ _ _ _ _ _ _ HR) as HC. unfold OsMemIntegrityCheckSub. wp_step.
  eapply wpm_load32; [by eapply prev_word|]. pose proof (last_addr_range _ _ _ _ _ _ _ HC).
  wp_step. eapply wp_addr_valid; [exact HC|lia|]. cbn [negb]. wp_step. eapply wp_mid_size; [exact HC|].
  pose proof (mid_range _ _ _ _ _ _ _ _ HC). destruct (get_size_word b) as [_ ->]; [lia|].
  destruct (is_used b) eqn:Hu; cbn [negb]; [by wp_step|].
  pose proof (free_settled b Hb Hu) as Eb. rewrite Eb in HR. by eapply wp_links_valid.
Qed.

Lemma wp_integrity_loop l2 : ∀ l1 fuel pre (Q : Z * Z → kstate → Prop),
  PRep m P S (l1 ++ l2) L cu wl → Forall settled l2 → (length l2 ≤ fuel)%nat →
  (∀ pre', Q (LOS_OK, pre') (rset s m)) →
  wp (OsMemIntegrityCheck_loop fuel P (P + S - 8) pre (P + 944 + total l1)) Q (rset s m).
Proof.
  induction l2 as [|b l2 IH]; intros l1 fuel pre Q HR Hs Hf HQ; pose proof (p_core _ _ _ _ _ _ _ HR) as HC.
  - pose proof (p_sum _ _ _ _ _ _ HC) as Ht. rewrite app_nil_r in Ht.
    assert (OsMemIntegrityCheck_loop fuel P (P + S - 8) pre (P + 944 + total l1) = mret (LOS_OK, pre)) as ->.
    { destruct fuel; simpl; destruct (Z.ltb_spec (P + 944 + total l1) (P + S - 8)); (lia || done). }
    by wp_step.
  - destruct fuel as [|fuel]; [simpl in Hf; lia|]. cbn [OsMemIntegrityCheck_loop].
    pose proof (mid_range _ _ _ _ _ _ _ _ HC).
    destruct (Z.ltb_spec (P + 944 + total l1) (P + S - 8)); [|lia]. cbn [negb].
    apply Forall_cons in Hs as [Hb Hs]. wp_step. eapply wp_integrity_sub; [exact HR|exact Hb|]. cbn [Z.eqb LOS_OK LOS_NOK].
    wp_step. eapply wp_next_node; [exact HC|]. rewrite <- (next_addr P l1 b).
    apply IH; [by rewrite <- app_assoc|done|simpl in Hf; lia|done].
Qed.
End integrity.

Lemma wp_LOS_MemIntegrityCheck s m P S bs L cu wl (Q : Z → kstate → Prop) :
  PRep m P S bs L cu wl → Forall settled bs → (∀ i, Q LOS_OK (rset (irq i s) m)) →
  wp (LOS_MemIntegrityCheck P) Q (rset s m).
Proof.
  intros HR Hs HQ. pose proof (p_core _ _ _ _ _ _ _ HR) as HC. pose proof (p_geom _ _ _ _ _ _ HC).
  assert (is_Some (read32 m (info_attr P))) as Hattr by (eapply mapped_read32; [apply HC|addrs; lia..]).
  unfold LOS_MemIntegrityCheck. destruct (Z.eqb_spec P 0); [lia|]. wp_step. apply wp_MEM_LOCK; [done|]. intros v i.
  wp_step. unfold OsMemIntegrityCheck. wp_step. eapply wpm_load32; [apply HC|].
  wp_step. eapply wp_OsMemPoolHeadCheck; [exact HR|]. wp_steps.
  destruct (pool_ends m P S [] bs cu wl HC) as [-> ->]. replace (P + 944) with (P + 944 + total []) at 2 by (simpl; lia).
  eapply wp_integrity_loop; [exact HR|done|by eapply pool_fuel|]. intros pre. cbn [negb Z.eqb LOS_OK].
  wp_step. apply wp_MEM_UNLOCK; [done|]. intros j. rewrite irq_irq. wp_step. apply HQ.
Qed.

(** ** Queries *)

(** A handler that only looks at the node. *)
Section query.
  Context {A : Type} (handle : A → Z → K A) (f : A → mblk → A).
  Context (m : gmap Z Z) (P S : Z) (cu wl : Z).

Definition looks : Prop := ∀ s acc l1 b l2 (Q : A → kstate → Prop),
  Core m P S (l1 ++ b :: l2) cu wl → Q (f acc b) (rset s m) →
  wp (handle acc (P + 944 + total l1)) Q (rset s m).

Lemma wp_query_loop s l2 : looks → ∀ l1 fuel acc (Q : A → kstate → Prop),
  Core m P S (l1 ++ l2) cu wl → (length l2 ≤ fuel)%nat → Q (fold_left f l2 acc) (rset s m) →
  wp (OsAllMemNodeDoHandle_loop fuel handle acc (P + 944 + total l1) (P + S - 8)) Q (rset s m).
Proof.
  intros Hh. induction l2 as [|b l2 IH]; intros l1 fuel acc Q HC Hf HQ.
  - pose proof (p_sum _ _ _ _ _ _ HC) as Ht. rewrite app_nil_r in Ht.
    assert (OsAllMemNodeDoHandle_loop fuel handle acc (P + 944 + total l1) (P + S - 8) = mret acc) as ->.
    { destruct fuel; simpl; destruct (Z.ltb_spec (P + 944 + total l1) (P + S - 8)); (lia || done). }
    by wp_step.
  - destruct fuel as [|fuel]; [simpl in Hf; lia|]. cbn [OsAllMemNodeDoHandle_loop].
    pose proof (mid_range _ _ _ _ _ _ _ _ HC).
    destruct (Z.ltb_spec (P + 944 + total l1) (P + S - 8)); [|lia]. cbn [negb].
    wp_step. eapply Hh; [exact HC|]. wp_step. eapply wp_next_node; [exact HC|]. rewrite <- (next_addr P l1 b).
    apply IH; [by rewrite <- app_assoc|simpl in Hf; lia|done].
Qed.

Lemma wp_query s bs L acc (Q : A → kstate → Prop) :
  looks → PRep m P S bs L cu wl → Forall settled bs → (∀ i, Q (fold_left f bs acc) (rset (irq i s) m)) →
  wp (OsAllMemNodeDoHandle P handle acc) Q (rset s m).
Proof.
  intros Hh HR Hs HQ. pose proof (p_core _ _ _ _ _ _ _ HR) as HC. pose proof (p_geom _ _ _ _ _ _ HC).
  assert (is_Some (read32 m (info_attr P))) as Hattr by (eapply mapped_read32; [apply HC|addrs; lia..]).
  unfold OsAllMemNodeDoHandle. destruct (Z.eqb_spec P 0); [lia|].
  wp_step. eapply wp_LOS_MemIntegrityCheck; [exact HR|done|]. intros i. cbn [negb Z.eqb LOS_OK].
  wp_step. apply wp_MEM_LOCK; [done|]. intros v j. rewrite irq_irq. wp_step. eapply wpm_load32; [apply HC|]. wp_steps.
  destruct (pool_ends m P S [] bs cu wl HC) as [-> ->]. replace (P + 944) with (P + 944 + total []) by (simpl; lia).
  eapply wp_query_loop; [done|exact HC|by eapply pool_fuel|]. wp_step. apply wp_MEM_UNLOCK; [done|]. intros k.
  rewrite irq_irq. wp_step. apply HQ.
Qed.
End query.

(** The sizes of the blocks in use, and of the others. *)
Definition used_total (bs : list mblk) : Z := total (filter (fun b => is_used b = true) bs).
Definition free_total (bs : list mblk) : Z := total (filter (fun b => is_used b = false) bs).
Definition max_free (bs : list mblk) : Z := foldr Z.max 0 (bsize <$> filter (fun b => is_used b = false) bs).
Definition used_count (bs : list mblk) : Z := Z.of_nat (length (filter (fun b => is_used b = true) bs)).
Definition free_count (bs : list mblk) : Z := Z.of_nat (length (filter (fun b => is_used b = false) bs)).

Lemma used_total_cons b bs : used_total (b :: bs) = (if is_used b then bsize b else 0) + used_total bs.
Proof. unfold used_total. rewrite filter_cons. by destruct (is_used b); case_decide. Qed.
Lemma free_total_cons b bs : free_total (b :: bs) = (if is_used b then 0 else bsize b) + free_total bs.
Proof. unfold free_total. rewrite filter_cons. by destruct (is_used b); case_decide. Qed.

Lemma used_free_total bs : used_total bs + free_total bs = total bs.
Proof.
  induction bs as [|b bs IH]; [done|]. rewrite used_total_cons, free_total_cons. simpl.
  destruct (is_used b); lia.
Qed.

Lemma used_total_app l1 l2 : used_total (l1 ++ l2) = used_total l1 + used_total l2.
Proof. unfold used_total. by rewrite filter_app, total_app. Qed.

Lemma sized_filter (R : mblk → Prop) `{!∀ b, Decision (R b)} bs : sized bs → sized (filter R bs).
Proof. unfold sized. rewrite !Forall_forall. intros Hs b [_ Hb]%list_elem_of_filter. auto. Qed.

Lemma used_total_nonneg bs : sized bs → 0 ≤ used_total bs.
Proof. intros Hs. by apply total_nonneg, sized_filter. Qed.
Lemma free_total_nonneg bs : sized bs → 0 ≤ free_total bs.
Proof. intros Hs. by apply total_nonneg, sized_filter. Qed.

Definition add_used (acc : Z) (b : mblk) : Z := if is_used b then u32 (acc + bsize b) else acc.

Lemma add_used_total bs acc :
  sized bs → 0 ≤ acc → acc + used_total bs < 2 ^ 32 → fold_left add_used bs acc = acc + used_total bs.
Proof.
  revert acc. induction bs as [|b bs IH]; intros acc Hs Ha Hb; simpl; [unfold used_total; simpl; lia|].
  apply Forall_cons in Hs as [[Hz _] Hs]. rewrite used_total_cons in *. pose proof (used_total_nonneg bs Hs).
  unfold add_used at 2. destruct (is_used b); rewrite IH; try done; rewrite ?u32_small; lia.
Qed.

Lemma MemUsedGetHandle_looks m P S cu wl : looks MemUsedGetHandle add_used m P S cu wl.
Proof.
  intros s acc l1 b l2 Q HC HQ. unfold MemUsedGetHandle. wp_step. eapply wp_mid_size; [exact HC|].
  pose proof (mid_range _ _ _ _ _ _ _ _ HC). destruct (get_size_word b) as [-> ->]; [lia|]. by wp_step.
Qed.

Lemma wp_LOS_MemTotalUsedGet s m P S bs L cu wl (Q : Z → kstate → Prop) :
  PRep m P S bs L cu wl → Forall settled bs → (∀ i, Q (used_total bs) (rset (irq i s) m)) →
  wp (LOS_MemTotalUsedGet P) Q (rset s m).
Proof.
  intros HR Hs HQ. pose proof (p_core _ _ _ _ _ _ _ HR) as HC. pose proof (p_geom _ _ _ _ _ _ HC).
  pose proof (p_sized _ _ _ _ _ _ HC) as Hz. pose proof (free_total_nonneg bs Hz).
  pose proof (used_free_total bs). pose proof (p_sum _ _ _ _ _ _ HC).
  unfold LOS_MemTotalUsedGet. destruct (Z.eqb_spec P 0); [lia|].
  eapply wp_query; [apply MemUsedGetHandle_looks|exact HR|done|]. intros i. rewrite add_used_total by (done || lia). apply HQ.
Qed.

(** The summary of a pool. *)
Definition pool_status (bs : list mblk) (water : Z) : LOS_MEM_POOL_STATUS :=
  mkPoolStatus (used_total bs) (free_total bs) (max_free bs) (used_count bs) (free_count bs) water.

Definition add_status (st : LOS_MEM_POOL_STATUS) (b : mblk) : LOS_MEM_POOL_STATUS :=
  if is_used b then
    st <| totalUsedSize := u32 (totalUsedSize st + bsize b) |> <| usedNodeNum := u32 (usedNodeNum st + 1) |>
  else
    st <| totalFreeSize := u32 (totalFreeSize st + bsize b) |>
       <| maxFreeNodeSize := Z.max (maxFreeNodeSize st) (bsize b) |>
       <| freeNodeNum := u32 (freeNodeNum st + 1) |>.

Lemma max_free_cons b bs :
  max_free (b :: bs) = if is_used b then max_free bs else Z.max (bsize b) (max_free bs).
Proof. unfold max_free. rewrite filter_cons. by destruct (is_used b); case_decide. Qed.
Lemma used_count_cons b bs : used_count (b :: bs) = (if is_used b then 1 else 0) + used_count bs.
Proof. unfold used_count. rewrite filter_cons. destruct (is_used b); case_decide; simpl; (done || lia). Qed.
Lemma free_count_cons b bs : free_count (b :: bs) = (if is_used b then 0 else 1) + free_count bs.
Proof. unfold free_count. rewrite filter_cons. destruct (is_used b); case_decide; simpl; (done || lia). Qed.

Lemma count_total bs : sized bs → 16 * used_count bs ≤ used_total bs ∧ 16 * free_count bs ≤ free_total bs.
Proof. intros Hs. split; by apply sized_length, sized_filter. Qed.

Lemma add_status_step u fr mx uc fc w b :
  add_status (mkPoolStatus u fr mx uc fc w) b =
  if is_used b then mkPoolStatus (u32 (u + bsize b)) fr mx (u32 (uc + 1)) fc w
  else mkPoolStatus u (u32 (fr + bsize b)) (Z.max mx (bsize b)) uc (u32 (fc + 1)) w.
Proof. unfold add_status. by destruct (is_used b). Qed.

Lemma add_status_all bs : ∀ u fr mx uc fc w,
  sized bs → 0 ≤ u → 0 ≤ fr → 0 ≤ uc → 0 ≤ fc → 0 ≤ mx →
  u + used_total bs < 2 ^ 32 → fr + free_total bs < 2 ^ 32 → uc + used_count bs < 2 ^ 32 →
  fc + free_count bs < 2 ^ 32 →
  fold_left add_status bs (mkPoolStatus u fr mx uc fc w) =
  mkPoolStatus (u + used_total bs) (fr + free_total bs) (Z.max mx (max_free bs)) (uc + used_count bs)
    (fc + free_count bs) w.
Proof.
  induction bs as [|b bs IH]; intros u fr mx uc fc w Hs Hu Hfr Huc Hfc Hmx Bu Bf Buc Bfc.
  { unfold used_total, free_total, max_free, used_count, free_count. simpl. f_equal; lia. }
  apply Forall_cons in Hs as [[Hz _] Hs]. pose proof (used_total_nonneg bs Hs). pose proof (free_total_nonneg bs Hs).
  rewrite used_total_cons, free_total_cons, max_free_cons, used_count_cons, free_count_cons in *.
  assert (0 ≤ used_count bs ∧ 0 ≤ free_count bs) as [? ?] by (unfold used_count, free_count; lia).
  cbn [fold_left]. rewrite add_status_step.
  destruct (is_used b); rewrite !u32_small by lia; (rewrite IH; [|done || lia..]); f_equal; lia.
Qed.

Lemma OsMemInfoGet_looks m P S cu wl : looks OsMemInfoGet add_status m P S cu wl.
Proof.
  intros s acc l1 b l2 Q HC HQ. unfold OsMemInfoGet. wp_step. eapply wp_mid_size; [exact HC|].
  pose proof (mid_range _ _ _ _ _ _ _ _ HC). destruct (get_size_word b) as [-> ->]; [lia|]. wp_step.
  unfold add_status in HQ. by destruct (is_used b).
Qed.

Lemma wp_LOS_MemInfoGet s m P S bs L cu wl (Q : Z * option LOS_MEM_POOL_STATUS → kstate → Prop) :
  PRep m P S bs L cu wl → Forall settled bs →
  (∀ i, Q (LOS_OK, Some (pool_status bs wl)) (rset (irq i s) m)) →
  wp (LOS_MemInfoGet P true) Q (rset s m).
Proof.
  intros HR Hs HQ. pose proof (p_core _ _ _ _ _ _ _ HR) as HC. pose proof (p_geom _ _ _ _ _ _ HC).
  pose proof (p_sized _ _ _ _ _ _ HC) as Hz. pose proof (free_total_nonneg bs Hz). pose proof (used_total_nonneg bs Hz).
  pose proof (used_free_total bs). pose proof (p_sum _ _ _ _ _ _ HC). pose proof (count_total bs Hz).
  assert (is_Some (read32 m (info_attr P))) as Hattr by (eapply mapped_read32; [apply HC|addrs; lia..]).
  unfold LOS_MemInfoGet. cbn [negb]. destruct (Z.eqb_spec P 0); [lia|]. wp_step. eapply wpm_load32; [apply HC|].
  rewrite Z.eqb_refl. cbn [negb]. wp_step. eapply wp_query; [apply OsMemInfoGet_looks|exact HR|done|]. intros i.
  rewrite add_status_all by (done || lia). wp_step. apply wp_MEM_LOCK; [done|]. intros v j. rewrite irq_irq.
  wp_step. eapply wpm_load32; [apply HC|]. wp_step. apply wp_MEM_UNLOCK; [done|]. intros k. rewrite irq_irq. wp_step.
  specialize (HQ k). unfold pool_status in HQ. cbn. rewrite Z.max_r; [exact HQ|].
  unfold max_free. induction (bsize <$> _); simpl; lia.
Qed.
