(* ===== verification/PoolFind.v ===== *)
(** The search for a free block: [OsMemFindNextSuitableBlock] finds a block that is large enough
    whenever there is one. *)

From stdpp Require Import functions.
From S2P Require Import Prelude DList Kernel Tick SortLink Mem Pmcu Sched Event Task Pool PoolIndex.
From S2P Require Import Bytes PoolInv PoolLists PoolRep PoolOps PoolFree PoolWalk.

(** ** Words of the bitmap *)

Lemma index_word i : 0 ≤ i → Z.ldiff i OS_MEM_BITMAP_MASK = 32 * (i / 32).
Proof.
  intros Hi. change OS_MEM_BITMAP_MASK with (Z.ones 5). rewrite Z.ldiff_ones_r by lia.
  rewrite Z.shiftl_mul_pow2, Z.shiftr_div_pow2 by lia. change (2 ^ 5) with 32. lia.
Qed.

Lemma high_mask w n j :
  0 ≤ n → 0 ≤ j → Z.testbit (Z.ldiff w (Z.shiftl 1 n - 1)) j = Z.testbit w j && (n <=? j).
Proof.
  intros Hn Hj. replace (Z.shiftl 1 n - 1) with (Z.ones n) by (rewrite Z.ones_equiv, Z.shiftl_1_l; lia).
  rewrite Z.ldiff_spec. f_equal. destruct (Z.leb_spec n j).
  - by rewrite Z.ones_spec_high.
  - by rewrite Z.ones_spec_low by lia.
Qed.

Lemma ldiff_le w x : 0 ≤ w < 2 ^ 32 → 0 ≤ Z.ldiff w x < 2 ^ 32.
Proof.
  intros Hw. apply bits_word; [apply Z.ldiff_nonneg; lia|].
  intros k Hk. by rewrite Z.ldiff_spec, word_bits.
Qed.

Lemma align_32 i : 0 ≤ i < 2 ^ 31 → LOS_Align (i + 1) 32 = 32 * (i / 32 + 1).
Proof.
  intros Hi. unfold LOS_Align. change (32 - 1) with OS_MEM_BITMAP_MASK at 3.
  unfold u32. rewrite (Z.mod_small (i + 1 + (32 - 1))) by lia. destruct (Z.ltb_spec (i + 1) (i + 1 + (32 - 1))); [|lia].
  rewrite Z.mod_small, index_word by lia. replace (i + 1 + (32 - 1)) with (i + 1 * 32) by lia.
  rewrite Z.div_add by lia. done.
Qed.

Section find.
  Context (s : kstate) (m : gmap Z Z) (P S : Z) (bs : list mblk) (L : Z → list Z) (cu wl : Z).
  Context (HR : PRep m P S bs L cu wl).

(** The lists that hold something are those of the sizes of free blocks. *)
Lemma list_range i : L i ≠ [] → 0 ≤ i < 223.
Proof.
  intros Hi. destruct (L i) as [|c l] eqn:El; [done|].
  assert (c ∈ L i) as (b & Hb & _ & <-)%(p_free _ _ _ (p_match _ _ _ _ _ _ _ HR)) by (rewrite El; set_solver).
  destruct (block_range _ _ _ _ _ _ (p_core _ _ _ _ _ _ _ HR) _ _ Hb) as (_ & _ & ? & _).
  apply size_index_range. lia.
Qed.

(** [j] is the first list from [i] on that is not empty; [None] when all are empty. *)
Definition first_from (i hi : Z) (r : option Z) : Prop :=
  match r with
  | Some j => i ≤ j < 223 ∧ L j ≠ []
  | None => ∀ k, i ≤ k < hi → L k = []
  end.

Lemma wp_OsMemNotEmptyIndexGet i (Q : Z → kstate → Prop) :
  0 ≤ i < 224 →
  (∀ r, first_from i (32 * (i / 32 + 1)) r → Q (default 223 r) (rset s m)) →
  wp (OsMemNotEmptyIndexGet P i) Q (rset s m).
Proof.
  intros Hi HQ. unfold OsMemNotEmptyIndexGet. destruct (bit_index i) as [-> Em]; [lia|].
  change OS_MEM_BITMAP_MASK with 0x1f. rewrite Em. change 0x1f with OS_MEM_BITMAP_MASK.
  assert (0 ≤ i / 32 < 7) by (split; [apply Z.div_pos; lia|apply Z.div_lt_upper_bound; lia]).
  destruct (l_bits _ _ _ (p_lists _ _ _ _ _ _ _ HR) (i / 32)) as (w & Ew & Hw & Ht); [addrs; lia|].
  wp_step. eapply wpm_load32; [exact Ew|]. pose proof (Z.mod_pos_bound i 32 ltac:(lia)) as Hmod.
  pose proof (Z.div_mod i 32 ltac:(lia)) as Hdm. set (mask := Z.ldiff w _).
  assert (∀ j, 0 ≤ j → Z.testbit mask j = Z.testbit w j && (i mod 32 <=? j)) as Hbit
    by (intros j Hj; apply high_mask; lia).
  destruct (Z.eqb_spec mask 0) as [E0|Hne]; cbn [negb]; wp_step.
  - apply (HQ None). intros k Hk. specialize (Ht (k - 32 * (i / 32)) ltac:(lia)).
    specialize (Hbit (k - 32 * (i / 32)) ltac:(lia)). rewrite E0, Z.bits_0, Ht in Hbit.
    destruct (Z.leb_spec (i mod 32) (k - 32 * (i / 32))); [|lia]. rewrite andb_true_r in Hbit.
    symmetry in Hbit. apply bool_decide_eq_false, dec_stable in Hbit. rewrite <- Hbit. f_equal. lia.
  - assert (0 ≤ mask < 2 ^ 32) as Hm by by apply ldiff_le.
    destruct (OsMemFFS_spec mask) as (Hf & Hset & _); [lia|]. rewrite Hbit in Hset by lia.
    apply andb_prop in Hset as [Hset Hle%Z.leb_le]. rewrite Ht in Hset by lia. apply bool_decide_eq_true in Hset.
    rewrite index_word by lia. replace (OsMemFFS mask + 32 * (i / 32)) with (32 * (i / 32) + OsMemFFS mask) by lia.
    apply (HQ (Some (32 * (i / 32) + OsMemFFS mask))). split; [|done]. pose proof (list_range _ Hset). lia.
Qed.

Lemma wp_bitmap_loop fuel : ∀ j (Q : option Z → kstate → Prop),
  0 ≤ j ≤ 7 → 7 - j ≤ Z.of_nat fuel → (∀ r, first_from (32 * j) 224 r → Q r (rset s m)) →
  wp (OsMemFindNextSuitableBlock_loop fuel P (32 * j)) Q (rset s m).
Proof.
  induction fuel as [|fuel IH]; intros j Q Hj Hf HQ; cbn [OsMemFindNextSuitableBlock_loop];
    change OS_MEM_FREE_LIST_COUNT with 223; destruct (Z.ltb_spec (32 * j) 223); cbn [negb]; try lia.
  - wp_step. apply HQ. intros k Hk. lia.
  - rewrite Z.shiftr_div_pow2 by lia. change (2 ^ 5) with 32. rewrite Z.mul_comm, Z.div_mul by lia.
    destruct (l_bits _ _ _ (p_lists _ _ _ _ _ _ _ HR) j) as (w & Ew & Hw & Ht); [addrs; lia|].
    wp_step. eapply wpm_load32; [exact Ew|]. destruct (Z.eqb_spec w 0) as [->|Hne]; cbn [negb].
    + replace (j * 32 + 32) with (32 * (j + 1)) by lia. apply IH; [lia|lia|]. intros r Hr. apply HQ.
      destruct r as [x|]; [destruct Hr; split; [lia|done]|]. intros k Hk.
      destruct (decide (k < 32 * (j + 1))); [|apply Hr; lia]. specialize (Ht (k - 32 * j) ltac:(lia)).
      rewrite Z.bits_0 in Ht. symmetry in Ht. apply bool_decide_eq_false, dec_stable in Ht. rewrite <- Ht. f_equal. lia.
    + wp_step. destruct (OsMemFFS_spec w) as (Hffs & Hset & _); [lia|]. rewrite Ht in Hset by lia.
      apply bool_decide_eq_true in Hset. replace (OsMemFFS w + j * 32) with (32 * j + OsMemFFS w) by lia.
      apply (HQ (Some (32 * j + OsMemFFS w))). split; [|done]. pose proof (list_range _ Hset). lia.
  - wp_step. apply HQ. intros k Hk. lia.
Qed.

(** ** The list of the size itself *)

(** [node] is a free block of at least [r] bytes in the list [i]. *)
Definition suits (r node i : Z) : Prop :=
  ∃ b, (node, b) ∈ blocks (P + 944) bs ∧ bstat b = Free ∧ r ≤ bsize b ∧ size_index (bsize b) = i.

Lemma listed_block i c : c ∈ L i →
  ∃ b, (c, b) ∈ blocks (P + 944) bs ∧ bstat b = Free ∧ size_index (bsize b) = i ∧ c ≠ 0 ∧ 16 ≤ bsize b < 2 ^ 24.
Proof.
  intros (b & Hb & Hst & Hi)%(p_free _ _ _ (p_match _ _ _ _ _ _ _ HR)). exists b.
  pose proof (p_core _ _ _ _ _ _ _ HR) as HC. pose proof (p_geom _ _ _ _ _ _ HC).
  destruct (block_range _ _ _ _ _ _ HC _ _ Hb) as (? & _ & ? & _). split_and!; (done || lia).
Qed.

Lemma wp_cur_loop r i l : ∀ p fuel (Q : Z → kstate → Prop),
  dll m p l → (∀ c, c ∈ l → c ∈ L i) → (length l ≤ fuel)%nat →
  (∀ c, c ∈ l → suits r c i → Q c (rset s m)) →
  ((∀ c, c ∈ l → ¬ suits r c i) → Q 0 (rset s m)) →
  wp (OsMemFindCurSuitableBlock_loop fuel (List.hd 0 l) r) Q (rset s m).
Proof.
  induction l as [|c l IH]; intros p fuel Q Hd Hin Hf Hfound Hnone; [destruct fuel; apply Hnone; set_solver|].
  destruct Hd as (D1 & D2 & D3). destruct fuel as [|fuel]; [simpl in Hf; lia|].
  destruct (listed_block i c) as (b & Hb & Hst & Hi & Hc & Hz); [set_solver|].
  cbn [List.hd OsMemFindCurSuitableBlock_loop]. destruct (Z.eqb_spec c 0); [done|].
  pose proof (p_core _ _ _ _ _ _ _ HR) as HC. destruct (seg_node _ _ _ _ _ _ (p_seg _ _ _ _ _ _ HC) Hb) as [p' Hn].
  wp_step. eapply wp_get_size; [exact Hn|]. rewrite size_word_free by (unfold is_used; by rewrite Hst).
  destruct (Z.leb_spec r (bsize b)).
  - wp_step. apply Hfound; [set_solver|]. by exists b.
  - wp_step. eapply wpm_load32; [exact D2|]. eapply IH; [exact D3|set_solver|simpl in Hf; lia|set_solver|].
    intros Hno. apply Hnone. intros d [->|Hdl]%elem_of_cons; [|by apply Hno].
    intros (b' & Hb' & _ & Hr & _). destruct (block_apart _ _ _ _ _ _ HC _ _ _ _ Hb Hb') as [[_ ->]|]; [lia|].
    destruct (block_range _ _ _ _ _ _ HC _ _ Hb') as (_ & _ & ? & _). lia.
Qed.

Lemma wp_OsMemFindCurSuitableBlock r i (Q : Z → kstate → Prop) :
  0 ≤ i < 223 → (∀ c, suits r c i → Q c (rset s m)) → ((∀ c, ¬ suits r c i) → Q 0 (rset s m)) →
  wp (OsMemFindCurSuitableBlock P i r) Q (rset s m).
Proof.
  intros Hi Hfound Hnone. pose proof (p_core _ _ _ _ _ _ _ HR) as HC. unfold OsMemFindCurSuitableBlock.
  wp_step. eapply wpm_load32; [by apply HR|]. wp_steps. eapply wp_cur_loop; [by apply HR|done| |by auto|].
  - apply nodup_size; [apply HR|]. intros c (b & Hb & _)%listed_block.
    destruct (block_range _ _ _ _ _ _ HC _ _ Hb) as (? & ? & ? & _). apply (p_mapped _ _ _ _ _ _ HC). lia.
  - intros Hno. apply Hnone. intros c Hc. apply (Hno c); [|done]. destruct Hc as (b & Hb & Hst & _ & Hci).
    apply (p_free _ _ _ (p_match _ _ _ _ _ _ _ HR)). eauto.
Qed.

(** ** The search *)

(** A list from [lo] on gives a block; if those are empty, no block is in them. *)
Lemma from_list r lo i c l :
  (∀ z, 4 ≤ z → lo ≤ size_index z → r ≤ z) → lo ≤ i → L i = c :: l → suits r c i.
Proof.
  intros Hlo Hi El. destruct (listed_block i c) as (b & Hb & Hst & Hsi & _ & Hz); [rewrite El; set_solver|].
  exists b. split_and!; [done..| |done]. apply Hlo; lia.
Qed.

Lemma empty_none r i c j : L i = [] → suits r c j → j ≠ i.
Proof.
  intros He (b & Hb & Hst & _ & Hi) ->. assert (c ∈ L i) as Hc; [|rewrite He in Hc; set_solver].
  apply (p_free _ _ _ (p_match _ _ _ _ _ _ _ HR)). eauto.
Qed.

(** The lists from [lo] on hold blocks of at least [r]; [cur] is the list of [r] itself when
    that may hold smaller ones. *)
Lemma wp_find_from r lo cur (Q : Z * Z → kstate → Prop) :
  0 ≤ lo < 224 → (∀ z, 4 ≤ z → lo ≤ size_index z → r ≤ z) →
  (∀ z, 4 ≤ z → r ≤ z → lo ≤ size_index z ∨ size_index z = cur) →
  (cur = 223 ∨ 0 ≤ cur < 223) →
  (∀ c i, suits r c i → Q (c, i) (rset s m)) → ((∀ c i, ¬ suits r c i) → ∀ i, Q (0, i) (rset s m)) →
  wp (tmp ← OsMemNotEmptyIndexGet P lo;
      if negb (tmp =? OS_MEM_FREE_LIST_COUNT) then
        node ← load32 (freeList P tmp); mret (node, tmp)
      else
        found ← OsMemFindNextSuitableBlock_loop (Z.to_nat OS_MEM_BITMAP_WORDS) P (LOS_Align (lo + 1) 32);
        match found with
        | Some index => node ← load32 (freeList P index); mret (node, index)
        | None =>
            if cur =? OS_MEM_FREE_LIST_COUNT then mret (0, OS_MEM_FREE_LIST_COUNT)
            else node ← OsMemFindCurSuitableBlock P cur r; mret (node, cur)
        end) Q (rset s m).
Proof.
  intros Hlo Hbig Hsmall Hcur Hfound Hnone. pose proof (p_lists _ _ _ _ _ _ _ HR) as HL.
  assert (∀ j, lo ≤ j < 223 → L j ≠ [] → Q (List.hd 0 (L j), j) (rset s m)) as Hget.
  { intros j Hj Hne. destruct (L j) as [|c l] eqn:El; [done|]. apply Hfound. eapply from_list; [done|lia|done]. }
  change OS_MEM_FREE_LIST_COUNT with 223. wp_step. apply wp_OsMemNotEmptyIndexGet; [done|]. intros r1 Hr1.
  destruct r1 as [j|].
  { change (default 223 (Some j)) with j. destruct Hr1 as [Hj Hne]. destruct (Z.eqb_spec j 223); [lia|]. cbn [negb].
    wp_step. eapply wpm_load32; [apply HL; addrs; lia|]. wp_step. auto. }
  change (negb (default 223 None =? 223)) with false. cbn iota.
  assert (0 ≤ lo / 32 ≤ 6) by (split; [apply Z.div_pos; lia|apply Z.lt_succ_r, Z.div_lt_upper_bound; lia]).
  rewrite align_32 by lia. wp_step. apply wp_bitmap_loop; [lia|addrs; lia|]. intros r2 Hr2.
  pose proof (Z.div_mod lo 32 ltac:(lia)). pose proof (Z.mod_pos_bound lo 32 ltac:(lia)).
  destruct r2 as [j|].
  { destruct Hr2 as [Hj Hne]. wp_step. eapply wpm_load32; [apply HL; addrs; lia|]. wp_step. apply Hget; [lia|done]. }
  assert (∀ k, lo ≤ k < 224 → L k = []) as Hempty.
  { intros k Hk. destruct (decide (k < 32 * (lo / 32 + 1))); [apply Hr1; lia|apply Hr2; lia]. }
  assert (∀ c i, suits r c i → i = cur) as Honly.
  { intros c i Hs. pose proof Hs as (b & Hb & Hst & Hr & Hi).
    destruct (block_range _ _ _ _ _ _ (p_core _ _ _ _ _ _ _ HR) _ _ Hb) as (_ & _ & ? & _).
    pose proof (size_index_range (bsize b) ltac:(lia)). addrs.
    destruct (Hsmall (bsize b)) as [Hle|]; [lia|lia| |lia].
    by destruct (empty_none r i c i (Hempty i ltac:(lia)) Hs). }
  destruct (Z.eqb_spec cur 223) as [->|Hne].
  - wp_step. apply Hnone. intros c i Hs. pose proof (Honly c i Hs) as ->. destruct Hs as (b & Hb & _ & _ & Hi).
    destruct (block_range _ _ _ _ _ _ (p_core _ _ _ _ _ _ _ HR) _ _ Hb) as (_ & _ & ? & _).
    pose proof (size_index_range (bsize b) ltac:(lia)). addrs. lia.
  - wp_step. apply wp_OsMemFindCurSuitableBlock; [lia|intros c Hc; wp_step; auto|].
    intros Hno. wp_step. apply Hnone. intros c i Hs. pose proof (Honly c i Hs) as ->. by eapply Hno.
Qed.

Lemma wp_OsMemFindNextSuitableBlock r (Q : Z * Z → kstate → Prop) :
  4 ≤ r < 2 ^ 26 → r mod 4 = 0 →
  (∀ c i, suits r c i → Q (c, i) (rset s m)) → ((∀ c i, ¬ suits r c i) → ∀ i, Q (0, i) (rset s m)) →
  wp (OsMemFindNextSuitableBlock P r) Q (rset s m).
Proof.
  intros Hr Hr4 Hfound Hnone. pose proof (size_index_range r Hr) as Hi. unfold OsMemFindNextSuitableBlock.
  rewrite OsMemFlGet_spec by done. cbv zeta. unfold size_index in Hi. destruct (Z.ltb_spec r 128).
  - assert (r / 4 < 32) by (apply Z.div_lt_upper_bound; lia). 
    assert ((r / 4 - 1 <? OS_MEM_SMALL_BUCKET_COUNT) = true) as -> by (apply Z.ltb_lt; unfold OS_MEM_SMALL_BUCKET_COUNT; lia).
    apply wp_find_from; try done; [addrs; lia|..|by left].
    + intros z Hz Hle. apply (size_index_small r z); try lia. unfold size_index at 1. by destruct (Z.ltb_spec r 128); [|lia].
    + intros z Hz Hle. left. pose proof (size_index_mono r z ltac:(lia)) as Hmono. unfold size_index at 1 in Hmono.
      by destruct (Z.ltb_spec r 128); [|lia].
  - pose proof (log2_large r ltac:(lia)). rewrite OsMemSlGet_spec by lia.
    pose proof (eighths r ltac:(lia)).
    unfold OS_MEM_SMALL_BUCKET_COUNT. destruct (Z.ltb_spec (Z.log2 r + 24) 31); [lia|].
    assert (u32 (Z.shiftl (Z.log2 r + 24 - 31) OS_MEM_SLI + (8 * r / 2 ^ Z.log2 r - 8) + 31) = size_index r) as Ei.
    { unfold OS_MEM_SLI. rewrite Z.shiftl_mul_pow2, u32_small by lia. unfold size_index.
      destruct (Z.ltb_spec r 128); lia. }
    rewrite Ei. pose proof (size_index_range r Hr) as Hi'. addrs. rewrite u32_small by lia.
    apply wp_find_from; try done; [lia|..|by right].
    + intros z Hz Hle. apply Z.lt_le_incl, size_index_lt; lia.
    + intros z Hz Hle. pose proof (size_index_mono r z ltac:(lia)). lia.
Qed.
End find.

(** ** Taking a block out *)

(** The block found is off its list; NULL means that no free block is large enough. *)
Lemma wp_OsMemFreeNodeGet s m P S bs L cu wl r (Q : Z → kstate → Prop) :
  PRep m P S bs L cu wl → 4 ≤ r < 2 ^ 26 → r mod 4 = 0 →
  (∀ l1 z l2 m' L', bs = l1 ++ free_blk z :: l2 → r ≤ z → PRep m' P S (l1 ++ loose z :: l2) L' cu wl →
     kept P S (l1 ++ loose z :: l2) m m' → Q (P + 944 + total l1) (rset s m')) →
  ((∀ b, b ∈ bs → bstat b = Free → bsize b < r) → Q 0 (rset s m)) →
  wp (OsMemFreeNodeGet P r) Q (rset s m).
Proof.
  intros HR Hr Hr4 Hget Hnone. pose proof (p_core _ _ _ _ _ _ _ HR) as HC. unfold OsMemFreeNodeGet. wp_step.
  eapply wp_OsMemFindNextSuitableBlock; [exact HR|done|done|..].
  - intros c i (b & Hb & Hst & Hz & <-). pose proof (blocks_split _ _ _ _ Hb) as (l1 & l2 & E & ->).
    assert (b = free_blk (bsize b)) as Eb by (destruct b; simpl in *; by subst). rewrite Eb in E.
    pose proof HR as HR'. rewrite E in HR'. pose proof (mid_range _ _ _ _ _ _ _ _ (p_core _ _ _ _ _ _ _ HR')).
    destruct (Z.eqb_spec (P + 944 + total l1) 0); [lia|].
    wp_step. eapply wp_ListDelete_block; [exact HR'|]. intros m' L' HR1 Hk1. wp_step. by eapply Hget.
  - intros Hno i. simpl. wp_step. apply Hnone. intros b Hb Hst. destruct (decide (bsize b < r)); [done|].
    apply list_elem_of_split in Hb as (l1 & l2 & ->). destruct (Hno (P + 944 + total l1) (size_index (bsize b))).
    exists b. split_and!; [apply blocks_mid|done|lia|done].
Qed.
