(* ===== verification/PoolRealloc.v ===== *)
(** Reallocation: [LOS_MemRealloc] shrinks or grows a block in place where it can, and otherwise
    moves its contents to a block of the host allocator. *)

From stdpp Require Import functions.
From S2P Require Import Prelude DList Kernel Tick SortLink Mem Pmcu Sched Event Task Pool PoolIndex.
From S2P Require Import Bytes PoolInv PoolLists PoolRep PoolOps PoolFree PoolWalk.

(** ** The size of a node *)

Definition node_size (size : Z) : Z := OS_MEM_ALIGN (u32 (size + OS_MEM_NODE_HEAD_SIZE)) OS_MEM_ALIGN_SIZE.

Lemma node_size_spec size :
  8 ≤ size < 2 ^ 24 → size + 8 ≤ node_size size < size + 12 ∧ node_size size mod 4 = 0.
Proof.
  intros Hs. unfold node_size, OS_MEM_ALIGN, OS_MEM_ALIGN_SIZE. addrs.
  rewrite (u32_small (size + 8)), u32_small by lia. change (4 - 1) with (Z.ones 2).
  rewrite Z.ldiff_ones_r, Z.shiftl_mul_pow2, Z.shiftr_div_pow2 by lia. change (2 ^ 2) with 4.
  pose proof (Z.div_mod (size + 8 + 4 - 1) 4). pose proof (Z.mod_pos_bound (size + 8 + 4 - 1) 4).
  rewrite Z.mod_mul by lia. lia.
Qed.

(** ** Holding a block *)

Lemma prot_hold P S l1 b b' l2 i :
  bsize b' = bsize b → is_held b' = is_held b → prot P S (l1 ++ b' :: l2) i → prot P S (l1 ++ b :: l2) i.
Proof.
  intros Hz Hh [?|[?|(c & x & Hin & Hx & Hi)]]; [by left|by right; left|]. right; right.
  rewrite elem_of_blocks_mid, Hz in Hin. destruct Hin as [Hin|[[-> ->]|Hin]].
  - exists c, x. rewrite elem_of_blocks_mid. auto.
  - exists (P + 944 + total l1), b. rewrite elem_of_blocks_mid, <- Hh, <- Hz. auto.
  - exists c, x. rewrite elem_of_blocks_mid. auto.
Qed.

Lemma kept_hold P S l1 b b' l2 m m' :
  bsize b' = bsize b → is_held b' = is_held b → kept P S (l1 ++ b :: l2) m m' → kept P S (l1 ++ b' :: l2) m m'.
Proof. intros Hz Hh Hk i Hi. apply Hk. by eapply prot_hold. Qed.

(** A block may give up its end. *)
Lemma kept_shrink P S l1 z k st l2 m m' :
  k ≤ z → kept P S (l1 ++ mkBlk z st :: l2) m m' → kept P S (l1 ++ mkBlk k st :: loose (z - k) :: l2) m m'.
Proof.
  intros Hk H i [?|[?|(c & x & Hin & Hx & Hi)]]; apply H; [by left|by right; left|]. right; right.
  rewrite elem_of_blocks_mid in Hin. cbn [blocks bsize loose] in Hin.
  destruct Hin as [Hin|[[-> ->]|[[= -> ->]|Hin]%elem_of_cons]].
  - exists c, x. rewrite elem_of_blocks_mid. auto.
  - exists (P + 944 + total l1), (mkBlk z st). rewrite elem_of_blocks_mid. split_and!; [auto|done|..]; cbn [bsize] in *; lia.
  - done.
  - exists c, x. rewrite elem_of_blocks_mid. cbn [bsize]. replace (P + 944 + total l1 + z) with (P + 944 + total l1 + k + (z - k)) by lia. auto.
Qed.

Section hold.
  Context (s : kstate) (m : gmap Z Z) (P S z t : Z) (l1 l2 : list mblk) (L : Z → list Z) (cu wl : Z).
  Abbreviation a := (P + 944 + total l1).

(** A store of the bare size takes the flag away. *)
Lemma wp_hold (Q : unit → kstate → Prop) :
  PRep m P S (l1 ++ mkBlk z (Used t) :: l2) L cu wl →
  (∀ m', PRep m' P S (l1 ++ mkBlk z (Held t) :: l2) L cu wl →
     kept P S (l1 ++ mkBlk z (Used t) :: l2) m m' → Q tt (rset s m')) →
  wp (set_sizeAndFlag a z) Q (rset s m).
Proof.
  intros HR HQ. eapply (wp_set_header _ _ P S l1 l2 (mkBlk z (Used t)) (mkBlk z (Held t))); try done.
  { by rewrite size_word_free. }
  intros m' HR' Hk _. by eapply HQ.
Qed.

Lemma wp_unhold (Q : unit → kstate → Prop) :
  PRep m P S (l1 ++ mkBlk z (Held t) :: l2) L cu wl →
  (∀ m', PRep m' P S (l1 ++ mkBlk z (Used t) :: l2) L cu wl →
     kept P S (l1 ++ mkBlk z (Used t) :: l2) m m' → Q tt (rset s m')) →
  wp (OS_MEM_NODE_SET_USED_FLAG a) Q (rset s m).
Proof.
  intros HR HQ. pose proof (p_core _ _ _ _ _ _ _ HR) as HC. pose proof (mid_range _ _ _ _ _ _ _ _ HC) as Hr.
  cbn [bsize] in Hr. unfold OS_MEM_NODE_SET_USED_FLAG. wp_step. eapply wp_mid_size; [exact HC|].
  rewrite size_word_free by done. cbn [bsize]. destruct (size_flags z ltac:(lia)) as (_ & _ & _ & _ & ->).
  eapply (wp_set_header _ _ P S l1 l2 (mkBlk z (Held t)) (mkBlk z (Used t))); try done.
  intros m' HR' _ Hk. by eapply HQ.
Qed.
End hold.

(** ** In place *)

(** A block of [z] bytes cut down to [k] when a block can be made of the rest. *)
Definition carve (t z k : Z) (l : list mblk) : list mblk :=
  if k + 16 <=? z then
    let '(r, l) := absorb (z - k) l in mkBlk k (Used t) :: free_blk r :: l
  else mkBlk z (Used t) :: l.

Definition carved (z k : Z) : Z := if k + 16 <=? z then k else z.

Section cut.
  Context (s : kstate) (P S z t k : Z) (l1 l2 : list mblk).
  Context (Hk : 16 ≤ k < 2 ^ 25) (Hk4 : k mod 4 = 0) (Hl : Forall settled l2).
  Abbreviation a := (P + 944 + total l1).
  Abbreviation r := ((absorb (z - k) l2).1).
  Abbreviation l2' := ((absorb (z - k) l2).2).

(** The cut of a held block. *)
Lemma wp_cut m L cu wl (Q : unit → kstate → Prop) :
  PRep m P S (l1 ++ mkBlk z (Held t) :: l2) L cu wl → k + 16 ≤ z →
  (∀ m' L', PRep m' P S (l1 ++ mkBlk k (Held t) :: free_blk r :: l2') L' cu wl →
     kept P S (l1 ++ mkBlk k (Held t) :: free_blk r :: l2') m m' → Q tt (rset s m')) →
  wp (OsMemSplitNode P a k) Q (rset s m).
Proof. intros HR Hkz HQ. eapply (wp_OsMemSplitNode s m P S k l1 l2 (mkBlk z (Held t))); (done || lia). Qed.

Lemma kept_cut st m m' :
  k + 16 ≤ z → kept P S (l1 ++ mkBlk z st :: l2) m m' →
  kept P S (l1 ++ mkBlk k st :: free_blk r :: l2') m m'.
Proof.
  intros Hkz H. apply (kept_shrink _ _ _ _ k) in H; [|lia].
  change (l1 ++ mkBlk k st :: ?l) with (l1 ++ [mkBlk k st] ++ l) in *. rewrite app_assoc in *. by apply kept_absorb.
Qed.

(** [OsMemReAllocSmaller]. *)
Lemma wp_OsMemReAllocSmaller m L cu wl (Q : unit → kstate → Prop) :
  PRep m P S (l1 ++ mkBlk z (Used t) :: l2) L cu wl → z ≤ cu < 2 ^ 32 →
  (∀ m' L', PRep m' P S (l1 ++ carve t z k l2) L' (cu - (z - carved z k)) wl →
     kept P S (l1 ++ carve t z k l2) m m' → Q tt (rset s m')) →
  wp (OsMemReAllocSmaller P k a z) Q (rset s m).
Proof.
  intros HR Hcu HQ. unfold carve, carved in HQ. unfold OsMemReAllocSmaller.
  wp_step. eapply wp_hold; [exact HR|]. intros m1 HR1 Hk1. addrs. rewrite u32_small by lia. wp_step.
  destruct (Z.leb_spec (k + 16) z) as [Hkz|Hkz]; cbn [when].
  - rewrite (surjective_pairing (absorb (z - k) l2)) in HQ. wp_step. eapply wp_cut; [exact HR1|done|].
    intros m2 L2 HR2 Hk2. wp_step. eapply wpm_load32; [apply HR2|]. rewrite u32_small by lia.
    destruct (PRep_cur _ _ _ _ _ _ (cu - (z - k)) _ HR2) as [HR3 Hk3]; [lia|].
    apply wpm_store32; [eexists; apply HR2|]. eapply wp_unhold; [exact HR3|].
    intros m4 HR4 Hk4'. eapply HQ; [exact HR4|]. apply (kept_cut (Used t)) in Hk1; [|done].
    apply (kept_hold _ _ _ _ (mkBlk k (Used t))) in Hk2; [|done..]. apply (kept_hold _ _ _ _ (mkBlk k (Used t))) in Hk3; [|done..].
    by do 3 (eapply kept_trans; [eassumption|]).
  - wp_step. eapply wp_unhold; [exact HR1|]. intros m2 HR2 Hk2. rewrite Z.sub_diag, Z.sub_0_r in HQ.
    eapply HQ; [exact HR2|]. by eapply kept_trans.
Qed.
End cut.

(** A block that grew holds what it held before. *)
Lemma prot_grow P S l1 z y st l2 bs' i :
  (∃ x, (P + 944 + total l1, x) ∈ blocks (P + 944) bs' ∧ is_held x = is_held (mkBlk z st) ∧ z ≤ bsize x) →
  (∀ c x, (c, x) ∈ blocks (P + 944) l1 ∨ (c, x) ∈ blocks (P + 944 + total l1 + z + y) l2 →
     is_held x = true → (c, x) ∈ blocks (P + 944) bs') →
  prot P S (l1 ++ mkBlk z st :: free_blk y :: l2) i → prot P S bs' i.
Proof.
  intros (x0 & Hx0 & Hh0 & Hz0) Hsub [?|[?|(c & x & Hin & Hx & Hi)]]; [by left|by right; left|]. right; right.
  rewrite elem_of_blocks_mid in Hin. cbn [blocks bsize free_blk] in Hin.
  destruct Hin as [Hin|[[-> ->]|[[= -> ->]|Hin]%elem_of_cons]].
  - exists c, x. split; [|done]. by apply Hsub; [left|].
  - exists (P + 944 + total l1), x0. rewrite Hh0. cbn [bsize] in Hi. split_and!; (done || lia).
  - done.
  - exists c, x. split; [|done]. by apply Hsub; [right|].
Qed.

Lemma kept_grow P S l1 z y st l2 bs' m m' :
  (∃ x, (P + 944 + total l1, x) ∈ blocks (P + 944) bs' ∧ is_held x = is_held (mkBlk z st) ∧ z ≤ bsize x) →
  (∀ c x, (c, x) ∈ blocks (P + 944) l1 ∨ (c, x) ∈ blocks (P + 944 + total l1 + z + y) l2 →
     is_held x = true → (c, x) ∈ blocks (P + 944) bs') →
  kept P S bs' m m' → kept P S (l1 ++ mkBlk z st :: free_blk y :: l2) m m'.
Proof. intros H1 H2 Hk i Hi. apply Hk. by eapply prot_grow. Qed.

(** The blocks behind the one cut stay where they are. *)
Lemma carve_held t z k l a c x :
  (c, x) ∈ blocks (a + z) l → is_held x = true → (c, x) ∈ blocks a (carve t z k l).
Proof.
  intros Hin Hx. unfold carve. destruct (Z.leb_spec (k + 16) z); [|by right].
  destruct l as [|[y []] l]; cbn [absorb blocks bsize free_blk] in *;
    replace (a + k + (z - k)) with (a + z) by lia; try by right; right.
  apply elem_of_cons in Hin as [[= -> ->]|Hin]; [done|].
  replace (a + k + (z - k + y)) with (a + z + y) by lia. by right; right.
Qed.

Lemma carve_head t z k l a : (a, mkBlk (carved z k) (Used t)) ∈ blocks a (carve t z k l).
Proof.
  unfold carve, carved. destruct (_ <=? z); [|by left]. destruct (absorb _ _). by left.
Qed.

Lemma kept_carve P S l1 z y t k l2 m m' :
  z ≤ k → 0 ≤ y → kept P S (l1 ++ carve t (z + y) k l2) m m' →
  kept P S (l1 ++ mkBlk z (Used t) :: free_blk y :: l2) m m'.
Proof.
  intros Hk Hy. apply kept_grow.
  - exists (mkBlk (carved (z + y) k) (Used t)). split_and!; [|done|].
    + rewrite blocks_app. apply elem_of_app. right. apply carve_head.
    + unfold carved. cbn [bsize]. destruct (_ <=? _); lia.
  - intros c x Hin Hx. rewrite blocks_app. apply elem_of_app. destruct Hin as [|Hin]; [by left|]. right.
    apply carve_held; [|done]. by replace (P + 944 + total l1 + (z + y)) with (P + 944 + total l1 + z + y) by lia.
Qed.

Lemma wp_OsMemWaterUsedRecord s m P S bs L cu wl d (Q : unit → kstate → Prop) :
  PRep m P S bs L cu wl → 0 ≤ cu + d < 2 ^ 32 →
  (∀ m', PRep m' P S bs L (cu + d) (Z.max wl (cu + d)) → kept P S bs m m' → Q tt (rset s m')) →
  wp (OsMemWaterUsedRecord P d) Q (rset s m).
Proof.
  intros HR Hd HQ. pose proof (p_core _ _ _ _ _ _ _ HR) as HC. unfold OsMemWaterUsedRecord.
  wp_step. eapply wpm_load32; [apply HC|]. rewrite u32_small by lia. wp_step. apply wpm_store32; [eexists; apply HC|].
  wp_step. eapply wpm_load32; [by rd|]. wp_step. eapply wpm_load32; [rd; apply HC|].
  destruct (Z.ltb_spec wl (cu + d)) as [Hlt|Hge]; cbn [when].
  - apply wpm_store32; [rd; eexists; apply HC|].
    destruct (PRep_counters _ (w32 (info_waterLine P) (cu + d) (w32 (info_curUsedSize P) (cu + d) m)) _ _ _ _ _ _ (cu + d) (cu + d) HR)
      as [HR' Hk']; [apply writes_step; [by right|]; apply writes_one; by left|by rd|by rd|].
    rewrite Z.max_r in HQ by lia. by eapply HQ.
  - wp_step. rewrite Z.max_l in HQ by lia. destruct (PRep_cur _ _ _ _ _ _ (cu + d) _ HR) as [HR' Hk']; [lia|]. by eapply HQ.
Qed.

Section bigger.
  Context (s : kstate) (m : gmap Z Z) (P S z y t k : Z) (l1 l2 : list mblk) (L : Z → list Z) (cu wl : Z).
  Context (HR : PRep m P S (l1 ++ mkBlk z (Used t) :: free_blk y :: l2) L cu wl).
  Context (Hk : 16 ≤ k < 2 ^ 25) (Hk4 : k mod 4 = 0) (Hl : Forall settled l2) (Hkz : z ≤ k) (Hcu : 0 ≤ cu < 2 ^ 31).
  Abbreviation a := (P + 944 + total l1).
  Abbreviation row0 := (l1 ++ mkBlk z (Used t) :: free_blk y :: l2).

(** The block joins the free one behind it. *)
Lemma wp_grow {A} (c : K A) (Q : A → kstate → Prop) :
  (∀ m' L', PRep m' P S (l1 ++ mkBlk (z + y) (Held t) :: l2) L' cu wl → kept P S row0 m m' → wp c Q (rset s m')) →
  wp (set_sizeAndFlag a z;; OsMemFreeNodeDelete P (a + z);; OsMemMergeNode (a + z);; c) Q (rset s m).
Proof.
  intros HQ. wp_step. eapply wp_hold; [exact HR|]. intros m1 HR1 Hk1. wp_step.
  assert (a + z = P + 944 + total (l1 ++ [mkBlk z (Held t)])) as Ea by (rewrite total_app; simpl; lia).
  rewrite Ea at 1. eapply (wp_OsMemFreeNodeDelete s m1 P S y (l1 ++ [mkBlk z (Held t)]) l2 L); [by rewrite <- app_assoc|].
  intros m2 L2 HR2 Hk2. rewrite <- app_assoc in HR2. cbn [app] in HR2. wp_step.
  eapply (wp_OsMemMergeNode s m2 P S y l1 l2 (mkBlk z (Held t))); [exact HR2|done|done|].
  intros m3 HR3 Hk3. eapply HQ; [exact HR3|].
  apply (kept_restat _ _ _ _ (free_blk y)) in Hk2; [|done..]. rewrite <- app_assoc in Hk2. cbn [app] in Hk2.
  change (l1 ++ mkBlk z (Held t) :: loose y :: l2) with (l1 ++ [mkBlk z (Held t)] ++ loose y :: l2) in Hk3.
  rewrite app_assoc in Hk3. apply (kept_restat _ _ _ _ (free_blk y)) in Hk3; [|done..]. rewrite <- app_assoc in Hk3.
  apply (kept_hold _ _ _ _ (mkBlk z (Used t))) in Hk2; [|done..]. apply (kept_hold _ _ _ _ (mkBlk z (Used t))) in Hk3; [|done..].
  by do 2 (eapply kept_trans; [eassumption|]).
Qed.

Lemma wp_grown_end m1 L1 bs n (Q : unit → kstate → Prop) :
  PRep m1 P S (l1 ++ mkBlk n (Held t) :: bs) L1 cu wl → z ≤ n →
  (∀ m', PRep m' P S (l1 ++ mkBlk n (Used t) :: bs) L1 (cu + (n - z)) (Z.max wl (cu + (n - z))) →
     kept P S (l1 ++ mkBlk n (Used t) :: bs) m1 m' → Q tt (rset s m')) →
  wp (OS_MEM_NODE_SET_USED_FLAG a;; v ← get_sizeAndFlag a;
      OsMemWaterUsedRecord P (u32 (OS_MEM_NODE_GET_SIZE v - z))) Q (rset s m1).
Proof.
  intros HR1 Hn HQ. wp_step. eapply wp_unhold; [exact HR1|]. intros m2 HR2 Hk2.
  pose proof (mid_range _ _ _ _ _ _ _ _ (p_core _ _ _ _ _ _ _ HR)) as Hz0.
  pose proof (mid_range _ _ _ _ _ _ _ _ (p_core _ _ _ _ _ _ _ HR2)) as Hz. cbn [bsize] in Hz0, Hz.
  wp_step. eapply wp_mid_size; [apply HR2|]. destruct (get_size_word (mkBlk n (Used t))) as [-> _]; [cbn [bsize]; lia|].
  cbn [bsize]. rewrite u32_small by lia. eapply wp_OsMemWaterUsedRecord; [exact HR2|lia|].
  intros m3 HR3 Hk3. eapply HQ; [exact HR3|]. by eapply kept_trans.
Qed.

Lemma wp_OsMemMergeNodeForReAllocBigger (Q : unit → kstate → Prop) :
  let cu' := cu + (carved (z + y) k - z) in
  (∀ m' L', PRep m' P S (l1 ++ carve t (z + y) k l2) L' cu' (Z.max wl cu') → kept P S row0 m m' → Q tt (rset s m')) →
  wp (OsMemMergeNodeForReAllocBigger P k a z (a + z)) Q (rset s m).
Proof.
  intros cu' HQ. assert (0 ≤ y) as Hy.
  { pose proof (p_sized _ _ _ _ _ _ (p_core _ _ _ _ _ _ _ HR)) as [_ [_ [[? _] _]%Forall_cons]%Forall_cons]%Forall_app.
    cbn [bsize free_blk] in *. lia. }
  unfold OsMemMergeNodeForReAllocBigger. apply wp_grow. intros m1 L1 HR1 Hk1. wp_step.
  eapply wp_mid_size; [apply HR1|]. rewrite size_word_free by done. cbn [bsize]. addrs. rewrite u32_small by lia.
  pose proof (kept_carve P S l1 z y t k l2) as Hcarve. unfold carve, carved in *. wp_step.
  destruct (Z.leb_spec (k + 16) (z + y)) as [Hc|Hc]; cbn [when].
  - rewrite (surjective_pairing (absorb (z + y - k) l2)) in *.
    eapply (wp_cut s P S (z + y) t k l1 l2); [done..|exact HR1|done|]. intros m2 L2 HR2 Hk2.
    eapply wp_grown_end; [exact HR2|lia|]. intros m3 HR3 Hk3. eapply HQ; [exact HR3|].
    eapply kept_trans; [exact Hk1|]. apply Hcarve; [done..|]. eapply kept_trans; [|exact Hk3].
    by apply (kept_hold _ _ _ (mkBlk k (Held t))).
  - wp_step. eapply wp_grown_end; [exact HR1|lia|]. intros m2 HR2 Hk2. eapply HQ; [exact HR2|].
    eapply kept_trans; [exact Hk1|]. by apply Hcarve.
Qed.
End bigger.

(** The row after a reallocation in place to [k] bytes, when that is possible. *)
Definition realloc_row (l1 : list mblk) (t z : Z) (l2 : list mblk) (k : Z) : option (list mblk) :=
  if k <=? z then Some (l1 ++ carve t z k l2)
  else match l2 with
       | mkBlk y Free :: l => if k <=? z + y then Some (l1 ++ carve t (z + y) k l) else None
       | _ => None
       end.

Lemma used_total_carve l1 t z k l :
  used_total (l1 ++ carve t z k l) = used_total l1 + carved z k + used_total l.
Proof.
  rewrite used_total_app. unfold carve, carved. destruct (_ <=? z).
  - destruct l as [|[y []] l]; cbn [absorb]; rewrite ?used_total_cons; cbn; lia.
  - rewrite used_total_cons. cbn. lia.
Qed.

(** ** Moving *)

Section move.
  Context `{!Malloc} `{!MallocLaws} (s : kstate) (m : gmap Z Z) (P S z t : Z) (l1 l2 : list mblk).
  Context (L : Z → list Z) (cu wl : Z) (HR : PRep m P S (l1 ++ mkBlk z (Used t) :: l2) L cu wl).
  Context (Hl1 : Forall settled l1) (Hl2 : Forall settled l2) (Hcu : z ≤ cu < 2 ^ 32).
  Abbreviation a := (P + 944 + total l1).

(** The pool lies in memory the host allocator has given out. *)
Definition backed (s : kstate) (P S : Z) : Prop :=
  ∃ b n, malloced s !! b = Some n ∧ b ≤ P ∧ P + S ≤ b + n.

Context (Hback : backed s P S) (size : Z) (Hsize : z - 8 ≤ size < 2 ^ 24) (Hpos : 0 < size).

(** A fresh block of the host allocator with the contents of the old one. *)
Definition moved (p : Z) (m' : gmap Z Z) : Prop :=
  malloc_choose (malloced s) size = Some p ∧ mapped m' p (Z.to_nat size) ∧
  (∃ L', PRep m' P S (release l1 z l2) L' (cu - z) wl) ∧
  read_bytes m' p (Z.to_nat (z - 8)) = read_bytes m (a + 8) (Z.to_nat (z - 8)) ∧
  (∀ i, i < p ∨ p + size ≤ i → prot P S (release l1 z l2) i → m' !! i = m !! i).

(** What is written at [p] does not touch the pool. *)
Lemma PRep_apart p m' :
  p + size ≤ P ∨ P + S ≤ p → (∀ i, i < p ∨ p + size ≤ i → m' !! i = m !! i) →
  PRep m' P S (l1 ++ mkBlk z (Used t) :: l2) L cu wl.
Proof.
  intros Hp He. pose proof (p_core _ _ _ _ _ _ _ HR) as HC. pose proof (p_geom _ _ _ _ _ _ HC). eapply PRep_frame; [exact HR| |].
  - intros i Hi. rewrite He by lia. apply (p_mapped _ _ _ _ _ _ HC). lia.
  - intros i Hi _. apply He. lia.
Qed.

Lemma wp_move_free s1 p m1 bs (Q : Z → kstate → Prop) :
  malloc_choose (malloced s) size = Some p → p + size ≤ P ∨ P + S ≤ p →
  mapped m1 p (Z.to_nat size) → (∀ i, i < p ∨ p + size ≤ i → m1 !! i = m !! i) →
  read_bytes m (a + 8) (Z.to_nat (z - 8)) = Some bs →
  (∀ m', moved p m' → Q p (rset s1 m')) →
  wp (OsMemFree P a;; mret p) Q (rset s1 (write_bytes p bs m1)).
Proof.
  intros Ep Hp Hm1 He Hbs HQ. pose proof (mid_range _ _ _ _ _ _ _ _ (p_core _ _ _ _ _ _ _ HR)) as Hz. cbn [bsize] in Hz.
  pose proof Hbs as [Elen _]%read_bytes_lookup. set (m2 := write_bytes p bs m1).
  assert (∀ i, i < p ∨ p + size ≤ i → m2 !! i = m !! i) as He2.
  { intros i Hi. unfold m2. rewrite write_bytes_other by lia. by apply He. }
  wp_step. eapply wp_OsMemFree; [by eapply (PRep_apart p)|done..|]. intros m3 L3 HR3 Hk3. wp_step. apply HQ.
  assert (∀ i, p ≤ i < p + size → m3 !! i = m2 !! i) as Hout.
  { intros i Hi. apply Hk3. destruct Hp; [left; lia|right; left; lia]. }
  split_and!; [done| |by eexists| |].
  - intros i Hi. rewrite Hout by lia. apply write_bytes_mapped with (b := p) (n := Z.to_nat size); [done|lia].
  - rewrite Hbs. erewrite read_bytes_ext; [|intros i Hi; apply Hout; lia]. rewrite <- Elen. apply read_write_same.
  - intros i Hi Hprot. rewrite Hk3 by done. by apply He2.
Qed.

Lemma wp_move e (Q : Z → kstate → Prop) :
  (malloc_choose (malloced s) size = None → Q 0 (rset s m)) →
  (∀ p m', moved p m' → Q p (rset (s <| malloced := <[p := size]> (malloced s) |>) m')) →
  wp (tmpPtr ← OsMemAlloc P size e;
      if negb (tmpPtr =? 0) then
        r ← memcpy_s tmpPtr size (BufMem (a + 8)) (u32 (z - OS_MEM_NODE_HEAD_SIZE));
        if negb (r =? EOK) then
          MEM_UNLOCK P e;; LOS_MemFree tmpPtr;; MEM_LOCK P e;; mret 0
        else OsMemFree P a;; mret tmpPtr
      else mret tmpPtr) Q (rset s m).
Proof.
  intros Hnone Hmoved. unfold OsMemAlloc, LOS_MemAlloc. wp_step. wp_steps.
  destruct (malloc_choose (malloced (rset s m)) size) as [p|] eqn:Ep; [|wp_steps; by apply Hnone].
  change (malloced (rset s m)) with (malloced s) in *. wp_steps.
  pose proof (malloc_nonnull _ _ _ Ep) as Hp. destruct Hback as (b & n & Hb & Hb1 & Hb2).
  pose proof (malloc_fresh _ _ _ _ _ Ep Hb) as Hfresh. destruct (Z.eqb_spec p 0); [lia|]. cbn [negb].
  set (m1 := map_block malloc_garbage p (Z.to_nat size) m).
  change (wp ?c Q _) with (wp c Q (rset (s <| malloced := <[p := size]> (malloced s) |>) m1)).
  pose proof (p_core _ _ _ _ _ _ _ HR) as HC. pose proof (mid_range _ _ _ _ _ _ _ _ HC) as Hz. cbn [bsize] in Hz.
  assert (∀ i, i < p ∨ p + size ≤ i → m1 !! i = m !! i) as He.
  { intros i Hi. unfold m1. rewrite map_block_lookup, decide_False by lia. done. }
  assert (mapped m1 p (Z.to_nat size)) as Hm1.
  { intros i Hi. unfold m1. rewrite map_block_lookup, decide_True by lia. eauto. }
  destruct (proj1 (read_bytes_mapped m (a + 8) (Z.to_nat (z - 8)))) as [bs Hbs].
  { intros i Hi. apply (p_mapped _ _ _ _ _ _ HC). lia. }
  addrs. rewrite u32_small by lia. wp_step. eapply (wp_memcpy_s p size (BufMem (a + 8)) (z - 8) bs); [done|lia| |lia| | | |].
  - unfold SECUREC_MEM_MAX_LEN. lia.
  - cbn [SECUREC_MEMORY_IS_OVERLAP]. apply orb_false_iff. rewrite !andb_false_iff, !Z.ltb_ge. lia.
  - cbn [cbuf_bytes]. change (ram (rset _ m1)) with m1. rewrite <- Hbs. apply read_bytes_ext. intros i Hi. apply He. lia.
  - intros i Hi. apply Hm1. lia.
  - cbn [negb Z.eqb EOK]. apply (wp_move_free _ p m1); [done|lia|done..|]. intros m' Hmv. by apply Hmoved.
Qed.
End move.

(** ** [LOS_MemRealloc] *)

(** The test for room behind the block, with the header [v] of the next node. *)
Lemma realloc_cases l1 t z l2 k v :
  z < k → Forall settled l2 → (∀ b l, l2 = b :: l → v = size_word b) →
  (∃ y l, l2 = free_blk y :: l ∧ k ≤ z + y ∧ (negb (next_used l2) && (k <=? v + z)) = true) ∨
  (realloc_row l1 t z l2 k = None ∧ (negb (next_used l2) && (k <=? v + z)) = false).
Proof.
  intros Hk Hs Hv. unfold realloc_row. destruct (Z.leb_spec k z); [lia|].
  destruct l2 as [|[y st] l]; [by right|]. rewrite (Hv _ _ eq_refl).
  apply Forall_cons in Hs as [Hb _]. destruct st; cbn [next_used is_used bstat negb andb]; try by right.
  - by destruct Hb.
  - rewrite size_word_free by done. cbn [bsize]. rewrite (Z.add_comm y).
    destruct (Z.leb_spec k (z + y)); [left; by exists y, l|by right].
  - by destruct Hb.
Qed.

Section realloc.
  Context `{!Malloc} `{!MallocLaws} (m : gmap Z Z) (P S z t : Z) (l1 l2 : list mblk).
  Context (L : Z → list Z) (cu wl : Z).
  Abbreviation bs := (l1 ++ mkBlk z (Used t) :: l2).
  Context (HR : PRep m P S bs L cu wl).
  Context (Hl1 : Forall settled l1) (Hl2 : Forall settled l2) (Hcu : z ≤ cu ≤ wl) (Hwl : wl < 2 ^ 31).
  Abbreviation a := (P + 944 + total l1).

(** In place: the block has the new size and every block the contents it had. *)
Definition in_place (k : Z) (m' : gmap Z Z) : Prop :=
  ∃ bs' L', realloc_row l1 t z l2 k = Some bs' ∧
    let cu' := cu + (used_total bs' - used_total bs) in
    PRep m' P S bs' L' cu' (Z.max wl cu') ∧
    ∀ i, prot P S bs i → prot P S bs' i → m' !! i = m !! i.

Lemma wp_smaller s k (Q : unit → kstate → Prop) :
  16 ≤ k < 2 ^ 25 → k mod 4 = 0 → k ≤ z → (∀ m', in_place k m' → Q tt (rset s m')) →
  wp (OsMemReAllocSmaller P k a z) Q (rset s m).
Proof.
  intros Hk Hk4 Hkz HQ. eapply wp_OsMemReAllocSmaller; [done..|exact HR|lia|]. intros m' L' HR' Hk'. apply HQ.
  exists (l1 ++ carve t z k l2), L'. split; [unfold realloc_row; by destruct (Z.leb_spec k z); [|lia]|].
  cbv zeta. split; [|intros i _ Hi; by apply Hk'].
  rewrite used_total_carve, used_total_app, used_total_cons. cbn [is_used bstat bsize].
  assert (carved z k ≤ z) by (unfold carved; destruct (Z.leb_spec (k + 16) z); lia).
  replace (cu + _) with (cu - (z - carved z k)) by lia. rewrite Z.max_l by lia. exact HR'.
Qed.

Lemma wp_bigger s k y l (Q : unit → kstate → Prop) :
  16 ≤ k < 2 ^ 25 → k mod 4 = 0 → z < k ≤ z + y → l2 = free_blk y :: l → (∀ m', in_place k m' → Q tt (rset s m')) →
  wp (OsMemMergeNodeForReAllocBigger P k a z (a + z)) Q (rset s m).
Proof.
  intros Hk Hk4 Hkz El HQ. pose proof (mid_range _ _ _ _ _ _ _ _ (p_core _ _ _ _ _ _ _ HR)) as Hz. cbn [bsize] in Hz.
  pose proof HR as HR0. rewrite El in HR0, Hl2. apply Forall_cons in Hl2 as [_ Hl].
  eapply wp_OsMemMergeNodeForReAllocBigger; [exact HR0|done|done|done|lia|lia|]. intros m' L' HR' Hk'. apply HQ.
  exists (l1 ++ carve t (z + y) k l), L'. rewrite El. split.
  { unfold realloc_row. destruct (Z.leb_spec k z); [lia|]. cbn [free_blk]. by destruct (Z.leb_spec k (z + y)); [|lia]. }
  cbv zeta. split; [|intros i Hi _; by apply Hk'].
  rewrite used_total_carve, used_total_app, !used_total_cons. cbn [is_used bstat bsize free_blk].
  by replace (cu + _) with (cu + (carved (z + y) k - z)) by lia.
Qed.

Lemma wp_OsMemRealloc s size e (Q : Z → kstate → Prop) :
  backed s P S → 8 ≤ size < 2 ^ 24 →
  let k := node_size size in
  (∀ m', in_place k m' → Q (a + 8) (rset s m')) →
  (realloc_row l1 t z l2 k = None → malloc_choose (malloced s) size = None → Q 0 (rset s m)) →
  (∀ p m', realloc_row l1 t z l2 k = None → moved s m P S z l1 l2 cu wl size p m' →
     Q p (rset (s <| malloced := <[p := size]> (malloced s) |>) m')) →
  wp (OsMemRealloc P (a + 8) a size e) Q (rset s m).
Proof.
  intros Hback Hsize k Hin Hnone Hmove. destruct (node_size_spec size Hsize) as [Hk Hk4]. fold k in Hk, Hk4.
  pose proof (p_core _ _ _ _ _ _ _ HR) as HC. pose proof (mid_range _ _ _ _ _ _ _ _ HC) as Hz. cbn [bsize] in Hz.
  unfold OsMemRealloc. cbv zeta. fold (node_size size) k. wp_step. eapply wp_mid_size; [exact HC|].
  destruct (get_size_word (mkBlk z (Used t))) as [-> _]; [cbn [bsize]; lia|]. cbn [bsize].
  destruct (Z.leb_spec k z) as [Hkz|Hkz].
  { wp_step. apply wp_smaller; [lia|done|done|]. intros m' Hm'. wp_step. auto. }
  wp_step. eapply wp_next_node; [exact HC|]. cbn [bsize]. wp_step.
  assert (a + z = P + 944 + total (l1 ++ [mkBlk z (Used t)])) as Ea by (rewrite total_app; simpl; lia).
  rewrite Ea at 1. eapply (wp_next_used _ _ P S (l1 ++ [mkBlk z (Used t)]) l2); [rewrite <- app_assoc; exact HC|].
  intros v Hv Hsz. rewrite Hv.
  assert (z - 8 ≤ size) as Hzs.
  { destruct Hz as (_ & _ & _ & _ & _ & Hz4). pose proof (Z.div_mod z 4). pose proof (Z.div_mod k 4). lia. }
  destruct (realloc_cases l1 t z l2 k v Hkz Hl2 Hsz) as [(y & l & El & Hky & ->)|[Hrow ->]].
  - wp_step. eapply (wp_bigger s k y l); [lia|done|lia|exact El|]. intros m' Hm'. wp_step. auto.
  - eapply (wp_move s m P S z t); [exact HR|done|done|lia|done|lia|lia|by auto|by auto].
Qed.
End realloc.

(** ** The pointer of a caller *)

Lemma flag_bit x n : 0 ≤ n → flag x (Z.shiftl 1 n) = Z.testbit x n.
Proof.
  intros Hn. unfold flag. destruct (Z.eqb_spec (Z.land x (Z.shiftl 1 n)) 0) as [E|E]; cbn [negb].
  - assert (Z.testbit (Z.land x (Z.shiftl 1 n)) n = false) as Hb by (rewrite E; apply Z.bits_0).
    rewrite Z.land_spec, Z.shiftl_1_l, Z.pow2_bits_true, andb_true_r in Hb by done. done.
  - destruct (Z.testbit x n) eqn:Hx; [done|]. destruct E. apply Z.bits_inj'. intros j Hj.
    rewrite Z.land_spec, Z.bits_0, Z.shiftl_1_l, Z.pow2_bits_eqb by done.
    destruct (Z.eqb_spec n j) as [<-|]; [by rewrite Hx|apply andb_false_r].
Qed.

Lemma low_bits z n : 0 ≤ z < 2 ^ 24 → 24 ≤ n → Z.testbit z n = false.
Proof.
  intros Hz Hn. destruct (decide (z = 0)) as [->|]; [apply Z.bits_0|].
  apply Z.bits_above_log2; [lia|]. apply (Z.lt_le_trans _ 24); [apply Z.log2_lt_pow2; lia|lia].
Qed.

(** The word before the contents of a used block is its header, which is no gap. *)
Lemma wp_OsGetRealPtr s m P S l1 z t l2 cu wl (Q : Z → kstate → Prop) :
  Core m P S (l1 ++ mkBlk z (Used t) :: l2) cu wl → Q (P + 944 + total l1 + 8) (rset s m) →
  wp (OsGetRealPtr P (P + 944 + total l1 + 8)) Q (rset s m).
Proof.
  intros HC HQ. pose proof (mid_range _ _ _ _ _ _ _ _ HC) as Hz. cbn [bsize] in Hz.
  destruct (seg_mid _ _ _ _ _ _ (p_seg _ _ _ _ _ _ HC)) as (_ & w & Ew & Hw & _). cbn [is_used bstat bsize] in Hw.
  unfold OsGetRealPtr. replace (P + 944 + total l1 + 8 - 4) with (node_word (P + 944 + total l1)) by (addrs; lia).
  rewrite (u32_small (node_word _)) by (addrs; lia). wp_step. eapply wpm_load32; [exact Ew|].
  assert (flag w OS_MEM_GAPSIZE_ALIGNED_FLAG = false) as ->; [|cbn [andb]; by wp_step].
  change OS_MEM_GAPSIZE_ALIGNED_FLAG with (Z.shiftl 1 30). rewrite flag_bit by lia.
  replace 30 with (24 + 6) by lia. rewrite <- Z.shiftr_spec, Hw by lia.
  replace (z + 2 ^ 25) with (1 * 2 ^ 25 + z) by lia. rewrite high_low_bits by lia. cbn [Z.ltb Z.compare].
  apply low_bits; lia.
Qed.

Section api.
  Context `{!Malloc} `{!MallocLaws} (s : kstate) (m : gmap Z Z) (P S z t : Z) (l1 l2 : list mblk).
  Context (L : Z → list Z) (cu wl : Z).
  Abbreviation bs := (l1 ++ mkBlk z (Used t) :: l2).
  Abbreviation a := (P + 944 + total l1).

Lemma wp_LOS_MemRealloc size (Q : Z → kstate → Prop) :
  PRep m P S bs L cu wl → Forall settled l1 → Forall settled l2 → z ≤ cu ≤ wl → wl < 2 ^ 31 →
  backed s P S → 0 < size < 2 ^ 24 →
  let size' := Z.max size 8 in
  let k := node_size size' in
  (∀ i m', in_place m P S z t l1 l2 cu wl k m' → Q (a + 8) (rset (irq i s) m')) →
  (∀ i, realloc_row l1 t z l2 k = None → malloc_choose (malloced s) size' = None → Q 0 (rset (irq i s) m)) →
  (∀ i p m', realloc_row l1 t z l2 k = None → moved s m P S z l1 l2 cu wl size' p m' →
     Q p (rset (irq i (s <| malloced := <[p := size']> (malloced s) |>)) m')) →
  wp (LOS_MemRealloc P (a + 8) size) Q (rset s m).
Proof.
  intros HR Hl1 Hl2 Hcu Hwl Hback Hsize size' k Hin Hnone Hmove.
  pose proof (p_core _ _ _ _ _ _ _ HR) as HC. pose proof (mid_range _ _ _ _ _ _ _ _ HC) as Hz. cbn [bsize] in Hz.
  assert (∀ m' bs' L' cu' wl', PRep m' P S bs' L' cu' wl' → is_Some (read32 m' (info_attr P))) as Hattr.
  { intros m' bs' L' cu' wl' [HC' _ _]. pose proof (p_geom _ _ _ _ _ _ HC'). eapply mapped_read32; [apply HC'|addrs; lia..]. }
  unfold LOS_MemRealloc. destruct (size_flags size ltac:(lia)) as (_ & _ & -> & _).
  change OS_MEM_NODE_ALIGNED_FLAG with (Z.shiftl 1 24). rewrite flag_bit, low_bits by lia.
  destruct (Z.eqb_spec P 0); [lia|]. destruct (Z.eqb_spec (a + 8) 0); [lia|]. destruct (Z.eqb_spec size 0); [lia|]. cbn [orb].
  assert ((if size <? OS_MEM_MIN_ALLOC_SIZE then OS_MEM_MIN_ALLOC_SIZE else size) = size') as ->.
  { unfold size', OS_MEM_MIN_ALLOC_SIZE. destruct (Z.ltb_spec size 8); lia. }
  wp_step. apply wp_MEM_LOCK; [by eapply Hattr|]. intros e i. wp_step. eapply wp_OsGetRealPtr; [exact HC|].
  destruct (Z.eqb_spec (a + 8) 0); [lia|]. replace (a + 8 - OS_MEM_NODE_HEAD_SIZE) with a by (addrs; lia).
  rewrite (u32_small a) by lia. wp_step. wp_step. eapply wp_OsMemCheckUsedNode; [exact HC|]. cbn [is_used bstat negb Z.eqb LOS_OK].
  eapply wp_OsMemRealloc; [exact HR|done|done|done|done|exact Hback|unfold size'; lia|..].
  - intros m' Hm'. pose proof Hm' as (bs' & L' & _ & HR' & _). wp_step. apply wp_MEM_UNLOCK; [by eapply Hattr|]. intros j.
    rewrite irq_irq. wp_step. auto.
  - intros Hrow Hm. wp_step. apply wp_MEM_UNLOCK; [by eapply Hattr|]. intros j. rewrite irq_irq. wp_step. auto.
  - intros p m' Hrow Hm'. pose proof Hm' as (_ & _ & (L' & HR') & _). wp_step. apply wp_MEM_UNLOCK; [by eapply Hattr|].
    intros j. wp_step. by apply (Hmove j).
Qed.
End api.
