(* ===== verification/PoolSpec.v ===== *)
(** What a pool promises between operations: its blocks are used or free, no two free blocks are
    neighbours, and the counters tell the bytes in use; the operations keep this. *)

From stdpp Require Import functions.
From S2P Require Import Prelude DList Kernel Tick SortLink Mem Pmcu Sched Event Task Pool PoolIndex.
From S2P Require Import Bytes PoolInv PoolLists PoolRep PoolOps PoolFree PoolInit PoolWalk PoolFind PoolRealloc.

Fixpoint coalesced (bs : list mblk) : Prop :=
  match bs with
  | [] => True
  | b :: l => (is_used b = true ∨ next_used l = true) ∧ coalesced l
  end.

Record pool_wf (m : gmap Z Z) (P S : Z) (bs : list mblk) (wl : Z) : Prop := {
  po_rep : ∃ L, PRep m P S bs L (952 + used_total bs) wl;
  po_settled : Forall settled bs;
  po_coalesced : coalesced bs;
  po_water : 952 + used_total bs ≤ wl ≤ S
}.

(** ** Coalescing *)

Lemma prev_used_cons b l : l ≠ [] → prev_used (b :: l) = prev_used l.
Proof. destruct l; [done|]. intros _. done. Qed.

Lemma next_used_app l1 l2 : l1 ≠ [] → next_used (l1 ++ l2) = next_used l1.
Proof. by destruct l1. Qed.

Lemma coalesced_mid l1 b l2 :
  coalesced (l1 ++ b :: l2) ↔
  coalesced l1 ∧ coalesced l2 ∧ (is_used b = true ∨ prev_used l1 = true ∧ next_used l2 = true).
Proof.
  induction l1 as [|c l1 IH]; [simpl; tauto|]. cbn [app coalesced]. rewrite IH.
  destruct l1 as [|d l1]; [unfold prev_used; simpl; tauto|].
  rewrite (prev_used_cons c (d :: l1)) by done. cbn [app next_used]. tauto.
Qed.

Lemma absorb_back_cases l z :
  Forall settled l →
  (prev_used l = true ∧ absorb_back l z = (l, z)) ∨ (∃ x l', l = l' ++ [free_blk x] ∧ absorb_back l z = (l', x + z)).
Proof.
  intros Hs. destruct l as [|[x st] l _] using rev_ind; [by left|].
  apply Forall_app in Hs as [_ [Hb _]%Forall_cons]. unfold prev_used, absorb_back. rewrite last_snoc.
  destruct st; [by left|by destruct Hb| |by destruct Hb]. right. exists x, l. by rewrite removelast_last.
Qed.

Lemma absorb_cases z l :
  Forall settled l →
  (next_used l = true ∧ absorb z l = (z, l)) ∨ (∃ y l', l = free_blk y :: l' ∧ absorb z l = (z + y, l')).
Proof.
  intros Hs. destruct l as [|[y st] l]; [by left|]. apply Forall_cons in Hs as [Hb _].
  destruct st; [by left|by destruct Hb| |by destruct Hb]. right. by exists y, l.
Qed.

Lemma settled_free z : settled (free_blk z).
Proof. by left. Qed.
Lemma settled_used z t : settled (mkBlk z (Used t)).
Proof. by right. Qed.

(** The free block that a release makes has used neighbours. *)
Lemma release_spec l1 z l2 :
  Forall settled l1 → Forall settled l2 → coalesced l1 → coalesced l2 →
  Forall settled (release l1 z l2) ∧ coalesced (release l1 z l2) ∧
  used_total (release l1 z l2) = used_total l1 + used_total l2.
Proof.
  intros S1 S2 C1 C2. unfold release.
  assert (∃ l1' z', absorb_back l1 z = (l1', z') ∧ Forall settled l1' ∧ coalesced l1' ∧ prev_used l1' = true ∧
    used_total l1' = used_total l1) as (l1' & z' & -> & S1' & C1' & Hp & <-).
  { destruct (absorb_back_cases l1 z S1) as [[? ->]|(x & l' & -> & ->)]; [by eauto 10|].
    apply Forall_app in S1 as [S1 _]. apply coalesced_mid in C1 as (C1 & _ & [|[Hp _]]); [done|].
    exists l', (x + z). rewrite used_total_app, used_total_cons. cbn. split_and!; (done || lia). }
  assert (∃ z2 l2', absorb z' l2 = (z2, l2') ∧ Forall settled l2' ∧ coalesced l2' ∧ next_used l2' = true ∧
    used_total l2' = used_total l2) as (z2 & l2' & -> & S2' & C2' & Hn & <-).
  { destruct (absorb_cases z' l2 S2) as [[? ->]|(y & l' & -> & ->)]; [by eauto 10|].
    apply Forall_cons in S2 as [_ S2]. cbn [coalesced] in C2. destruct C2 as [[|Hn] C2]; [done|].
    exists (z' + y), l'. rewrite used_total_cons. cbn. split_and!; (done || lia). }
  split_and!.
  - apply Forall_app. split; [done|]. by apply Forall_cons; split; [apply settled_free|].
  - apply coalesced_mid. auto.
  - rewrite used_total_app, used_total_cons. cbn. lia.
Qed.

(** So does a reallocation in place. *)
Lemma carve_spec l1 t z k l :
  Forall settled l1 → Forall settled l → coalesced l1 → coalesced l →
  Forall settled (l1 ++ carve t z k l) ∧ coalesced (l1 ++ carve t z k l).
Proof.
  intros S1 S2 C1 C2. unfold carve. destruct (k + 16 <=? z).
  - assert (∃ r l', absorb (z - k) l = (r, l') ∧ Forall settled l' ∧ coalesced l' ∧ next_used l' = true) as
      (r & l' & -> & S' & C' & Hn).
    { destruct (absorb_cases (z - k) l S2) as [[? ->]|(y & l' & -> & ->)]; [by eauto 10|].
      apply Forall_cons in S2 as [_ S2]. cbn [coalesced] in C2. destruct C2 as [[|Hn] C2]; [done|]. eauto 10. }
    split.
    + apply Forall_app. split; [done|]. by repeat (apply Forall_cons; split; [apply settled_used || apply settled_free|]).
    + apply coalesced_mid. split_and!; [done| |by left]. cbn [coalesced]. auto.
  - split; [|apply coalesced_mid; auto]. apply Forall_app. split; [done|]. by apply Forall_cons; split; [apply settled_used|].
Qed.

(** ** The operations *)

(** Only the memory differs. *)
Definition ram_only (s s' : kstate) : Prop := s' = rset s (ram s').
(** Only the memory and the interrupt flag differ. *)
Definition ram_irq_only (s s' : kstate) : Prop := ∃ i, s' = rset (irq i s) (ram s').

Lemma pool_parts m P S l1 b l2 wl :
  pool_wf m P S (l1 ++ b :: l2) wl →
  (∃ L, PRep m P S (l1 ++ b :: l2) L (952 + used_total (l1 ++ b :: l2)) wl) ∧
  Forall settled l1 ∧ Forall settled l2 ∧ coalesced l1 ∧ coalesced l2 ∧ sized l1 ∧ sized l2.
Proof.
  intros [[L HR] Hs Hc Hw]. pose proof (p_sized _ _ _ _ _ _ (p_core _ _ _ _ _ _ _ HR)) as Hz. unfold sized in *.
  rewrite Forall_app, Forall_cons in Hs, Hz. apply coalesced_mid in Hc as (? & ? & _).
  split; [by eexists|]. tauto.
Qed.

Lemma pool_free s P S l1 z t l2 wl :
  pool_wf (ram s) P S (l1 ++ mkBlk z (Used t) :: l2) wl →
  wp (OsMemFree P (P + 944 + total l1)) (fun r s' => r = LOS_OK ∧ ram_only s s' ∧
      pool_wf (ram s') P S (release l1 z l2) wl ∧ kept P S (release l1 z l2) (ram s) (ram s')) s.
Proof.
  intros Hok. destruct (pool_parts _ _ _ _ _ _ _ Hok) as ((L & HR) & S1 & S2 & C1 & C2 & Z1 & Z2).
  pose proof (po_water _ _ _ _ _ Hok) as Hw. pose proof (p_geom _ _ _ _ _ _ (p_core _ _ _ _ _ _ _ HR)).
  rewrite used_total_app, used_total_cons in *. cbn [is_used bstat bsize] in *.
  pose proof (used_total_nonneg _ Z1). pose proof (used_total_nonneg _ Z2).
  destruct (release_spec l1 z l2 S1 S2 C1 C2) as (S' & C' & U').
  pose proof (mid_range _ _ _ _ _ _ _ _ (p_core _ _ _ _ _ _ _ HR)) as Hz. cbn [bsize] in Hz.
  apply wp_rset. eapply wp_OsMemFree; [exact HR|done|done|lia|].
  intros m' L' HR' Hk. split_and!; [done|done| |exact Hk]. cbn [ram rset].
  constructor; [exists L'|done|done|rewrite U'; lia]. rewrite U'.
  by replace (952 + (used_total l1 + used_total l2)) with (952 + (used_total l1 + (z + used_total l2)) - z) by lia.
Qed.

(** A free block is not freed again, and no address outside the row. *)
Lemma pool_free_free s P S l1 z l2 wl :
  pool_wf (ram s) P S (l1 ++ free_blk z :: l2) wl →
  wp (OsMemFree P (P + 944 + total l1)) (fun r s' => r = LOS_NOK ∧ s' = s) s.
Proof.
  intros Hok. destruct (pool_parts _ _ _ _ _ _ _ Hok) as ((L & HR) & _).
  unfold OsMemFree. apply wp_rset. wp_step. eapply wp_OsMemCheckUsedNode; [apply HR|]. cbn [is_used bstat free_blk].
  cbn. by rewrite rset_id.
Qed.

Lemma pool_init s P S :
  0 < P → P mod 4 = 0 → 968 ≤ S < 2 ^ 24 → S mod 4 = 0 → P + S < 2 ^ 32 → mapped (ram s) P (Z.to_nat S) →
  wp (OsMemPoolInit P S) (fun r s' => r = LOS_OK ∧ ram_only s s' ∧
      pool_wf (ram s') P S [free_blk (S - 952)] 952 ∧
      ∀ i, i < P ∨ P + S ≤ i → ram s' !! i = ram s !! i) s.
Proof.
  intros HP HP4 HS HS4 HPS Hm. apply wp_rset. eapply wp_OsMemPoolInit; [done..|].
  intros m' HR' Hout. split_and!; [done|done| |exact Hout]. cbn [ram rset].
  constructor; [by eexists|apply Forall_singleton, settled_free|by split; [right|]|
    change (used_total [free_blk (S - 952)]) with 0; lia].
Qed.

(** The result of a reallocation of the block of size [z] between [l1] and [l2] to [size] bytes. *)
Section realloc_post.
  Context `{!Malloc} (s : kstate) (P S : Z) (l1 : list mblk) (z t : Z) (l2 : list mblk) (wl size : Z).
  Abbreviation bs := (l1 ++ mkBlk z (Used t) :: l2).
  Abbreviation ptr := (P + 944 + total l1 + 8).

Definition realloc_post (r : Z) (s' : kstate) : Prop :=
  match realloc_row l1 t z l2 (node_size size) with
  | Some bs' =>
      r = ptr ∧ ram_irq_only s s' ∧
      (∃ wl', wl ≤ wl' ∧ pool_wf (ram s') P S bs' wl') ∧
      ∀ i, prot P S bs i → prot P S bs' i → ram s' !! i = ram s !! i
  | None =>
      match malloc_choose (malloced s) size with
      | None => r = 0 ∧ ram_irq_only s s' ∧ ram s' = ram s
      | Some p =>
          r = p ∧ ram_irq_only (s <| malloced := <[p := size]> (malloced s) |>) s' ∧
          pool_wf (ram s') P S (release l1 z l2) wl ∧
          read_bytes (ram s') p (Z.to_nat (z - 8)) = read_bytes (ram s) ptr (Z.to_nat (z - 8)) ∧
          ∀ i, i < p ∨ p + size ≤ i → prot P S (release l1 z l2) i → ram s' !! i = ram s !! i
      end
  end.
End realloc_post.

Lemma realloc_row_spec l1 t z l2 k bs' :
  Forall settled l1 → Forall settled l2 → coalesced l1 → coalesced l2 → realloc_row l1 t z l2 k = Some bs' →
  Forall settled bs' ∧ coalesced bs'.
Proof.
  intros S1 S2 C1 C2. unfold realloc_row. destruct (k <=? z); [intros [= <-]; by apply carve_spec|].
  destruct l2 as [|[y []] l]; try done. destruct (k <=? z + y); [|done]. intros [= <-].
  apply Forall_cons in S2 as [_ S2]. destruct C2 as [_ C2]. by apply carve_spec.
Qed.

Lemma used_bound m P S bs L cu wl : PRep m P S bs L cu wl → 0 ≤ used_total bs ≤ S - 952.
Proof.
  intros HR. pose proof (p_core _ _ _ _ _ _ _ HR) as HC. pose proof (p_sized _ _ _ _ _ _ HC) as Hz.
  pose proof (used_total_nonneg bs Hz). pose proof (free_total_nonneg bs Hz). pose proof (used_free_total bs).
  pose proof (p_sum _ _ _ _ _ _ HC). lia.
Qed.

Lemma pool_realloc `{!Malloc} `{!MallocLaws} s P S l1 z t l2 wl size :
  pool_wf (ram s) P S (l1 ++ mkBlk z (Used t) :: l2) wl → backed s P S → 0 < size < 2 ^ 24 →
  wp (LOS_MemRealloc P (P + 944 + total l1 + 8) size)
    (realloc_post s P S l1 z t l2 wl (Z.max size 8)) s.
Proof.
  intros Hok Hback Hsize. destruct (pool_parts _ _ _ _ _ _ _ Hok) as ((L & HR) & S1 & S2 & C1 & C2 & Z1 & Z2).
  pose proof (po_water _ _ _ _ _ Hok) as Hw. pose proof (p_geom _ _ _ _ _ _ (p_core _ _ _ _ _ _ _ HR)).
  pose proof (mid_range _ _ _ _ _ _ _ _ (p_core _ _ _ _ _ _ _ HR)) as Hz. cbn [bsize] in Hz.
  pose proof (used_total_nonneg _ Z1). pose proof (used_total_nonneg _ Z2).
  assert (used_total (l1 ++ mkBlk z (Used t) :: l2) = used_total l1 + z + used_total l2) as EU
    by (rewrite used_total_app, used_total_cons; cbn; lia).
  destruct (release_spec l1 z l2 S1 S2 C1 C2) as (S' & C' & U').
  apply wp_rset. eapply wp_LOS_MemRealloc; [exact HR|done|done|lia|lia|exact Hback|done|..].
  - intros i m' (bs' & L' & Erow & HR' & Hk). unfold realloc_post. rewrite Erow.
    destruct (realloc_row_spec _ _ _ _ _ _ S1 S2 C1 C2 Erow) as [Sb Cb]. pose proof (used_bound _ _ _ _ _ _ _ HR').
    split_and!; [done|by exists i| |exact Hk].
    replace (952 + _ + _) with (952 + used_total bs') in HR' by lia.
    exists (Z.max wl (952 + used_total bs')). split; [lia|]. constructor; [by exists L'|done|done|lia].
  - intros i Erow Em. unfold realloc_post. rewrite Erow, Em. split_and!; [done|by exists i|done].
  - intros i p m' Erow (Em & _ & (L' & HR') & Hrd & Hk). unfold realloc_post. rewrite Erow, Em.
    split_and!; [done|by exists i| |done|exact Hk]. constructor; [exists L'|done|done|rewrite U'; lia].
    rewrite U'. by replace (952 + (used_total l1 + used_total l2)) with (952 + used_total (l1 ++ mkBlk z (Used t) :: l2) - z) by lia.
Qed.
