(* ===== verification/PoolChain.v ===== *)
(** The list of pools: [LOS_MemInit] makes a pool and appends it, [LOS_MemDeInit] takes it off,
    and neither disturbs the other pools. *)

From stdpp Require Import functions sorting.
From S2P Require Import Prelude DList Kernel Tick SortLink Mem Pmcu Sched Event Task Pool PoolIndex.
From S2P Require Import Bytes PoolInv PoolLists PoolRep PoolOps PoolFree PoolInit PoolWalk PoolFind PoolRealloc PoolSpec.

(** ** The chain of pools *)

(** From [h] the links lead through [l] to [t]. *)
Fixpoint pool_links (m : gmap Z Z) (h : Z) (l : list Z) (t : Z) : Prop :=
  match l with
  | [] => h = t
  | p :: l => h = p ∧ 0 < p ∧ ∃ n, read32 m (nextPool p) = Some n ∧ pool_links m n l t
  end.

Lemma pool_links_app m h l1 l2 t : pool_links m h (l1 ++ l2) t ↔ ∃ x, pool_links m h l1 x ∧ pool_links m x l2 t.
Proof.
  revert h. induction l1 as [|p l1 IH]; intros h; simpl; [naive_solver|].
  split.
  - intros (-> & Hp & n & En & (x & H1 & H2)%IH). eauto 10.
  - intros (x & (-> & Hp & n & En & H1) & H2). split_and!; [done..|]. exists n. split; [done|]. apply IH. eauto.
Qed.

Lemma pool_links_ext m m' h l t :
  (∀ p, p ∈ l → read32 m' (nextPool p) = read32 m (nextPool p)) → pool_links m h l t → pool_links m' h l t.
Proof.
  revert h. induction l as [|p l IH]; intros h He; simpl; [done|].
  intros (-> & Hp & n & En & Hl). split_and!; [done..|]. exists n. rewrite He by set_solver.
  split; [done|]. apply IH; [|done]. intros q Hq. apply He. set_solver.
Qed.

Lemma pool_links_one m p t : 0 < p → read32 m (nextPool p) = Some t → pool_links m p [p] t.
Proof. intros Hp E. split_and!; [done..|]. by exists t. Qed.

(** The last link leads elsewhere. *)
Lemma pool_links_relink m h l p t t' :
  0 ≤ t' < 2 ^ 32 → (∀ q, q ∈ l → nextPool q + 4 ≤ nextPool p ∨ nextPool p + 4 ≤ nextPool q) →
  pool_links m h (l ++ [p]) t → pool_links (w32 (nextPool p) t' m) h (l ++ [p]) t'.
Proof.
  intros Ht Hd (x & H1 & H2)%pool_links_app. apply pool_links_app. exists x. split.
  - eapply pool_links_ext; [|exact H1]. intros q Hq. by rewrite read32_w32_ne by auto.
  - destruct H2 as (-> & Hp & _). split_and!; [done..|]. exists t'. by rewrite read32_w32.
Qed.

(** ** The pools *)

Record pool := mkPool { p_addr : Z; p_size : Z; p_blocks : list mblk; p_wl : Z }.

Definition pool_in (m : gmap Z Z) (p : pool) : Prop := pool_wf m (p_addr p) (p_size p) (p_blocks p) (p_wl p).

Definition pool_apart (p q : pool) : Prop :=
  p_addr p + p_size p ≤ p_addr q ∨ p_addr q + p_size q ≤ p_addr p.

Record pools_ok (s : kstate) (ps : list pool) : Prop := {
  c_links : pool_links (ram s) (g_poolHead s) (p_addr <$> ps) 0;
  c_pools : Forall (pool_in (ram s)) ps;
  c_apart : StronglySorted pool_apart ps
}.

Lemma pool_geom m p : pool_in m p →
  0 < p_addr p ∧ 968 ≤ p_size p < 2 ^ 24 ∧ p_addr p + p_size p < 2 ^ 32 ∧
  mapped m (p_addr p) (Z.to_nat (p_size p)) ∧ read32 m (info_totalSize (p_addr p)) = Some (p_size p) ∧
  read32 m (info_pool (p_addr p)) = Some (p_addr p).
Proof.
  intros [[L HR] _ _ _]. pose proof (p_core _ _ _ _ _ _ _ HR) as [C1 C2 C3 C4 _ _ _ _ _ _ _]. split_and!; (done || lia).
Qed.

(** A pool survives stores elsewhere and to its link. *)
Lemma pool_in_frame m m' p :
  pool_in m p → mapped m' (p_addr p) (Z.to_nat (p_size p)) →
  (∀ i, p_addr p ≤ i < p_addr p + p_size p → i < p_addr p + 940 ∨ p_addr p + 944 ≤ i → m' !! i = m !! i) →
  pool_in m' p.
Proof. intros [[L HR] H1 H2 H3] Hm He. constructor; [|done..]. exists L. by eapply PRep_frame. Qed.

Lemma pool_apart_sym p q : pool_apart p q → pool_apart q p.
Proof. unfold pool_apart. tauto. Qed.

(** Outside the pools nothing of them is stored. *)
Lemma pool_in_outside m m' p P S :
  pool_in m p → p_addr p + p_size p ≤ P ∨ P + S ≤ p_addr p →
  (∀ i, i < P ∨ P + S ≤ i → m' !! i = m !! i) → pool_in m' p ∧ read32 m' (nextPool (p_addr p)) = read32 m (nextPool (p_addr p)).
Proof.
  intros Hp Ha He. destruct (pool_geom m p Hp) as (? & ? & ? & Hm & _). split.
  - eapply pool_in_frame; [exact Hp|..].
    + intros i Hi. rewrite He by lia. apply Hm. lia.
    + intros i Hi _. apply He. lia.
  - apply read32_ext. intros i Hi. apply He. addrs. lia.
Qed.

Lemma w32_outside m x v i : i < x ∨ x + 4 ≤ i → w32 x v m !! i = m !! i.
Proof. intros Hi. unfold w32. apply write_bytes_other. by rewrite le_split_length. Qed.

(** A store to the link of a pool. *)
Lemma pool_in_link m p q v :
  pool_in m p → p_addr q = p_addr p ∨ pool_apart q p → pool_in m q → pool_in (w32 (nextPool (p_addr q)) v m) p.
Proof.
  intros Hp Ha Hq. destruct (pool_geom m p Hp) as (? & ? & ? & Hm & _). destruct (pool_geom m q Hq) as (? & ? & ? & _).
  eapply pool_in_frame; [exact Hp|by apply w32_mapped|]. intros i Hi Hout. apply w32_outside.
  unfold pool_apart in Ha. addrs. lia.
Qed.

Lemma pools_nodup m ps : Forall (pool_in m) ps → StronglySorted pool_apart ps → NoDup (p_addr <$> ps).
Proof.
  intros Hp Ha. induction Ha as [|p ps Ha IH Hall]; [constructor|]. apply Forall_cons in Hp as [Hp Hps].
  simpl. apply NoDup_cons. split; [|auto]. intros (q & Eq & Hq)%list_elem_of_fmap.
  rewrite Forall_forall in Hps, Hall. pose proof (Hall q Hq) as Hap. unfold pool_apart in Hap.
  destruct (pool_geom m p Hp) as (? & ? & _). destruct (pool_geom m q (Hps q Hq)) as (? & ? & _). lia.
Qed.

Lemma pools_fuel m ps :
  Forall (pool_in m) ps → StronglySorted pool_apart ps → (length ps ≤ base.size m)%nat.
Proof.
  intros Hp Ha. rewrite <- (length_fmap p_addr ps). apply nodup_size; [by eapply pools_nodup|].
  intros i (p & -> & Hin)%list_elem_of_fmap. rewrite Forall_forall in Hp.
  destruct (pool_geom m p (Hp p Hin)) as (? & ? & ? & Hm & _). apply Hm. lia.
Qed.

(** ** Appending a pool *)

Lemma default_last_cons {A} (x y : A) (l : list A) : default x (last (y :: l)) = default y (last l).
Proof.
  destruct l as [|z l]; [done|]. change (last (y :: z :: l)) with (last (z :: l)).
  destruct (proj2 (last_is_Some (z :: l))) as [w Ew]; [done|]. by rewrite Ew.
Qed.

Definition clear_of (P S : Z) (q : pool) : Prop := p_addr q + p_size q ≤ P ∨ P + S ≤ p_addr q.

Lemma head_id s : s <| g_poolHead := g_poolHead s |> = s.
Proof. by destruct s. Qed.

Section add.
  Context (P S : Z) (HP : 0 < P) (HS : 968 ≤ S) (HPS : P + S < 2 ^ 32).

Lemma wp_pool_add_loop s m qs : ∀ fuel cur h (Q : Z + Z → kstate → Prop),
  pool_links m h (p_addr <$> qs) 0 → Forall (pool_in m) qs → Forall (clear_of P S) qs → (length qs ≤ fuel)%nat →
  Q (inl (default cur (last (p_addr <$> qs)))) (rset s m) →
  wp (OsMemPoolAdd_loop fuel P S cur h) Q (rset s m).
Proof.
  induction qs as [|q qs IH]; intros fuel cur h Q Hl Hq Hc Hf HQ.
  { simpl in Hl. subst h. destruct fuel; simpl; exact HQ. }
  destruct Hl as (-> & Hpos & n & En & Hl). apply Forall_cons in Hq as [Hq Hqs]. apply Forall_cons in Hc as [Hc Hcs].
  destruct (pool_geom m q Hq) as (? & ? & ? & _ & Et & _). destruct fuel as [|fuel]; [simpl in Hf; lia|].
  cbn [OsMemPoolAdd_loop]. destruct (Z.eqb_spec (p_addr q) 0); [lia|]. wp_step. unfold LOS_MemPoolSizeGet.
  destruct (Z.eqb_spec (p_addr q) 0); [lia|]. eapply wpm_load32; [exact Et|]. rewrite !u32_small by lia.
  unfold clear_of in Hc.
  destruct (Z.leb_spec P (p_addr q)), (Z.ltb_spec (p_addr q) (P + S)), (Z.ltb_spec P (p_addr q + p_size q)),
    (Z.leb_spec (p_addr q + p_size q) (P + S)); try lia; cbn [andb orb].
  all: wp_step; eapply wpm_load32; [exact En|]; apply IH; [done|done|done|simpl in Hf; lia|].
  all: by rewrite fmap_cons, (default_last_cons cur) in HQ.
Qed.

(** The link of the last pool to the new one. *)
Definition append_mem (m : gmap Z Z) (q : pool) : gmap Z Z := w32 (nextPool P) 0 (w32 (nextPool (p_addr q)) P m).

Section append.
  Context (m : gmap Z Z) (qs : list pool) (q new : pool) (EP : p_addr new = P) (ES : p_size new = S).
  Context (Hp : Forall (pool_in m) (qs ++ [q])) (Ha : StronglySorted pool_apart (qs ++ [q])).
  Context (Hc : Forall (clear_of P S) (qs ++ [q])) (Hnew : pool_in m new).

Lemma append_links h :
  pool_links m h ((p_addr <$> qs) ++ [p_addr q]) 0 →
  pool_links (append_mem m q) h (((p_addr <$> qs) ++ [p_addr q]) ++ [P]) 0.
Proof.
  intros Hl. pose proof Hp as [Hqs [Hq _]%Forall_cons]%Forall_app. rewrite Forall_forall in Hc, Hp, Hqs.
  apply pool_links_app. exists P. split; [|apply pool_links_one; [done|unfold append_mem; by rd]].
  eapply pool_links_ext; [|eapply pool_links_relink; [lia| |exact Hl]].
  - intros x Hx. assert (x ∈ p_addr <$> (qs ++ [q])) as (p & -> & Hp')%list_elem_of_fmap by (rewrite fmap_app; exact Hx).
    specialize (Hc p Hp'). destruct (pool_geom m p (Hp p Hp')) as (? & ? & _). unfold clear_of in Hc.
    apply read32_w32_ne. addrs. lia.
  - intros x (p & -> & Hp')%list_elem_of_fmap. destruct (pool_geom m p (Hqs p Hp')) as (? & ? & _).
    destruct (pool_geom m q Hq) as (? & ? & _).
    pose proof (StronglySorted_app_1_elem_of _ _ _ p q Ha Hp' ltac:(set_solver)) as Hap. unfold pool_apart in Hap.
    addrs. lia.
Qed.

Lemma append_pools : Forall (pool_in (append_mem m q)) ((qs ++ [q]) ++ [new]).
Proof.
  pose proof Hp as [Hqs [Hq _]%Forall_cons]%Forall_app. unfold append_mem. rewrite <- EP.
  assert (∀ p, p ∈ qs ++ [q] → pool_apart new p) as Hnp.
  { intros p Hin. rewrite Forall_forall in Hc. specialize (Hc p Hin). unfold clear_of, pool_apart in *. rewrite EP, ES. tauto. }
  assert (∀ p, p = new ∨ p ∈ qs ++ [q] → pool_in (w32 (nextPool (p_addr q)) (p_addr new) m) p) as H1.
  { intros p Hin. rewrite Forall_forall in Hp. apply pool_in_link; [|..|done].
    - destruct Hin as [->|]; auto.
    - destruct Hin as [->|[Hin|Hin]%elem_of_app].
      + right. apply pool_apart_sym, Hnp. set_solver.
      + right. apply pool_apart_sym. eapply StronglySorted_app_1_elem_of; [exact Ha|done|set_solver].
      + left. by apply list_elem_of_singleton in Hin as ->. }
  rewrite Forall_forall. intros p [Hin| ->%list_elem_of_singleton]%elem_of_app.
  - apply pool_in_link; [apply H1; auto|right; auto|apply H1; auto].
  - apply pool_in_link; [apply H1; auto|by left|apply H1; auto].
Qed.
End append.

Lemma wp_OsMemPoolAdd s m ps new (Q : Z → kstate → Prop) :
  p_addr new = P → p_size new = S →
  pool_links m (g_poolHead s) (p_addr <$> ps) 0 → Forall (pool_in m) ps → StronglySorted pool_apart ps →
  Forall (clear_of P S) ps → pool_in m new →
  (∀ h m', pool_links m' h (p_addr <$> (ps ++ [new])) 0 → Forall (pool_in m') (ps ++ [new]) →
     Q LOS_OK (rset (s <| g_poolHead := h |>) m')) →
  wp (OsMemPoolAdd P S) Q (rset s m).
Proof.
  intros EP ES Hl Hp Ha Hc Hnew HQ. unfold OsMemPoolAdd. wp_steps.
  change (g_poolHead (rset s m)) with (g_poolHead s). change (ram (rset s m)) with m.
  eapply wp_pool_add_loop; [exact Hl|done|done|by eapply pools_fuel|].
  destruct (pool_geom m new Hnew) as (_ & ? & _ & Hm & _). rewrite EP, ES in *.
  assert (is_Some (read32 m (nextPool P))) as Hlink by (eapply mapped_read32; [exact Hm|addrs; lia..]).
  destruct ps as [|q qs _] using rev_ind.
  - simpl in Hl. rewrite Hl. cbn [Z.eqb]. wp_step. wp_steps.
    change ((rset s m) <| g_poolHead := P |>) with (rset (s <| g_poolHead := P |>) m).
    apply wpm_store32; [done|]. wp_step. apply HQ; cbn [app fmap list_fmap].
    + rewrite EP. apply pool_links_one; [done|by rd].
    + apply Forall_singleton. rewrite <- EP. apply pool_in_link; [done|by left|done].
  - assert (p_addr <$> (qs ++ [q]) = (p_addr <$> qs) ++ [p_addr q]) as Eq by by rewrite fmap_app. rewrite Eq in *.
    pose proof Hp as [Hqs [Hq _]%Forall_cons]%Forall_app. pose proof Hc as [_ [Hqc _]%Forall_cons]%Forall_app.
    unfold clear_of in Hqc. destruct (pool_geom m q Hq) as (? & ? & ? & Hmq & _).
    assert (g_poolHead s ≠ 0) as Hh by (destruct qs as [|q1 qs]; destruct Hl as (-> & ? & _); lia).
    rewrite last_snoc. cbn [default id]. destruct (Z.eqb_spec (g_poolHead s) 0); [done|].
    wp_step. apply wpm_store32; [eapply mapped_read32; [exact Hmq|addrs; lia..]|].
    wp_step. apply wpm_store32; [rewrite read32_w32_ne by (addrs; lia); done|]. wp_step.
    rewrite <- (head_id s). apply HQ; [|by apply append_pools].
    rewrite fmap_app, Eq. cbn [fmap list_fmap]. rewrite EP. by apply (append_links m qs q new).
Qed.
End add.

(** Only the memory, the interrupt flag and the head of the list of pools differ. *)
Definition pools_only (s s' : kstate) : Prop :=
  ∃ h i, s' = rset (irq i (s <| g_poolHead := h |>)) (ram s').

(** ** [LOS_MemInit] *)

Definition fresh_pool (P S : Z) : pool := mkPool P S [free_blk (S - 952)] 952.

(** Sizes and addresses that are no multiple of 4. *)
Lemma pools_init s ps P S :
  pools_ok s ps → Forall (clear_of P S) ps →
  0 < P → P mod 4 = 0 → 968 ≤ S < 2 ^ 24 → S mod 4 = 0 → P + S < 2 ^ 32 → mapped (ram s) P (Z.to_nat S) →
  wp (LOS_MemInit P S) (fun r s' => r = LOS_OK ∧ pools_only s s' ∧ pools_ok s' (ps ++ [fresh_pool P S])) s.
Proof.
  intros [Hl Hp Ha] Hc HP HP4 HS HS4 HPS Hm. unfold LOS_MemInit.
  destruct (Z.eqb_spec P 0); [lia|]. destruct (Z.leb_spec S OS_MEM_MIN_POOL_SIZE); [addrs; lia|].
  change (OS_MEM_ALIGN_SIZE - 1) with 3. rewrite !land_3, HP4, HS4. cbn [orb negb Z.eqb]. wp_step.
  eapply wp_mono; [apply (pool_init s P S); done|]. intros r s1 (-> & Es1 & Hnew & Hout). rewrite Es1.
  cbn [negb Z.eqb LOS_OK]. wp_step. set (m1 := ram s1) in *.
  assert (Forall (pool_in m1) ps ∧ pool_links m1 (g_poolHead s) (p_addr <$> ps) 0) as [Hp1 Hl1].
  { rewrite !Forall_forall in *. split.
    - intros p Hin. eapply pool_in_outside; [by apply Hp|by apply Hc|exact Hout].
    - eapply pool_links_ext; [|exact Hl]. intros x (p & -> & Hin)%list_elem_of_fmap.
      eapply pool_in_outside; [by apply Hp|by apply Hc|exact Hout]. }
  eapply (wp_OsMemPoolAdd P S HP ltac:(lia) HPS s m1 ps (fresh_pool P S)); try done.
  intros h m' Hl' Hp'. cbn [negb Z.eqb LOS_OK]. wp_step. split_and!; [done|exists h, (interrupt_flag s); by destruct s|].
  constructor; [exact Hl'|exact Hp'|]. apply StronglySorted_app_2; [|done|repeat constructor].
  intros p q Hin ->%list_elem_of_singleton. rewrite Forall_forall in Hc. specialize (Hc p Hin).
  unfold clear_of, pool_apart in *. exact Hc.
Qed.

(** A pool that is initialised again is refused, but its head is cleared, while the list of pools
    still leads to it. *)
Lemma pools_reinit s P S bs wl ps :
  pools_ok s (mkPool P S bs wl :: ps) → S mod 4 = 0 →
  wp (LOS_MemInit P S) (fun r s' => r = LOS_NOK ∧ g_poolHead s' = P ∧
      read32 (ram s') (info_pool P) = Some 0 ∧ read32 (ram s') (nextPool P) = Some 0) s.
Proof.
  intros [Hl Hp Ha] HS4. apply Forall_cons in Hp as [Hp _]. destruct Hl as (Hh & _).
  destruct (pool_geom _ _ Hp) as (HP & HS & HPS & Hm & _). destruct Hp as [[L HR] _ _ _]. cbn [p_addr p_size p_blocks p_wl] in *.
  pose proof (p_geom _ _ _ _ _ _ (p_core _ _ _ _ _ _ _ HR)) as (_ & HP4 & _). unfold LOS_MemInit.
  destruct (Z.eqb_spec P 0); [lia|]. destruct (Z.leb_spec S OS_MEM_MIN_POOL_SIZE); [addrs; lia|].
  change (OS_MEM_ALIGN_SIZE - 1) with 3. rewrite !land_3, HP4, HS4. cbn [orb negb Z.eqb]. wp_step.
  eapply wp_mono; [apply (pool_init s P S); done|]. intros r s1 (-> & Es1 & [[L1 HR1] _ _ _] & _). rewrite Es1.
  cbn [negb Z.eqb LOS_OK]. wp_step. unfold OsMemPoolAdd. wp_steps.
  change (g_poolHead (rset s (ram s1))) with (g_poolHead s). change (ram (rset s (ram s1))) with (ram s1). rewrite Hh.
  pose proof (mapped_size _ _ _ (p_mapped _ _ _ _ _ _ (p_core _ _ _ _ _ _ _ HR1))) as Hfuel.
  destruct (base.size (ram s1)) as [|fuel]; [lia|]. cbn [OsMemPoolAdd_loop].
  destruct (Z.eqb_spec P 0); [lia|]. wp_step. unfold LOS_MemPoolSizeGet. destruct (Z.eqb_spec P 0); [lia|].
  eapply wpm_load32; [apply HR1|]. rewrite u32_small by lia.
  destruct (Z.leb_spec P P), (Z.ltb_spec P (P + S)); try lia. cbn [andb orb]. wp_step. wp_step. cbn [negb Z.eqb LOS_NOK].
  wp_step. unfold OsMemPoolDeInit, memset_s. destruct (Z.leb_spec S SECUREC_MEM_MAX_LEN); [|unfold SECUREC_MEM_MAX_LEN in *; lia].
  destruct (Z.eqb_spec P 0); [lia|]. destruct (Z.leb_spec sizeof_OsMemPoolHead S); [|addrs; lia]. cbn [andb negb].
  wp_step. wp_step. apply wp_store_bytes.
  { intros i Hi. rewrite length_replicate in Hi. apply (p_mapped _ _ _ _ _ _ (p_core _ _ _ _ _ _ _ HR1)). addrs. lia. }
  wp_steps. change (u8 0) with 0. split_and!; [done|exact Hh| |]; apply read32_zeros; addrs; lia.
Qed.

(** ** [LOS_MemDeInit] *)

Lemma wp_pool_delete_loop s m P n l1 : ∀ fuel cur h (Q : Z → kstate → Prop),
  pool_links m h l1 P → 0 < P → P ∉ l1 → read32 m (nextPool P) = Some n → (length l1 < fuel)%nat →
  is_Some (read32 m (nextPool (default cur (last l1)))) →
  Q LOS_OK (rset s (w32 (nextPool (default cur (last l1))) n m)) →
  wp (OsMemPoolDelete_loop fuel P cur h) Q (rset s m).
Proof.
  induction l1 as [|p l1 IH]; intros fuel cur h Q Hl HP Hni En Hf Hs HQ; (destruct fuel as [|fuel]; [simpl in Hf; lia|]);
    cbn [OsMemPoolDelete_loop].
  - simpl in Hl. subst h. destruct (Z.eqb_spec P 0); [lia|]. rewrite Z.eqb_refl. wp_step.
    eapply wpm_load32; [exact En|]. wp_step. apply wpm_store32; [exact Hs|]. by wp_step.
  - destruct Hl as (-> & Hp & n' & En' & Hl). destruct (Z.eqb_spec p 0); [lia|].
    destruct (Z.eqb_spec P p) as [->|]; [set_solver|]. wp_step. eapply wpm_load32; [exact En'|].
    rewrite (default_last_cons cur) in Hs, HQ. apply IH; [done|done|set_solver|done|simpl in Hf; lia|done|done].
Qed.

Section remove.
  Context (s : kstate) (ps1 ps2 : list pool) (p : pool) (Hok : pools_ok s (ps1 ++ p :: ps2)).
  Abbreviation m := (ram s).

Lemma remove_parts : ∃ n,
  pool_links m (g_poolHead s) (p_addr <$> ps1) (p_addr p) ∧ read32 m (nextPool (p_addr p)) = Some n ∧
  pool_links m n (p_addr <$> ps2) 0 ∧ Forall (pool_in m) (ps1 ++ ps2) ∧ pool_in m p ∧
  StronglySorted pool_apart (ps1 ++ ps2) ∧ Forall (clear_of (p_addr p) (p_size p)) (ps1 ++ ps2) ∧ p_addr p ∉ p_addr <$> ps1.
Proof.
  destruct Hok as [Hl Hp Ha]. pose proof (pools_nodup _ _ Hp Ha) as Hn. rewrite fmap_app in Hl, Hn.
  apply pool_links_app in Hl as (x & H1 & (-> & _ & n & En & H2)). exists n.
  apply Forall_app in Hp as [Hp1 [Hpp Hp2]%Forall_cons].
  apply StronglySorted_app in Ha as (Hx & Ha1 & Ha2). apply StronglySorted_inv in Ha2 as [Ha2 Hx2].
  split_and!; try done.
  - by apply Forall_app.
  - apply StronglySorted_app_2; [|done..]. intros a b Hin1 Hin2. apply Hx; set_solver.
  - rewrite Forall_forall in Hx2. rewrite Forall_forall. intros q [Hq|Hq]%elem_of_app.
    + exact (Hx q p Hq ltac:(set_solver)).
    + specialize (Hx2 q Hq). unfold pool_apart, clear_of in *. tauto.
  - apply NoDup_app in Hn as (_ & Hn & _). intros Hin. apply (Hn _ Hin). cbn. set_solver.
Qed.

(** The link of the pool before leads past it. *)
Section unlink.
  Context (qs : list pool) (q : pool) (n : Z) (E1 : ps1 = qs ++ [q]).

Lemma link_apart x : x ∈ qs ++ ps2 → p_addr q + p_size q ≤ p_addr x ∨ p_addr x + p_size x ≤ p_addr q.
Proof.
  destruct remove_parts as (_ & _ & _ & _ & _ & _ & Ha & _). rewrite E1, <- app_assoc in Ha.
  apply StronglySorted_app in Ha as (Hx & _ & Ha). apply StronglySorted_inv in Ha as [_ Hx2].
  intros [Hin|Hin]%elem_of_app.
  - specialize (Hx x q Hin ltac:(set_solver)). unfold pool_apart in Hx. tauto.
  - rewrite Forall_forall in Hx2. exact (Hx2 x Hin).
Qed.

Lemma unlink_pools : Forall (pool_in (w32 (nextPool (p_addr q)) n m)) (ps1 ++ ps2) ∧
  pool_in (w32 (nextPool (p_addr q)) n m) p.
Proof.
  destruct remove_parts as (_ & _ & _ & _ & Hps & Hp & _ & Hc & _). rewrite Forall_forall in Hps, Hc.
  assert (q ∈ ps1 ++ ps2) as Hq by (rewrite E1; set_solver). split.
  - rewrite Forall_forall. intros x Hx. apply pool_in_link; [by apply Hps| |by apply Hps].
    assert (x = q ∨ x ∈ qs ++ ps2) as [->|Hx'] by (rewrite E1 in Hx; set_solver); [by left|].
    right. by apply link_apart.
  - apply pool_in_link; [done| |by apply Hps]. right. exact (Hc q Hq).
Qed.

Lemma unlink_links h :
  pool_links m h ((p_addr <$> qs) ++ [p_addr q]) (p_addr p) → pool_links m n (p_addr <$> ps2) 0 →
  pool_links (w32 (nextPool (p_addr q)) n m) h (((p_addr <$> qs) ++ [p_addr q]) ++ (p_addr <$> ps2)) 0.
Proof.
  intros Hl H2. destruct remove_parts as (_ & _ & _ & _ & Hps & _). rewrite Forall_forall in Hps.
  assert (q ∈ ps1 ++ ps2) as Hq by (rewrite E1; set_solver). destruct (pool_geom _ _ (Hps q Hq)) as (? & ? & _).
  assert (∀ x, x ∈ qs ++ ps2 → nextPool (p_addr x) + 4 ≤ nextPool (p_addr q) ∨ nextPool (p_addr q) + 4 ≤ nextPool (p_addr x)) as Hfar.
  { intros x Hx. pose proof (link_apart x Hx). assert (x ∈ ps1 ++ ps2) as Hx' by (rewrite E1; set_solver).
    destruct (pool_geom _ _ (Hps x Hx')) as (? & ? & _). addrs. lia. }
  assert (0 ≤ n < 2 ^ 32) as Hn.
  { destruct ps2 as [|p2 ps] eqn:E2; [simpl in H2; lia|]. destruct H2 as (-> & _).
    destruct (pool_geom _ _ (Hps p2 ltac:(set_solver))) as (? & ? & ? & _). lia. }
  apply pool_links_app. exists n. split.
  - eapply pool_links_relink; [done| |exact Hl]. intros x (y & -> & Hy)%list_elem_of_fmap. apply Hfar. set_solver.
  - eapply pool_links_ext; [|exact H2]. intros x (y & -> & Hy)%list_elem_of_fmap. apply read32_w32_ne, Hfar. set_solver.
Qed.
End unlink.

(** The list without the pool; its memory is cleared later. *)
Lemma wp_OsMemPoolDelete (Q : Z → kstate → Prop) :
  (∀ h m', pool_links m' h (p_addr <$> (ps1 ++ ps2)) 0 → Forall (pool_in m') (ps1 ++ ps2) → pool_in m' p →
     Q LOS_OK (rset (s <| g_poolHead := h |>) m')) →
  wp (OsMemPoolDelete (p_addr p)) Q (rset s m).
Proof.
  intros HQ. destruct remove_parts as (n & H1 & En & H2 & Hps & Hp & Ha & Hc & Hni).
  destruct (pool_geom _ _ Hp) as (HP & _). unfold OsMemPoolDelete. wp_steps.
  change (g_poolHead (rset s m)) with (g_poolHead s). change (ram (rset s m)) with m.
  assert (ps1 = [] ∨ ∃ qs q, ps1 = qs ++ [q]) as [E1|(qs & q & E1)].
  { clear. destruct ps1 as [|q qs _] using rev_ind; eauto. }
  - rewrite E1 in *. cbn [app] in *. simpl in H1. rewrite H1, Z.eqb_refl. wp_step. eapply wpm_load32; [exact En|].
    wp_steps. apply (HQ n m); done.
  - assert (g_poolHead s ≠ p_addr p) as Hne.
    { intros E. rewrite E1, fmap_app in H1. apply Hni. rewrite E1, fmap_app.
      destruct qs as [|q1 qs]; destruct H1 as (Eh & _); cbn; rewrite <- E, Eh; by left. }
    destruct (Z.eqb_spec (p_addr p) (g_poolHead s)); [congruence|]. wp_steps.
    assert (p_addr <$> ps1 = (p_addr <$> qs) ++ [p_addr q]) as Eq by (by rewrite E1, fmap_app).
    pose proof Hps as [Hps1 Hps2]%Forall_app. rewrite E1 in Hps1. apply Forall_app in Hps1 as [Hqs [Hq _]%Forall_cons].
    destruct (pool_geom _ _ Hq) as (? & ? & ? & Hmq & _).
    eapply wp_pool_delete_loop; [exact H1|done|done|exact En| | |].
    + destruct Hok as [_ Hall Hsort]. pose proof (pools_fuel _ _ Hall Hsort) as Hf. rewrite length_app in Hf.
      rewrite length_fmap. change (ram (rset s m)) with m. simpl in Hf. lia.
    + rewrite Eq, last_snoc. eapply mapped_read32; [exact Hmq|cbn; addrs; lia..].
    + rewrite Eq, last_snoc. cbn [default id]. rewrite <- (head_id s). rewrite Eq in H1.
      destruct (unlink_pools qs q n E1). apply HQ; [|done..].
      rewrite fmap_app, Eq. by eapply unlink_links.
Qed.
End remove.

Lemma pools_deinit s ps1 p ps2 :
  pools_ok s (ps1 ++ p :: ps2) →
  wp (LOS_MemDeInit (p_addr p)) (fun r s' => r = LOS_OK ∧ pools_only s s' ∧ pools_ok s' (ps1 ++ ps2) ∧
      read32 (ram s') (info_pool (p_addr p)) = Some 0) s.
Proof.
  intros Hok. destruct (remove_parts _ _ _ _ Hok) as (n & _ & _ & _ & _ & Hp & Ha & Hc & _).
  destruct (pool_geom _ _ Hp) as (HP & HS & HPS & _ & Et & Es). unfold LOS_MemDeInit. destruct (Z.eqb_spec (p_addr p) 0); [lia|].
  apply wp_rset. wp_step. eapply wpm_load32; [exact Es|]. wp_step. eapply wpm_load32; [exact Et|].
  rewrite Z.eqb_refl. destruct (Z.leb_spec (p_size p) OS_MEM_MIN_POOL_SIZE); [addrs; lia|]. cbn [negb orb]. wp_step.
  eapply wp_OsMemPoolDelete; [exact Hok|]. intros h m' Hl Hps Hp'. cbn [negb Z.eqb LOS_OK].
  destruct (pool_geom _ _ Hp') as (_ & _ & _ & Hm & Et' & _). wp_step. eapply wpm_load32; [exact Et'|]. wp_step.
  unfold OsMemPoolDeInit, memset_s. destruct (Z.leb_spec (p_size p) SECUREC_MEM_MAX_LEN); [|unfold SECUREC_MEM_MAX_LEN in *; lia].
  destruct (Z.eqb_spec (p_addr p) 0); [lia|]. destruct (Z.leb_spec sizeof_OsMemPoolHead (p_size p)); [|addrs; lia]. cbn [andb negb].
  wp_step. wp_step. apply wp_store_bytes; [intros i Hi; rewrite length_replicate in Hi; apply Hm; addrs; lia|].
  wp_steps. change (u8 0) with 0. change (Z.to_nat sizeof_OsMemPoolHead) with 944%nat.
  set (m2 := write_bytes (p_addr p) (replicate 944 0) m').
  assert (∀ i, i < p_addr p ∨ p_addr p + p_size p ≤ i → m2 !! i = m' !! i) as Hout.
  { intros i Hi. apply write_bytes_other. rewrite length_replicate. lia. }
  change (_ <| ram := m2 |>) with (rset (s <| g_poolHead := h |>) m2).
  rewrite Forall_forall in Hps, Hc. split_and!; [done|exists h, (interrupt_flag s); by destruct s| |].
  - constructor; [|rewrite Forall_forall; intros q Hq|done].
    + eapply pool_links_ext; [|exact Hl]. intros x (q & -> & Hq)%list_elem_of_fmap.
      eapply pool_in_outside; [by apply Hps|by apply Hc|exact Hout].
    + eapply pool_in_outside; [by apply Hps|by apply Hc|exact Hout].
  - apply read32_zeros; addrs; lia.
Qed.

(** ** [LOS_MemPoolList] *)

Lemma wp_pool_list_loop s m ps : ∀ fuel h k (Q : Z → kstate → Prop),
  pool_links m h (p_addr <$> ps) 0 → Forall (pool_in m) ps → (length ps ≤ fuel)%nat → 0 ≤ k → k + Z.of_nat (length ps) < 2 ^ 32 →
  (∀ i, Q (k + Z.of_nat (length ps)) (rset (irq i s) m)) →
  wp (LOS_MemPoolList_loop fuel h k) Q (rset s m).
Proof.
  revert s. induction ps as [|p ps IH]; intros s fuel h k Q Hl Hp Hf Hk Hb HQ.
  { simpl in Hl. subst h. assert (LOS_MemPoolList_loop fuel 0 k = mret k) as -> by (by destruct fuel).
    wp_step. rewrite <- (irq_id s). specialize (HQ (interrupt_flag s)). simpl in HQ. by rewrite Z.add_0_r in HQ. }
  destruct Hl as (-> & Hpos & n & En & Hl). apply Forall_cons in Hp as [Hp Hps].
  destruct fuel as [|fuel]; [simpl in Hf; lia|]. cbn [LOS_MemPoolList_loop]. destruct (Z.eqb_spec (p_addr p) 0); [lia|].
  destruct Hp as [[L HR] Hs _ _]. wp_step. eapply wp_LOS_MemInfoGet; [exact HR|done|]. intros i. wp_step.
  eapply wpm_load32; [exact En|]. cbn [length] in *. rewrite u32_small by lia. apply IH; [done|done|lia|lia|lia|].
  intros j. rewrite irq_irq. by replace (k + 1 + Z.of_nat (length ps)) with (k + Z.of_nat (S (length ps))) by lia.
Qed.

Lemma pools_list s ps :
  pools_ok s ps → Z.of_nat (length ps) < 2 ^ 32 →
  wp LOS_MemPoolList (fun r s' => r = Z.of_nat (length ps) ∧ ∃ i, s' = irq i s) s.
Proof.
  intros [Hl Hp Ha] Hn. unfold LOS_MemPoolList. apply wp_rset. wp_steps.
  eapply wp_pool_list_loop; [exact Hl|done|by eapply pools_fuel|lia|lia|]. intros i. split; [lia|]. exists i. by destruct s.
Qed.

(** ** Operations on one of the pools *)

(** An operation that keeps to its pool keeps the others. *)
Lemma pools_update s s' ps1 p p' ps2 :
  pools_ok s (ps1 ++ p :: ps2) → p_addr p' = p_addr p → p_size p' = p_size p →
  pool_in (ram s') p' → g_poolHead s' = g_poolHead s →
  (∀ i, (i < p_addr p ∨ p_addr p + 940 ≤ i < p_addr p + 944) ∨ p_addr p + p_size p ≤ i → ram s' !! i = ram s !! i) →
  pools_ok s' (ps1 ++ p' :: ps2).
Proof.
  intros Hok Ea Ez Hp' Eh He. destruct (remove_parts _ _ _ _ Hok) as (n & H1 & En & H2 & Hps & Hp & Ha & Hc & _).
  destruct Hok as [_ _ Hs]. rewrite Forall_forall in Hps, Hc. destruct (pool_geom _ _ Hp) as (HP & _).
  assert (∀ q, q ∈ ps1 ++ ps2 → pool_in (ram s') q ∧
    read32 (ram s') (nextPool (p_addr q)) = read32 (ram s) (nextPool (p_addr q))) as Hq.
  { intros q Hq. eapply pool_in_outside; [by apply Hps|by apply Hc|]. intros i Hi. apply He. lia. }
  constructor.
  - rewrite fmap_app, Eh. apply pool_links_app. exists (p_addr p). split.
    + eapply pool_links_ext; [|exact H1]. intros x (q & -> & Hin)%list_elem_of_fmap. apply Hq. set_solver.
    + cbn [fmap list_fmap]. rewrite Ea. split_and!; [done..|]. exists n. split.
      * rewrite <- En. apply read32_ext. intros i Hi. apply He. addrs. lia.
      * eapply pool_links_ext; [|exact H2]. intros x (q & -> & Hin)%list_elem_of_fmap. apply Hq. set_solver.
  - apply Forall_app. split; [|apply Forall_cons; split; [done|]]; rewrite Forall_forall; intros q Hin; apply Hq; set_solver.
  - apply StronglySorted_app in Hs as (Hx & Hs1 & [Hs2 Hx2]%StronglySorted_inv).
    assert (∀ q, pool_apart q p ↔ pool_apart q p') as Hiff by (intros q; unfold pool_apart; by rewrite Ea, Ez).
    assert (∀ q, pool_apart p q ↔ pool_apart p' q) as Hiff' by (intros q; unfold pool_apart; by rewrite Ea, Ez).
    apply StronglySorted_app_2; [|done|constructor; [done|]].
    + intros q x Hq1 [->|Hin]%elem_of_cons; [apply Hiff|]; apply Hx; set_solver.
    + eapply Forall_impl; [exact Hx2|]. intros q. apply Hiff'.
Qed.
