(* ===== verification/PoolAlloc.v ===== *)
(** Allocation from a pool, as the part of [OsMemAlloc] that this port skips would do it. *)

From stdpp Require Import functions.
From S2P Require Import Prelude DList Kernel Tick SortLink Mem Pmcu Sched Event Task Pool PoolIndex.
From S2P Require Import Bytes PoolInv PoolLists PoolRep PoolOps PoolFree PoolInit PoolWalk PoolFind PoolRealloc PoolSpec.

(** A block off the lists is held for its new owner. *)
Lemma PRep_claim m P S l1 z l2 L cu wl :
  PRep m P S (l1 ++ loose z :: l2) L cu wl → ∃ t, PRep m P S (l1 ++ mkBlk z (Held t) :: l2) L cu wl.
Proof.
  intros HR. destruct (row_parts _ _ _ _ [loose z] l2 _ _ _ HR) as (_ & Hs & _ & HE & _ & [(Hp & w & Ew & Hw & _) _] & H3).
  exists (w mod 64). apply (PRep_replace m P S l1 [loose z] l2 L cu wl HR m [mkBlk z (Held (w mod 64))]).
  - by repeat constructor.
  - by repeat constructor.
  - apply Forall_cons in Hs as [Hs _]. by apply Forall_singleton.
  - done.
  - apply writes_refl.
  - split; [|done]. split; [done|]. by exists w.
  - exact H3.
Qed.

(** The owner is the running task. *)
Lemma wp_set_node_taskID s m P S z t l1 l2 L cu wl id (Q : unit → kstate → Prop) :
  PRep m P S (l1 ++ mkBlk z (Used t) :: l2) L cu wl →
  (∀ m', PRep m' P S (l1 ++ mkBlk z (Used (id mod 64)) :: l2) L cu wl →
     kept P S (l1 ++ mkBlk z (Used t) :: l2) m m' → Q tt (rset s m')) →
  wp (set_node_taskID (P + 944 + total l1) id) Q (rset s m).
Proof.
  intros HR HQ. pose proof (p_core _ _ _ _ _ _ _ HR) as HC. pose proof (mid_range _ _ _ _ _ _ _ _ HC) as Hz. cbn [bsize] in Hz.
  destruct (seg_mid _ _ _ _ _ _ (p_seg _ _ _ _ _ _ HC)) as (_ & w & Ew & Hw & _). cbn [is_used bstat bsize] in Hw.
  unfold set_node_taskID. wp_step. eapply wpm_load32; [exact Ew|]. apply wpm_store32; [by eexists|].
  destruct (set_word id (Z.shiftr w 6)) as (H1 & H2 & H3); [lia|].
  assert (Z.land (Z.shiftr w 6) 0x3FFFFFF = Z.shiftr w 6) as El.
  { change 0x3FFFFFF with (Z.ones 26). rewrite Z.land_ones by lia. apply Z.mod_small. lia. }
  rewrite El in H1, H2, H3.
  destruct (PRep_header m P S l1 l2 (mkBlk z (Used t)) (mkBlk z (Used (id mod 64))) L cu wl HR ltac:(done) ltac:(done) eq_refl _ H1)
    as (HR' & Hk & _); [|by apply HQ].
  split; [by rewrite H2|exact H3].
Qed.

(** What an allocation leaves alone. *)
Lemma kept_alloc P S l1 t z k l2 m m' :
  kept P S (l1 ++ carve t z k l2) m m' → kept P S (l1 ++ free_blk z :: l2) m m'.
Proof.
  intros Hk i [?|[?|(c & x & Hin & Hx & Hi)]]; apply Hk; [by left|by right; left|]. right; right.
  exists c, x. split; [|done]. rewrite blocks_app. apply elem_of_app. rewrite elem_of_blocks_mid in Hin.
  destruct Hin as [|[[_ ->]|Hin]]; [by left|done|]. right. by apply carve_held.
Qed.

(** ** The allocation *)

(** The identifier that goes into the header. *)
Definition cur_id (s : kstate) (id : Z) : Prop :=
  match runTask s with
  | None => id = LOS_ERRNO_TSK_ID_INVALID
  | Some t => ∃ c, g_taskCBArray s !! t = Some c ∧ id = taskID c
  end.

Lemma wp_LOS_CurTaskIDGet s m id (Q : Z → kstate → Prop) :
  cur_id s id → Q id (rset s m) → wp LOS_CurTaskIDGet Q (rset s m).
Proof.
  unfold cur_id, LOS_CurTaskIDGet. intros Hid HQ. wp_steps. change (runTask (rset s m)) with (runTask s).
  destruct (runTask s) as [t|]; [|wp_step; by subst]. destruct Hid as (c & Ec & ->).
  wp_step. eapply (wp_get_tcb t c); [exact Ec|]. by wp_step.
Qed.

Section alloc.
  Context (s : kstate) (m : gmap Z Z) (P S : Z) (cu wl id k z : Z) (l1 l2 : list mblk).
  Context (Hid : cur_id s id) (Hk : 16 ≤ k < 2 ^ 25) (Hk4 : k mod 4 = 0) (Hl : Forall settled l2) (Hcu : 0 ≤ cu < 2 ^ 31).
  Abbreviation a := (P + 944 + total l1).
  Abbreviation bs := (l1 ++ free_blk z :: l2).
  Abbreviation bs' := (l1 ++ carve (id mod 64) z k l2).

(** Marking a block of [n] bytes and giving it out. *)
Lemma wp_alloc_end m1 L1 n t l (Q : Z → kstate → Prop) :
  PRep m1 P S (l1 ++ mkBlk n (Held t) :: l) L1 cu wl →
  (∀ m', PRep m' P S (l1 ++ mkBlk n (Used (id mod 64)) :: l) L1 (cu + n) (Z.max wl (cu + n)) →
     kept P S (l1 ++ mkBlk n (Used (id mod 64)) :: l) m1 m' → Q (a + 8) (rset s m')) →
  wp (OS_MEM_NODE_SET_USED_FLAG a;; v ← get_sizeAndFlag a;
      OsMemWaterUsedRecord P (OS_MEM_NODE_GET_SIZE v);; OsMemCreateUsedNode a) Q (rset s m1).
Proof.
  intros HR1 HQ. pose proof (mid_range _ _ _ _ _ _ _ _ (p_core _ _ _ _ _ _ _ HR1)) as Hn. cbn [bsize] in Hn.
  wp_step. eapply wp_unhold; [exact HR1|]. intros m2 HR2 Hk2. wp_step. eapply wp_mid_size; [apply HR2|].
  destruct (get_size_word (mkBlk n (Used t))) as [-> _]; [cbn [bsize]; lia|]. cbn [bsize].
  wp_step. eapply wp_OsMemWaterUsedRecord; [exact HR2|lia|]. intros m3 HR3 Hk3.
  unfold OsMemCreateUsedNode. wp_step. eapply wp_LOS_CurTaskIDGet; [exact Hid|]. wp_step.
  eapply wp_set_node_taskID; [exact HR3|]. intros m4 HR4 Hk4'. wp_step. addrs. rewrite u32_small by lia. eapply HQ; [exact HR4|].
  by apply (kept_hold _ _ _ (mkBlk n (Used t))); [..|do 2 (eapply kept_trans; [eassumption|])].
Qed.

(** The block found is cut and given out. *)
Lemma wp_alloc_block L (Q : Z → kstate → Prop) :
  PRep m P S (l1 ++ loose z :: l2) L cu wl → k ≤ z →
  (∀ m' L', let cu' := cu + carved z k in PRep m' P S bs' L' cu' (Z.max wl cu') → kept P S bs m m' → Q (a + 8) (rset s m')) →
  wp (v ← get_sizeAndFlag a;
      when (u32 (k + OS_MEM_MIN_LEFT_SIZE) <=? v) (OsMemSplitNode P a k);;
      OS_MEM_NODE_SET_USED_FLAG a;; v ← get_sizeAndFlag a;
      OsMemWaterUsedRecord P (OS_MEM_NODE_GET_SIZE v);; OsMemCreateUsedNode a) Q (rset s m).
Proof.
  intros HR Hkz HQ. destruct (PRep_claim _ _ _ _ _ _ _ _ _ HR) as [t HR0]. wp_step. eapply wp_mid_size; [apply HR0|].
  rewrite size_word_free by done. cbn [bsize]. addrs. rewrite u32_small by lia. wp_step.
  pose proof (kept_alloc P S l1 (id mod 64) z k l2) as Hka. unfold carve, carved in *.
  destruct (Z.leb_spec (k + 16) z) as [Hc|Hc]; cbn [when].
  - rewrite (surjective_pairing (absorb (z - k) l2)) in *.
    eapply (wp_cut s P S z t k l1 l2); [done..|exact HR0|done|]. intros m1 L1 HR1 Hk1.
    eapply wp_alloc_end; [exact HR1|]. intros m2 HR2 Hk2. eapply HQ; [exact HR2|]. apply Hka.
    eapply kept_trans; [|exact Hk2]. by apply (kept_hold _ _ _ (mkBlk k (Held t))).
  - wp_step. eapply wp_alloc_end; [exact HR0|]. intros m2 HR2 Hk2. eapply HQ; [exact HR2|]. by apply Hka.
Qed.
End alloc.

(** The result of an allocation of [size] bytes. *)
Definition alloc_post (s : kstate) (P S : Z) (bs : list mblk) (wl size id r : Z) (s' : kstate) : Prop :=
  let k := node_size size in
  (∃ l1 z l2 wl', bs = l1 ++ free_blk z :: l2 ∧ k ≤ z ∧ r = P + 944 + total l1 + 8 ∧ ram_only s s' ∧
     pool_wf (ram s') P S (l1 ++ carve (id mod 64) z k l2) wl' ∧ wl ≤ wl' ∧ kept P S bs (ram s) (ram s')) ∨
  (r = 0 ∧ (∃ i, s' = irq i s) ∧ ∀ b, b ∈ bs → bstat b = Free → bsize b < k).

Lemma pool_alloc s P S bs wl size e id :
  pool_wf (ram s) P S bs wl → 8 ≤ size < 2 ^ 24 → cur_id s id →
  wp (OsMemAlloc_pool P size e) (alloc_post s P S bs wl size id) s.
Proof.
  intros Hok Hsize Hid. pose proof Hok as [[L HR] Hs Hc Hw]. destruct (node_size_spec size Hsize) as [Hk Hk4].
  pose proof (p_core _ _ _ _ _ _ _ HR) as HC. pose proof (p_geom _ _ _ _ _ _ HC). pose proof (used_bound _ _ _ _ _ _ _ HR) as Hub.
  unfold OsMemAlloc_pool. cbv zeta. fold (node_size size). apply wp_rset. wp_step.
  eapply wp_OsMemFreeNodeGet; [exact HR|lia|done|..].
  - intros l1 z l2 m1 L1 E Hz HR1 Hk1. pose proof (mid_range _ _ _ _ _ _ _ _ (p_core _ _ _ _ _ _ _ HR1)) as Hr. cbn [bsize loose] in Hr.
    destruct (Z.eqb_spec (P + 944 + total l1) 0); [lia|]. rewrite E in Hok.
    destruct (pool_parts _ _ _ _ _ _ _ Hok) as (_ & S1 & S2 & C1 & C2 & _).
    eapply (wp_alloc_block s m1 P S (952 + used_total bs) wl id (node_size size) z l1 l2); [exact Hid|lia|done|done|lia|exact HR1|done|]. intros m2 L2 cu' HR2 Hk2.
    assert (cu' = 952 + used_total (l1 ++ carve (id mod 64) z (node_size size) l2)) as Ecu.
    { unfold cu'. rewrite used_total_carve, E, used_total_app, used_total_cons. cbn [is_used bstat free_blk]. lia. }
    pose proof (used_bound _ _ _ _ _ _ _ HR2). destruct (carve_spec l1 (id mod 64) z (node_size size) l2 S1 S2 C1 C2) as [S' C'].
    left. exists l1, z, l2, (Z.max wl cu'). split_and!; [done|done|done|done| |lia|].
    + constructor; [|done|done|cbn; lia]. exists L2. cbn [ram rset]. rewrite <- Ecu. exact HR2.
    + rewrite E. eapply kept_trans; [|exact Hk2]. by apply (kept_restat _ _ _ (loose z)).
  - intros Hnone. cbn [Z.eqb]. assert (is_Some (read32 (ram s) (info_attr P))) as Hattr by (eapply mapped_read32; [apply HC|addrs; lia..]).
    wp_step. apply wp_MEM_UNLOCK; [done|]. intros i. wp_step. eapply wp_LOS_MemInfoGet; [exact HR|done|]. intros j. rewrite irq_irq.
    wp_step. apply wp_MEM_LOCK; [done|]. intros v n. rewrite irq_irq. wp_step. right. split_and!; [done| |done].
    exists n. by destruct s.
Qed.
