(* ===== verification/Membox.v ===== *)
(** Fixed-size memory pools (mm/los_membox.c), on the byte memory.  A pool starts with
    [LOS_MEMBOX_INFO]: uwBlkSize, uwBlkNum, uwBlkCnt and stFreeList.pstNext; every block
    starts with the word [pstNext] of [LOS_MEMBOX_NODE]. *)

From S2P Require Import Prelude DList Kernel Tick SortLink Mem Pmcu Sched Event Task.

Section Membox.
  Context `{Config} `{Malloc} `{Symbols}.

Definition OS_MEMBOX_MAGIC : Z := 0xa55a5a00.
Definition OS_MEMBOX_TASKID_BITS : Z := 8.
Definition OS_MEMBOX_MAX_TASKID : Z := Z.shiftl 1 OS_MEMBOX_TASKID_BITS - 1.
Definition OS_MEMBOX_TASKID_GET (addr : Z) : Z := Z.land addr OS_MEMBOX_MAX_TASKID.

Definition sizeof_LOS_MEMBOX_INFO : Z := 16.
Definition OS_MEMBOX_NODE_HEAD_SIZE : Z := 4.
Definition OS_MEMBOX_USER_ADDR (node : Z) : Z := u32 (node + OS_MEMBOX_NODE_HEAD_SIZE).
Definition OS_MEMBOX_NODE_ADDR (addr : Z) : Z := u32 (addr - OS_MEMBOX_NODE_HEAD_SIZE).
Definition OS_MEMBOX_NEXT (addr blkSize : Z) : Z := u32 (addr + blkSize).
Definition LOS_MEMBOX_ALIGNED (memAddr : Z) : Z := Z.ldiff (u32 (memAddr + 3)) 3.

(** The addresses of the fields of a pool. *)
Definition uwBlkSize (pool : Z) : Z := pool.
Definition uwBlkNum (pool : Z) : Z := pool + 4.
Definition uwBlkCnt (pool : Z) : Z := pool + 8.
Definition stFreeList (pool : Z) : Z := pool + 12.

Definition OsMemBoxSetMagic (node : Z) : K unit :=
  id ← LOS_CurTaskIDGet;
  store32 node (Z.lor OS_MEMBOX_MAGIC (u8 id)).

Definition OsMemBoxCheckMagic (node : Z) : K Z :=
  next ← load32 node;
  let taskID := OS_MEMBOX_TASKID_GET next in
  mret (if LOSCFG_BASE_CORE_TSK_LIMIT + 1 <? taskID then LOS_NOK
        else if next =? Z.lor OS_MEMBOX_MAGIC taskID then LOS_OK else LOS_NOK).

Definition OsCheckBoxMem (boxInfo node : Z) : K Z :=
  blkSize ← load32 (uwBlkSize boxInfo);
  if blkSize =? 0 then mret LOS_NOK
  else
    let offset := u32 (node - (boxInfo + sizeof_LOS_MEMBOX_INFO)) in
    if negb (offset mod blkSize =? 0) then mret LOS_NOK
    else
      blkNum ← load32 (uwBlkNum boxInfo);
      if blkNum <=? offset / blkSize then mret LOS_NOK
      else OsMemBoxCheckMagic node.

(** The loop that chains [n] more blocks behind [node]; the result is the last one. *)
Fixpoint LOS_MemboxInit_loop (n : nat) (node blkSize : Z) : K Z :=
  match n with
  | O => mret node
  | S n =>
      store32 node (OS_MEMBOX_NEXT node blkSize);;
      next ← load32 node;
      LOS_MemboxInit_loop n next blkSize
  end.

Definition LOS_MemboxInit (pool poolSize blkSize : Z) : K Z :=
  if pool =? 0 then mret LOS_NOK
  else if blkSize =? 0 then mret LOS_NOK
  else if poolSize <? sizeof_LOS_MEMBOX_INFO then mret LOS_NOK
  else
    intSave ← LOS_IntLock;
    let size := LOS_MEMBOX_ALIGNED (u32 (blkSize + OS_MEMBOX_NODE_HEAD_SIZE)) in
    store32 (uwBlkSize pool) size;;
    when (size =? 0) (fail DivByZero);;
    let num := (poolSize - sizeof_LOS_MEMBOX_INFO) / size in
    store32 (uwBlkNum pool) num;;
    store32 (uwBlkCnt pool) 0;;
    if num =? 0 then
      LOS_IntRestore intSave;; mret LOS_NOK
    else
      let node := u32 (pool + sizeof_LOS_MEMBOX_INFO) in
      store32 (stFreeList pool) node;;
      last ← LOS_MemboxInit_loop (Z.to_nat (num - 1)) node size;
      store32 last 0;;
      LOS_IntRestore intSave;;
      mret LOS_OK.

(** [LOS_MemboxAlloc(pool)]; 0 is NULL. *)
Definition LOS_MemboxAlloc (pool : Z) : K Z :=
  if pool =? 0 then mret 0
  else
    intSave ← LOS_IntLock;
    nodeTmp ← load32 (stFreeList pool);
    if negb (nodeTmp =? 0) then
      next ← load32 nodeTmp;
      store32 (stFreeList pool) next;;
      OsMemBoxSetMagic nodeTmp;;
      cnt ← load32 (uwBlkCnt pool);
      store32 (uwBlkCnt pool) (u32 (cnt + 1));;
      LOS_IntRestore intSave;;
      mret (OS_MEMBOX_USER_ADDR nodeTmp)
    else
      LOS_IntRestore intSave;;
      mret 0.

Definition LOS_MemboxFree (pool box : Z) : K Z :=
  if (pool =? 0) || (box =? 0) then mret LOS_NOK
  else
    intSave ← LOS_IntLock;
    let node := OS_MEMBOX_NODE_ADDR box in
    chk ← OsCheckBoxMem pool node;
    if negb (chk =? LOS_OK) then
      LOS_IntRestore intSave;; mret LOS_NOK
    else
      first ← load32 (stFreeList pool);
      store32 node first;;
      store32 (stFreeList pool) node;;
      cnt ← load32 (uwBlkCnt pool);
      store32 (uwBlkCnt pool) (u32 (cnt - 1));;
      LOS_IntRestore intSave;;
      mret LOS_OK.

Definition LOS_MemboxClr (pool box : Z) : K unit :=
  if (pool =? 0) || (box =? 0) then mret tt
  else
    size ← load32 (uwBlkSize pool);
    let n := u32 (size - OS_MEMBOX_NODE_HEAD_SIZE) in
    when (n <=? SECUREC_MEM_MAX_LEN) (store_bytes box (replicate (Z.to_nat n) 0)).

(** [LOS_MemboxStatisticsGet]: the error code and [*maxBlk], [*blkCnt], [*blkSize];
    [out] says that none of the three pointers is NULL. *)
Definition LOS_MemboxStatisticsGet (boxMem : Z) (out : bool) : K (Z * option (Z * Z * Z)) :=
  if (boxMem =? 0) || negb out then mret (LOS_NOK, None)
  else
    maxBlk ← load32 (uwBlkNum boxMem);
    blkCnt ← load32 (uwBlkCnt boxMem);
    blkSize ← load32 (uwBlkSize boxMem);
    mret (LOS_OK, Some (maxBlk, blkCnt, blkSize)).

End Membox.
