(* ===== verification/Mbox.v ===== *)
(** A memory box pool is a set of blocks, of which some are chained in a free list: the
    operations of los_membox.c refine taking a block out of that set and putting it back. *)

From S2P Require Import Prelude DList Kernel Tick SortLink Mem Pmcu Sched SchedInv Event Task Membox.
From S2P Require Import Bytes.

(** ** The representation *)

(** The block number [k] of a pool with blocks of [size] bytes. *)
Definition blk (pool size k : Z) : Z := pool + sizeof_LOS_MEMBOX_INFO + k * size.

(** From the address [ptr] on, the blocks [l] are chained through their first words. *)
Fixpoint chain (m : gmap Z Z) (pool size ptr : Z) (l : list Z) : Prop :=
  match l with
  | [] => ptr = 0
  | k :: l => ptr = blk pool size k ∧
      ∃ next, read32 m ptr = Some next ∧ chain m pool size next l
  end.

Section rep.
  Context `{Config}.

(** The first word of a block in use. *)
Definition magic_word (w : Z) : Prop :=
  ∃ id, w = Z.lor OS_MEMBOX_MAGIC id ∧ 0 ≤ id ≤ LOSCFG_BASE_CORE_TSK_LIMIT + 1 ∧ id < 256.

Record pool_ok (m : gmap Z Z) (pool size num : Z) : Prop := {
  pool_addr : 0 < pool;
  pool_size : 8 ≤ size;
  pool_num : 0 < num;
  pool_end : pool + sizeof_LOS_MEMBOX_INFO + num * size < 2 ^ 32;
  pool_mapped : mapped m pool (Z.to_nat (sizeof_LOS_MEMBOX_INFO + num * size));
  pool_blkSize : read32 m (uwBlkSize pool) = Some size;
  pool_blkNum : read32 m (uwBlkNum pool) = Some num
}.

(** The pool has the blocks [free], in the order of the free list, and the blocks [used]. *)
Record pool_rep (m : gmap Z Z) (pool size num : Z) (free used : list Z) : Prop := {
  prep_ok : pool_ok m pool size num;
  prep_blocks : free ++ used ≡ₚ seqZ 0 num;
  prep_cnt : read32 m (uwBlkCnt pool) = Some (Z.of_nat (length used));
  prep_free : ∃ ptr, read32 m (stFreeList pool) = Some ptr ∧ chain m pool size ptr free;
  prep_used : Forall (fun k => ∃ w, read32 m (blk pool size k) = Some w ∧ magic_word w) used
}.
#[global] Arguments prep_ok {_ _ _ _ _ _} _.

(** ** Blocks *)

Section blocks.
  Context (m : gmap Z Z) (pool size num : Z) (HP : pool_ok m pool size num).

Lemma blk_range k : 0 ≤ k < num →
  pool + 16 ≤ blk pool size k ∧ blk pool size k + size ≤ pool + 16 + num * size < 2 ^ 32.
Proof.
  destruct HP as [H1 H2 H3 H4 _ _ _]. unfold blk, sizeof_LOS_MEMBOX_INFO in *. nia.
Qed.

Lemma blk_apart k j : k ≠ j →
  blk pool size k + size ≤ blk pool size j ∨ blk pool size j + size ≤ blk pool size k.
Proof. destruct HP as [H1 H2 H3 H4 _ _ _]. unfold blk. nia. Qed.

Lemma pool_word a : pool ≤ a → a + 4 ≤ pool + 16 + num * size → mapped m a 4.
Proof.
  intros H1 H2 i Hi. apply (pool_mapped _ _ _ _ HP). unfold sizeof_LOS_MEMBOX_INFO. lia.
Qed.

(** From the address the user has to the block. *)
Lemma node_of_box box k : 0 ≤ box < 2 ^ 32 → 0 ≤ k < num →
  box = blk pool size k + OS_MEMBOX_NODE_HEAD_SIZE ↔ OS_MEMBOX_NODE_ADDR box = blk pool size k.
Proof.
  intros Hbox Hk. pose proof (blk_range k Hk). pose proof (pool_addr _ _ _ _ HP).
  pose proof (pool_size _ _ _ _ HP).
  unfold OS_MEMBOX_NODE_ADDR, u32, OS_MEMBOX_NODE_HEAD_SIZE. split.
  - intros ->. rewrite Z.mod_small; lia.
  - destruct (decide (4 ≤ box)); [rewrite Z.mod_small; lia|].
    replace (box - 4) with (box - 4 + 2 ^ 32 + (-1) * 2 ^ 32) by lia.
    rewrite Z.mod_add, Z.mod_small; lia.
Qed.

(** An address is the start of a block when its distance from the first is a multiple of the
    size. *)
Lemma node_offset node :
  let off := u32 (node - (pool + sizeof_LOS_MEMBOX_INFO)) in
  0 ≤ node < 2 ^ 32 →
  (off mod size = 0 ∧ off / size < num → 0 ≤ off / size < num ∧ node = blk pool size (off / size)) ∧
  (∀ k, 0 ≤ k < num → node = blk pool size k → off mod size = 0 ∧ off / size < num).
Proof.
  intros off Hn. pose proof (pool_end _ _ _ _ HP) as Hend. pose proof (pool_addr _ _ _ _ HP) as Had.
  pose proof (pool_size _ _ _ _ HP) as Hsz. unfold sizeof_LOS_MEMBOX_INFO in *.
  assert (0 ≤ off < 2 ^ 32) as Hob by (apply Z.mod_pos_bound; lia). split.
  - intros [Hm Hd]. pose proof (Z.div_pos off size ltac:(lia) ltac:(lia)) as Hp. split; [lia|].
    pose proof (Z.div_mod off size ltac:(lia)) as Hdm. rewrite Hm in Hdm.
    unfold blk, sizeof_LOS_MEMBOX_INFO. assert (off < num * size) by nia.
    destruct (decide (pool + 16 ≤ node)) as [Hle|Hlt].
    + assert (off = node - (pool + 16)) by (unfold off, u32; rewrite Z.mod_small; lia). nia.
    + assert (off = node - (pool + 16) + 2 ^ 32).
      { unfold off, u32. rewrite <- (Z.mod_add _ 1) by lia. rewrite Z.mod_small; lia. }
      nia.
  - intros k Hk ->. pose proof (blk_range k Hk). unfold blk, sizeof_LOS_MEMBOX_INFO in *.
    assert (off = k * size) as -> by (unfold off, u32; rewrite Z.mod_small; nia).
    rewrite Z_mod_mult, Z.div_mul by lia. lia.
Qed.

(** Writing a word of the pool other than the two constants keeps it a pool. *)
Lemma pool_ok_write a v : pool + 8 ≤ a → pool_ok (w32 a v m) pool size num.
Proof.
  intros Ha. destruct HP as [H1 H2 H3 H4 H5 H6 H7]. constructor; try done.
  - by apply write_bytes_mapped.
  - unfold uwBlkSize in *. by rewrite read32_w32_ne by lia.
  - unfold uwBlkNum in *. by rewrite read32_w32_ne by lia.
Qed.
End blocks.

Lemma chain_frame m m' pool size ptr l :
  Forall (fun k => read32 m' (blk pool size k) = read32 m (blk pool size k)) l →
  chain m pool size ptr l → chain m' pool size ptr l.
Proof.
  revert ptr. induction l as [|k l IH]; intros ptr HF Hc; [done|].
  apply Forall_cons in HF as [Hk HF]. destruct Hc as (-> & next & Hn & Hc). simpl.
  split; [done|]. exists next. split; [by rewrite Hk|]. by apply IH.
Qed.

Section moves.
  Context (m : gmap Z Z) (pool size num : Z).

(** The blocks of a list are distinct blocks of the pool. *)
Lemma rep_blocks free used :
  pool_rep m pool size num free used →
  NoDup (free ++ used) ∧ ∀ k, k ∈ free ++ used ↔ 0 ≤ k < num.
Proof.
  intros [_ HB _ _ _]. split.
  - rewrite HB. apply NoDup_seqZ.
  - intros k. rewrite HB, elem_of_seqZ. lia.
Qed.

Lemma rep_count free used :
  pool_rep m pool size num free used → Z.of_nat (length free + length used) = num.
Proof.
  intros HR. pose proof (pool_num _ _ _ _ (prep_ok HR)). destruct HR as [_ HB _ _ _].
  apply Permutation_length in HB. rewrite length_app, length_seqZ in HB. lia.
Qed.

Lemma chain_ptr ptr l :
  pool_ok m pool size num → Forall (fun k => 0 ≤ k < num) l → chain m pool size ptr l →
  0 ≤ ptr < 2 ^ 32.
Proof.
  intros HP HF Hc. destruct l as [|k l]; simpl in Hc; [lia|]. destruct Hc as [-> _].
  apply Forall_cons in HF as [Hk _]. pose proof (blk_range _ _ _ _ HP k Hk).
  pose proof (pool_addr _ _ _ _ HP). pose proof (pool_size _ _ _ _ HP). lia.
Qed.

(** The memory after the counter, the list head and the first word of block [k] are written. *)
Definition upd_pool (k cnt head w : Z) : gmap Z Z :=
  w32 (uwBlkCnt pool) cnt (w32 (blk pool size k) w (w32 (stFreeList pool) head m)).

Section upd.
  Context (HP : pool_ok m pool size num) (k cnt head w : Z) (Hk : 0 ≤ k < num).

Lemma upd_pool_words :
  0 ≤ cnt < 2 ^ 32 → 0 ≤ head < 2 ^ 32 → 0 ≤ w < 2 ^ 32 →
  let m' := upd_pool k cnt head w in
  pool_ok m' pool size num ∧ read32 m' (uwBlkCnt pool) = Some cnt ∧
  read32 m' (stFreeList pool) = Some head ∧ read32 m' (blk pool size k) = Some w ∧
  ∀ j, 0 ≤ j < num → j ≠ k → read32 m' (blk pool size j) = read32 m (blk pool size j).
Proof.
  intros Hc Hh Hw m'. pose proof (blk_range _ _ _ _ HP k Hk) as Hkr.
  pose proof (pool_size _ _ _ _ HP) as Hsz. unfold m', upd_pool, uwBlkCnt, stFreeList in *.
  split; [repeat apply pool_ok_write; done || lia|].
  split; [by apply read32_w32|]. split.
  { rewrite !read32_w32_ne by lia. by apply read32_w32. }
  split; [rewrite read32_w32_ne by lia; by apply read32_w32|].
  intros j Hj Hne. pose proof (blk_range _ _ _ _ HP j Hj) as Hjr.
  pose proof (blk_apart _ _ _ _ HP j k Hne) as Hap. by rewrite !read32_w32_ne by lia.
Qed.
End upd.

(** A free block taken. *)
Lemma rep_take k free used w :
  pool_rep m pool size num (k :: free) used → magic_word w → 0 ≤ w < 2 ^ 32 →
  ∃ next, read32 m (stFreeList pool) = Some (blk pool size k) ∧
    read32 m (blk pool size k) = Some next ∧
    pool_rep (upd_pool k (Z.of_nat (length used) + 1) next w) pool size num free (k :: used).
Proof.
  intros HR Hw Hwb. destruct (rep_blocks _ _ HR) as [HN HE]. pose proof (rep_count _ _ HR) as Hcnt.
  destruct HR as [HP HB HC (ptr & Hptr & -> & next & Hnext & Hc) HU].
  exists next. split; [done|]. split; [done|].
  assert (∀ j, j ∈ free ++ used → 0 ≤ j < num ∧ j ≠ k) as Hin.
  { intros j Hj. split; [apply HE; set_solver|]. intros ->. apply NoDup_cons in HN as [HN _]. set_solver. }
  pose proof (pool_end _ _ _ _ HP) as Hend. pose proof (pool_size _ _ _ _ HP) as Hsz.
  pose proof (pool_addr _ _ _ _ HP) as Had. unfold sizeof_LOS_MEMBOX_INFO in Hend. simpl in Hcnt.
  destruct (upd_pool_words HP k (Z.of_nat (length used) + 1) next w) as (HP' & HC' & HF' & HK' & HO');
    [apply HE; set_solver|nia| |done|].
  { eapply chain_ptr; [exact HP| |exact Hc]. apply Forall_forall. intros j Hj. apply Hin. set_solver. }
  constructor; [exact HP'| | | |].
  - rewrite <- HB. simpl. by rewrite Permutation_middle.
  - rewrite HC'. f_equal. simpl. lia.
  - exists next. split; [done|]. eapply chain_frame; [|exact Hc]. apply Forall_forall.
    intros j Hj. apply HO'; apply Hin; set_solver.
  - constructor; [eauto|]. rewrite Forall_forall in *. intros j Hj. destruct (HU j Hj) as (w' & Ew & Hm).
    exists w'. split; [|done]. rewrite HO'; [done|apply Hin; set_solver..].
Qed.

(** A block in use given back. *)
Lemma rep_give k free l1 l2 :
  pool_rep m pool size num free (l1 ++ k :: l2) →
  ∃ head, read32 m (stFreeList pool) = Some head ∧
    pool_rep (upd_pool k (Z.of_nat (length (l1 ++ k :: l2)) - 1) (blk pool size k) head)
      pool size num (k :: free) (l1 ++ l2).
Proof.
  intros HR. destruct (rep_blocks _ _ HR) as [HN HE]. pose proof (rep_count _ _ HR) as Hcnt.
  destruct HR as [HP HB HC (head & Hptr & Hc) HU]. exists head. split; [done|].
  assert (∀ j, j ∈ free ++ l1 ++ l2 → 0 ≤ j < num ∧ j ≠ k) as Hin.
  { intros j Hj. split; [apply HE; set_solver|]. intros ->.
    rewrite Permutation_app_comm, <- Permutation_middle in HN. apply NoDup_cons in HN as [HN _]. set_solver. }
  assert (0 ≤ k < num) as Hk by (apply HE; set_solver).
  pose proof (pool_end _ _ _ _ HP) as Hend. pose proof (pool_size _ _ _ _ HP) as Hsz.
  pose proof (pool_addr _ _ _ _ HP) as Had. unfold sizeof_LOS_MEMBOX_INFO in Hend.
  pose proof (blk_range _ _ _ _ HP k Hk) as Hkr. rewrite length_app in *. simpl in *.
  destruct (upd_pool_words HP k (Z.of_nat (length l1 + S (length l2)) - 1) (blk pool size k) head)
    as (HP' & HC' & HF' & HK' & HO'); [done|nia|lia| |].
  { eapply chain_ptr; [exact HP| |exact Hc]. apply Forall_forall. intros j Hj. apply Hin. set_solver. }
  constructor; [exact HP'| | | |].
  - rewrite <- HB. simpl. solve_Permutation.
  - rewrite HC', length_app. f_equal. lia.
  - exists (blk pool size k). split; [done|]. simpl. split; [done|]. exists head. split; [done|].
    eapply chain_frame; [|exact Hc]. apply Forall_forall. intros j Hj. apply HO'; apply Hin; set_solver.
  - rewrite Forall_forall in *. intros j Hj. destruct (HU j) as (w' & Ew & Hm); [set_solver|].
    exists w'. split; [|done]. rewrite HO'; [done|apply Hin; set_solver..].
Qed.
End moves.

(** ** The magic word *)

Lemma magic_land id : 0 ≤ id < 256 → Z.land OS_MEMBOX_MAGIC id = 0.
Proof.
  intros Hid. apply Z.bits_inj'. intros n Hn. rewrite Z.land_spec, Z.bits_0.
  destruct (decide (n < 8)).
  - change OS_MEMBOX_MAGIC with (Z.shiftl 0xa55a5a 8). rewrite Z.shiftl_spec_low by done. done.
  - rewrite (Z.bits_above_log2 id n), andb_false_r; [done|lia|].
    destruct (decide (id = 0)) as [->|]; [simpl; lia|]. apply Z.log2_lt_pow2; [lia|].
    apply (Z.lt_le_trans _ (2 ^ 8)); [simpl; lia|]. apply Z.pow_le_mono_r; lia.
Qed.

Lemma magic_value id : 0 ≤ id < 256 → Z.lor OS_MEMBOX_MAGIC id = OS_MEMBOX_MAGIC + id.
Proof. intros Hid. symmetry. by apply Z.add_nocarry_lor, magic_land. Qed.

Lemma land_255 x : Z.land x OS_MEMBOX_MAX_TASKID = x mod 256.
Proof. change OS_MEMBOX_MAX_TASKID with (Z.ones 8). by rewrite Z.land_ones by lia. Qed.

(** The check accepts exactly the magic words. *)
Lemma wp_OsMemBoxCheckMagic node w s (Q : Z → kstate → Prop) :
  read32 (ram s) node = Some w → (magic_word w → Q LOS_OK s) → (¬ magic_word w → Q LOS_NOK s) →
  wp (OsMemBoxCheckMagic node) Q s.
Proof.
  intros Hw Hok Hno. unfold OsMemBoxCheckMagic. wp_step. eapply wp_load32; [exact Hw|]. wp_step.
  unfold OS_MEMBOX_TASKID_GET. rewrite land_255.
  pose proof (Z.mod_pos_bound w 256 ltac:(lia)) as Hm.
  assert (∀ id, w = Z.lor OS_MEMBOX_MAGIC id → 0 ≤ id < 256 → w mod 256 = id) as Hid.
  { intros id -> Hi. rewrite magic_value by done. change OS_MEMBOX_MAGIC with (0xa55a5a * 256).
    rewrite Z.add_comm, Z.mod_add by lia. by apply Z.mod_small. }
  destruct (Z.ltb_spec (LOSCFG_BASE_CORE_TSK_LIMIT + 1) (w mod 256)).
  - apply Hno. intros (id & Ew & Hi & Hi'). pose proof (Hid id Ew). lia.
  - destruct (Z.eqb_spec w (Z.lor OS_MEMBOX_MAGIC (w mod 256))) as [Ew|Ew].
    + apply Hok. exists (w mod 256). split; [done|lia].
    + apply Hno. intros (id & Ew' & Hi & Hi'). apply Ew. rewrite (Hid id) by (done || lia). done.
Qed.

(** ** The operations *)

(** The state [s] with another memory. *)
Definition with_ram (s : kstate) (i : Z) (m : gmap Z Z) : kstate :=
  s <| interrupt_flag := i |> <| ram := m |>.

Lemma with_ram_lock s (Q : Z → kstate → Prop) :
  Q 0 (with_ram s 0 (ram s)) → wp LOS_IntLock Q s.
Proof. intros HQ. wp_steps. rsimpl. revert HQ. unfold with_ram. by destruct s. Qed.

Section view.
  Context (s : kstate) (i : Z) (m : gmap Z Z).

Lemma wpr_load a v (Q : Z → kstate → Prop) :
  read32 m a = Some v → Q v (with_ram s i m) → wp (load32 a) Q (with_ram s i m).
Proof. intros Hr HQ. by eapply wp_load32. Qed.

Lemma wpr_store a v (Q : unit → kstate → Prop) :
  mapped m a 4 → Q tt (with_ram s i (w32 a v m)) → wp (store32 a v) Q (with_ram s i m).
Proof. intros Hm HQ. apply wp_store32; [exact Hm|]. revert HQ. unfold with_ram, w32. by destruct s. Qed.

Lemma wpr_restore j (Q : unit → kstate → Prop) :
  Q tt (with_ram s 1 m) → wp (LOS_IntRestore j) Q (with_ram s i m).
Proof. intros HQ. wp_steps. revert HQ. unfold with_ram. by destruct s. Qed.

Lemma wpr_task r rc (Q : Z → kstate → Prop) :
  runTask s = Some r → g_taskCBArray s !! r = Some rc →
  Q (taskID rc) (with_ram s i m) → wp LOS_CurTaskIDGet Q (with_ram s i m).
Proof.
  intros Hr Er HQ. unfold LOS_CurTaskIDGet. do 2 wp_step.
  change (runTask (with_ram s i m)) with (runTask s). rewrite Hr. wp_step.
  eapply wp_get_tcb; [exact Er|]. by wp_step.
Qed.
End view.

Section ops.
  Context `{Malloc} `{Symbols}.
  Context (s : kstate) (pool size num : Z) (free used : list Z).
  Context (HR : pool_rep (ram s) pool size num free used).

(** A block is taken from the front of the free list. *)
Lemma wp_LOS_MemboxAlloc r rc :
  runTask s = Some r → g_taskCBArray s !! r = Some rc →
  0 ≤ taskID rc ≤ LOSCFG_BASE_CORE_TSK_LIMIT + 1 → taskID rc < 256 →
  wp (LOS_MemboxAlloc pool) (fun box s' => ∃ m', s' = with_ram s 1 m' ∧
    match free with
    | [] => box = 0 ∧ m' = ram s
    | k :: rest => box = blk pool size k + OS_MEMBOX_NODE_HEAD_SIZE ∧
        pool_rep m' pool size num rest (k :: used)
    end) s.
Proof.
  intros Hr Er Hid Hid2. pose proof (prep_ok HR) as HP. pose proof (pool_addr _ _ _ _ HP) as Had.
  unfold LOS_MemboxAlloc. destruct (Z.eqb_spec pool 0); [lia|]. wp_step. apply with_ram_lock. wp_step.
  destruct (prep_free _ _ _ _ _ _ HR) as (ptr & Hptr & Hc).
  eapply wpr_load; [exact Hptr|]. destruct free as [|k rest].
  { simpl in Hc. subst ptr. cbn [negb Z.eqb]. wp_step. apply wpr_restore. wp_step. eauto. }
  destruct Hc as (-> & _). pose proof (rep_blocks _ _ _ _ _ _ HR) as [_ HE].
  assert (0 ≤ k < num) as Hk by (apply HE; set_solver).
  pose proof (blk_range _ _ _ _ HP k Hk) as Hkr. pose proof (pool_size _ _ _ _ HP) as Hsz.
  pose proof (rep_count _ _ _ _ _ _ HR) as Hcnt.
  assert (u8 (taskID rc) = taskID rc) as Hu8 by (unfold u8; apply Z.mod_small; lia).
  set (w := Z.lor OS_MEMBOX_MAGIC (taskID rc)).
  assert (0 ≤ w < 2 ^ 32) as Hwb.
  { unfold w. rewrite magic_value by lia. unfold OS_MEMBOX_MAGIC. lia. }
  destruct (rep_take _ _ _ _ k rest used w HR) as (next & _ & Hnext & HR'); [by exists (taskID rc)|done|].
  destruct (Z.eqb_spec (blk pool size k) 0); [lia|]. cbn [negb].
  wp_step. eapply wpr_load; [exact Hnext|]. wp_step.
  apply wpr_store; [apply (pool_word _ _ _ _ HP); unfold stFreeList; lia|].
  wp_step. unfold OsMemBoxSetMagic. wp_step. eapply wpr_task; [exact Hr|exact Er|]. rewrite Hu8. fold w.
  apply wpr_store; [apply write_bytes_mapped, (pool_word _ _ _ _ HP); lia|]. wp_step.
  eapply wpr_load.
  { unfold uwBlkCnt, stFreeList. rewrite !read32_w32_ne by lia. apply (prep_cnt _ _ _ _ _ _ HR). }
  wp_step. simpl in Hcnt. assert (u32 (Z.of_nat (length used) + 1) = Z.of_nat (length used) + 1) as ->.
  { unfold u32. apply Z.mod_small. nia. }
  apply wpr_store; [do 2 apply write_bytes_mapped; apply (pool_word _ _ _ _ HP); unfold uwBlkCnt; lia|].
  wp_step. apply wpr_restore. wp_step. eexists. split; [done|]. split; [|exact HR'].
  unfold OS_MEMBOX_USER_ADDR, u32, OS_MEMBOX_NODE_HEAD_SIZE. apply Z.mod_small. lia.
Qed.

(** The link of a free block is no magic word. *)
Lemma chain_no_magic m ptr l k :
  pool + 16 + num * size ≤ OS_MEMBOX_MAGIC → pool_ok m pool size num →
  Forall (fun k => 0 ≤ k < num) l → chain m pool size ptr l → k ∈ l →
  ∃ w, read32 m (blk pool size k) = Some w ∧ ¬ magic_word w.
Proof.
  intros Hmag HP HF. pose proof (pool_size _ _ _ _ HP) as Hsz.
  revert ptr. induction l as [|j l IH]; intros ptr Hc Hk; [by apply elem_of_nil in Hk|].
  apply Forall_cons in HF as [Hj HF]. destruct Hc as (-> & next & Hnext & Hc).
  apply elem_of_cons in Hk as [->|Hk]; [|by eapply IH].
  exists next. split; [done|]. intros (id & Ew & Hid & Hid').
  rewrite magic_value in Ew by lia.
  destruct l as [|j' l]; simpl in Hc; [unfold OS_MEMBOX_MAGIC in *; lia|].
  destruct Hc as [-> _]. apply Forall_cons in HF as [Hj' _]. pose proof (blk_range _ _ _ _ HP j' Hj'). lia.
Qed.

(** The pool check accepts exactly the blocks in use. *)
Lemma wp_OsCheckBoxMem box (Q : Z → kstate → Prop) :
  0 ≤ box < 2 ^ 32 → pool + 16 + num * size ≤ OS_MEMBOX_MAGIC →
  (∀ k, k ∈ used → box = blk pool size k + OS_MEMBOX_NODE_HEAD_SIZE →
     OS_MEMBOX_NODE_ADDR box = blk pool size k → Q LOS_OK (with_ram s 0 (ram s))) →
  ((∀ k, k ∈ used → box ≠ blk pool size k + OS_MEMBOX_NODE_HEAD_SIZE) →
     Q LOS_NOK (with_ram s 0 (ram s))) →
  wp (OsCheckBoxMem pool (OS_MEMBOX_NODE_ADDR box)) Q (with_ram s 0 (ram s)).
Proof.
  intros Hbox Hmag Hok Hno. pose proof (prep_ok HR) as HP. pose proof (pool_size _ _ _ _ HP) as Hsz.
  destruct (rep_blocks _ _ _ _ _ _ HR) as [HN HE].
  assert (0 ≤ OS_MEMBOX_NODE_ADDR box < 2 ^ 32) as Hnb by (apply Z.mod_pos_bound; lia).
  destruct (node_offset _ _ _ _ HP _ Hnb) as [Hin Hout].
  assert (¬ (∃ k, k ∈ used ∧ OS_MEMBOX_NODE_ADDR box = blk pool size k) → Q LOS_NOK (with_ram s 0 (ram s)))
    as Hno'.
  { intros Hn. apply Hno. intros k Hk Eb. apply Hn. exists k. split; [done|].
    eapply node_of_box; [exact HP|done| |done]. apply HE. set_solver. }
  set (node := OS_MEMBOX_NODE_ADDR box) in *.
  unfold OsCheckBoxMem. wp_step. eapply wpr_load; [apply (pool_blkSize _ _ _ _ HP)|].
  destruct (Z.eqb_spec size 0); [lia|].
  set (off := u32 (node - (pool + sizeof_LOS_MEMBOX_INFO))) in *.
  assert (¬ (off mod size = 0 ∧ off / size < num) → Q LOS_NOK (with_ram s 0 (ram s))) as Hno2.
  { intros Hn. apply Hno'. intros (k & Hk & Enode). apply Hn. apply (Hout k); [apply HE; set_solver|done]. }
  destruct (Z.eqb_spec (off mod size) 0) as [Hmod|Hmod]; cbn [negb]; [|wp_step; apply Hno2; lia].
  wp_step. eapply wpr_load; [apply (pool_blkNum _ _ _ _ HP)|].
  destruct (Z.leb_spec num (off / size)); [wp_step; apply Hno2; lia|].
  destruct Hin as [Hk Enode]; [lia|]. set (k := off / size) in *.
  assert (k ∈ free ++ used) as [Hkf|Hku]%elem_of_app by (by apply HE).
  - destruct (prep_free _ _ _ _ _ _ HR) as (ptr & _ & Hc).
    destruct (chain_no_magic (ram s) ptr free k) as (w & Hw & Hnm); [done|done| |done|done|].
    { apply Forall_forall. intros j Hj. apply HE. set_solver. }
    eapply wp_OsMemBoxCheckMagic; [rewrite Enode; exact Hw|done|]. intros _. apply Hno'.
    intros (j & Hj & Ej). assert (j = k) as ->.
    { destruct (decide (j = k)); [done|]. destruct (blk_apart _ _ _ _ HP j k); [done|lia|lia]. }
    apply NoDup_app in HN as (_ & HN & _). by apply (HN k).
  - pose proof (prep_used _ _ _ _ _ _ HR) as HU. rewrite Forall_forall in HU.
    destruct (HU k Hku) as (w & Hw & Hm). eapply wp_OsMemBoxCheckMagic; [rewrite Enode; exact Hw| |done].
    intros _. apply (Hok k); [done| |done]. eapply node_of_box; [exact HP|done|done|done].
Qed.

(** A block in use is put back at the front of the free list; any other address is refused. *)
Lemma wp_LOS_MemboxFree box :
  0 < box < 2 ^ 32 → pool + 16 + num * size ≤ OS_MEMBOX_MAGIC →
  wp (LOS_MemboxFree pool box) (fun r s' => ∃ m', s' = with_ram s 1 m' ∧
    ((∃ k l1 l2, used = l1 ++ k :: l2 ∧ box = blk pool size k + OS_MEMBOX_NODE_HEAD_SIZE ∧
        r = LOS_OK ∧ pool_rep m' pool size num (k :: free) (l1 ++ l2)) ∨
     ((∀ k, k ∈ used → box ≠ blk pool size k + OS_MEMBOX_NODE_HEAD_SIZE) ∧
        r = LOS_NOK ∧ m' = ram s))) s.
Proof.
  intros Hbox Hmag. pose proof (prep_ok HR) as HP. pose proof (pool_addr _ _ _ _ HP) as Had.
  unfold LOS_MemboxFree. destruct (Z.eqb_spec pool 0); [lia|]. destruct (Z.eqb_spec box 0); [lia|].
  cbn [orb]. wp_step. apply with_ram_lock. wp_step. apply wp_OsCheckBoxMem; [lia|done| |].
  2: { intros Hno. cbn [negb Z.eqb LOS_OK LOS_NOK]. wp_step. apply wpr_restore. wp_step. eauto 8. }
  intros k Hku Ebox Enode. change (negb (LOS_OK =? LOS_OK)) with false. cbv iota. rewrite Enode.
  pose proof Hku as (l1 & l2 & Eu)%list_elem_of_split.
  destruct (rep_blocks _ _ _ _ _ _ HR) as [_ HE]. assert (0 ≤ k < num) as Hk by (apply HE; set_solver).
  pose proof (blk_range _ _ _ _ HP k Hk) as Hkr. pose proof (pool_size _ _ _ _ HP) as Hsz.
  pose proof (rep_count _ _ _ _ _ _ HR) as Hcnt. pose proof (prep_cnt _ _ _ _ _ _ HR) as Hc.
  pose proof HR as HR'. rewrite Eu in HR'. destruct (rep_give _ _ _ _ k free l1 l2 HR') as (head & Hh & HR2).
  rewrite <- Eu in HR2.
  wp_step. eapply wpr_load; [exact Hh|]. wp_step.
  apply wpr_store; [apply (pool_word _ _ _ _ HP); lia|]. wp_step.
  apply wpr_store; [apply write_bytes_mapped, (pool_word _ _ _ _ HP); unfold stFreeList; lia|]. wp_step.
  eapply wpr_load; [unfold uwBlkCnt, stFreeList in *; rewrite !read32_w32_ne by lia; exact Hc|].
  assert (u32 (Z.of_nat (length used) - 1) = Z.of_nat (length used) - 1) as ->.
  { unfold u32. apply Z.mod_small. assert (0 < length used)%nat by (rewrite Eu, length_app; simpl; lia). nia. }
  wp_step. apply wpr_store; [do 2 apply write_bytes_mapped; apply (pool_word _ _ _ _ HP); unfold uwBlkCnt; lia|].
  wp_step. apply wpr_restore. wp_step. eexists. split; [done|]. left. exists k, l1, l2.
  split; [done|]. split; [done|]. split; [done|].
  rewrite (w32_comm _ (stFreeList pool)) by (unfold stFreeList; lia). exact HR2.
Qed.
End ops.

(** ** Initialisation *)

Lemma aligned_size x : 0 ≤ x < 2 ^ 32 - 3 →
  LOS_MEMBOX_ALIGNED x = 4 * ((x + 3) / 4) ∧ x ≤ LOS_MEMBOX_ALIGNED x < x + 4.
Proof.
  intros Hx. assert (LOS_MEMBOX_ALIGNED x = 4 * ((x + 3) / 4)) as ->.
  { unfold LOS_MEMBOX_ALIGNED, u32. rewrite Z.mod_small by lia. change (Z.ldiff (x + 3) 3) with (Z.ldiff (x + 3) (Z.ones 2)).
    rewrite Z.ldiff_ones_r, Z.shiftl_mul_pow2, Z.shiftr_div_pow2 by lia.
    change (2 ^ 2) with 4. apply Z.mul_comm. }
  pose proof (Z.div_mod (x + 3) 4 ltac:(lia)). pose proof (Z.mod_pos_bound (x + 3) 4 ltac:(lia)). lia.
Qed.

Lemma wp_MemboxInit_loop s pool size num n : ∀ j m (Q : Z → kstate → Prop),
  0 ≤ j → j + Z.of_nat n < num → 8 ≤ size → 0 < pool → pool + 16 + num * size < 2 ^ 32 →
  mapped m pool (Z.to_nat (16 + num * size)) →
  (∀ m', mapped m' pool (Z.to_nat (16 + num * size)) →
     (∀ t, j ≤ t < j + Z.of_nat n → read32 m' (blk pool size t) = Some (blk pool size (t + 1))) →
     (∀ b, b + 4 ≤ blk pool size j → read32 m' b = read32 m b) →
     Q (blk pool size (j + Z.of_nat n)) (with_ram s 0 m')) →
  wp (LOS_MemboxInit_loop n (blk pool size j) size) Q (with_ram s 0 m).
Proof.
  induction n as [|n IH]; intros j m Q Hj Hn Hsz Had Hend Hm HQ; cbn [LOS_MemboxInit_loop].
  - wp_step. rewrite Z.add_0_r in HQ. apply HQ; [done|intros; lia|done].
  - assert (OS_MEMBOX_NEXT (blk pool size j) size = blk pool size (j + 1)) as ->.
    { unfold OS_MEMBOX_NEXT, u32, blk, sizeof_LOS_MEMBOX_INFO. rewrite Z.mod_small; nia. }
    assert (0 ≤ blk pool size (j + 1) < 2 ^ 32) as Hb by (unfold blk, sizeof_LOS_MEMBOX_INFO; nia).
    wp_step. apply wpr_store.
    { intros i Hi. apply Hm. unfold blk, sizeof_LOS_MEMBOX_INFO in *. nia. }
    wp_step. eapply wpr_load; [by apply read32_w32|].
    apply IH; [lia|lia|done|done|done|by apply write_bytes_mapped|].
    intros m' Hm' Hc Ho. replace (j + Z.of_nat (S n)) with (j + 1 + Z.of_nat n) in * by lia.
    assert (blk pool size j + size = blk pool size (j + 1)) as Hstep by (unfold blk; nia).
    apply HQ; [done| |].
    + intros t Ht. destruct (decide (t = j)) as [->|]; [|apply Hc; lia].
      rewrite Ho by lia. by apply read32_w32.
    + intros b Hb'. rewrite Ho by lia. apply read32_w32_ne. lia.
Qed.

Lemma chain_seqZ m pool size num : ∀ n j,
  j + Z.of_nat n = num → (0 < n)%nat →
  (∀ t, j ≤ t < num - 1 → read32 m (blk pool size t) = Some (blk pool size (t + 1))) →
  read32 m (blk pool size (num - 1)) = Some 0 →
  chain m pool size (blk pool size j) (seqZ j (Z.of_nat n)).
Proof.
  induction n as [|n IH]; intros j Hj Hn Hc Hl; [lia|].
  rewrite Nat2Z.inj_succ, seqZ_cons, Z.pred_succ by lia. simpl. split; [done|].
  destruct n as [|n].
  - exists 0. split; [|done]. replace j with (num - 1) by lia. done.
  - exists (blk pool size (j + 1)). split; [apply Hc; lia|]. rewrite <- Z.add_1_r.
    apply IH; [lia|lia|intros; apply Hc; lia|done].
Qed.

(** The four words of the header and the chain of all blocks make an unused pool. *)
Lemma rep_fresh m pool size num :
  pool_ok m pool size num →
  read32 m (uwBlkCnt pool) = Some 0 →
  read32 m (stFreeList pool) = Some (blk pool size 0) →
  (∀ t, 0 ≤ t < num - 1 → read32 m (blk pool size t) = Some (blk pool size (t + 1))) →
  read32 m (blk pool size (num - 1)) = Some 0 →
  pool_rep m pool size num (seqZ 0 num) [].
Proof.
  intros HP Hcnt Hfree Hc Hl. pose proof (pool_num _ _ _ _ HP). split; [done|by rewrite app_nil_r|done| |done].
  exists (blk pool size 0). split; [done|]. replace num with (Z.of_nat (Z.to_nat num)) at 1 by lia.
  apply (chain_seqZ _ _ _ num); [lia|lia|done|done].
Qed.

(** Chaining the blocks keeps the header. *)
Lemma wp_MemboxInit_chain s m pool size num :
  pool_ok m pool size num →
  read32 m (uwBlkCnt pool) = Some 0 →
  read32 m (stFreeList pool) = Some (blk pool size 0) →
  wp (last ← LOS_MemboxInit_loop (Z.to_nat (num - 1)) (blk pool size 0) size;
      store32 last 0;; LOS_IntRestore 0;; mret LOS_OK)
    (fun ret s' => ∃ m', s' = with_ram s 1 m' ∧ ret = LOS_OK ∧
      pool_rep m' pool size num (seqZ 0 num) []) (with_ram s 0 m).
Proof.
  intros HP Hcnt Hfree. pose proof HP as [Had Hs8 Hn Hend Hm Hsize Hnum].
  unfold sizeof_LOS_MEMBOX_INFO in *.
  wp_step. apply (wp_MemboxInit_loop _ _ _ num); [lia|lia|done|done|done|done|].
  intros m' Hm' Hc Ho. replace (0 + Z.of_nat (Z.to_nat (num - 1))) with (num - 1) in * by lia.
  pose proof (blk_range _ _ _ _ HP (num - 1) ltac:(lia)) as Hl.
  pose proof (blk_range _ _ _ _ HP 0 ltac:(lia)) as Hf.
  wp_step. apply wpr_store; [intros i Hi; apply Hm'; lia|].
  wp_step. apply wpr_restore. wp_step. eexists. split; [done|]. split; [done|].
  assert (∀ a, a + 4 ≤ pool + 16 → read32 (w32 (blk pool size (num - 1)) 0 m') a = read32 m a) as Hh.
  { intros a Ha. rewrite read32_w32_ne by lia. apply Ho. lia. }
  unfold uwBlkSize, uwBlkNum, uwBlkCnt, stFreeList in *. apply rep_fresh; [split| | | |]; try done;
    unfold uwBlkSize, uwBlkNum, uwBlkCnt, stFreeList; rewrite ?Hh by lia; try done.
  - by apply write_bytes_mapped.
  - intros t Ht. rewrite read32_w32_ne; [apply Hc; lia|]. unfold blk. nia.
  - apply read32_w32. lia.
Qed.

(** [LOS_MemboxInit] lays out as many blocks as fit behind the header, all of them free. *)
Lemma wp_LOS_MemboxInit s pool poolSize blkSize :
  let size := LOS_MEMBOX_ALIGNED (blkSize + OS_MEMBOX_NODE_HEAD_SIZE) in
  let num := (poolSize - sizeof_LOS_MEMBOX_INFO) / size in
  0 < pool → sizeof_LOS_MEMBOX_INFO ≤ poolSize → pool + poolSize < 2 ^ 32 →
  mapped (ram s) pool (Z.to_nat poolSize) → 0 < blkSize < 2 ^ 32 - 8 →
  wp (LOS_MemboxInit pool poolSize blkSize) (fun ret s' => ∃ m', s' = with_ram s 1 m' ∧
    if decide (num = 0) then ret = LOS_NOK
    else ret = LOS_OK ∧ pool_rep m' pool size num (seqZ 0 num) []) s.
Proof.
  intros size num Had Hps Hend Hm Hb. unfold sizeof_LOS_MEMBOX_INFO, OS_MEMBOX_NODE_HEAD_SIZE in *.
  destruct (aligned_size (blkSize + 4)) as [Hal Hsz]; [lia|]. fold size in Hal, Hsz.
  assert (8 ≤ size) as Hs8 by lia. clear Hal.
  assert (0 ≤ num) as Hn0 by (apply Z.div_pos; lia).
  assert (num * size ≤ poolSize - 16) as Hns by (rewrite Z.mul_comm; apply Z.mul_div_le; lia).
  assert (∀ a, pool ≤ a → a + 4 ≤ pool + poolSize → mapped (ram s) a 4) as Hw by (intros a ?? i ?; apply Hm; lia).
  unfold LOS_MemboxInit, sizeof_LOS_MEMBOX_INFO, OS_MEMBOX_NODE_HEAD_SIZE.
  destruct (Z.eqb_spec pool 0); [lia|]. destruct (Z.eqb_spec blkSize 0); [lia|].
  destruct (Z.ltb_spec poolSize 16); [lia|]. wp_step. apply with_ram_lock.
  assert (u32 (blkSize + 4) = blkSize + 4) as -> by (apply Z.mod_small; lia). fold size.
  wp_step. apply wpr_store; [apply Hw; unfold uwBlkSize; lia|].
  destruct (Z.eqb_spec size 0); [lia|]. cbn [when]. do 3 wp_step. fold num.
  apply wpr_store; [apply write_bytes_mapped, Hw; unfold uwBlkNum; lia|].
  wp_step. apply wpr_store; [do 2 apply write_bytes_mapped; apply Hw; unfold uwBlkCnt; lia|].
  destruct (Z.eqb_spec num 0) as [Hz|Hz].
  { wp_step. apply wpr_restore. wp_step. eexists. split; [done|]. by rewrite decide_True. }
  assert (u32 (pool + 16) = blk pool size 0) as Hu.
  { unfold blk, u32, sizeof_LOS_MEMBOX_INFO. rewrite Z.mod_small; lia. }
  rewrite Hu. wp_step. apply wpr_store; [do 3 apply write_bytes_mapped; apply Hw; unfold stFreeList; lia|].
  eapply wp_mono; [apply (wp_MemboxInit_chain _ _ pool size num)|];
    [|..|intros ret s' (m' & -> & Hret); exists m'; by rewrite decide_False].
  { split; unfold sizeof_LOS_MEMBOX_INFO, uwBlkSize, uwBlkNum, uwBlkCnt, stFreeList; try lia.
    - do 4 apply write_bytes_mapped. intros i Hi. apply Hm. lia.
    - rewrite !read32_w32_ne by lia. apply read32_w32. lia.
    - rewrite !read32_w32_ne by lia. apply read32_w32. nia. }
  - unfold uwBlkCnt, stFreeList. rewrite read32_w32_ne by lia. by apply read32_w32.
  - apply read32_w32. rewrite <- Hu. apply Z.mod_pos_bound. lia.
Qed.
End rep.
