(* ===== verification/Queue.v ===== *)
(** Message queues (los_queue.c): a ring buffer of fixed-size slots in memory, and the
    tasks that wait to read, to write or for mail memory. *)

From S2P Require Import Prelude DList Kernel Tick SortLink Mem Pmcu Sched Event Task Membox.

Section Queue.
  Context `{Config} `{Malloc} `{Symbols}.

Definition LOS_MOD_QUE : Z := 0x6.
Definition LOS_ERRNO_QUEUE_MAXNUM_ZERO : Z := LOS_ERRNO_OS_ERROR LOS_MOD_QUE 0x00.
Definition LOS_ERRNO_QUEUE_NO_MEMORY : Z := LOS_ERRNO_OS_ERROR LOS_MOD_QUE 0x01.
Definition LOS_ERRNO_QUEUE_CREATE_NO_MEMORY : Z := LOS_ERRNO_OS_ERROR LOS_MOD_QUE 0x02.
Definition LOS_ERRNO_QUEUE_SIZE_TOO_BIG : Z := LOS_ERRNO_OS_ERROR LOS_MOD_QUE 0x03.
Definition LOS_ERRNO_QUEUE_CB_UNAVAILABLE : Z := LOS_ERRNO_OS_ERROR LOS_MOD_QUE 0x04.
Definition LOS_ERRNO_QUEUE_NOT_FOUND : Z := LOS_ERRNO_OS_ERROR LOS_MOD_QUE 0x05.
Definition LOS_ERRNO_QUEUE_PEND_IN_LOCK : Z := LOS_ERRNO_OS_ERROR LOS_MOD_QUE 0x06.
Definition LOS_ERRNO_QUEUE_TIMEOUT : Z := LOS_ERRNO_OS_ERROR LOS_MOD_QUE 0x07.
Definition LOS_ERRNO_QUEUE_IN_TSKUSE : Z := LOS_ERRNO_OS_ERROR LOS_MOD_QUE 0x08.
Definition LOS_ERRNO_QUEUE_WRITE_IN_INTERRUPT : Z := LOS_ERRNO_OS_ERROR LOS_MOD_QUE 0x09.
Definition LOS_ERRNO_QUEUE_NOT_CREATE : Z := LOS_ERRNO_OS_ERROR LOS_MOD_QUE 0x0a.
Definition LOS_ERRNO_QUEUE_IN_TSKWRITE : Z := LOS_ERRNO_OS_ERROR LOS_MOD_QUE 0x0b.
Definition LOS_ERRNO_QUEUE_CREAT_PTR_NULL : Z := LOS_ERRNO_OS_ERROR LOS_MOD_QUE 0x0c.
Definition LOS_ERRNO_QUEUE_PARA_ISZERO : Z := LOS_ERRNO_OS_ERROR LOS_MOD_QUE 0x0d.
Definition LOS_ERRNO_QUEUE_INVALID : Z := LOS_ERRNO_OS_ERROR LOS_MOD_QUE 0x0e.
Definition LOS_ERRNO_QUEUE_READ_PTR_NULL : Z := LOS_ERRNO_OS_ERROR LOS_MOD_QUE 0x0f.
Definition LOS_ERRNO_QUEUE_READSIZE_ISZERO : Z := LOS_ERRNO_OS_ERROR LOS_MOD_QUE 0x10.
Definition LOS_ERRNO_QUEUE_WRITE_PTR_NULL : Z := LOS_ERRNO_OS_ERROR LOS_MOD_QUE 0x12.
Definition LOS_ERRNO_QUEUE_WRITESIZE_ISZERO : Z := LOS_ERRNO_OS_ERROR LOS_MOD_QUE 0x13.
Definition LOS_ERRNO_QUEUE_WRITE_SIZE_TOO_BIG : Z := LOS_ERRNO_OS_ERROR LOS_MOD_QUE 0x15.
Definition LOS_ERRNO_QUEUE_ISFULL : Z := LOS_ERRNO_OS_ERROR LOS_MOD_QUE 0x16.
Definition LOS_ERRNO_QUEUE_PTR_NULL : Z := LOS_ERRNO_OS_ERROR LOS_MOD_QUE 0x17.
Definition LOS_ERRNO_QUEUE_READ_IN_INTERRUPT : Z := LOS_ERRNO_OS_ERROR LOS_MOD_QUE 0x18.
Definition LOS_ERRNO_QUEUE_MAIL_HANDLE_INVALID : Z := LOS_ERRNO_OS_ERROR LOS_MOD_QUE 0x19.
Definition LOS_ERRNO_QUEUE_MAIL_PTR_INVALID : Z := LOS_ERRNO_OS_ERROR LOS_MOD_QUE 0x1a.
Definition LOS_ERRNO_QUEUE_MAIL_FREE_ERROR : Z := LOS_ERRNO_OS_ERROR LOS_MOD_QUE 0x1b.
Definition LOS_ERRNO_QUEUE_ISEMPTY : Z := LOS_ERRNO_OS_ERROR LOS_MOD_QUE 0x1d.
Definition LOS_ERRNO_QUEUE_BUFFER_SIZE_TOO_BIG : Z := LOS_ERRNO_OS_ERROR LOS_MOD_QUE 0x20.

Definition OS_QUEUE_UNUSED : Z := 0.
Definition OS_QUEUE_INUSED : Z := 1.
Definition OS_QUEUE_READ : Z := 0.
Definition OS_QUEUE_WRITE : Z := 1.
Definition OS_QUEUE_HEAD : Z := 0.
Definition OS_QUEUE_TAIL : Z := 1.
Definition OS_QUEUE_NOT_POINT : Z := 0.
Definition OS_QUEUE_POINT : Z := 1.

Definition OS_QUEUE_OPERATE_TYPE (ReadOrWrite HeadOrTail PointOrNot : Z) : Z :=
  Z.lor (Z.lor (Z.shiftl PointOrNot 2) (Z.shiftl HeadOrTail 1)) ReadOrWrite.
Definition OS_QUEUE_READ_WRITE_GET (type : Z) : Z := Z.land type 0x01.
Definition OS_QUEUE_OPERATE_GET (type : Z) : Z := Z.land type 0x03.
Definition OS_QUEUE_READ_HEAD : Z := Z.lor OS_QUEUE_READ (Z.shiftl OS_QUEUE_HEAD 1).
Definition OS_QUEUE_WRITE_HEAD : Z := Z.lor OS_QUEUE_WRITE (Z.shiftl OS_QUEUE_HEAD 1).
Definition OS_QUEUE_WRITE_TAIL : Z := Z.lor OS_QUEUE_WRITE (Z.shiftl OS_QUEUE_TAIL 1).
Definition OS_QUEUE_IS_POINT (type : Z) : bool := flag type 0x04.
Definition OS_QUEUE_IS_READ (type : Z) : bool := OS_QUEUE_READ_WRITE_GET type =? OS_QUEUE_READ.
Definition OS_QUEUE_IS_WRITE (type : Z) : bool := OS_QUEUE_READ_WRITE_GET type =? OS_QUEUE_WRITE.

(** [*GET_QUEUE_HANDLE(i)]. *)
Definition get_queue (i : Z) : K LosQueueCB :=
  a ← gets g_allQueue; unwrap OutOfBounds (a !! i).
Definition mod_queue (i : Z) (f : LosQueueCB → LosQueueCB) : K unit :=
  c ← get_queue i;
  modify (fun s => s <| g_allQueue := <[i := f c]> (g_allQueue s) |>).

(** [GET_QUEUE_LIST(ptr)]. *)
Definition GET_QUEUE_LIST (l : lnode) : K Z :=
  match l with
  | ReadWriteList q rw => if rw =? OS_QUEUE_WRITE then mret q else fail NullDeref
  | _ => fail NullDeref
  end.

(** [readWriteableCnt[rw]]. *)
Definition readWriteableCnt (q : LosQueueCB) (rw : Z) : Z :=
  if rw =? OS_QUEUE_READ then readableCnt q else writableCnt q.
Definition set_readWriteableCnt (rw v : Z) (q : LosQueueCB) : LosQueueCB :=
  if rw =? OS_QUEUE_READ then q <| readableCnt := v |> else q <| writableCnt := v |>.

(** ** Initialisation and creation *)

Definition zeroQueue : LosQueueCB := mkQueue 0 None 0 0 0 0 0 0 0 0.

Definition OsQueueInit : K Z :=
  if LOSCFG_BASE_IPC_QUEUE_LIMIT =? 0 then mret LOS_ERRNO_QUEUE_MAXNUM_ZERO
  else
    p ← LOS_MemAlloc (LOSCFG_BASE_IPC_QUEUE_LIMIT * sizeof_LosQueueCB);
    if p =? 0 then mret LOS_ERRNO_QUEUE_NO_MEMORY
    else
      modify (fun s => s <| g_allQueue :=
        list_to_map ((fun i => (i, zeroQueue)) <$> seqZ 0 LOSCFG_BASE_IPC_QUEUE_LIMIT) |>);;
      list_init FreeQueueList;;
      for_loop 0 (Z.to_nat LOSCFG_BASE_IPC_QUEUE_LIMIT) (fun index =>
        mod_queue index (fun q => q <| queueID := index |>);;
        list_tail_insert FreeQueueList (ReadWriteList index OS_QUEUE_WRITE));;
      mret LOS_OK.

(** [OsQueueCreate]: the error code and [*queueID]; [out] says whether the pointer
    [queueID] is not NULL. *)
Definition OsQueueCreate (name : option string) (len : Z) (out : bool) (maxMsgSize : Z)
    : K (Z * option Z) :=
  if negb out then mret (LOS_ERRNO_QUEUE_CREAT_PTR_NULL, None)
  else if OS_NULL_SHORT - 4 <? maxMsgSize then mret (LOS_ERRNO_QUEUE_SIZE_TOO_BIG, None)
  else if (len =? 0) || (maxMsgSize =? 0) then mret (LOS_ERRNO_QUEUE_PARA_ISZERO, None)
  else
    let msgSize := u16 (maxMsgSize + 4) in
    if UINT32_MAX / msgSize <? len then mret (LOS_ERRNO_QUEUE_SIZE_TOO_BIG, None)
    else
      mem ← LOS_MemAlloc (u32 (len * msgSize));
      if mem =? 0 then mret (LOS_ERRNO_QUEUE_CREATE_NO_MEMORY, None)
      else
        intSave ← LOS_IntLock;
        e ← list_empty FreeQueueList;
        if (e : bool) then
          LOS_IntRestore intSave;;
          LOS_MemFree mem;;
          mret (LOS_ERRNO_QUEUE_CB_UNAVAILABLE, None)
        else
          unusedQueue ← list_first FreeQueueList;
          list_delete unusedQueue;;
          queueCB ← GET_QUEUE_LIST unusedQueue;
          mod_queue queueCB (fun q => q
            <| queueName := name |> <| queueLen := len |> <| queueSize := msgSize |>
            <| queue := mem |> <| queueState := OS_QUEUE_INUSED |>
            <| readableCnt := 0 |> <| writableCnt := len |>
            <| queueHead := 0 |> <| queueTail := 0 |>);;
          list_init (ReadWriteList queueCB OS_QUEUE_READ);;
          list_init (ReadWriteList queueCB OS_QUEUE_WRITE);;
          list_init (MemList queueCB);;
          LOS_IntRestore intSave;;
          q ← get_queue queueCB;
          mret (LOS_OK, Some (queueID q)).

Definition LOS_QueueCreate (name : option string) (len : Z) (out : bool) (flags maxMsgSize : Z)
    : K (Z * option Z) :=
  OsQueueCreate name len out maxMsgSize.

(** ** Reading and writing *)

(** [bufferAddr] of a read is an address; [bufferSize] is [*bufferSize] or [None] when
    the pointer is NULL. *)
Definition OsQueueReadParameterCheck (qID bufferAddr : Z) (bufferSize : option Z)
    (timeOut : Z) : K Z :=
  if LOSCFG_BASE_IPC_QUEUE_LIMIT <=? qID then mret LOS_ERRNO_QUEUE_INVALID
  else
    match bufferSize with
    | None => mret LOS_ERRNO_QUEUE_READ_PTR_NULL
    | Some size =>
        if bufferAddr =? 0 then mret LOS_ERRNO_QUEUE_READ_PTR_NULL
        else if size =? 0 then mret LOS_ERRNO_QUEUE_READSIZE_ISZERO
        else if negb (timeOut =? LOS_NO_WAIT) then
          active ← ArchIsIntActive;
          mret (if (active : bool) then LOS_ERRNO_QUEUE_READ_IN_INTERRUPT else LOS_OK)
        else mret LOS_OK
    end.

Definition OsQueueWriteParameterCheck (qID bufferAddr bufferSize timeOut : Z) : K Z :=
  if LOSCFG_BASE_IPC_QUEUE_LIMIT <=? qID then mret LOS_ERRNO_QUEUE_INVALID
  else if bufferAddr =? 0 then mret LOS_ERRNO_QUEUE_WRITE_PTR_NULL
  else if bufferSize =? 0 then mret LOS_ERRNO_QUEUE_WRITESIZE_ISZERO
  else if negb (timeOut =? LOS_NO_WAIT) then
    active ← ArchIsIntActive;
    mret (if (active : bool) then LOS_ERRNO_QUEUE_WRITE_IN_INTERRUPT else LOS_OK)
  else mret LOS_OK.

(** The [switch] of [OsQueueBufferOperate]: the slot the operation uses and the control
    block with the head or tail moved. *)
Definition queue_position (q : LosQueueCB) (operateType : Z) : option (Z * LosQueueCB) :=
  let op := OS_QUEUE_OPERATE_GET operateType in
  if op =? OS_QUEUE_READ_HEAD then
    Some (queueHead q,
          q <| queueHead := if queueHead q + 1 =? queueLen q then 0 else queueHead q + 1 |>)
  else if op =? OS_QUEUE_WRITE_HEAD then
    let h := if queueHead q =? 0 then queueLen q - 1 else queueHead q - 1 in
    Some (h, q <| queueHead := h |>)
  else if op =? OS_QUEUE_WRITE_TAIL then
    Some (queueTail q,
          q <| queueTail := if queueTail q + 1 =? queueLen q then 0 else queueTail q + 1 |>)
  else None.

(** The result is [*bufferSize].  Reads store to the address of a [BufMem]. *)
Definition OsQueueBufferOperate (queueCB operateType : Z) (buffer : cbuf) (bufferSize : Z)
    : K Z :=
  q ← get_queue queueCB;
  match queue_position q operateType with
  | None => mret bufferSize
  | Some (pos, q') =>
      mod_queue queueCB (fun _ => q');;
      let queueNode := u32 (queue q + pos * queueSize q) in
      let sizeAddr := u32 (queueNode + queueSize q - 4) in
      if OS_QUEUE_IS_POINT operateType then
        if OS_QUEUE_IS_READ operateType then
          w ← load32 queueNode;
          match buffer with
          | BufMem a => store32 a w;; mret bufferSize
          | BufLocal _ => fail OutOfBounds
          end
        else
          bs ← load_cbuf buffer 4;
          store_bytes queueNode bs;; mret bufferSize
      else if OS_QUEUE_IS_READ operateType then
        n ← load32 sizeAddr;
        let msgDataSize := if bufferSize <? n then bufferSize else n in
        match buffer with
        | BufMem a =>
            rc ← memcpy_s a bufferSize (BufMem queueNode) msgDataSize;
            mret (if rc =? EOK then msgDataSize else bufferSize)
        | BufLocal _ => fail OutOfBounds
        end
      else
        store32 sizeAddr bufferSize;;
        memcpy_s queueNode (queueSize q) buffer bufferSize;;
        mret bufferSize
  end.

Definition OsQueueOperateParamCheck (q : LosQueueCB) (operateType bufferSize : Z) : Z :=
  if queueState q =? OS_QUEUE_UNUSED then LOS_ERRNO_QUEUE_NOT_CREATE
  else if OS_QUEUE_IS_WRITE operateType && (u32 (queueSize q - 4) <? bufferSize)
  then LOS_ERRNO_QUEUE_WRITE_SIZE_TOO_BIG
  else if SECUREC_MEM_MAX_LEN <=? bufferSize then LOS_ERRNO_QUEUE_BUFFER_SIZE_TOO_BIG
  else LOS_OK.

(** [OsQueueOperate] from the buffer operation on, with interrupts locked: the error
    code and [*bufferSize]. *)
Definition OsQueueOperate_finish (qID operateType : Z) (buffer : cbuf) (bufferSize intSave : Z)
    : K (Z * Z) :=
  let readWriteTmp := 1 - OS_QUEUE_READ_WRITE_GET operateType in
  size ← OsQueueBufferOperate qID operateType buffer bufferSize;
  e ← list_empty (ReadWriteList qID readWriteTmp);
  if negb e then
    first ← list_first (ReadWriteList qID readWriteTmp);
    resumedTask ← OS_TCB_FROM_PENDLIST first;
    OsSchedTaskWake resumedTask;;
    LOS_IntRestore intSave;;
    LOS_Schedule;;
    mret (LOS_OK, size)
  else
    mod_queue qID (fun q =>
      set_readWriteableCnt readWriteTmp (u16 (readWriteableCnt q readWriteTmp + 1)) q);;
    LOS_IntRestore intSave;;
    mret (LOS_OK, size).

(** [OsQueueOperate] after its first [LOS_Schedule()]. *)
Definition OsQueueOperate_resume (runTsk qID operateType : Z) (buffer : cbuf) (bufferSize : Z)
    : K (Z * Z) :=
  intSave ← LOS_IntLock;
  t ← status_flag runTsk OS_TASK_STATUS_TIMEOUT;
  if (t : bool) then
    status_clr runTsk OS_TASK_STATUS_TIMEOUT;;
    LOS_IntRestore intSave;;
    mret (LOS_ERRNO_QUEUE_TIMEOUT, bufferSize)
  else OsQueueOperate_finish qID operateType buffer bufferSize intSave.

Definition OsQueueOperate (qID operateType : Z) (buffer : cbuf) (bufferSize timeOut : Z)
    : K (outcome (Z * Z)) :=
  let readWrite := OS_QUEUE_READ_WRITE_GET operateType in
  intSave ← LOS_IntLock;
  q ← get_queue qID;
  let ret := OsQueueOperateParamCheck q operateType bufferSize in
  if negb (ret =? LOS_OK) then
    LOS_IntRestore intSave;; mret (Done (ret, bufferSize))
  else if readWriteableCnt q readWrite =? 0 then
    if timeOut =? LOS_NO_WAIT then
      LOS_IntRestore intSave;;
      mret (Done (if OS_QUEUE_IS_READ operateType then LOS_ERRNO_QUEUE_ISEMPTY
                  else LOS_ERRNO_QUEUE_ISFULL, bufferSize))
    else
      lock ← gets g_losTaskLock;
      if negb (lock =? 0) then
        LOS_IntRestore intSave;; mret (Done (LOS_ERRNO_QUEUE_PEND_IN_LOCK, bufferSize))
      else
        runTsk ← get_runTask;
        OsSchedTaskWait (ReadWriteList qID readWrite) timeOut;;
        LOS_IntRestore intSave;;
        schedule_then (OsQueueOperate_resume runTsk qID operateType buffer bufferSize)
  else
    mod_queue qID (fun q =>
      set_readWriteableCnt readWrite (u16 (readWriteableCnt q readWrite - 1)) q);;
    r ← OsQueueOperate_finish qID operateType buffer bufferSize intSave;
    mret (Done r).

Definition LOS_QueueReadCopy (qID bufferAddr : Z) (bufferSize : option Z) (timeOut : Z)
    : K (outcome (Z * Z)) :=
  ret ← OsQueueReadParameterCheck qID bufferAddr bufferSize timeOut;
  if negb (ret =? LOS_OK) then mret (Done (ret, default 0 bufferSize))
  else OsQueueOperate qID
         (OS_QUEUE_OPERATE_TYPE OS_QUEUE_READ OS_QUEUE_HEAD OS_QUEUE_NOT_POINT)
         (BufMem bufferAddr) (default 0 bufferSize) timeOut.

(** [buffer] is the object that [bufferAddr] points to. *)
Definition cbuf_addr (b : cbuf) : Z := match b with BufMem a => a | BufLocal _ => 1 end.

Definition LOS_QueueWriteHeadCopy (qID : Z) (buffer : cbuf) (bufferSize timeOut : Z)
    : K (outcome (Z * Z)) :=
  ret ← OsQueueWriteParameterCheck qID (cbuf_addr buffer) bufferSize timeOut;
  if negb (ret =? LOS_OK) then mret (Done (ret, bufferSize))
  else OsQueueOperate qID
         (OS_QUEUE_OPERATE_TYPE OS_QUEUE_WRITE OS_QUEUE_HEAD OS_QUEUE_NOT_POINT)
         buffer bufferSize timeOut.

Definition LOS_QueueWriteCopy (qID : Z) (buffer : cbuf) (bufferSize timeOut : Z)
    : K (outcome (Z * Z)) :=
  ret ← OsQueueWriteParameterCheck qID (cbuf_addr buffer) bufferSize timeOut;
  if negb (ret =? LOS_OK) then mret (Done (ret, bufferSize))
  else OsQueueOperate qID
         (OS_QUEUE_OPERATE_TYPE OS_QUEUE_WRITE OS_QUEUE_TAIL OS_QUEUE_NOT_POINT)
         buffer bufferSize timeOut.

Definition LOS_QueueRead (qID bufferAddr bufferSize timeOut : Z) : K (outcome (Z * Z)) :=
  ret ← OsQueueReadParameterCheck qID bufferAddr (Some bufferSize) timeOut;
  if negb (ret =? LOS_OK) then mret (Done (ret, bufferSize))
  else OsQueueOperate qID
         (OS_QUEUE_OPERATE_TYPE OS_QUEUE_READ OS_QUEUE_HEAD OS_QUEUE_POINT)
         (BufMem bufferAddr) bufferSize timeOut.

(** The message of a pointer write is the pointer [bufferAddr] itself. *)
Definition LOS_QueueWrite (qID bufferAddr bufferSize timeOut : Z) : K (outcome (Z * Z)) :=
  ret ← OsQueueWriteParameterCheck qID bufferAddr 4 timeOut;
  if negb (ret =? LOS_OK) then mret (Done (ret, 4))
  else OsQueueOperate qID
         (OS_QUEUE_OPERATE_TYPE OS_QUEUE_WRITE OS_QUEUE_TAIL OS_QUEUE_POINT)
         (BufLocal (le_split 4 bufferAddr)) 4 timeOut.

Definition LOS_QueueWriteHead (qID bufferAddr bufferSize timeOut : Z) : K (outcome (Z * Z)) :=
  if bufferAddr =? 0 then mret (Done (LOS_ERRNO_QUEUE_WRITE_PTR_NULL, 4))
  else LOS_QueueWriteHeadCopy qID (BufLocal (le_split 4 bufferAddr)) 4 timeOut.

(** ** Mail *)

(** [OsQueueMailAlloc] after [LOS_Schedule()]. *)
Definition OsQueueMailAlloc_resume (runTsk : Z) : K Z :=
  intSave ← LOS_IntLock;
  c ← get_tcb runTsk;
  if flag (taskStatus c) OS_TASK_STATUS_TIMEOUT then
    status_clr runTsk OS_TASK_STATUS_TIMEOUT;;
    LOS_IntRestore intSave;;
    mret 0
  else
    mod_tcb runTsk (fun c => c <| msg := 0 |>);;
    LOS_IntRestore intSave;;
    mret (msg c).

Definition OsQueueMailAlloc (qID mailPool timeOut : Z) : K (outcome Z) :=
  if LOSCFG_BASE_IPC_QUEUE_LIMIT <=? qID then mret (Done 0)
  else if mailPool =? 0 then mret (Done 0)
  else
    active ← ArchIsIntActive;
    if negb (timeOut =? LOS_NO_WAIT) && active then mret (Done 0)
    else
      intSave ← LOS_IntLock;
      q ← get_queue qID;
      if queueState q =? OS_QUEUE_UNUSED then LOS_IntRestore intSave;; mret (Done 0)
      else
        mem ← LOS_MemboxAlloc mailPool;
        if mem =? 0 then
          if timeOut =? LOS_NO_WAIT then LOS_IntRestore intSave;; mret (Done 0)
          else
            runTsk ← get_runTask;
            OsSchedTaskWait (MemList qID) timeOut;;
            LOS_IntRestore intSave;;
            schedule_then (OsQueueMailAlloc_resume runTsk)
        else
          LOS_IntRestore intSave;;
          mret (Done mem).

Definition OsQueueMailFree (qID mailPool mailMem : Z) : K Z :=
  if LOSCFG_BASE_IPC_QUEUE_LIMIT <=? qID then mret LOS_ERRNO_QUEUE_MAIL_HANDLE_INVALID
  else if mailPool =? 0 then mret LOS_ERRNO_QUEUE_MAIL_PTR_INVALID
  else
    intSave ← LOS_IntLock;
    q ← get_queue qID;
    if queueState q =? OS_QUEUE_UNUSED then
      LOS_IntRestore intSave;; mret LOS_ERRNO_QUEUE_NOT_CREATE
    else
      e ← list_empty (MemList qID);
      if negb e then
        first ← list_first (MemList qID);
        resumedTask ← OS_TCB_FROM_PENDLIST first;
        mod_tcb resumedTask (fun c => c <| msg := mailMem |>);;
        OsSchedTaskWake resumedTask;;
        LOS_IntRestore intSave;;
        LOS_Schedule;;
        mret LOS_OK
      else
        r ← LOS_MemboxFree mailPool mailMem;
        LOS_IntRestore intSave;;
        mret (if negb (r =? 0) then LOS_ERRNO_QUEUE_MAIL_FREE_ERROR else LOS_OK).

(** ** Deletion and information *)

Definition LOS_QueueDelete (qID : Z) : K Z :=
  if LOSCFG_BASE_IPC_QUEUE_LIMIT <=? qID then mret LOS_ERRNO_QUEUE_NOT_FOUND
  else
    intSave ← LOS_IntLock;
    q ← get_queue qID;
    r ← list_empty (ReadWriteList qID OS_QUEUE_READ);
    w ← list_empty (ReadWriteList qID OS_QUEUE_WRITE);
    m ← list_empty (MemList qID);
    if queueState q =? OS_QUEUE_UNUSED then
      LOS_IntRestore intSave;; mret LOS_ERRNO_QUEUE_NOT_CREATE
    else if negb r || negb w || negb m then
      LOS_IntRestore intSave;; mret LOS_ERRNO_QUEUE_IN_TSKUSE
    else if negb (writableCnt q + readableCnt q =? queueLen q) then
      LOS_IntRestore intSave;; mret LOS_ERRNO_QUEUE_IN_TSKWRITE
    else
      mod_queue qID (fun q => q <| queue := 0 |> <| queueName := None |>
                                <| queueState := OS_QUEUE_UNUSED |>);;
      list_add FreeQueueList (ReadWriteList qID OS_QUEUE_WRITE);;
      LOS_IntRestore intSave;;
      LOS_MemFree (queue q).

(** The task identifiers of a wait list. *)
Fixpoint wait_tasks (nodes : list lnode) : K (list Z) :=
  match nodes with
  | [] => mret []
  | n :: ns =>
      t ← OS_TCB_FROM_PENDLIST n;
      c ← get_tcb t;
      ts ← wait_tasks ns;
      mret (taskID c :: ts)
  end.

Definition wait_list_tasks (hd : lnode) : K (list Z) :=
  h ← gets dlheap;
  ns ← unwrap NullDeref (LOS_DL_LIST_FOR_EACH (size h) h hd);
  wait_tasks ns.

(** The bit array of task identifiers: [a[id / 32] |= 1 << (id % 32)]. *)
Definition wait_bits (ids : list Z) (word : Z) : Z :=
  foldl (fun acc id => if id / 32 =? word then Z.lor acc (Z.shiftl 1 (id mod 32)) else acc)
    0 ids.

Record QUEUE_INFO_S := mkQueueInfo {
  info_queueID : Z;
  info_queueLen : Z;
  info_queueSize : Z;
  info_queueHead : Z;
  info_queueTail : Z;
  info_writableCnt : Z;
  info_readableCnt : Z;
  info_waitReadTask : Z → Z;
  info_waitWriteTask : Z → Z;
  info_waitMemTask : Z → Z
}.

Definition LOS_QueueInfoGet (qID : Z) (out : bool) : K (Z * option QUEUE_INFO_S) :=
  if negb out then mret (LOS_ERRNO_QUEUE_PTR_NULL, None)
  else if LOSCFG_BASE_IPC_QUEUE_LIMIT <=? qID then mret (LOS_ERRNO_QUEUE_INVALID, None)
  else
    intSave ← LOS_IntLock;
    q ← get_queue qID;
    if queueState q =? OS_QUEUE_UNUSED then
      LOS_IntRestore intSave;; mret (LOS_ERRNO_QUEUE_NOT_CREATE, None)
    else
      rs ← wait_list_tasks (ReadWriteList qID OS_QUEUE_READ);
      ws ← wait_list_tasks (ReadWriteList qID OS_QUEUE_WRITE);
      ms ← wait_list_tasks (MemList qID);
      LOS_IntRestore intSave;;
      mret (LOS_OK, Some (mkQueueInfo qID (queueLen q) (queueSize q) (queueHead q)
        (queueTail q) (writableCnt q) (readableCnt q)
        (wait_bits rs) (wait_bits ws) (wait_bits ms))).

End Queue.
