(* ===== verification/QueueRing.v ===== *)
(** The ring buffer of a message queue holds a sequence of messages: the copying reads and
    writes of los_queue.c refine the operations of a bounded double-ended queue. *)

From S2P Require Import Prelude DList Kernel Tick SortLink Mem Pmcu Sched SchedInv Event Task Membox.
From S2P Require Import Queue Bytes.

(** ** The representation *)

(** A slot of [size] bytes at [a] holds the message [msg]: its bytes first, and its length in
    the last word. *)
Definition msg_at (m : gmap Z Z) (a size : Z) (msg : list Z) : Prop :=
  Z.of_nat (length msg) ≤ size - 4 ∧ read_bytes m a (length msg) = Some msg ∧
  read32 m (a + size - 4) = Some (Z.of_nat (length msg)).

Definition slot_index (q : LosQueueCB) (k : Z) : Z := (queueHead q + k) mod queueLen q.
Definition slot_addr (q : LosQueueCB) (p : Z) : Z := queue q + p * queueSize q.

(** The buffer of a queue: slots in memory. *)
Record ring_ok (m : gmap Z Z) (q : LosQueueCB) : Prop := {
  ring_state : queueState q = OS_QUEUE_INUSED;
  ring_len : 0 < queueLen q < 2 ^ 16;
  ring_size : 4 < queueSize q < 2 ^ 16;
  ring_addr : 0 < queue q ∧ queue q + queueLen q * queueSize q ≤ 2 ^ 32;
  ring_mapped : mapped m (queue q) (Z.to_nat (queueLen q * queueSize q));
  ring_head : 0 ≤ queueHead q < queueLen q
}.
#[global] Arguments ring_state {_ _} _.
#[global] Arguments ring_len {_ _} _.
#[global] Arguments ring_size {_ _} _.
#[global] Arguments ring_addr {_ _} _.
#[global] Arguments ring_mapped {_ _} _.
#[global] Arguments ring_head {_ _} _.

(** The queue [q] holds [msgs], the oldest message first. *)
Record queue_rep (m : gmap Z Z) (q : LosQueueCB) (msgs : list (list Z)) : Prop := {
  rep_ring : ring_ok m q;
  rep_tail : queueTail q = slot_index q (Z.of_nat (length msgs));
  rep_readable : readableCnt q = Z.of_nat (length msgs);
  rep_writable : writableCnt q = queueLen q - Z.of_nat (length msgs);
  rep_fits : Z.of_nat (length msgs) ≤ queueLen q;
  rep_msgs : ∀ k msg, msgs !! k = Some msg →
    msg_at m (slot_addr q (slot_index q (Z.of_nat k))) (queueSize q) msg
}.
#[global] Arguments rep_ring {_ _ _} _.
#[global] Arguments rep_tail {_ _ _} _.
#[global] Arguments rep_readable {_ _ _} _.
#[global] Arguments rep_writable {_ _ _} _.
#[global] Arguments rep_fits {_ _ _} _.
#[global] Arguments rep_msgs {_ _ _} _.

(** ** Slots *)

Section slots.
  Context (m : gmap Z Z) (q : LosQueueCB) (HR : ring_ok m q).

Lemma slot_index_bound k : 0 ≤ slot_index q k < queueLen q.
Proof. apply Z.mod_pos_bound. destruct (ring_len HR). lia. Qed.

Lemma slot_index_inj j k :
  0 ≤ j < queueLen q → 0 ≤ k < queueLen q → slot_index q j = slot_index q k → j = k.
Proof.
  pose proof (ring_len HR). pose proof (ring_head HR). unfold slot_index. intros Hj Hk E.
  rewrite !Zmod_eq_full in E by lia.
  assert (0 ≤ (queueHead q + j) / queueLen q ≤ 1) as Hqj.
  { split; [apply Z.div_pos; lia|]. apply Z.lt_succ_r, Z.div_lt_upper_bound; lia. }
  assert (0 ≤ (queueHead q + k) / queueLen q ≤ 1) as Hqk.
  { split; [apply Z.div_pos; lia|]. apply Z.lt_succ_r, Z.div_lt_upper_bound; lia. }
  nia.
Qed.

Lemma slot_range p : 0 ≤ p < queueLen q →
  queue q ≤ slot_addr q p ∧ slot_addr q p + queueSize q ≤ queue q + queueLen q * queueSize q.
Proof. pose proof (ring_size HR). unfold slot_addr. nia. Qed.

Lemma slot_apart p p' : p ≠ p' →
  slot_addr q p + queueSize q ≤ slot_addr q p' ∨ slot_addr q p' + queueSize q ≤ slot_addr q p.
Proof. pose proof (ring_size HR). unfold slot_addr. nia. Qed.

Lemma slot_mapped p n : 0 ≤ p < queueLen q → Z.of_nat n ≤ queueSize q → mapped m (slot_addr q p) n.
Proof.
  intros Hp Hn i Hi. destruct (slot_range p Hp). apply (ring_mapped HR).
  pose proof (ring_len HR). pose proof (ring_size HR). nia.
Qed.
End slots.

(** The memory after [bs] is written to the slot at [a]. *)
Definition put_msg (m : gmap Z Z) (a size : Z) (bs : list Z) : gmap Z Z :=
  write_bytes a bs (write_bytes (a + size - 4) (le_split 4 (Z.of_nat (length bs))) m).

Lemma put_msg_at m a size bs :
  Z.of_nat (length bs) ≤ size - 4 → size < 2 ^ 16 → msg_at (put_msg m a size bs) a size bs.
Proof.
  intros Hl Hs. unfold put_msg. split; [done|]. split; [apply read_write_same|].
  rewrite read32_other by lia. apply read32_write. lia.
Qed.

Lemma put_msg_other m a size bs i :
  Z.of_nat (length bs) ≤ size - 4 → i < a ∨ a + size ≤ i → put_msg m a size bs !! i = m !! i.
Proof.
  intros Hl Hi. unfold put_msg. rewrite write_bytes_other by lia.
  apply write_bytes_other. rewrite le_split_length. lia.
Qed.

Lemma msg_at_ext m m' a size msg :
  (∀ i, a ≤ i < a + size → m' !! i = m !! i) → 4 ≤ size → msg_at m a size msg → msg_at m' a size msg.
Proof.
  intros He Hs (Hl & Hb & Hn). split; [done|]. split.
  - rewrite (read_bytes_ext m) by (intros; apply He; lia). done.
  - unfold read32. rewrite (read_bytes_ext m) by (intros; apply He; lia). done.
Qed.

(** ** Moving head and tail *)

Lemma next_index p len : 0 ≤ p < len → (if p + 1 =? len then 0 else p + 1) = (p + 1) mod len.
Proof.
  intros Hp. destruct (Z.eqb_spec (p + 1) len) as [->|]; [by rewrite Z_mod_same_full|].
  symmetry. apply Z.mod_small. lia.
Qed.

Lemma prev_index p len : 0 ≤ p < len → (if p =? 0 then len - 1 else p - 1) = (p - 1) mod len.
Proof.
  intros Hp. destruct (Z.eqb_spec p 0) as [->|].
  - replace (0 - 1) with (len - 1 + (-1) * len) by lia. rewrite Z.mod_add by lia.
    symmetry. apply Z.mod_small. lia.
  - symmetry. apply Z.mod_small. lia.
Qed.

(** The control block with other positions and counters. *)
Definition ring_at (q : LosQueueCB) (hd tl r w : Z) : LosQueueCB :=
  q <| queueHead := hd |> <| queueTail := tl |> <| readableCnt := r |> <| writableCnt := w |>.

Lemma ring_ok_at m m' q hd tl r w :
  ring_ok m q → (∀ i, queue q ≤ i < queue q + queueLen q * queueSize q → is_Some (m' !! i)) →
  0 ≤ hd < queueLen q → ring_ok m' (ring_at q hd tl r w).
Proof.
  intros [R1 R2 R3 R4 R5 R6] Hm Hh. constructor; try done. intros i Hi. apply Hm.
  change (queue (ring_at q hd tl r w)) with (queue q) in Hi.
  change (queueLen (ring_at q hd tl r w)) with (queueLen q) in Hi.
  change (queueSize (ring_at q hd tl r w)) with (queueSize q) in Hi. nia.
Qed.

Lemma put_msg_mapped m a size bs b n : mapped m b n → mapped (put_msg m a size bs) b n.
Proof. intros Hm. by do 2 apply write_bytes_mapped. Qed.

Section moves.
  Context (m : gmap Z Z) (q : LosQueueCB) (msgs : list (list Z)) (HQ : queue_rep m q msgs).

(** A message written behind the last one. *)
Lemma rep_push_tail bs tl :
  let n := Z.of_nat (length msgs) in
  n < queueLen q → Z.of_nat (length bs) ≤ queueSize q - 4 →
  tl = (queueTail q + 1) mod queueLen q →
  queue_rep (put_msg m (slot_addr q (queueTail q)) (queueSize q) bs)
    (ring_at q (queueHead q) tl (n + 1) (queueLen q - (n + 1))) (msgs ++ [bs]).
Proof.
  intros n Hn Hb ->. destruct HQ as [HR Ht _ _ _ Hm].
  pose proof (ring_size HR) as Hs. pose proof (ring_len HR) as Hl.
  constructor; try (rewrite length_app; simpl).
  - eapply ring_ok_at; [exact HR| |apply HR]. intros i Hi. apply (put_msg_mapped _ _ _ _ (queue q)
      (Z.to_nat (queueLen q * queueSize q))); [apply HR|]. nia.
  - rewrite Ht. unfold slot_index. rewrite Zplus_mod_idemp_l. cbn [ring_at queueHead queueLen].
    change (queueLen (ring_at q _ _ _ _)) with (queueLen q).
    change (queueHead (ring_at q _ _ _ _)) with (queueHead q). f_equal. lia.
  - change (n + 1 = Z.of_nat (length msgs + 1)). lia.
  - change (queueLen q - (n + 1) = queueLen q - Z.of_nat (length msgs + 1)). lia.
  - change (queueLen (ring_at q _ _ _ _)) with (queueLen q). lia.
  - intros k msg E. change (slot_addr (ring_at q _ _ _ _)) with (slot_addr q).
    change (slot_index (ring_at q _ _ _ _)) with (slot_index q).
    change (queueSize (ring_at q _ _ _ _)) with (queueSize q).
    apply lookup_app_Some in E as [E|[Hk E]].
    + pose proof (lookup_lt_Some _ _ _ E) as Hlt. eapply msg_at_ext; [|lia|by apply Hm].
      intros i Hi. apply put_msg_other; [done|]. rewrite Ht. fold n.
      assert (slot_index q (Z.of_nat k) ≠ slot_index q n) as Hne
        by (intros Heq%(slot_index_inj m); lia || done).
      pose proof (slot_apart m q HR _ _ Hne). lia.
    + destruct (k - length msgs)%nat as [|j] eqn:Ek; [|done]. injection E as <-.
      replace k with (length msgs) by lia. rewrite <- Ht. apply put_msg_at; lia.
Qed.

(** A message written before the first one. *)
Lemma rep_push_head bs hd :
  let n := Z.of_nat (length msgs) in
  n < queueLen q → Z.of_nat (length bs) ≤ queueSize q - 4 →
  hd = (queueHead q - 1) mod queueLen q →
  queue_rep (put_msg m (slot_addr q hd) (queueSize q) bs)
    (ring_at q hd (queueTail q) (n + 1) (queueLen q - (n + 1))) (bs :: msgs).
Proof.
  intros n Hn Hb Eh. destruct HQ as [HR Ht _ _ _ Hm].
  pose proof (ring_size HR) as Hs. pose proof (ring_len HR) as Hl.
  assert (0 ≤ hd < queueLen q) as Hhd by (subst hd; apply Z.mod_pos_bound; lia).
  assert (∀ k, slot_index (ring_at q hd (queueTail q) (n + 1) (queueLen q - (n + 1))) (k + 1) =
    slot_index q k) as Hi.
  { intros k. unfold slot_index. change (queueLen (ring_at q _ _ _ _)) with (queueLen q).
    change (queueHead (ring_at q _ _ _ _)) with hd. rewrite Eh, Zplus_mod_idemp_l. f_equal. lia. }
  constructor; cbn [length].
  - eapply ring_ok_at; [exact HR| |exact Hhd]. intros i Hi'. apply (put_msg_mapped _ _ _ _ (queue q)
      (Z.to_nat (queueLen q * queueSize q))); [apply HR|]. nia.
  - rewrite Nat2Z.inj_succ, <- Z.add_1_r, Hi. exact Ht.
  - change (n + 1 = Z.of_nat (S (length msgs))). lia.
  - change (queueLen q - (n + 1) = queueLen q - Z.of_nat (S (length msgs))). lia.
  - change (queueLen (ring_at q _ _ _ _)) with (queueLen q). lia.
  - intros k msg E. change (slot_addr (ring_at q _ _ _ _)) with (slot_addr q).
    change (queueSize (ring_at q _ _ _ _)) with (queueSize q). destruct k as [|k].
    + injection E as <-. unfold slot_index. change (queueHead (ring_at q _ _ _ _)) with hd.
      change (queueLen (ring_at q _ _ _ _)) with (queueLen q).
      rewrite Z.add_0_r, Z.mod_small by done. apply put_msg_at; lia.
    + simpl in E. pose proof (lookup_lt_Some _ _ _ E) as Hlt.
      rewrite Nat2Z.inj_succ, <- Z.add_1_r, Hi. eapply msg_at_ext; [|lia|by apply Hm].
      intros i Hi'. apply put_msg_other; [done|].
      assert (slot_index q (queueLen q - 1) = hd) as Hlast.
      { unfold slot_index. rewrite Eh. replace (queueHead q + (queueLen q - 1))
          with (queueHead q - 1 + 1 * queueLen q) by lia. apply Z.mod_add. lia. }
      assert (slot_index q (Z.of_nat k) ≠ hd) as Hne
        by (rewrite <- Hlast; intros Heq%(slot_index_inj m); lia || done).
      pose proof (slot_apart m q HR _ _ Hne). lia.
Qed.
End moves.

(** The first message read, and other memory changed. *)
Lemma rep_pop m m' q msg msgs hd :
  queue_rep m q (msg :: msgs) → hd = (queueHead q + 1) mod queueLen q →
  (∀ i, queue q ≤ i < queue q + queueLen q * queueSize q → m' !! i = m !! i) →
  let n := Z.of_nat (length msgs) in
  queue_rep m' (ring_at q hd (queueTail q) n (queueLen q - n)) msgs.
Proof.
  intros [HR Ht _ _ Hf Hm] Eh He n. cbn [length] in *.
  pose proof (ring_size HR) as Hs. pose proof (ring_len HR) as Hl.
  assert (∀ k, slot_index (ring_at q hd (queueTail q) n (queueLen q - n)) k =
    slot_index q (k + 1)) as Hi.
  { intros k. unfold slot_index. change (queueLen (ring_at q _ _ _ _)) with (queueLen q).
    change (queueHead (ring_at q _ _ _ _)) with hd. rewrite Eh, Zplus_mod_idemp_l. f_equal. lia. }
  constructor.
  - eapply ring_ok_at; [exact HR| |subst hd; apply Z.mod_pos_bound; lia].
    intros i Hi'. rewrite He by done. apply (ring_mapped HR). nia.
  - rewrite Hi. rewrite Nat2Z.inj_succ, <- Z.add_1_r in Ht. exact Ht.
  - done.
  - done.
  - change (queueLen (ring_at q _ _ _ _)) with (queueLen q). lia.
  - intros k msg' E. change (slot_addr (ring_at q _ _ _ _)) with (slot_addr q).
    change (queueSize (ring_at q _ _ _ _)) with (queueSize q). rewrite Hi.
    specialize (Hm (S k) msg' E). rewrite Nat2Z.inj_succ, <- Z.add_1_r in Hm.
    eapply msg_at_ext; [|lia|exact Hm]. intros i Hi'. apply He.
    pose proof (slot_range m q HR _ (slot_index_bound m q HR (Z.of_nat k + 1))). lia.
Qed.

(** ** The operations *)

Lemma wp_get_queue i q s (Q : LosQueueCB → kstate → Prop) :
  g_allQueue s !! i = Some q → Q q s → wp (get_queue i) Q s.
Proof. intros E HQ. unfold get_queue. wp_steps. by rewrite E. Qed.

Lemma wp_mod_queue i f q s (Q : unit → kstate → Prop) :
  g_allQueue s !! i = Some q → Q tt (s <| g_allQueue := <[i := f q]> (g_allQueue s) |>) →
  wp (mod_queue i f) Q s.
Proof. intros E HQ. unfold mod_queue. wp_step. eapply wp_get_queue; [exact E|]. by wp_steps. Qed.

(** The buffer of a write: [n] bytes outside the ring. *)
Definition source_ok (m : gmap Z Z) (q : LosQueueCB) (buffer : cbuf) (n : Z) (bs : list Z) : Prop :=
  cbuf_bytes m buffer n = Some bs ∧
  match buffer with
  | BufMem a => a ≠ 0 ∧ (a + n ≤ queue q ∨ queue q + queueLen q * queueSize q ≤ a)
  | BufLocal _ => True
  end.

Lemma slot_u32 m q p :
  ring_ok m q → 0 ≤ p < queueLen q →
  u32 (queue q + p * queueSize q) = slot_addr q p ∧
  u32 (slot_addr q p + queueSize q - 4) = slot_addr q p + queueSize q - 4.
Proof.
  intros HR Hp. pose proof (slot_range m q HR p Hp). pose proof (ring_addr HR).
  pose proof (ring_size HR). unfold u32.
  split; apply Z.mod_small; unfold slot_addr in *; lia.
Qed.

Lemma wp_write_slot s q p buffer n bs (Q : Z → kstate → Prop) :
  ring_ok (ram s) q → 0 ≤ p < queueLen q → 0 < n ≤ queueSize q - 4 →
  source_ok (ram s) q buffer n bs →
  Q n (s <| ram := put_msg (ram s) (slot_addr q p) (queueSize q) bs |>) →
  wp (store32 (slot_addr q p + queueSize q - 4) n;;
      (memcpy_s (slot_addr q p) (queueSize q) buffer n;; mret n)) Q s.
Proof.
  intros HR Hp Hn [Hb Hs] HQ. pose proof (slot_range _ _ HR p Hp). pose proof (ring_addr HR).
  pose proof (ring_size HR). assert (0 ≤ n) as Hn0 by lia. pose proof (cbuf_bytes_length _ _ _ _ Hn0 Hb) as Hl.
  set (a := slot_addr q p) in *.
  assert (mapped (ram s) a (Z.to_nat (queueSize q))) as Hm by (eapply slot_mapped; [done|done|lia]).
  assert (mapped (ram s) (a + queueSize q - 4) 4) as Hm4 by (intros i Hi; apply Hm; lia).
  wp_step. apply wp_store32; [exact Hm4|]. wp_step.
  eapply (wp_memcpy_s _ _ _ _ bs); [lia|lia|unfold SECUREC_MEM_MAX_LEN; lia|destruct buffer; [apply Hs|done]| | | |].
  - destruct buffer as [b|]; [|done]. simpl. destruct Hs as [_ Hs].
    repeat destruct (Z.ltb_spec _ _); simpl; try done; lia.
  - rewrite <- Hb. destruct buffer as [b|l]; [|done]. cbn [cbuf_bytes]. destruct Hs as [_ Hs].
    change (ram (s <| ram := ?x |>)) with x. apply read_write_other. rewrite le_split_length. lia.
  - apply write_bytes_mapped. intros i Hi. apply Hm. lia.
  - wp_step. unfold put_msg in HQ. rewrite Hl, Z2Nat.id in HQ by lia. by destruct s.
Qed.

(** The target of a read: [n] bytes outside the ring. *)
Definition target_ok (m : gmap Z Z) (q : LosQueueCB) (a n : Z) : Prop :=
  0 < a ∧ mapped m a (Z.to_nat n) ∧ (a + n ≤ queue q ∨ queue q + queueLen q * queueSize q ≤ a).

Lemma wp_read_slot s q p msg a n (Q : Z → kstate → Prop) :
  ring_ok (ram s) q → 0 ≤ p < queueLen q → msg_at (ram s) (slot_addr q p) (queueSize q) msg →
  0 < n < 2 ^ 31 - 1 → target_ok (ram s) q a n →
  let len := Z.min n (Z.of_nat (length msg)) in
  Q len (s <| ram := write_bytes a (take (Z.to_nat len) msg) (ram s) |>) →
  wp (n1 ← load32 (slot_addr q p + queueSize q - 4);
      rc ← memcpy_s a n (BufMem (slot_addr q p)) (if n <? n1 then n else n1);
      mret (if rc =? EOK then (if n <? n1 then n else n1) else n)) Q s.
Proof.
  intros HR Hp (Hml & Hmb & Hmn) Hn (Ha & Hmap & Hap) len HQ.
  pose proof (slot_range _ _ HR p Hp) as Hsl. pose proof (ring_addr HR) as Hadr.
  wp_step. eapply wp_load32; [exact Hmn|].
  replace (if n <? Z.of_nat (length msg) then n else Z.of_nat (length msg)) with len
    by (unfold len; destruct (Z.ltb_spec n (Z.of_nat (length msg))); lia).
  wp_step. eapply (wp_memcpy_s _ _ _ _ (take (Z.to_nat len) msg));
    [done|lia|unfold SECUREC_MEM_MAX_LEN; lia|lia| | | |].
  - simpl. repeat destruct (Z.ltb_spec _ _); simpl; try done; lia.
  - cbn [cbuf_bytes]. eapply read_bytes_firstn; [exact Hmb|lia].
  - intros x Hx. apply Hmap. lia.
  - by wp_step.
Qed.

(** The state after an operation on the queue [i], but for the memory: its positions and
    counters have changed. *)
Definition queue_moved (s s' : kstate) (i : Z) (q q' : LosQueueCB) : Prop :=
  (∃ hd tl r w, q' = ring_at q hd tl r w) ∧
  s' = s <| interrupt_flag := 1 |> <| ram := ram s' |> <| g_allQueue := <[i := q']> (g_allQueue s) |>.

(** The memory outside the buffer of the queue. *)
Definition same_outside (q : LosQueueCB) (m m' : gmap Z Z) : Prop :=
  ∀ x, x < queue q ∨ queue q + queueLen q * queueSize q ≤ x → m' !! x = m !! x.

Definition queue_same (s s' : kstate) : Prop := s' = s <| interrupt_flag := 1 |>.

Definition write_type (atHead : bool) : Z :=
  OS_QUEUE_OPERATE_TYPE OS_QUEUE_WRITE (if atHead then OS_QUEUE_HEAD else OS_QUEUE_TAIL)
    OS_QUEUE_NOT_POINT.
Definition push_msg (atHead : bool) (bs : list Z) (msgs : list (list Z)) : list (list Z) :=
  if atHead then bs :: msgs else msgs ++ [bs].

Lemma write_position (q : LosQueueCB) (atHead : bool) :
  0 ≤ queueHead q < queueLen q → 0 ≤ queueTail q < queueLen q →
  queue_position q (write_type atHead) =
  Some (if atHead then (queueHead q - 1) mod queueLen q else queueTail q,
        if atHead then q <| queueHead := (queueHead q - 1) mod queueLen q |>
        else q <| queueTail := (queueTail q + 1) mod queueLen q |>).
Proof.
  intros Hh Ht. unfold queue_position.
  destruct atHead; simpl; [by rewrite prev_index|by rewrite next_index].
Qed.

Section operate.
  Context `{Config} `{Malloc} `{Symbols}.
  Context (s : kstate) (LS : lists) (i : Z) (q : LosQueueCB) (msgs : list (list Z)).
  Context (HW : WF (dlheap s) LS) (Eq : g_allQueue s !! i = Some q).
  Context (HQ : queue_rep (ram s) q msgs).
  Context (Hrd : LS !! ReadWriteList i OS_QUEUE_READ = Some []).
  Context (Hwr : LS !! ReadWriteList i OS_QUEUE_WRITE = Some []).

Lemma rep_push (atHead : bool) bs :
  let n := Z.of_nat (length msgs) in
  n < queueLen q → Z.of_nat (length bs) ≤ queueSize q - 4 →
  queue_rep
    (put_msg (ram s) (slot_addr q (if atHead then (queueHead q - 1) mod queueLen q else queueTail q))
       (queueSize q) bs)
    (ring_at q (if atHead then (queueHead q - 1) mod queueLen q else queueHead q)
       (if atHead then queueTail q else (queueTail q + 1) mod queueLen q)
       (n + 1) (queueLen q - (n + 1)))
    (push_msg atHead bs msgs).
Proof.
  intros n Hn Hb. destruct atHead; simpl; [by apply rep_push_head|by apply rep_push_tail].
Qed.

(** The control block after a write. *)
Lemma pushed_block (atHead : bool) :
  let n := Z.of_nat (length msgs) in
  n < queueLen q →
  let q1 := set_readWriteableCnt OS_QUEUE_WRITE
              (u16 (readWriteableCnt q OS_QUEUE_WRITE - 1)) q in
  let q2 := if atHead then q1 <| queueHead := (queueHead q - 1) mod queueLen q |>
            else q1 <| queueTail := (queueTail q + 1) mod queueLen q |> in
  set_readWriteableCnt OS_QUEUE_READ (u16 (readWriteableCnt q2 OS_QUEUE_READ + 1)) q2 =
  ring_at q (if atHead then (queueHead q - 1) mod queueLen q else queueHead q)
    (if atHead then queueTail q else (queueTail q + 1) mod queueLen q) (n + 1) (queueLen q - (n + 1)).
Proof.
  intros n Hn q1 q2. pose proof (ring_len (rep_ring HQ)) as Hlen.
  assert (readWriteableCnt q2 OS_QUEUE_READ = n) as ->.
  { transitivity (readableCnt q); [by destruct atHead|apply (rep_readable HQ)]. }
  assert (u16 (n + 1) = n + 1) as -> by (unfold u16; apply Z.mod_small; lia).
  unfold q2, q1. change (readWriteableCnt q OS_QUEUE_WRITE) with (writableCnt q).
  rewrite (rep_writable HQ). fold n.
  replace (u16 (queueLen q - n - 1)) with (queueLen q - (n + 1))
    by (unfold u16; rewrite Z.mod_small; lia).
  by destruct atHead, q.
Qed.

Lemma wp_queue_push atHead buffer n bs (Q : outcome (Z * Z) → kstate → Prop) :
  Z.of_nat (length msgs) < queueLen q → 0 < n ≤ queueSize q - 4 →
  source_ok (ram s) q buffer n bs →
  (∀ s' q', queue_moved s s' i q q' → queue_rep (ram s') q' (push_msg atHead bs msgs) →
     same_outside q (ram s) (ram s') →
     Q (Done (LOS_OK, n)) s') →
  wp (mod_queue i (fun q => set_readWriteableCnt OS_QUEUE_WRITE
        (u16 (readWriteableCnt q OS_QUEUE_WRITE - 1)) q);;
      (r ← OsQueueOperate_finish i (write_type atHead) buffer n 0;
       mret (Done r))) Q (s <| interrupt_flag := 0 |>).
Proof.
  intros Hfit Hn Hsrc HP. pose proof (rep_ring HQ) as HR. pose proof (ring_len HR) as Hlen.
  assert (0 ≤ queueTail q < queueLen q) as Htl
    by (rewrite (rep_tail HQ); by apply (slot_index_bound (ram s))).
  pose proof (pushed_block atHead Hfit) as Eq3. cbv zeta in Eq3.
  wp_step. eapply wp_mod_queue; [exact Eq|].
  set (q1 := set_readWriteableCnt OS_QUEUE_WRITE _ q) in *.
  wp_step. unfold OsQueueOperate_finish, OsQueueBufferOperate.
  do 2 wp_step. eapply wp_get_queue; [apply lookup_insert_eq|].
  rewrite (write_position q1) by (apply HR || exact Htl).
  change (queueHead q1) with (queueHead q). change (queueTail q1) with (queueTail q).
  change (queueLen q1) with (queueLen q). change (queueSize q1) with (queueSize q).
  change (queue q1) with (queue q).
  set (p := if atHead then (queueHead q - 1) mod queueLen q else queueTail q).
  wp_step. eapply wp_mod_queue; [apply lookup_insert_eq|].
  assert (0 ≤ p < queueLen q) as Hp
    by (unfold p; destruct atHead; [apply Z.mod_pos_bound; lia|done]).
  destruct (slot_u32 _ _ p HR Hp) as [-> ->].
  assert (OS_QUEUE_IS_POINT (write_type atHead) = false) as -> by (by destruct atHead).
  assert (OS_QUEUE_IS_READ (write_type atHead) = false) as -> by (by destruct atHead).
  assert (1 - OS_QUEUE_READ_WRITE_GET (write_type atHead) = OS_QUEUE_READ) as -> by (by destruct atHead).
  eapply (wp_write_slot _ q); [exact HR|exact Hp|exact Hn|exact Hsrc|].
  wp_step. eapply wp_list_empty; [exact HW|exact Hrd|]. rewrite bool_decide_eq_true_2 by done.
  cbn [negb]. wp_step. eapply wp_mod_queue; [apply lookup_insert_eq|]. rewrite Eq3. wp_steps.
  assert (Z.of_nat (length bs) ≤ queueSize q - 4) as Hbl.
  { destruct Hsrc as [Hb _]. assert (0 ≤ n) as Hn0 by lia.
    pose proof (cbuf_bytes_length _ _ _ _ Hn0 Hb). lia. }
  eapply HP.
  - unfold queue_moved. split; [|rsimpl; rewrite !insert_insert_eq; by destruct s]. by do 4 eexists.
  - by apply rep_push.
  - intros x Hx. apply put_msg_other; [done|]. pose proof (slot_range _ _ HR p Hp). lia.
Qed.

Lemma wp_queue_write atHead buffer n bs :
  0 < n < 2 ^ 31 - 1 → (n ≤ queueSize q - 4 → source_ok (ram s) q buffer n bs) →
  wp (OsQueueOperate i (write_type atHead) buffer n LOS_NO_WAIT) (fun o s' =>
    if queueSize q - 4 <? n then
      o = Done (LOS_ERRNO_QUEUE_WRITE_SIZE_TOO_BIG, n) ∧ queue_same s s'
    else if Z.of_nat (length msgs) =? queueLen q then
      o = Done (LOS_ERRNO_QUEUE_ISFULL, n) ∧ queue_same s s'
    else o = Done (LOS_OK, n) ∧ ∃ q', queue_moved s s' i q q' ∧
      queue_rep (ram s') q' (push_msg atHead bs msgs) ∧ same_outside q (ram s) (ram s')) s.
Proof.
  intros Hn Hsrc. pose proof (rep_ring HQ) as HR. pose proof (ring_size HR) as Hsz.
  pose proof (rep_fits HQ) as Hfit. unfold OsQueueOperate.
  assert (OS_QUEUE_READ_WRITE_GET (write_type atHead) = OS_QUEUE_WRITE) as -> by (by destruct atHead).
  wp_steps. eapply wp_get_queue; [exact Eq|]. unfold OsQueueOperateParamCheck.
  rewrite (ring_state HR). simpl.
  assert (OS_QUEUE_IS_WRITE (write_type atHead) = true ∧ OS_QUEUE_IS_READ (write_type atHead) = false)
    as [-> ->] by (by destruct atHead).
  assert (u32 (queueSize q - 4) = queueSize q - 4) as -> by (unfold u32; apply Z.mod_small; lia).
  simpl. destruct (Z.ltb_spec (queueSize q - 4) n); [wp_steps; split; [done|]; by destruct s|].
  destruct (Z.leb_spec SECUREC_MEM_MAX_LEN n); [unfold SECUREC_MEM_MAX_LEN in *; lia|].
  simpl. change (readWriteableCnt q OS_QUEUE_WRITE) with (writableCnt q). rewrite (rep_writable HQ).
  destruct (Z.eqb_spec (Z.of_nat (length msgs)) (queueLen q)) as [Hfull|Hroom].
  - destruct (Z.eqb_spec (queueLen q - Z.of_nat (length msgs)) 0); [|lia].
    wp_steps. split; [done|]. by destruct s.
  - destruct (Z.eqb_spec (queueLen q - Z.of_nat (length msgs)) 0); [lia|].
    eapply wp_queue_push; [lia|lia|apply Hsrc; lia|]. intros s' q' Hm Hr Ho. eauto.
Qed.

Definition read_type : Z :=
  OS_QUEUE_OPERATE_TYPE OS_QUEUE_READ OS_QUEUE_HEAD OS_QUEUE_NOT_POINT.

(** The control block after a read. *)
Lemma popped_block :
  let n := Z.of_nat (length msgs) in
  0 < n →
  let q1 := set_readWriteableCnt OS_QUEUE_READ (u16 (readWriteableCnt q OS_QUEUE_READ - 1)) q in
  let q2 := q1 <| queueHead := (queueHead q + 1) mod queueLen q |> in
  set_readWriteableCnt OS_QUEUE_WRITE (u16 (readWriteableCnt q2 OS_QUEUE_WRITE + 1)) q2 =
  ring_at q ((queueHead q + 1) mod queueLen q) (queueTail q) (n - 1) (queueLen q - (n - 1)).
Proof.
  intros n Hn q1 q2. pose proof (ring_len (rep_ring HQ)) as Hlen. pose proof (rep_fits HQ) as Hfit.
  change (readWriteableCnt q2 OS_QUEUE_WRITE) with (writableCnt q). rewrite (rep_writable HQ). fold n.
  replace (u16 (queueLen q - n + 1)) with (queueLen q - (n - 1))
    by (unfold u16; rewrite Z.mod_small; lia).
  unfold q2, q1. change (readWriteableCnt q OS_QUEUE_READ) with (readableCnt q).
  rewrite (rep_readable HQ). fold n.
  replace (u16 (n - 1)) with (n - 1) by (unfold u16; rewrite Z.mod_small; lia).
  by destruct q.
Qed.

Lemma wp_queue_pop msg rest a n (Q : outcome (Z * Z) → kstate → Prop) :
  msgs = msg :: rest → 0 < n < 2 ^ 31 - 1 → target_ok (ram s) q a n →
  (∀ s' q', let len := Z.min n (Z.of_nat (length msg)) in
     queue_moved s s' i q q' → queue_rep (ram s') q' rest →
     ram s' = write_bytes a (take (Z.to_nat len) msg) (ram s) → Q (Done (LOS_OK, len)) s') →
  wp (mod_queue i (fun q => set_readWriteableCnt OS_QUEUE_READ
        (u16 (readWriteableCnt q OS_QUEUE_READ - 1)) q);;
      (r ← OsQueueOperate_finish i read_type (BufMem a) n 0;
       mret (Done r))) Q (s <| interrupt_flag := 0 |>).
Proof.
  intros Em Hn Htg HP. pose proof (rep_ring HQ) as HR. pose proof (ring_head HR) as Hh.
  assert (0 < Z.of_nat (length msgs)) as Hne by (subst msgs; simpl; lia).
  pose proof (popped_block Hne) as Eq3. cbv zeta in Eq3.
  assert (msg_at (ram s) (slot_addr q (queueHead q)) (queueSize q) msg) as Hmsg.
  { pose proof (rep_msgs HQ 0%nat msg ltac:(by subst msgs)) as Hm. unfold slot_index in Hm.
    by rewrite Z.add_0_r, Z.mod_small in Hm. }
  wp_step. eapply wp_mod_queue; [exact Eq|].
  set (q1 := set_readWriteableCnt OS_QUEUE_READ _ q) in *.
  wp_step. unfold OsQueueOperate_finish, OsQueueBufferOperate.
  do 2 wp_step. eapply wp_get_queue; [apply lookup_insert_eq|].
  unfold queue_position. change (OS_QUEUE_OPERATE_GET read_type =? OS_QUEUE_READ_HEAD) with true.
  cbv iota. change (queueHead q1) with (queueHead q). change (queueLen q1) with (queueLen q).
  rewrite next_index by done. wp_step. eapply wp_mod_queue; [apply lookup_insert_eq|].
  change (queueSize q1) with (queueSize q). change (queue q1) with (queue q).
  destruct (slot_u32 _ _ (queueHead q) HR Hh) as [-> ->].
  change (OS_QUEUE_IS_POINT read_type) with false. change (OS_QUEUE_IS_READ read_type) with true.
  change (1 - OS_QUEUE_READ_WRITE_GET read_type) with OS_QUEUE_WRITE. cbv iota.
  eapply (wp_read_slot _ q _ msg); [exact HR|exact Hh|exact Hmsg|exact Hn|exact Htg|].
  wp_step. eapply wp_list_empty; [exact HW|exact Hwr|]. rewrite bool_decide_eq_true_2 by done.
  cbn [negb]. wp_step. eapply wp_mod_queue; [apply lookup_insert_eq|]. rewrite Eq3. wp_steps.
  eapply HP; [| |done].
  - unfold queue_moved. split; [|rsimpl; rewrite !insert_insert_eq; by destruct s]. by do 4 eexists.
  - replace (Z.of_nat (length msgs) - 1) with (Z.of_nat (length rest)) by (subst msgs; simpl; lia).
    eapply (rep_pop (ram s)); [by rewrite <- Em|done|]. intros x Hx. apply write_bytes_other.
    destruct Htg as (_ & _ & Hap). rewrite length_take. lia.
Qed.

End operate.

Lemma wp_queue_read `{Config} s LS i q msgs a n :
  WF (dlheap s) LS → g_allQueue s !! i = Some q → queue_rep (ram s) q msgs →
  LS !! ReadWriteList i OS_QUEUE_WRITE = Some [] →
  0 < n < 2 ^ 31 - 1 → target_ok (ram s) q a n →
  wp (OsQueueOperate i read_type (BufMem a) n LOS_NO_WAIT) (fun o s' =>
    match msgs with
    | [] => o = Done (LOS_ERRNO_QUEUE_ISEMPTY, n) ∧ queue_same s s'
    | msg :: rest =>
        let len := Z.min n (Z.of_nat (length msg)) in
        o = Done (LOS_OK, len) ∧
        ram s' = write_bytes a (take (Z.to_nat len) msg) (ram s) ∧
        ∃ q', queue_moved s s' i q q' ∧ queue_rep (ram s') q' rest
    end) s.
Proof.
  intros HW Eq HQ Hwr Hn Htg. pose proof (rep_ring HQ) as HR. unfold OsQueueOperate.
  change (OS_QUEUE_READ_WRITE_GET read_type) with OS_QUEUE_READ.
  wp_steps. eapply wp_get_queue; [exact Eq|]. unfold OsQueueOperateParamCheck.
  rewrite (ring_state HR). change (OS_QUEUE_IS_WRITE read_type) with false. simpl.
  destruct (Z.leb_spec SECUREC_MEM_MAX_LEN n); [unfold SECUREC_MEM_MAX_LEN in *; lia|].
  simpl. change (readWriteableCnt q OS_QUEUE_READ) with (readableCnt q). rewrite (rep_readable HQ).
  destruct msgs as [|msg rest]; simpl.
  - wp_steps. split; [done|]. by destruct s.
  - eapply wp_queue_pop; [exact HW|exact Eq|exact HQ|exact Hwr|done|exact Hn|exact Htg|]. intros s' q' len Hm Hr Hram.
    split; [done|]. split; [exact Hram|eauto].
Qed.

(** ** The interface *)

Definition QueueWrite (atHead : bool) `{Config} `{Malloc} `{Symbols} :
    Z → cbuf → Z → Z → K (outcome (Z * Z)) :=
  if atHead then LOS_QueueWriteHeadCopy else LOS_QueueWriteCopy.

(** A queue in a state, without waiting tasks. *)
Record queue_idle (s : kstate) (i : Z) (q : LosQueueCB) (msgs : list (list Z)) : Prop := {
  idle_lists : ∃ LS, WF (dlheap s) LS ∧ LS !! ReadWriteList i OS_QUEUE_READ = Some [] ∧
    LS !! ReadWriteList i OS_QUEUE_WRITE = Some [];
  idle_queue : g_allQueue s !! i = Some q;
  idle_rep : queue_rep (ram s) q msgs
}.

Section api.
  Context `{Config} `{Malloc} `{Symbols}.
  Context (s : kstate) (i : Z) (q : LosQueueCB) (msgs : list (list Z)).
  Context (HQ : queue_idle s i q msgs) (Hi : 0 ≤ i < LOSCFG_BASE_IPC_QUEUE_LIMIT).

Lemma queue_moved_idle s' q' msgs' :
  queue_moved s s' i q q' → queue_rep (ram s') q' msgs' → queue_idle s' i q' msgs'.
Proof.
  destruct HQ as [Hl Eq _]. intros [_ Hs'] Hr. constructor; [..|exact Hr]; rewrite Hs'.
  - exact Hl.
  - apply lookup_insert_eq.
Qed.

Lemma wp_QueueWrite atHead buffer n bs :
  0 < n < 2 ^ 31 - 1 → (n ≤ queueSize q - 4 → source_ok (ram s) q buffer n bs) →
  match buffer with BufMem a => a ≠ 0 | BufLocal _ => True end →
  wp (QueueWrite atHead i buffer n LOS_NO_WAIT) (fun o s' =>
    if queueSize q - 4 <? n then
      o = Done (LOS_ERRNO_QUEUE_WRITE_SIZE_TOO_BIG, n) ∧ queue_same s s'
    else if Z.of_nat (length msgs) =? queueLen q then
      o = Done (LOS_ERRNO_QUEUE_ISFULL, n) ∧ queue_same s s'
    else o = Done (LOS_OK, n) ∧ same_outside q (ram s) (ram s') ∧
      ∃ q', queue_moved s s' i q q' ∧ queue_idle s' i q' (push_msg atHead bs msgs)) s.
Proof.
  intros Hn Hsrc Hb. destruct HQ as [(LS & HW & Hrd & Hwr) Eq Hrep].
  assert (wp (OsQueueOperate i (write_type atHead) buffer n LOS_NO_WAIT) (fun o s' =>
    if queueSize q - 4 <? n then
      o = Done (LOS_ERRNO_QUEUE_WRITE_SIZE_TOO_BIG, n) ∧ queue_same s s'
    else if Z.of_nat (length msgs) =? queueLen q then
      o = Done (LOS_ERRNO_QUEUE_ISFULL, n) ∧ queue_same s s'
    else o = Done (LOS_OK, n) ∧ same_outside q (ram s) (ram s') ∧
      ∃ q', queue_moved s s' i q q' ∧ queue_idle s' i q' (push_msg atHead bs msgs)) s) as Hw.
  { eapply wp_mono; [by eapply wp_queue_write|]. intros o s'.
    destruct (_ <? n); [done|]. destruct (_ =? _); [done|].
    intros (Ho & q' & Hm & Hr & Hout). split; [done|]. split; [done|]. exists q'.
    split; [done|]. by apply queue_moved_idle. }
  assert (OsQueueWriteParameterCheck i (cbuf_addr buffer) n LOS_NO_WAIT = mret LOS_OK) as Hchk.
  { unfold OsQueueWriteParameterCheck. destruct (Z.leb_spec LOSCFG_BASE_IPC_QUEUE_LIMIT i); [lia|].
    destruct (Z.eqb_spec (cbuf_addr buffer) 0); [by destruct buffer|].
    by destruct (Z.eqb_spec n 0); [lia|]. }
  unfold QueueWrite. destruct atHead; [unfold LOS_QueueWriteHeadCopy|unfold LOS_QueueWriteCopy];
    rewrite Hchk; wp_steps; exact Hw.
Qed.

Lemma wp_QueueReadCopy a n :
  0 < n < 2 ^ 31 - 1 → target_ok (ram s) q a n →
  wp (LOS_QueueReadCopy i a (Some n) LOS_NO_WAIT) (fun o s' =>
    match msgs with
    | [] => o = Done (LOS_ERRNO_QUEUE_ISEMPTY, n) ∧ queue_same s s'
    | msg :: rest =>
        let len := Z.min n (Z.of_nat (length msg)) in
        o = Done (LOS_OK, len) ∧
        ram s' = write_bytes a (take (Z.to_nat len) msg) (ram s) ∧
        ∃ q', queue_moved s s' i q q' ∧ queue_idle s' i q' rest
    end) s.
Proof.
  intros Hn Htg. destruct HQ as [(LS & HW & Hrd & Hwr) Eq Hrep].
  unfold LOS_QueueReadCopy, OsQueueReadParameterCheck.
  destruct (Z.leb_spec LOSCFG_BASE_IPC_QUEUE_LIMIT i); [lia|].
  destruct (Z.eqb_spec a 0); [destruct Htg; lia|]. destruct (Z.eqb_spec n 0); [lia|]. simpl.
  wp_steps. simpl. eapply wp_mono; [by eapply wp_queue_read|]. intros o s'.
  assert (∀ rest' q', queue_moved s s' i q q' → queue_rep (ram s') q' rest' →
    queue_idle s' i q' rest') as Hmv by (intros rest' q'; apply queue_moved_idle).
  destruct msgs as [|msg rest]; [done|]. intros (Ho & Hram & q' & Hm & Hr). eauto 6.
Qed.
End api.

(** ** First in, first out *)

Section fifo.
  Context `{Config} `{Malloc} `{Symbols}.

(** Writes all of [msgs]. *)
Fixpoint write_all (i : Z) (msgs : list (list Z)) : K unit :=
  match msgs with
  | [] => mret tt
  | msg :: msgs =>
      LOS_QueueWriteCopy i (BufLocal msg) (Z.of_nat (length msg)) LOS_NO_WAIT;;
      write_all i msgs
  end.

(** Reads [k] messages through the buffer of [n] bytes at [a]. *)
Fixpoint read_all (i a n : Z) (k : nat) : K (list (list Z)) :=
  match k with
  | O => mret []
  | S k =>
      r ← LOS_QueueReadCopy i a (Some n) LOS_NO_WAIT;
      match r with
      | Done (code, len) =>
          LOS_ASSERT (code =? LOS_OK);;
          bs ← load_bytes a (Z.to_nat len);
          rest ← read_all i a n k;
          mret (bs :: rest)
      | Switched => fail AssertFail
      end
  end.

Definition fits (q : LosQueueCB) (msg : list Z) : Prop :=
  (0 < length msg)%nat ∧ Z.of_nat (length msg) ≤ queueSize q - 4.

Lemma fits_moved s s' i q q' msg : queue_moved s s' i q q' → fits q msg → fits q' msg.
Proof. by intros [(? & ? & ? & ? & ->) _]. Qed.

Lemma target_moved s s' i q q' a n :
  queue_moved s s' i q q' → (∀ x, is_Some (ram s !! x) → is_Some (ram s' !! x)) →
  target_ok (ram s) q a n → target_ok (ram s') q' a n.
Proof.
  intros [(hd & tl & rd & wr & ->) _] Hm (Ha & Hmap & Hap). split; [done|]. split; [|exact Hap].
  intros x Hx. by apply Hm, Hmap.
Qed.

Lemma wp_write_all i a n new : ∀ s q msgs (Q : unit → kstate → Prop),
  queue_idle s i q msgs → 0 ≤ i < LOSCFG_BASE_IPC_QUEUE_LIMIT → Forall (fits q) new →
  Z.of_nat (length msgs + length new) ≤ queueLen q → target_ok (ram s) q a n →
  (∀ s' q', queue_idle s' i q' (msgs ++ new) → queueSize q' = queueSize q →
     target_ok (ram s') q' a n → Q tt s') →
  wp (write_all i new) Q s.
Proof.
  induction new as [|msg new IH]; intros s q msgs Q HQ Hi Hf Hl Ht HP; simpl.
  - wp_step. apply (HP s q); [by rewrite app_nil_r|done|done].
  - apply Forall_cons in Hf as [[Hm0 Hm1] Hf]. simpl in Hl.
    pose proof (ring_size (rep_ring (idle_rep _ _ _ _ HQ))) as Hs. wp_step.
    eapply wp_mono; [apply (wp_QueueWrite s i q msgs HQ Hi false (BufLocal msg) _ msg); [lia| |done]|].
    { intros _. split; [|done]. simpl. rewrite (proj2 (Z.ltb_ge _ _)) by lia.
      by rewrite Nat2Z.id, firstn_all. }
    intros o s'. rewrite (proj2 (Z.ltb_ge _ _)) by lia. rewrite (proj2 (Z.eqb_neq _ _)) by lia.
    intros (_ & Hout & q' & Hmv & HQ'). cbn [push_msg] in HQ'.
    assert (∀ x, is_Some (ram s !! x) → is_Some (ram s' !! x)) as Hmap.
    { intros x Hx. destruct (decide (queue q ≤ x < queue q + queueLen q * queueSize q)) as [Hin|Hno].
      - pose proof (ring_mapped (rep_ring (idle_rep _ _ _ _ HQ'))) as Hrm.
        destruct Hmv as [(hd & tl & rd & wr & ->) _]. apply Hrm.
        change (queue q ≤ x < queue q + Z.of_nat (Z.to_nat (queueLen q * queueSize q))). lia.
      - rewrite Hout by lia. done. }
    eapply IH; [exact HQ'|exact Hi| | |by eapply target_moved|].
    + eapply Forall_impl; [exact Hf|]. intros m. by eapply fits_moved.
    + rewrite length_app. simpl. destruct Hmv as [(? & ? & ? & ? & ->) _].
      change (queueLen (ring_at q _ _ _ _)) with (queueLen q). lia.
    + intros s2 q2 HQ2 Hq2 Ht2. eapply HP; [|  |exact Ht2].
      * by rewrite <- app_assoc in HQ2.
      * rewrite Hq2. by destruct Hmv as [(? & ? & ? & ? & ->) _].
Qed.

Lemma wp_read_all i a n msgs : ∀ s q (Q : list (list Z) → kstate → Prop),
  queue_idle s i q msgs → 0 ≤ i < LOSCFG_BASE_IPC_QUEUE_LIMIT → queueSize q - 4 ≤ n < 2 ^ 31 - 1 →
  target_ok (ram s) q a n → (∀ s' q', queue_idle s' i q' [] → Q msgs s') →
  wp (read_all i a n (length msgs)) Q s.
Proof.
  induction msgs as [|msg msgs IH]; intros s q Q HQ Hi Hn Ht HP; cbn [read_all length].
  - wp_step. by eapply HP.
  - pose proof (ring_size (rep_ring (idle_rep _ _ _ _ HQ))) as Hs.
    destruct (rep_msgs (idle_rep _ _ _ _ HQ) 0%nat msg eq_refl) as (Hml & _).
    wp_step. eapply wp_mono; [by eapply (wp_QueueReadCopy s i q (msg :: msgs) HQ Hi a n); [lia|]|].
    cbv zeta. rewrite Z.min_r, Nat2Z.id, firstn_all by lia. intros o s' (-> & Hram & q' & Hmv & HQ').
    wp_step. apply wp_assert. split; [done|]. wp_step. rewrite Nat2Z.id.
    eapply wp_load_bytes; [rewrite Hram; apply read_write_same|]. wp_step.
    eapply IH; [exact HQ'|exact Hi| | |].
    + by destruct Hmv as [(? & ? & ? & ? & ->) _].
    + eapply target_moved; [exact Hmv| |exact Ht]. intros x Hx. rewrite Hram.
      apply (write_bytes_mapped a msg (ram s) x 1); [|lia]. intros y Hy. by replace y with x by lia.
    + intros s2 q2 HQ2. wp_step. by eapply HP.
Qed.
End fifo.

(** ** The representation is decidable *)

#[export] Instance msg_at_dec m a size msg : Decision (msg_at m a size msg).
Proof. unfold msg_at. apply _. Defined.
#[export] Instance target_ok_dec m q a n : Decision (target_ok m q a n).
Proof. unfold target_ok. apply _. Defined.

#[export] Instance ring_ok_dec m q : Decision (ring_ok m q).
Proof.
  refine (cast_if (decide (
    queueState q = OS_QUEUE_INUSED ∧ 0 < queueLen q < 2 ^ 16 ∧ 4 < queueSize q < 2 ^ 16 ∧
    (0 < queue q ∧ queue q + queueLen q * queueSize q ≤ 2 ^ 32) ∧
    mapped m (queue q) (Z.to_nat (queueLen q * queueSize q)) ∧ 0 ≤ queueHead q < queueLen q)));
    [abstract (match goal with HA : _ ∧ _ |- _ => by destruct HA as (? & ? & ? & ? & ? & ?) end)
    |abstract (intros []; tauto)].
Defined.

Definition opt_holds {A} (P : A → Prop) (o : option A) : Prop :=
  match o with Some x => P x | None => True end.
#[export] Instance opt_holds_dec {A} (P : A → Prop) `{!∀ x, Decision (P x)} o :
  Decision (opt_holds P o).
Proof. destruct o; simpl; apply _. Defined.

Lemma Forall_index {A} (P : nat → A → Prop) l :
  Forall (fun k => opt_holds (P k) (l !! k)) (seq 0 (length l)) ↔
  ∀ k x, l !! k = Some x → P k x.
Proof.
  rewrite Forall_forall. split.
  - intros HF k x E. specialize (HF k). rewrite E in HF. apply HF, elem_of_seq.
    apply lookup_lt_Some in E. lia.
  - intros HP k _. destruct (l !! k) eqn:E; [by apply HP|done].
Qed.

#[export] Instance queue_rep_dec m q msgs : Decision (queue_rep m q msgs).
Proof.
  set (P := fun k => msg_at m (slot_addr q (slot_index q (Z.of_nat k))) (queueSize q)).
  refine (cast_if (decide (
    ring_ok m q ∧ queueTail q = slot_index q (Z.of_nat (length msgs)) ∧
    readableCnt q = Z.of_nat (length msgs) ∧
    writableCnt q = queueLen q - Z.of_nat (length msgs) ∧
    Z.of_nat (length msgs) ≤ queueLen q ∧
    Forall (fun k => opt_holds (P k) (msgs !! k)) (seq 0 (length msgs)))));
    pose proof (Forall_index P msgs) as HI.
  - abstract (destruct_and?; constructor; try done; by apply HI).
  - abstract (intros []; tauto).
Defined.
