(* ===== verification/Swtmr.v ===== *)
(** Software timers (los_swtmr.c, with [LOSCFG_BASE_CORE_SWTMR_ALIGN] 0): control blocks
    on a free list, a delay queue of their own and the task that runs the handlers. *)

From S2P Require Import Prelude DList Kernel Tick SortLink Mem Pmcu Sched Event Task Membox Queue.

Section Swtmr.
  Context `{Config} `{Malloc} `{Symbols}.

Definition LOS_MOD_SWTMR : Z := 0x3.
Definition LOS_ERRNO_SWTMR_PTR_NULL : Z := LOS_ERRNO_OS_ERROR LOS_MOD_SWTMR 0x00.
Definition LOS_ERRNO_SWTMR_INTERVAL_NOT_SUITED : Z := LOS_ERRNO_OS_ERROR LOS_MOD_SWTMR 0x01.
Definition LOS_ERRNO_SWTMR_MODE_INVALID : Z := LOS_ERRNO_OS_ERROR LOS_MOD_SWTMR 0x02.
Definition LOS_ERRNO_SWTMR_RET_PTR_NULL : Z := LOS_ERRNO_OS_ERROR LOS_MOD_SWTMR 0x03.
Definition LOS_ERRNO_SWTMR_MAXSIZE : Z := LOS_ERRNO_OS_ERROR LOS_MOD_SWTMR 0x04.
Definition LOS_ERRNO_SWTMR_ID_INVALID : Z := LOS_ERRNO_OS_ERROR LOS_MOD_SWTMR 0x05.
Definition LOS_ERRNO_SWTMR_NOT_CREATED : Z := LOS_ERRNO_OS_ERROR LOS_MOD_SWTMR 0x06.
Definition LOS_ERRNO_SWTMR_NO_MEMORY : Z := LOS_ERRNO_OS_ERROR LOS_MOD_SWTMR 0x07.
Definition LOS_ERRNO_SWTMR_QUEUE_CREATE_FAILED : Z := LOS_ERRNO_OS_ERROR LOS_MOD_SWTMR 0x0b.
Definition LOS_ERRNO_SWTMR_TASK_CREATE_FAILED : Z := LOS_ERRNO_OS_ERROR LOS_MOD_SWTMR 0x0c.
Definition LOS_ERRNO_SWTMR_NOT_STARTED : Z := LOS_ERRNO_OS_ERROR LOS_MOD_SWTMR 0x0d.
Definition LOS_ERRNO_SWTMR_STATUS_INVALID : Z := LOS_ERRNO_OS_ERROR LOS_MOD_SWTMR 0x0e.
Definition LOS_ERRNO_SWTMR_TICK_PTR_NULL : Z := LOS_ERRNO_OS_ERROR LOS_MOD_SWTMR 0x10.

Definition LOS_SWTMR_MODE_ONCE : Z := 0.
Definition LOS_SWTMR_MODE_PERIOD : Z := 1.
Definition LOS_SWTMR_MODE_NO_SELFDELETE : Z := 2.
Definition OS_SWTMR_STATUS_UNUSED : Z := 0.
Definition OS_SWTMR_STATUS_CREATED : Z := 1.
Definition OS_SWTMR_STATUS_TICKING : Z := 2.

Definition OS_SWTMR_MAX_TIMERID : Z :=
  (0xFFFFFFFF / LOSCFG_BASE_CORE_SWTMR_LIMIT) * LOSCFG_BASE_CORE_SWTMR_LIMIT.
Definition OS_SWTMR_HANDLE_QUEUE_SIZE : Z := LOSCFG_BASE_CORE_SWTMR_LIMIT + 0.
Definition sizeof_SwtmrHandlerItem : Z := 12.

(** ** Starting, stopping and deleting *)

Definition OsSwtmrStart (currTime swtmr : Z) : K unit :=
  mod_swtmr swtmr (fun c => c <| ucState := OS_SWTMR_STATUS_TICKING |>);;
  c ← get_swtmr swtmr;
  OsAdd2SortLink (SwtmrNode swtmr) (swtmr_startTime c) (uwInterval c) OS_SORT_LINK_SWTMR;;
  OsSchedUpdateExpireTime.

Definition OsSwtmrDelete (swtmr : Z) : K unit :=
  c ← get_swtmr swtmr;
  (if usTimerID c <? OS_SWTMR_MAX_TIMERID - LOSCFG_BASE_CORE_SWTMR_LIMIT then
     mod_swtmr swtmr (fun c => c <| usTimerID := u32 (usTimerID c + LOSCFG_BASE_CORE_SWTMR_LIMIT) |>)
   else
     mod_swtmr swtmr (fun c => c <| usTimerID := usTimerID c mod LOSCFG_BASE_CORE_SWTMR_LIMIT |>));;
  free ← gets g_swtmrFreeList;
  mod_swtmr swtmr (fun c => c <| swtmr_pstNext := free |>);;
  modify (fun s => s <| g_swtmrFreeList := Some swtmr |>);;
  mod_swtmr swtmr (fun c => c <| ucState := OS_SWTMR_STATUS_UNUSED |>).

Definition OsSwtmrStop (swtmr : Z) : K unit :=
  OsDeleteSortLink (SwtmrNode swtmr);;
  mod_swtmr swtmr (fun c => c <| ucState := OS_SWTMR_STATUS_CREATED |>);;
  mod_swtmr swtmr (fun c => c <| ucOverrun := 0 |>);;
  OsSchedUpdateExpireTime.

(** ** Expiry *)

(** The bytes of a [SwtmrHandlerItem]. *)
Definition swtmr_item (handler arg swtmrID : Z) : list Z :=
  le_split 4 handler ++ le_split 4 arg ++ le_split 4 swtmrID.

Definition OsSwtmrTimeoutHandle (currTime swtmr : Z) : K unit :=
  c ← get_swtmr swtmr;
  q ← gets g_swtmrHandlerQueue;
  LOS_QueueWriteCopy q (BufLocal (swtmr_item (pfnHandler c) (uwArg c) (usTimerID c)))
    sizeof_SwtmrHandlerItem LOS_NO_WAIT;;
  if ucMode c =? LOS_SWTMR_MODE_PERIOD then
    mod_swtmr swtmr (fun c => c <| ucOverrun := u8 (ucOverrun c + 1) |>);;
    OsSwtmrStart currTime swtmr
  else when (ucMode c =? LOS_SWTMR_MODE_NO_SELFDELETE)
    (mod_swtmr swtmr (fun c => c <| ucState := OS_SWTMR_STATUS_CREATED |>)).

(** [LOS_DL_LIST_ENTRY(sortList, SWTMR_CTRL_S, stSortList)]. *)
Definition SWTMR_FROM_SORTLINK (l : lnode) : K Z :=
  match l with SwtmrNode i => mret i | _ => fail NullDeref end.

Fixpoint OsSwtmrScan_loop (fuel : nat) (currTime : Z) (need : bool) : K bool :=
  match fuel with
  | O => fail OutOfFuel
  | S fuel =>
      sortList ← list_first SwtmrSortLink;
      t ← GET_SORTLIST_VALUE sortList;
      if t <=? currTime then
        swtmr ← SWTMR_FROM_SORTLINK sortList;
        mod_swtmr swtmr (fun c => c <| swtmr_startTime := t |>);;
        OsDeleteNodeSortLink sortList;;
        OsSwtmrTimeoutHandle currTime swtmr;;
        e ← list_empty SwtmrSortLink;
        if (e : bool) then mret true
        else OsSwtmrScan_loop fuel currTime true
      else mret need
  end.

(** [fuel] bounds the number of expiries handled by one scan. *)
Definition OsSwtmrScan (fuel : nat) : K bool :=
  e ← list_empty SwtmrSortLink;
  if (e : bool) then mret false
  else
    currTime ← OsGetCurrSchedTimeCycle;
    OsSwtmrScan_loop fuel currTime false.

(** The loop reads [listNext->pstNext] after [listNext] was inserted again. *)
Fixpoint OsSwtmrResponseTimeReset_loop (fuel : nat) (startTime : Z) (listNext : lnode) : K unit :=
  if decide (listNext = SwtmrSortLink) then mret tt
  else
    match fuel with
    | O => fail OutOfFuel
    | S fuel =>
        swtmr ← SWTMR_FROM_SORTLINK listNext;
        OsDeleteNodeSortLink listNext;;
        mod_swtmr swtmr (fun c => c <| swtmr_startTime := startTime |>);;
        OsSwtmrStart startTime swtmr;;
        next ← list_first listNext;
        OsSwtmrResponseTimeReset_loop fuel startTime next
    end.

Definition OsSwtmrResponseTimeReset (fuel : nat) (startTime : Z) : K unit :=
  listNext ← list_first SwtmrSortLink;
  OsSwtmrResponseTimeReset_loop fuel startTime listNext.

(** [OsSwtmrTask]: what it does with the message [(handler, arg, swtmrID)] when
    [LOS_QueueReadCopy] returned [ret] and [readSize]; [call] runs a handler. *)
Definition OsSwtmrTask_message (call : Z → Z → K unit) (ret readSize : Z)
    (handler arg swtmrID : Z) : K unit :=
  if (ret =? LOS_OK) && (readSize =? sizeof_SwtmrHandlerItem) then
    if (handler =? 0) || (OS_SWTMR_MAX_TIMERID <=? swtmrID) then mret tt
    else
      intSave ← LOS_IntLock;
      let swtmr := swtmrID mod LOSCFG_BASE_CORE_SWTMR_LIMIT in
      c ← get_swtmr swtmr;
      if negb (usTimerID c =? swtmrID) then LOS_IntRestore intSave
      else
        when (ucMode c =? LOS_SWTMR_MODE_ONCE) (OsSwtmrDelete swtmr);;
        LOS_IntRestore intSave;;
        LOS_TickCountGet;;
        call handler arg;;
        LOS_TickCountGet;;
        mret tt
  else mret tt.

(** ** Remaining times *)

Definition OsSwtmrGetNextTimeout : K Z :=
  intSave ← LOS_IntLock;
  time ← OsSortLinkGetNextExpireTime SwtmrSortLink;
  LOS_IntRestore intSave;;
  clock ← gets g_sysClock;
  let time := OS_SYS_CYCLE_TO_TICK clock time in
  mret (u32 (if OS_NULL_INT <? time then OS_NULL_INT else time)).

Definition OsSwtmrTimeGet (swtmr : Z) : K Z :=
  curr ← OsGetCurrSchedTimeCycle;
  t ← GET_SORTLIST_VALUE (SwtmrNode swtmr);
  clock ← gets g_sysClock;
  let time := OS_SYS_CYCLE_TO_TICK clock (OsSortLinkGetTargetExpireTime curr t) in
  mret (u32 (if OS_NULL_INT <? time then OS_NULL_INT else time)).

(** ** Initialisation *)

Definition OsSwtmrTaskCreate : K Z :=
  '(ret, id) ← LOS_TaskCreate true (Some (mkTskParam addr_OsSwtmrTask 0 0 0
    LOSCFG_BASE_CORE_TSK_SWTMR_STACK_SIZE (Some "Swt_Task"%string) 0));
  match id with
  | Some t => modify (fun s => s <| g_swtmrTaskID := t |>)
  | None => mret tt
  end;;
  if ret =? LOS_OK then
    t ← gets g_swtmrTaskID;
    status_set t OS_TASK_FLAG_SYSTEM_TASK;;
    mret ret
  else mret ret.

Definition zeroSwtmr : SWTMR_CTRL_S := mkSwtmr None 0 0 0 0 0 0 0 0 0.

(** The control blocks after the loop that numbers and chains them. *)
Definition swtmr_blocks : gmap Z SWTMR_CTRL_S :=
  list_to_map ((fun i => (i, zeroSwtmr <| usTimerID := i |>
    <| swtmr_pstNext := if i + 1 <? LOSCFG_BASE_CORE_SWTMR_LIMIT then Some (i + 1) else None |>))
    <$> seqZ 0 LOSCFG_BASE_CORE_SWTMR_LIMIT).

(** The error paths free the pointer that the loop has moved past the array. *)
Definition OsSwtmrInit : K Z :=
  let size := u32 (sizeof_SWTMR_CTRL_S * LOSCFG_BASE_CORE_SWTMR_LIMIT) in
  p ← LOS_MemAlloc size;
  if p =? 0 then mret LOS_ERRNO_SWTMR_NO_MEMORY
  else
    modify (fun s => s <| g_swtmrCBArray := swtmr_blocks |>);;
    modify (fun s => s <| g_swtmrFreeList := Some 0 |>);;
    let swtmr := u32 (p + size) in
    '(ret, id) ← LOS_QueueCreate None OS_SWTMR_HANDLE_QUEUE_SIZE true 0 sizeof_SwtmrHandlerItem;
    match id with
    | Some q => modify (fun s => s <| g_swtmrHandlerQueue := q |>)
    | None => mret tt
    end;;
    if negb (ret =? LOS_OK) then
      LOS_MemFree swtmr;; mret LOS_ERRNO_SWTMR_QUEUE_CREATE_FAILED
    else
      ret ← OsSwtmrTaskCreate;
      if negb (ret =? LOS_OK) then
        LOS_MemFree swtmr;; mret LOS_ERRNO_SWTMR_TASK_CREATE_FAILED
      else
        match OsGetSortLinkAttribute OS_SORT_LINK_SWTMR with
        | None => LOS_MemFree swtmr;; mret LOS_NOK
        | Some l =>
            ret ← OsSortLinkInit l;
            if negb (ret =? LOS_OK) then LOS_MemFree swtmr;; mret LOS_NOK
            else
              ret ← OsSchedSwtmrScanRegister true;
              if negb (ret =? LOS_OK) then LOS_MemFree swtmr;; mret LOS_NOK
              else mret LOS_OK
        end.

(** ** The interface *)

(** [LOS_SwtmrCreate]: the error code and [*swtmrId]; [out] says whether the pointer
    [swtmrId] is not NULL, a NULL [handler] is 0. *)
Definition LOS_SwtmrCreate (interval mode handler : Z) (out : bool) (arg : Z)
    : K (Z * option Z) :=
  if interval =? 0 then mret (LOS_ERRNO_SWTMR_INTERVAL_NOT_SUITED, None)
  else if negb (mode =? LOS_SWTMR_MODE_ONCE) && negb (mode =? LOS_SWTMR_MODE_PERIOD) &&
          negb (mode =? LOS_SWTMR_MODE_NO_SELFDELETE) then
    mret (LOS_ERRNO_SWTMR_MODE_INVALID, None)
  else if handler =? 0 then mret (LOS_ERRNO_SWTMR_PTR_NULL, None)
  else if negb out then mret (LOS_ERRNO_SWTMR_RET_PTR_NULL, None)
  else
    intSave ← LOS_IntLock;
    free ← gets g_swtmrFreeList;
    match free with
    | None => LOS_IntRestore intSave;; mret (LOS_ERRNO_SWTMR_MAXSIZE, None)
    | Some swtmr =>
        c ← get_swtmr swtmr;
        modify (fun s => s <| g_swtmrFreeList := swtmr_pstNext c |>);;
        LOS_IntRestore intSave;;
        mod_swtmr swtmr (fun c => c
          <| pfnHandler := handler |> <| ucMode := mode |> <| uwInterval := interval |>
          <| swtmr_pstNext := None |> <| uwArg := arg |>
          <| ucState := OS_SWTMR_STATUS_CREATED |> <| ucOverrun := 0 |>);;
        SET_SORTLIST_VALUE (SwtmrNode swtmr) OS_SORT_LINK_INVALID_TIME;;
        mret (LOS_OK, Some (usTimerID c))
    end.

Definition LOS_SwtmrStart (swtmrId : Z) : K Z :=
  if OS_SWTMR_MAX_TIMERID <=? swtmrId then mret LOS_ERRNO_SWTMR_ID_INVALID
  else
    intSave ← LOS_IntLock;
    let swtmr := swtmrId mod LOSCFG_BASE_CORE_SWTMR_LIMIT in
    c ← get_swtmr swtmr;
    if negb (usTimerID c =? swtmrId) then
      LOS_IntRestore intSave;; mret LOS_ERRNO_SWTMR_NOT_CREATED
    else
      let created :=
        t ← OsGetCurrSchedTimeCycle;
        mod_swtmr swtmr (fun c => c <| swtmr_startTime := t |>);;
        OsSwtmrStart t swtmr;;
        mret LOS_OK in
      ret ← (if ucState c =? OS_SWTMR_STATUS_UNUSED then mret LOS_ERRNO_SWTMR_NOT_CREATED
             else if ucState c =? OS_SWTMR_STATUS_TICKING then OsSwtmrStop swtmr;; created
             else if ucState c =? OS_SWTMR_STATUS_CREATED then created
             else mret LOS_ERRNO_SWTMR_STATUS_INVALID);
      LOS_IntRestore intSave;;
      mret ret.

Definition LOS_SwtmrStop (swtmrId : Z) : K Z :=
  if OS_SWTMR_MAX_TIMERID <=? swtmrId then mret LOS_ERRNO_SWTMR_ID_INVALID
  else
    intSave ← LOS_IntLock;
    let swtmr := u16 (swtmrId mod LOSCFG_BASE_CORE_SWTMR_LIMIT) in
    c ← get_swtmr swtmr;
    if negb (usTimerID c =? swtmrId) then
      LOS_IntRestore intSave;; mret LOS_ERRNO_SWTMR_NOT_CREATED
    else
      ret ← (if ucState c =? OS_SWTMR_STATUS_UNUSED then mret LOS_ERRNO_SWTMR_NOT_CREATED
             else if ucState c =? OS_SWTMR_STATUS_CREATED then mret LOS_ERRNO_SWTMR_NOT_STARTED
             else if ucState c =? OS_SWTMR_STATUS_TICKING then OsSwtmrStop swtmr;; mret LOS_OK
             else mret LOS_ERRNO_SWTMR_STATUS_INVALID);
      LOS_IntRestore intSave;;
      mret ret.

(** [LOS_SwtmrTimeGet]: the error code and [*tick]. *)
Definition LOS_SwtmrTimeGet (swtmrId : Z) (out : bool) : K (Z * option Z) :=
  if OS_SWTMR_MAX_TIMERID <=? swtmrId then mret (LOS_ERRNO_SWTMR_ID_INVALID, None)
  else if negb out then mret (LOS_ERRNO_SWTMR_TICK_PTR_NULL, None)
  else
    intSave ← LOS_IntLock;
    let swtmr := u16 (swtmrId mod LOSCFG_BASE_CORE_SWTMR_LIMIT) in
    c ← get_swtmr swtmr;
    if negb (usTimerID c =? swtmrId) then
      LOS_IntRestore intSave;; mret (LOS_ERRNO_SWTMR_NOT_CREATED, None)
    else
      ret ← (if ucState c =? OS_SWTMR_STATUS_UNUSED then
               mret (LOS_ERRNO_SWTMR_NOT_CREATED, None)
             else if ucState c =? OS_SWTMR_STATUS_CREATED then
               mret (LOS_ERRNO_SWTMR_NOT_STARTED, None)
             else if ucState c =? OS_SWTMR_STATUS_TICKING then
               t ← OsSwtmrTimeGet swtmr; mret (LOS_OK, Some t)
             else mret (LOS_ERRNO_SWTMR_STATUS_INVALID, None));
      LOS_IntRestore intSave;;
      mret ret.

Definition LOS_SwtmrDelete (swtmrId : Z) : K Z :=
  if OS_SWTMR_MAX_TIMERID <=? swtmrId then mret LOS_ERRNO_SWTMR_ID_INVALID
  else
    intSave ← LOS_IntLock;
    let swtmr := u16 (swtmrId mod LOSCFG_BASE_CORE_SWTMR_LIMIT) in
    c ← get_swtmr swtmr;
    if negb (usTimerID c =? swtmrId) then
      LOS_IntRestore intSave;; mret LOS_ERRNO_SWTMR_NOT_CREATED
    else
      ret ← (if ucState c =? OS_SWTMR_STATUS_UNUSED then mret LOS_ERRNO_SWTMR_NOT_CREATED
             else if ucState c =? OS_SWTMR_STATUS_TICKING then
               OsSwtmrStop swtmr;; OsSwtmrDelete swtmr;; mret LOS_OK
             else if ucState c =? OS_SWTMR_STATUS_CREATED then
               OsSwtmrDelete swtmr;; mret LOS_OK
             else mret LOS_ERRNO_SWTMR_STATUS_INVALID);
      LOS_IntRestore intSave;;
      mret ret.

End Swtmr.
