(* ===== verification/TickFreq.v ===== *)
(** The rest of los_tick.c: start of the tick timer, change of its frequency, busy
    waiting. *)

From S2P Require Import Prelude DList Kernel Tick SortLink Mem Pmcu Sched.

Section TickFreq.
  Context `{Config}.

Definition LOS_MOD_SYS : Z := 0x0.
Definition LOS_MOD_TICK : Z := 0x4.
Definition LOS_ERRNO_SYS_CLOCK_INVALID : Z := LOS_ERRNO_OS_ERROR LOS_MOD_SYS 0x11.
Definition LOS_ERRNO_SYS_HOOK_IS_NULL : Z := LOS_ERRNO_OS_ERROR LOS_MOD_SYS 0x16.
Definition LOS_ERRNO_TICK_PER_SEC_TOO_SMALL : Z := LOS_ERRNO_OS_ERROR LOS_MOD_TICK 0x02.
Definition SysTick_LOAD_RELOAD_Msk : Z := 0xFFFFFF.
Definition OS_SYS_NS_PER_MS : Z := 1000000.
Definition OS_SYS_US_PER_MS : Z := 1000.

(** [SysTickStart] of los_timer.c. *)
Definition SysTickStart : K Z :=
  modify (fun s => s <| tick_freq := OS_SYS_CLOCK |>);;
  mret (if SysTick_LOAD_RELOAD_Msk <? u32 (LOSCFG_BASE_CORE_TICK_RESPONSE_MAX - 1)
        then LOS_ERRNO_TICK_PER_SEC_TOO_SMALL else LOS_OK).

(** [OsTickTimerInit]: the driver of los_timer.c sets all its functions, and its
    interrupt number is in range. *)
Definition OsTickTimerInit : K Z :=
  modify (fun s => s <| tick_periodMax := LOSCFG_BASE_CORE_TICK_RESPONSE_MAX |>);;
  intSave ← LOS_IntLock;
  ret ← SysTickStart;
  freq ← gets tick_freq;
  if negb (ret =? LOS_OK) then LOS_IntRestore intSave;; mret ret
  else if (freq =? 0) || (freq <? LOSCFG_BASE_CORE_TICK_PER_SECOND) then
    LOS_IntRestore intSave;; mret LOS_ERRNO_SYS_CLOCK_INVALID
  else
    modify (fun s => s <| g_sysClock := freq |>);;
    modify (fun s => s <| g_cyclesPerTick := freq / LOSCFG_BASE_CORE_TICK_PER_SECOND |>);;
    modify (fun s => s <| g_sysTimerIsInit := true |>);;
    LOS_IntRestore intSave;;
    mret LOS_OK.

(** [LOS_SysTickClockFreqAdjust(handler, param)]; [handler] is NULL or the call
    [handler(param)]. *)
Definition LOS_SysTickClockFreqAdjust (handler : option (K Z)) : K Z :=
  oldFreq ← gets g_sysClock;
  match handler with
  | None => mret LOS_ERRNO_SYS_HOOK_IS_NULL
  | Some call =>
      intSave ← LOS_IntLock;
      currTimeCycle ← LOS_SysCycleGet;
      freq ← call;
      clock ← gets g_sysClock;
      if (freq =? 0) || (freq =? clock) then
        LOS_IntRestore intSave;; mret LOS_ERRNO_SYS_CLOCK_INVALID
      else
        SysTickReload LOSCFG_BASE_CORE_TICK_RESPONSE_MAX;;
        modify (fun s => s <| g_tickTimerBase := OsTimeConvertFreq currTimeCycle oldFreq freq |>);;
        modify (fun s => s <| g_oldTickTimerBase :=
          OsTimeConvertFreq (g_oldTickTimerBase s) oldFreq freq |>);;
        modify (fun s => s <| g_tickTimerStartTime :=
          OsTimeConvertFreq (g_tickTimerStartTime s) oldFreq freq |>);;
        modify (fun s => s <| tick_freq := freq |>);;
        modify (fun s => s <| g_sysClock := freq |>);;
        modify (fun s => s <| g_cyclesPerTick := freq / LOSCFG_BASE_CORE_TICK_PER_SECOND |>);;
        OsSchedTimeConvertFreq oldFreq;;
        LOS_IntRestore intSave;;
        mret LOS_OK
  end.

Definition LOS_CurrNanosec : K Z :=
  t ← LOS_SysCycleGet;
  clock ← gets g_sysClock;
  when (clock / OS_SYS_NS_PER_MS =? 0) (fail DivByZero);;
  mret (u64 (t * (OS_SYS_NS_PER_SECOND / OS_SYS_NS_PER_MS)) / (clock / OS_SYS_NS_PER_MS)).

(** [while (LOS_SysCycleGet() < endTime) { }]. *)
Fixpoint LOS_UDelay_loop (fuel : nat) (endTime : Z) : K unit :=
  match fuel with
  | O => fail OutOfFuel
  | S fuel =>
      t ← LOS_SysCycleGet;
      if t <? endTime then LOS_UDelay_loop fuel endTime else mret tt
  end.

Definition LOS_UDelay (fuel : nat) (microseconds : Z) : K unit :=
  if microseconds =? 0 then mret tt
  else
    clock ← gets g_sysClock;
    let cycles :=
      u64 (u64 ((microseconds / OS_SYS_US_PER_SECOND) * clock) +
           u64 ((microseconds mod OS_SYS_US_PER_SECOND) * clock) / OS_SYS_US_PER_SECOND) in
    t ← LOS_SysCycleGet;
    LOS_UDelay_loop fuel (u64 (t + cycles)).

End TickFreq.
