(* ===== verification/ExcHook.v ===== *)
(** Exception hooks (components/exchook/los_exchook.c and the hook of utils/los_debug.c): the
    functions that run when the system stops, in a list per type of exception, with nodes from a
    static array. *)

From S2P Require Import Prelude DList Kernel Tick SortLink Mem Pmcu Sched TickFreq.

(** [EXC_TYPE]. *)
Definition EXC_REBOOT : Z := 0.
Definition EXC_ASSERT : Z := 1.
Definition EXC_PANIC : Z := 2.
Definition EXC_STACKOVERFLOW : Z := 3.
Definition EXC_INTERRUPT : Z := 4.
Definition EXC_TYPE_END : Z := 5.

Definition LOSCFG_BASE_EXC_HOOK_LIMIT : Z := 16.

Definition LOS_ERRNO_SYS_PTR_NULL : Z := LOS_ERRNO_OS_ERROR LOS_MOD_SYS 0x10.
Definition LOS_ERRNO_SYS_HOOK_IS_FULL : Z := LOS_ERRNO_OS_ERROR LOS_MOD_SYS 0x14.

(** The address of [DoExcHook], and the hooks: functions outside the kernel, called by address
    with the type of the exception. *)
Class ExcEnv := {
  addr_DoExcHook : Z;
  call_hook : Z → Z → K unit
}.

Section ExcHook.
  Context `{ExcEnv}.

(** [g_excNodes[i]] and [g_excHeads[i]]. *)
Definition get_exc_node (i : Z) : K ExcNode :=
  a ← gets g_excNodes; unwrap OutOfBounds (a !! i).
Definition mod_exc_node (i : Z) (f : ExcNode → ExcNode) : K unit :=
  n ← get_exc_node i;
  modify (fun s => s <| g_excNodes := <[i := f n]> (g_excNodes s) |>).
Definition get_exc_head (k : Z) : K (option Z) :=
  a ← gets g_excHeads; unwrap OutOfBounds (a !! k).
Definition set_exc_head (k : Z) (h : option Z) : K unit :=
  get_exc_head k;;
  modify (fun s => s <| g_excHeads := <[k := h]> (g_excHeads s) |>).

(** [OsExcHookRegister] of los_debug.c. *)
Definition OsExcHookRegister (fn : Z) : K unit :=
  intSave ← LOS_IntLock;
  hook ← gets g_excHook;
  when (hook =? 0) (modify (fun s => s <| g_excHook := fn |>));;
  LOS_IntRestore intSave.

(** The recursion ends with the list; it is at most as long as the array. *)
Fixpoint DoExcHookInRegOrder (fuel : nat) (excType : Z) (node : option Z) : K unit :=
  match node with
  | None => mret tt
  | Some i =>
      match fuel with
      | O => fail OutOfFuel
      | S fuel =>
          n ← get_exc_node i;
          DoExcHookInRegOrder fuel excType (exc_next n);;
          n ← get_exc_node i;
          if excHookFn n =? 0 then fail NullDeref else call_hook (excHookFn n) excType
      end
  end.

Definition DoExcHook (excType : Z) : K unit :=
  if EXC_TYPE_END <=? excType then mret tt
  else
    intSave ← LOS_IntLock;
    head ← get_exc_head excType;
    DoExcHookInRegOrder (Z.to_nat LOSCFG_BASE_EXC_HOOK_LIMIT) excType head;;
    LOS_IntRestore intSave.

(** [OsDoExcHook] of los_debug.c. *)
Definition OsDoExcHook (excType : Z) : K unit :=
  intSave ← LOS_IntLock;
  hook ← gets g_excHook;
  when (negb (hook =? 0))
    (if hook =? addr_DoExcHook then DoExcHook excType else call_hook hook excType);;
  LOS_IntRestore intSave.

(** One round of the loop in [GetFreeNode] that links all nodes. *)
Definition GetFreeNode_one (i : Z) : K unit :=
  h ← get_exc_head EXC_TYPE_END;
  mod_exc_node i (fun n => n <| exc_next := h |>);;
  set_exc_head EXC_TYPE_END (Some i).

(** [None] is NULL. *)
Definition GetFreeNode : K (option Z) :=
  free ← get_exc_head EXC_TYPE_END;
  ok ← match free with
       | Some _ => mret true
       | None =>
           n ← get_exc_node 0;
           if negb (excHookFn n =? 0) then mret false
           else
             for_loop 0 (Z.to_nat LOSCFG_BASE_EXC_HOOK_LIMIT) GetFreeNode_one;;
             OsExcHookRegister addr_DoExcHook;;
             mret true
       end;
  if negb ok then mret None
  else
    node ← get_exc_head EXC_TYPE_END;
    i ← unwrap NullDeref node;
    n ← get_exc_node i;
    set_exc_head EXC_TYPE_END (exc_next n);;
    mret (Some i).

Definition LOS_RegExcHook (excType fn : Z) : K Z :=
  if (EXC_TYPE_END <=? excType) || (fn =? 0) then mret LOS_ERRNO_SYS_PTR_NULL
  else
    intSave ← LOS_IntLock;
    node ← GetFreeNode;
    match node with
    | None => LOS_IntRestore intSave;; mret LOS_ERRNO_SYS_HOOK_IS_FULL
    | Some i =>
        mod_exc_node i (fun n => n <| excHookFn := fn |>);;
        h ← get_exc_head excType;
        mod_exc_node i (fun n => n <| exc_next := h |>);;
        set_exc_head excType (Some i);;
        LOS_IntRestore intSave;;
        mret LOS_OK
    end.

(** The loop of [LOS_UnRegExcHook]; a node that was taken out is linked into the free list, and
    the loop goes on from there. *)
Fixpoint LOS_UnRegExcHook_loop (fuel : nat) (excType fn : Z) (preNode node : option Z) : K unit :=
  match node with
  | None => mret tt
  | Some i =>
      match fuel with
      | O => fail OutOfFuel
      | S fuel =>
          n ← get_exc_node i;
          when (excHookFn n =? fn)
            (match preNode with
             | Some p => mod_exc_node p (fun m => m <| exc_next := exc_next n |>)
             | None => set_exc_head excType (exc_next n)
             end;;
             mod_exc_node i (fun n => n <| excHookFn := 0 |>);;
             free ← get_exc_head EXC_TYPE_END;
             mod_exc_node i (fun n => n <| exc_next := free |>);;
             set_exc_head EXC_TYPE_END (Some i));;
          n ← get_exc_node i;
          LOS_UnRegExcHook_loop fuel excType fn (Some i) (exc_next n)
      end
  end.
Definition LOS_UnRegExcHook (excType fn : Z) : K Z :=
  if (EXC_TYPE_END <=? excType) || (fn =? 0) then mret LOS_ERRNO_SYS_PTR_NULL
  else
    intSave ← LOS_IntLock;
    head ← get_exc_head excType;
    LOS_UnRegExcHook_loop (Z.to_nat LOSCFG_BASE_EXC_HOOK_LIMIT) excType fn None head;;
    LOS_IntRestore intSave;;
    mret LOS_OK.

(** [LOS_Reboot] up to [ArchSysExit], which stops the system. *)
Definition LOS_Reboot : K unit := OsDoExcHook EXC_REBOOT;; fail Panic.

End ExcHook.
