(* ===== verification/ExcRep.v ===== *)
(** The exception hooks as a list of functions per type of exception: the singly linked lists of
    nodes in the static array, and what registration, removal and an exception do to them. *)

From stdpp Require Import functions.
From S2P Require Import Prelude DList Kernel Tick SortLink Mem Pmcu Sched TickFreq ExcHook.

(** ** The lists of nodes *)

Fixpoint chain (N : gmap Z ExcNode) (h : option Z) (l : list Z) : Prop :=
  match l with
  | [] => h = None
  | i :: l => h = Some i ∧ ∃ n, N !! i = Some n ∧ chain N (exc_next n) l
  end.

Lemma chain_ext N N' h l : (∀ i, i ∈ l → N' !! i = N !! i) → chain N h l → chain N' h l.
Proof.
  revert h. induction l as [|i l IH]; intros h Hl; [done|]. intros (-> & n & En & Hc).
  split; [done|]. exists n. split; [rewrite Hl; [done|set_solver]|]. apply IH; [set_solver|done].
Qed.

Definition fn_of (N : gmap Z ExcNode) (i : Z) : Z :=
  match N !! i with Some n => excHookFn n | None => 0 end.

Lemma chain_node N h l i : chain N h l → i ∈ l → is_Some (N !! i).
Proof.
  revert h. induction l as [|j l IH]; intros h; [set_solver|]. intros (_ & n & En & Hc).
  intros [->|Hi]%elem_of_cons; [by eexists|by eapply IH].
Qed.

(** The node [i] is taken out behind [p], or at the head. *)
Lemma chain_remove N h l1 i l2 n p np :
  NoDup (l1 ++ i :: l2) → chain N h (l1 ++ i :: l2) → N !! i = Some n → last l1 = Some p → N !! p = Some np →
  chain (<[p := np <| exc_next := exc_next n |>]> N) h (l1 ++ l2).
Proof.
  revert h. induction l1 as [|j l1 IH]; intros h HN Hc En Hp Enp; [done|]. cbn [app] in *.
  apply NoDup_cons in HN as [Hj HN]. destruct Hc as (-> & nj & Ej & Hc). split; [done|].
  destruct l1 as [|k l1].
  - injection Hp as ->. exists (nj <| exc_next := exc_next n |>). simplify_eq. rewrite lookup_insert_eq.
    split; [done|]. destruct Hc as (_ & n' & En' & Hc). simplify_eq. cbn [exc_next]. 
    eapply chain_ext; [|exact Hc]. intros x Hx. rewrite lookup_insert_ne; [done|]. set_solver.
  - assert (p ∈ k :: l1) as Hpin by (rewrite last_cons_cons in Hp; apply last_Some in Hp as [l' ->]; set_solver).
    exists nj. rewrite lookup_insert_ne by set_solver. split; [done|].
    apply IH; [done|done|done|by rewrite last_cons_cons in Hp|done].
Qed.

Lemma chain_head_remove N h i l2 n : chain N h (i :: l2) → N !! i = Some n → chain N (exc_next n) l2.
Proof. intros (_ & n' & En' & Hc) En. by simplify_eq. Qed.

(** ** The representation *)

(** The nodes of all lists; the list [EXC_TYPE_END] is that of the free nodes. *)
Definition all_nodes (L : Z → list Z) : list Z := L 0 ++ L 1 ++ L 2 ++ L 3 ++ L 4 ++ L 5.

(** [H k] are the hooks for exceptions of type [k], the one registered last first. *)
Record ERep (N : gmap Z ExcNode) (Hd : gmap Z (option Z)) (L H : Z → list Z) : Prop := {
  e_heads k : 0 ≤ k ≤ 5 → ∃ h, Hd !! k = Some h ∧ chain N h (L k);
  e_fns k : 0 ≤ k < 5 → fn_of N <$> L k = H k;
  e_set k : 0 ≤ k < 5 → Forall (fun f => f ≠ 0) (H k);
  e_free : Forall (fun i => fn_of N i = 0) (L 5);
  e_all : all_nodes L ≡ₚ seqZ 0 LOSCFG_BASE_EXC_HOOK_LIMIT
}.

(** The static variables before the first registration. *)
Record EFresh (N : gmap Z ExcNode) (Hd : gmap Z (option Z)) : Prop := {
  f_heads k : 0 ≤ k ≤ 5 → Hd !! k = Some None;
  f_nodes i : 0 ≤ i < LOSCFG_BASE_EXC_HOOK_LIMIT → ∃ n, N !! i = Some n ∧ excHookFn n = 0
}.

Definition exc_set (s : kstate) (N : gmap Z ExcNode) (Hd : gmap Z (option Z)) : kstate :=
  s <| g_excNodes := N |> <| g_excHeads := Hd |>.

Lemma exc_set_id s : exc_set s (g_excNodes s) (g_excHeads s) = s.
Proof. by destruct s. Qed.

Section access.
  Context (s : kstate) (N : gmap Z ExcNode) (Hd : gmap Z (option Z)).

Lemma wp_get_exc_node i n (Q : ExcNode → kstate → Prop) :
  N !! i = Some n → Q n (exc_set s N Hd) → wp (get_exc_node i) Q (exc_set s N Hd).
Proof. intros E HQ. unfold get_exc_node. wp_steps. unfold exc_set. rsimpl. by rewrite E. Qed.

Lemma wp_mod_exc_node i n f (Q : unit → kstate → Prop) :
  N !! i = Some n → Q tt (exc_set s (<[i := f n]> N) Hd) → wp (mod_exc_node i f) Q (exc_set s N Hd).
Proof. intros E HQ. unfold mod_exc_node. wp_step. eapply wp_get_exc_node; [exact E|]. wp_steps. exact HQ. Qed.

Lemma wp_get_exc_head k h (Q : option Z → kstate → Prop) :
  Hd !! k = Some h → Q h (exc_set s N Hd) → wp (get_exc_head k) Q (exc_set s N Hd).
Proof. intros E HQ. unfold get_exc_head. wp_steps. unfold exc_set. rsimpl. by rewrite E. Qed.

Lemma wp_set_exc_head k h (Q : unit → kstate → Prop) :
  is_Some (Hd !! k) → Q tt (exc_set s N (<[k := h]> Hd)) → wp (set_exc_head k h) Q (exc_set s N Hd).
Proof. intros [h' E] HQ. unfold set_exc_head. wp_step. eapply wp_get_exc_head; [exact E|]. wp_steps. exact HQ. Qed.
End access.

(** ** Membership *)

Lemma in_all L k i : 0 ≤ k ≤ 5 → i ∈ L k → i ∈ all_nodes L.
Proof.
  intros Hk Hi. unfold all_nodes. assert (k = 0 ∨ k = 1 ∨ k = 2 ∨ k = 3 ∨ k = 4 ∨ k = 5) as Hc by lia.
  destruct Hc as [->|[->|[->|[->|[->| ->]]]]]; set_solver.
Qed.

Lemma all_in L i : i ∈ all_nodes L → ∃ k, 0 ≤ k ≤ 5 ∧ i ∈ L k.
Proof.
  unfold all_nodes. rewrite !elem_of_app.
  intros [?|[?|[?|[?|[?|?]]]]]; [exists 0|exists 1|exists 2|exists 3|exists 4|exists 5]; (split; [lia|done]).
Qed.

(** A node moves from the list [j] to the front of the list [k]. *)
Lemma all_move L j k l1 i l2 :
  0 ≤ j ≤ 5 → 0 ≤ k ≤ 5 → j ≠ k → L j = l1 ++ i :: l2 →
  all_nodes (<[k := i :: L k]> (<[j := l1 ++ l2]> L)) ≡ₚ all_nodes L.
Proof.
  intros Hj Hk Hne E. unfold all_nodes.
  assert (j = 0 ∨ j = 1 ∨ j = 2 ∨ j = 3 ∨ j = 4 ∨ j = 5) as Hcj by lia.
  assert (k = 0 ∨ k = 1 ∨ k = 2 ∨ k = 3 ∨ k = 4 ∨ k = 5) as Hck by lia.
  destruct Hcj as [->|[->|[->|[->|[->| ->]]]]]; destruct Hck as [->|[->|[->|[->|[->| ->]]]]]; try done;
    repeat first [rewrite fn_lookup_insert | rewrite fn_lookup_insert_ne by done]; rewrite E; solve_Permutation.
Qed.

Lemma ERep_ext N Hd L H H' : (∀ k, 0 ≤ k < 5 → H' k = H k) → ERep N Hd L H → ERep N Hd L H'.
Proof. intros He [R1 R2 R3 R4 R5]. constructor; try done; intros k Hk; rewrite He by done; auto. Qed.

Section rep.
  Context (N : gmap Z ExcNode) (Hd : gmap Z (option Z)) (L H : Z → list Z) (HR : ERep N Hd L H).

Lemma nodes_nodup : NoDup (all_nodes L).
Proof. rewrite (e_all _ _ _ _ HR). apply NoDup_seqZ. Qed.

Lemma list_nodup k : 0 ≤ k ≤ 5 → NoDup (L k).
Proof.
  intros Hk. pose proof nodes_nodup as HN. unfold all_nodes in HN. rewrite !NoDup_app in HN.
  assert (k = 0 ∨ k = 1 ∨ k = 2 ∨ k = 3 ∨ k = 4 ∨ k = 5) as Hc by lia. intuition (subst; done).
Qed.

Lemma one_list j k i : 0 ≤ j ≤ 5 → 0 ≤ k ≤ 5 → i ∈ L j → i ∈ L k → j = k.
Proof.
  intros Hj Hk Hij Hik. destruct (decide (j = k)) as [|Hne]; [done|]. exfalso.
  apply list_elem_of_split in Hij as (l1 & l2 & E).
  pose proof (all_move L j k l1 i l2 Hj Hk Hne E) as Hp. pose proof nodes_nodup as HN. rewrite <- Hp in HN.
  assert (NoDup (<[k := i :: L k]> (<[j := l1 ++ l2]> L) k)) as HN'.
  { revert HN. unfold all_nodes. rewrite !NoDup_app.
    assert (k = 0 ∨ k = 1 ∨ k = 2 ∨ k = 3 ∨ k = 4 ∨ k = 5) as Hc by lia. intuition (subst; done). }
  rewrite fn_lookup_insert in HN'. apply NoDup_cons in HN' as [? _]. done.
Qed.

Lemma pair_length k : 0 ≤ k < 5 → (length (L k) + length (L 5%Z) ≤ 16)%nat.
Proof.
  intros Hk. assert (length (all_nodes L) = 16%nat) as E by (rewrite (e_all _ _ _ _ HR); by rewrite length_seqZ).
  rewrite <- E, <- length_app. apply submseteq_length, NoDup_submseteq.
  - apply NoDup_app. split; [apply list_nodup; lia|]. split; [|apply list_nodup; lia].
    intros i Hi H5. pose proof (one_list k 5 i ltac:(lia) ltac:(lia) Hi H5). lia.
  - intros i [Hi|Hi]%elem_of_app; eapply in_all; [|exact Hi| |exact Hi]; lia.
Qed.

(** The number of hooks. *)
Lemma hooks_length : (length (L 5) + length (H 0 ++ H 1 ++ H 2 ++ H 3 ++ H 4) = 16)%nat.
Proof.
  assert (length (all_nodes L) = 16%nat) as E by (rewrite (e_all _ _ _ _ HR); by rewrite length_seqZ).
  rewrite <- !(e_fns _ _ _ _ HR) by lia. unfold all_nodes in E. rewrite !length_app, !length_fmap in *. lia.
Qed.

Lemma hook_set k i : 0 ≤ k < 5 → i ∈ L k → fn_of N i ≠ 0.
Proof.
  intros Hk Hi. pose proof (e_set _ _ _ _ HR k Hk) as HF. rewrite Forall_forall in HF.
  apply HF. rewrite <- (e_fns _ _ _ _ HR k Hk). by apply list_elem_of_fmap_2.
Qed.
End rep.

(** ** Registration and removal *)

Lemma fn_of_insert N i n j : fn_of (<[i := n]> N) j = if decide (i = j) then excHookFn n else fn_of N j.
Proof. unfold fn_of. case_decide as E; [subst; by rewrite lookup_insert_eq|by rewrite lookup_insert_ne]. Qed.

Lemma fns_ext N N' (l : list Z) : (∀ i, i ∈ l → fn_of N' i = fn_of N i) → fn_of N' <$> l = fn_of N <$> l.
Proof. intros He. apply list_fmap_ext. intros k i Hi%list_elem_of_lookup_2. by apply He. Qed.

(** A free node becomes the first node of the list [k]. *)
Lemma ERep_reg N Hd L H k f i l n h :
  ERep N Hd L H → L 5 = i :: l → N !! i = Some n → Hd !! k = Some h → 0 ≤ k < 5 → f ≠ 0 →
  ERep (<[i := mkExcNode f h]> N) (<[k := Some i]> (<[5 := exc_next n]> Hd))
    (<[k := i :: L k]> (<[5 := l]> L)) (<[k := f :: H k]> H).
Proof.
  intros HR E5 En Eh Hk Hf. assert (i ∈ L 5) as Hi5 by (rewrite E5; set_solver).
  assert (∀ j, 0 ≤ j < 5 → i ∉ L j) as Hnot.
  { intros j Hj Hin. pose proof (one_list _ _ _ _ HR j 5 i ltac:(lia) ltac:(lia) Hin Hi5). lia. }
  pose proof (list_nodup _ _ _ _ HR 5 ltac:(lia)) as HN5. rewrite E5 in HN5. apply NoDup_cons in HN5 as [Hil _].
  assert (∀ j, j ∈ l → j ≠ i) as Hl by (intros j Hj ->; done).
  constructor.
  - intros j Hj. destruct (decide (k = j)) as [<-|].
    + exists (Some i). rewrite lookup_insert_eq, fn_lookup_insert. split; [done|]. split; [done|].
      exists (mkExcNode f h). rewrite lookup_insert_eq. split; [done|]. cbn [exc_next].
      destruct (e_heads _ _ _ _ HR k Hj) as (h' & Eh' & Hc). simplify_eq.
      eapply chain_ext; [|exact Hc]. intros x Hx. rewrite lookup_insert_ne; [done|]. intros ->. by apply (Hnot k).
    + rewrite lookup_insert_ne, fn_lookup_insert_ne by done. destruct (decide (5 = j)) as [<-|].
      * rewrite lookup_insert_eq, fn_lookup_insert. exists (exc_next n). split; [done|].
        destruct (e_heads _ _ _ _ HR 5 ltac:(lia)) as (h' & _ & Hc). rewrite E5 in Hc.
        eapply chain_ext; [|by eapply chain_head_remove]. intros x Hx. rewrite lookup_insert_ne; [done|]. naive_solver.
      * rewrite lookup_insert_ne, fn_lookup_insert_ne by done. destruct (e_heads _ _ _ _ HR j Hj) as (h' & Eh' & Hc).
        exists h'. split; [done|]. eapply chain_ext; [|exact Hc]. intros x Hx. rewrite lookup_insert_ne; [done|].
        intros ->. apply (Hnot j); [lia|done].
  - intros j Hj. assert (fn_of (<[i := mkExcNode f h]> N) <$> L j = H j) as Hsame.
    { rewrite <- (e_fns _ _ _ _ HR j Hj). apply fns_ext. intros x Hx. rewrite fn_of_insert, decide_False; [done|].
      intros ->. by apply (Hnot j). }
    destruct (decide (k = j)) as [<-|].
    + rewrite !fn_lookup_insert. rewrite fmap_cons, Hsame, fn_of_insert, decide_True; done.
    + rewrite !fn_lookup_insert_ne by (done || lia). done.
  - intros j Hj. destruct (decide (k = j)) as [<-|]; [rewrite fn_lookup_insert|rewrite fn_lookup_insert_ne by done];
      [constructor; [done|]|]; by apply (e_set _ _ _ _ HR).
  - rewrite fn_lookup_insert_ne, fn_lookup_insert by lia. pose proof (e_free _ _ _ _ HR) as HF.
    rewrite E5 in HF. apply Forall_cons in HF as [_ HF]. rewrite Forall_forall in HF |- *. intros x Hx.
    rewrite fn_of_insert, decide_False; [by apply HF|]. naive_solver.
  - rewrite <- (e_all _ _ _ _ HR). apply (all_move L 5 k [] i l); [lia..|done].
Qed.

Lemma alter_as_insert {A} (M : gmap Z A) f p a : M !! p = Some a → alter f p M = <[p := f a]> M.
Proof.
  intros E. apply map_eq. intros x. destruct (decide (p = x)) as [<-|].
  - by rewrite lookup_alter_eq, lookup_insert_eq, E.
  - by rewrite lookup_alter_ne, lookup_insert_ne.
Qed.

(** The node [i] of the list [k] is unlinked, and becomes the first free node. *)
Definition unlink_nodes (N : gmap Z ExcNode) (l1 : list Z) (n : ExcNode) : gmap Z ExcNode :=
  match last l1 with
  | Some p => alter (fun m => m <| exc_next := exc_next n |>) p N
  | None => N
  end.
Definition unlink_heads (Hd : gmap Z (option Z)) (k : Z) (l1 : list Z) (n : ExcNode) : gmap Z (option Z) :=
  match last l1 with Some _ => Hd | None => <[k := exc_next n]> Hd end.

Section unlink.
  Context (N : gmap Z ExcNode) (Hd : gmap Z (option Z)) (L H : Z → list Z) (HR : ERep N Hd L H).
  Context (k i : Z) (l1 l2 : list Z) (n : ExcNode) (h5 : option Z).
  Context (Hk : 0 ≤ k < 5) (El : L k = l1 ++ i :: l2) (En : N !! i = Some n) (Eh : Hd !! 5 = Some h5).

Definition nodes_unlinked : gmap Z ExcNode := <[i := mkExcNode 0 h5]> (unlink_nodes N l1 n).
Definition heads_unlinked : gmap Z (option Z) := <[5 := Some i]> (unlink_heads Hd k l1 n).

Lemma unlink_last p : last l1 = Some p → p ∈ L k ∧ p ≠ i.
Proof.
  intros Hp. pose proof (list_nodup _ _ _ _ HR k ltac:(lia)) as HN. rewrite El in HN |- *.
  apply last_Some in Hp as [l' ->]. split; [set_solver|]. intros ->. apply NoDup_app in HN as (_ & HN & _).
  apply (HN i); set_solver.
Qed.

Lemma unlink_other x : x ∉ L k → nodes_unlinked !! x = N !! x.
Proof.
  intros Hx. unfold nodes_unlinked. rewrite lookup_insert_ne by (intros ->; rewrite El in Hx; set_solver).
  unfold unlink_nodes. destruct (last l1) as [p|] eqn:Hp; [|done]. destruct (unlink_last p Hp).
  rewrite lookup_alter_ne; [done|]. intros ->. done.
Qed.

Lemma unlink_fn x : x ≠ i → fn_of nodes_unlinked x = fn_of N x.
Proof.
  intros Hx. unfold nodes_unlinked. rewrite fn_of_insert, decide_False by done. unfold unlink_nodes.
  destruct (last l1) as [p|]; [|done]. unfold fn_of. destruct (decide (p = x)) as [->|];
    [rewrite lookup_alter_eq; by destruct (N !! x)|by rewrite lookup_alter_ne].
Qed.

Lemma unlink_chain : ∃ h, heads_unlinked !! k = Some h ∧ chain nodes_unlinked h (l1 ++ l2).
Proof.
  destruct (e_heads _ _ _ _ HR k ltac:(lia)) as (h & Ehk & Hc). rewrite El in Hc.
  pose proof (list_nodup _ _ _ _ HR k ltac:(lia)) as HN. rewrite El in HN.
  assert (∀ M h', chain M h' (l1 ++ l2) → chain (<[i := mkExcNode 0 h5]> M) h' (l1 ++ l2)) as Hi.
  { intros M h'. apply chain_ext. intros x Hx. rewrite lookup_insert_ne; [done|]. intros ->.
    apply NoDup_app in HN as (_ & HN & Hn2). apply NoDup_cons in Hn2 as [Hn2 _].
    apply elem_of_app in Hx as [Hx|Hx]; [apply (HN x Hx); set_solver|done]. }
  unfold heads_unlinked, nodes_unlinked, unlink_heads, unlink_nodes. rewrite lookup_insert_ne by lia.
  destruct (last l1) as [p|] eqn:Hp.
  - exists h. split; [done|]. apply Hi. destruct (chain_node _ _ _ p Hc) as [np Enp].
    { apply last_Some in Hp as [l' ->]. set_solver. }
    rewrite (alter_as_insert N _ p np) by done. by apply (chain_remove _ _ _ i _ n).
  - apply last_None in Hp as ->. exists (exc_next n). rewrite lookup_insert_eq. split; [done|].
    apply Hi. by eapply chain_head_remove.
Qed.

Lemma ERep_unreg :
  ERep nodes_unlinked heads_unlinked (<[5 := i :: L 5]> (<[k := l1 ++ l2]> L)) (<[k := fn_of N <$> l1 ++ l2]> H).
Proof.
  assert (i ∈ L k) as Hik by (rewrite El; set_solver).
  assert (∀ j x, 0 ≤ j ≤ 5 → j ≠ k → x ∈ L j → x ∉ L k) as Hnot.
  { intros j x Hj Hne Hx Hx'. by pose proof (one_list _ _ _ _ HR j k x Hj ltac:(lia) Hx Hx'). }
  assert (i ∉ l1 ++ l2) as Hil.
  { pose proof (list_nodup _ _ _ _ HR k ltac:(lia)) as HN. rewrite El in HN.
    apply NoDup_app in HN as (_ & HN & Hn2). apply NoDup_cons in Hn2 as [Hn2 _]. set_solver. }
  constructor.
  - intros j Hj. destruct (decide (5 = j)) as [<-|].
    + exists (Some i). unfold heads_unlinked. rewrite lookup_insert_eq, fn_lookup_insert. split; [done|]. split; [done|].
      exists (mkExcNode 0 h5). unfold nodes_unlinked at 1. rewrite lookup_insert_eq. split; [done|]. cbn [exc_next].
      destruct (e_heads _ _ _ _ HR 5 ltac:(lia)) as (h & Eh' & Hc). simplify_eq.
      eapply chain_ext; [|exact Hc]. intros x Hx. apply unlink_other, (Hnot 5 x); [lia..|done].
    + rewrite fn_lookup_insert_ne by done. destruct (decide (k = j)) as [<-|].
      { rewrite fn_lookup_insert. apply unlink_chain. }
      rewrite fn_lookup_insert_ne by done. destruct (e_heads _ _ _ _ HR j Hj) as (h & Eh' & Hc).
      exists h. split.
      * unfold heads_unlinked, unlink_heads. rewrite lookup_insert_ne by done. destruct (last l1); [done|].
        by rewrite lookup_insert_ne.
      * eapply chain_ext; [|exact Hc]. intros x Hx. by apply unlink_other, (Hnot j x).
  - intros j Hj. rewrite (fn_lookup_insert_ne _ 5 j) by lia. destruct (decide (k = j)) as [<-|].
    + rewrite !fn_lookup_insert. apply fns_ext. intros x Hx. apply unlink_fn. by intros ->.
    + rewrite !fn_lookup_insert_ne by done. rewrite <- (e_fns _ _ _ _ HR j Hj). apply fns_ext. intros x Hx.
      apply unlink_fn. intros ->. by apply (Hnot j i); [lia|..].
  - intros j Hj. pose proof (e_set _ _ _ _ HR j Hj) as HF.
    destruct (decide (k = j)) as [<-|]; [rewrite fn_lookup_insert|by rewrite fn_lookup_insert_ne].
    rewrite <- (e_fns _ _ _ _ HR k Hj), El in HF. rewrite !fmap_app, fmap_cons in *.
    apply Forall_app in HF as [? [_ ?]%Forall_cons]. by apply Forall_app.
  - rewrite fn_lookup_insert. constructor; [unfold nodes_unlinked; by rewrite fn_of_insert, decide_True|].
    pose proof (e_free _ _ _ _ HR) as HF. rewrite Forall_forall in HF |- *. intros x Hx.
    rewrite unlink_fn; [by apply HF|]. intros ->. by apply (Hnot 5 i); [lia..| |].
  - rewrite <- (e_all _ _ _ _ HR). apply all_move; [lia..|done].
Qed.
End unlink.

(** ** The first registration *)

(** All nodes that were linked so far are free. *)
Lemma wp_link_nodes s n : ∀ i N Hd h l (Q : unit → kstate → Prop),
  0 ≤ i → i + Z.of_nat n = 16 → (∀ j, 0 ≤ j < 16 → ∃ nd, N !! j = Some nd ∧ excHookFn nd = 0) →
  Hd !! 5 = Some h → chain N h l → (∀ j, j ∈ l → j < i) →
  (∀ N' h', (∀ j, 0 ≤ j < 16 → ∃ nd, N' !! j = Some nd ∧ excHookFn nd = 0) →
     chain N' h' (reverse (seqZ i (Z.of_nat n)) ++ l) → Q tt (exc_set s N' (<[5 := h']> Hd))) →
  wp (for_loop i n GetFreeNode_one) Q (exc_set s N Hd).
Proof.
  induction n as [|n IH]; intros i N Hd h l Q Hi Hn Hz Eh Hc Hl HQ.
  - cbn [for_loop]. wp_step. rewrite <- (insert_id Hd 5 h) by done. by apply HQ.
  - cbn [for_loop]. destruct (Hz i ltac:(lia)) as (nd & Ei & Hf). wp_step. unfold GetFreeNode_one. wp_step. eapply wp_get_exc_head; [exact Eh|]. wp_step. eapply wp_mod_exc_node; [exact Ei|].
    eapply wp_set_exc_head; [by eexists|].
    eapply (IH (i + 1) _ _ (Some i) (i :: l)); [lia|lia| |by rewrite lookup_insert_eq|..].
    + intros j Hj. destruct (decide (i = j)) as [<-|]; [rewrite lookup_insert_eq; by eexists|].
      rewrite lookup_insert_ne by done. by apply Hz.
    + split; [done|]. eexists. rewrite lookup_insert_eq. split; [done|]. cbn [exc_next].
      eapply chain_ext; [|exact Hc]. intros x Hx%Hl. rewrite lookup_insert_ne; [done|lia].
    + intros j [->|Hj%Hl]%elem_of_cons; lia.
    + intros N' h' Hz' Hc'. rewrite insert_insert_eq. apply HQ; [done|].
      rewrite Nat2Z.inj_succ, <- Z.add_1_r, (seqZ_cons i) by lia. rewrite reverse_cons, <- app_assoc.
      by replace (Z.pred (Z.of_nat n + 1)) with (Z.of_nat n) by lia; replace (Z.succ i) with (i + 1) by lia.
Qed.

Definition start_lists : Z → list Z := <[5 := reverse (seqZ 0 16)]> (fun _ => []).

Lemma ERep_start N Hd h H :
  (∀ k, 0 ≤ k < 5 → Hd !! k = Some None) → Hd !! 5 = Some h → chain N h (reverse (seqZ 0 16)) →
  (∀ j, 0 ≤ j < 16 → ∃ nd, N !! j = Some nd ∧ excHookFn nd = 0) → (∀ k, 0 ≤ k < 5 → H k = []) →
  ERep N Hd start_lists H.
Proof.
  intros Hh E5 Hc Hz HH. unfold start_lists. constructor.
  - intros k Hk. destruct (decide (5 = k)) as [<-|]; [rewrite fn_lookup_insert; eauto|].
    rewrite fn_lookup_insert_ne by done. exists None. split; [apply Hh; lia|done].
  - intros k Hk. rewrite fn_lookup_insert_ne by lia. by rewrite HH.
  - intros k Hk. by rewrite HH.
  - rewrite fn_lookup_insert. apply Forall_forall. intros j Hj%elem_of_reverse%elem_of_seqZ.
    destruct (Hz j) as (nd & E & Hf); [lia|]. unfold fn_of. by rewrite E.
  - unfold all_nodes. rewrite !fn_lookup_insert_ne, fn_lookup_insert by done. simpl. apply reverse_Permutation.
Qed.

(** ** The operations *)

(** Only the tables of the hooks and the interrupt flag change. *)
Definition exc_only (s s' : kstate) : Prop :=
  ∃ N Hd hook i, s' = (exc_set s N Hd) <| g_excHook := hook |> <| interrupt_flag := i |>.

Lemma exc_only_trans s1 s2 s3 : exc_only s1 s2 → exc_only s2 s3 → exc_only s1 s3.
Proof. intros (N1 & Hd1 & h1 & i1 & ->) (N2 & Hd2 & h2 & i2 & ->). by exists N2, Hd2, h2, i2. Qed.

Lemma exc_only_refl s : exc_only s s.
Proof. exists (g_excNodes s), (g_excHeads s), (g_excHook s), (interrupt_flag s). by destruct s. Qed.

Section ops.
  Context `{ExcEnv}.

Definition exc_ok (s : kstate) (Hs : Z → list Z) : Prop :=
  (EFresh (g_excNodes s) (g_excHeads s) ∧ g_excHook s = 0 ∧ ∀ k, 0 ≤ k < 5 → Hs k = []) ∨
  ((∃ L, ERep (g_excNodes s) (g_excHeads s) L Hs) ∧ g_excHook s = addr_DoExcHook).

(** The number of all hooks. *)
Definition hook_count (Hs : Z → list Z) : nat := length (Hs 0 ++ Hs 1 ++ Hs 2 ++ Hs 3 ++ Hs 4).

Definition free_node_taken (s : kstate) (Hs : Z → list Z) (r : option Z) (s1 : kstate) : Prop :=
  exc_only s s1 ∧
  match r with
  | None => hook_count Hs = 16%nat ∧ exc_ok s1 Hs
  | Some i => hook_count Hs ≠ 16%nat ∧ g_excHook s1 = addr_DoExcHook ∧
      ∃ N Hd L l n, ERep N Hd L Hs ∧ L 5 = i :: l ∧ N !! i = Some n ∧
        s1 = exc_set s1 N (<[5 := exc_next n]> Hd)
  end.

(** The first free node of initialised lists. *)
Lemma wp_take_free s s0 N Hd L Hs i l :
  ERep N Hd L Hs → L 5 = i :: l → g_excHook s0 = addr_DoExcHook → exc_only s (exc_set s0 N Hd) →
  wp (node ← get_exc_head EXC_TYPE_END;
      i ← unwrap NullDeref node;
      n ← get_exc_node i;
      set_exc_head EXC_TYPE_END (exc_next n);;
      mret (Some i)) (free_node_taken s Hs) (exc_set s0 N Hd).
Proof.
  intros HR E5 Hh Ho. destruct (e_heads _ _ _ _ HR 5 ltac:(lia)) as (h & Eh & Hc). rewrite E5 in Hc.
  destruct Hc as (-> & n & En & Hc). pose proof (hooks_length _ _ _ _ HR) as Hlen. rewrite E5 in Hlen.
  wp_step. eapply wp_get_exc_head; [exact Eh|]. wp_steps. eapply wp_get_exc_node; [exact En|].
  wp_step. eapply wp_set_exc_head; [by eexists|]. wp_step. split.
  { eapply exc_only_trans; [exact Ho|].
    exists N, (<[5 := exc_next n]> Hd), (g_excHook s0), (interrupt_flag s0). by destruct s0. }
  unfold hook_count. split; [simpl in Hlen; lia|]. split; [done|].
  by exists N, Hd, L, l, n.
Qed.

Lemma wp_GetFreeNode s Hs : exc_ok s Hs → addr_DoExcHook ≠ 0 → wp GetFreeNode (free_node_taken s Hs) s.
Proof.
  intros [(HF & Hh & Hz)|[[L HR] Hh]] Haddr; rewrite <- (exc_set_id s) at 2; unfold GetFreeNode; wp_step.
  - eapply wp_get_exc_head; [by apply HF|]. do 2 wp_step. destruct (f_nodes _ _ HF 0) as (n & En & Hf); [done|].
    eapply wp_get_exc_node; [exact En|]. rewrite Hf. cbn [Z.eqb negb]. wp_step.
    eapply wp_link_nodes with (l := []) (h := None); [done|done|apply HF|by apply HF|done|set_solver|].
    intros N' h' Hz' Hc'. wp_step. unfold OsExcHookRegister. wp_steps.
    match goal with |- if ?b then _ else _ => assert (b = true) as -> by (apply Z.eqb_eq; exact Hh) end.
    wp_steps. rewrite app_nil_r in Hc'.
    set (s0 := s <| g_excHook := addr_DoExcHook |> <| interrupt_flag := 1 |>).
    change (wp ?m ?Q _) with (wp m Q (exc_set s0 N' (<[5 := h']> (g_excHeads s)))).
    eapply (wp_take_free s s0 _ _ start_lists Hs); [|vm_compute; reflexivity|done|by eexists _, _, _, _].
    eapply ERep_start; [|by rewrite lookup_insert_eq|exact Hc'|done|done].
    intros k Hk. rewrite lookup_insert_ne by lia. apply HF. lia.
  - destruct (e_heads _ _ _ _ HR 5 ltac:(lia)) as (h & Eh & Hc). eapply wp_get_exc_head; [exact Eh|].
    destruct (L 5) as [|i l] eqn:E5.
    + simpl in Hc. subst h. assert (0 ∈ all_nodes L) as (k & Hk & H0)%all_in.
      { rewrite (e_all _ _ _ _ HR). apply elem_of_seqZ. done. }
      assert (k ≠ 5) by (intros ->; rewrite E5 in H0; set_solver).
      pose proof (hook_set _ _ _ _ HR k 0 ltac:(lia) H0) as Hf. unfold fn_of in Hf.
      destruct (g_excNodes s !! 0) as [n0|] eqn:En0; [|done]. do 2 wp_step. eapply wp_get_exc_node; [exact En0|].
      destruct (Z.eqb_spec (excHookFn n0) 0); [done|]. cbn [negb]. wp_step. cbn [negb]. wp_step.
      pose proof (hooks_length _ _ _ _ HR) as Hlen. rewrite E5 in Hlen. rewrite exc_set_id.
      split; [apply exc_only_refl|]. split; [exact Hlen|]. right. split; [by exists L|done].
    + destruct Hc as (-> & _). do 2 wp_step. cbn [negb].
      eapply wp_take_free; [exact HR|exact E5|done|rewrite exc_set_id; apply exc_only_refl].
Qed.

(** What the operations promise. *)
Fixpoint remove_first (f : Z) (l : list Z) : list Z :=
  match l with
  | [] => []
  | g :: l => if g =? f then l else g :: remove_first f l
  end.

Lemma remove_first_not f l : f ∉ l → remove_first f l = l.
Proof.
  induction l as [|g l IH]; simpl; [done|]. intros Hn. destruct (Z.eqb_spec g f); [set_solver|]. rewrite IH; set_solver.
Qed.
Lemma remove_first_app f l1 l2 : f ∉ l1 → remove_first f (l1 ++ f :: l2) = l1 ++ l2.
Proof.
  induction l1 as [|g l1 IH]; simpl; intros Hn; [by rewrite Z.eqb_refl|].
  destruct (Z.eqb_spec g f); [set_solver|]. rewrite IH; set_solver.
Qed.

Definition reg_spec (k f : Z) (Hs : Z → list Z) : Z * (Z → list Z) :=
  if (EXC_TYPE_END <=? k) || (f =? 0) then (LOS_ERRNO_SYS_PTR_NULL, Hs)
  else if (hook_count Hs =? 16)%nat then (LOS_ERRNO_SYS_HOOK_IS_FULL, Hs)
  else (LOS_OK, <[k := f :: Hs k]> Hs).
Definition unreg_spec (k f : Z) (Hs : Z → list Z) : Z * (Z → list Z) :=
  if (EXC_TYPE_END <=? k) || (f =? 0) then (LOS_ERRNO_SYS_PTR_NULL, Hs)
  else (LOS_OK, <[k := remove_first f (Hs k)]> Hs).

Definition exc_post (s : kstate) (spec : Z * (Z → list Z)) (r : Z) (s' : kstate) : Prop :=
  r = spec.1 ∧ exc_ok s' spec.2 ∧ exc_only s s'.

(** The interrupt flag is no part of the tables. *)
Lemma exc_ok_irq s i Hs : exc_ok s Hs → exc_ok (s <| interrupt_flag := i |>) Hs.
Proof. done. Qed.

Lemma exc_only_irq s s' i : exc_only s s' → exc_only s (s' <| interrupt_flag := i |>).
Proof. intros (N & Hd & h & j & ->). by exists N, Hd, h, i. Qed.

Lemma wp_LOS_RegExcHook s Hs k f :
  exc_ok s Hs → addr_DoExcHook ≠ 0 → 0 ≤ k → wp (LOS_RegExcHook k f) (exc_post s (reg_spec k f Hs)) s.
Proof.
  intros Hok Ha Hk. unfold LOS_RegExcHook, reg_spec. destruct (Z.leb_spec EXC_TYPE_END k) as [|Hk5].
  { cbn [orb]. wp_step. split_and!; [done|done|apply exc_only_refl]. }
  destruct (Z.eqb_spec f 0) as [|Hf]; cbn [orb]; [wp_step; split_and!; [done|done|apply exc_only_refl]|].
  unfold EXC_TYPE_END in Hk5. wp_steps. set (s0 := s <| interrupt_flag := 0 |>). eapply wp_mono; [by apply (wp_GetFreeNode s0 Hs)|].
  intros [i|] s1 [Ho Hr]; cbv beta iota.
  - destruct Hr as (Hc & Hh & N & Hd & L & l & n & HR & E5 & En & Es).
    rewrite (proj2 (Nat.eqb_neq _ _) Hc). rewrite Es. destruct (e_heads _ _ _ _ HR k ltac:(lia)) as (h & Eh & Hch).
    wp_step. eapply wp_mod_exc_node; [exact En|]. wp_step. eapply wp_get_exc_head; [by rewrite lookup_insert_ne by lia|].
    wp_step. eapply wp_mod_exc_node; [apply lookup_insert_eq|]. rewrite insert_insert_eq. wp_step.
    eapply wp_set_exc_head; [rewrite lookup_insert_ne by lia; by eexists|]. wp_steps.
    pose proof (ERep_reg _ _ _ _ k f i l n h HR E5 En Eh ltac:(lia) Hf) as HR'.
    split_and!; [done|right; split; [eexists; exact HR'|exact Hh]|].
    eapply exc_only_trans; [exact (exc_only_irq _ _ 0 (exc_only_refl s))|]. eapply exc_only_trans; [exact Ho|].
    by exists (<[i := mkExcNode f h]> N), (<[k := Some i]> (<[5 := exc_next n]> Hd)), (g_excHook s1), 1.
  - destruct Hr as [Hc Hok1]. rewrite (proj2 (Nat.eqb_eq _ _) Hc). wp_steps. split_and!; [done|exact Hok1|].
    apply exc_only_irq. eapply exc_only_trans; [exact (exc_only_irq _ _ 0 (exc_only_refl s))|exact Ho].
Qed.

(** ** Removal *)

(** Nodes with other functions are passed over. *)
Lemma wp_unreg_none s N Hd k f l : ∀ fuel pre h (Q : unit → kstate → Prop),
  chain N h l → (∀ i, i ∈ l → fn_of N i ≠ f) → (length l ≤ fuel)%nat → Q tt (exc_set s N Hd) →
  wp (LOS_UnRegExcHook_loop fuel k f pre h) Q (exc_set s N Hd).
Proof.
  induction l as [|i l IH]; intros fuel pre h Q Hc Hf Hlen HQ.
  - simpl in Hc. subst h. by destruct fuel; simpl; wp_step.
  - destruct fuel as [|fuel]; [simpl in Hlen; lia|]. destruct Hc as (-> & n & En & Hc).
    cbn [LOS_UnRegExcHook_loop]. wp_step. eapply wp_get_exc_node; [exact En|].
    pose proof (Hf i ltac:(set_solver)) as Hfi. unfold fn_of in Hfi. rewrite En in Hfi.
    destruct (Z.eqb_spec (excHookFn n) f); [done|]. unfold when. wp_steps.
    eapply wp_get_exc_node; [exact En|]. eapply IH; [exact Hc|set_solver|simpl in Hlen; lia|exact HQ].
Qed.

(** The body of the loop for a node with the function. *)
Lemma wp_unlink {A} s N Hd L Hs k i l1 l2 n h5 (m : K A) (Q : A → kstate → Prop) :
  ERep N Hd L Hs → 0 ≤ k < 5 → L k = l1 ++ i :: l2 → N !! i = Some n → Hd !! 5 = Some h5 →
  wp m Q (exc_set s (nodes_unlinked N i l1 n h5) (heads_unlinked Hd k i l1 n)) →
  wp (match last l1 with
      | Some p => mod_exc_node p (fun m => m <| exc_next := exc_next n |>)
      | None => set_exc_head k (exc_next n)
      end;;
      mod_exc_node i (fun n => n <| excHookFn := 0 |>);;
      free ← get_exc_head EXC_TYPE_END;
      mod_exc_node i (fun n => n <| exc_next := free |>);;
      set_exc_head EXC_TYPE_END (Some i)) (fun _ s' => wp m Q s') (exc_set s N Hd).
Proof.
  intros HR Hk El En Eh5 HQ. destruct (e_heads _ _ _ _ HR k ltac:(lia)) as (h & Eh & Hc).
  assert (∀ N1 Hd1, N1 !! i = Some n → Hd1 !! 5 = Some h5 →
    wp m Q (exc_set s (<[i := mkExcNode 0 h5]> N1) (<[5 := Some i]> Hd1)) →
    wp (mod_exc_node i (fun n => n <| excHookFn := 0 |>);;
      free ← get_exc_head EXC_TYPE_END;
      mod_exc_node i (fun n => n <| exc_next := free |>);;
      set_exc_head EXC_TYPE_END (Some i)) (fun _ s' => wp m Q s') (exc_set s N1 Hd1)) as Hrest.
  { intros N1 Hd1 En1 Eh1 HQ1. wp_step. eapply wp_mod_exc_node; [exact En1|]. wp_step.
    eapply wp_get_exc_head; [exact Eh1|]. wp_step. eapply wp_mod_exc_node; [apply lookup_insert_eq|].
    rewrite insert_insert_eq. eapply wp_set_exc_head; [by eexists|exact HQ1]. }
  unfold nodes_unlinked, heads_unlinked, unlink_nodes, unlink_heads in HQ. wp_step.
  destruct (last l1) as [p|] eqn:Hp.
  - destruct (unlink_last _ _ _ _ HR k i l1 l2 n h5 Hk El En Eh5 p Hp) as [Hpk Hpi].
    destruct (chain_node _ _ _ p Hc Hpk) as [np Enp]. rewrite (alter_as_insert N _ p np Enp) in HQ.
    eapply wp_mod_exc_node; [exact Enp|]. apply Hrest; [by rewrite lookup_insert_ne|done|exact HQ].
  - eapply wp_set_exc_head; [by eexists|]. apply Hrest; [done|by rewrite lookup_insert_ne by lia|exact HQ].
Qed.

(** The first node with the function is taken out; the loop then runs through the free nodes. *)
Lemma wp_unreg_loop s N Hd L Hs k f l2 : ∀ l1 fuel h (Q : unit → kstate → Prop),
  ERep N Hd L Hs → 0 ≤ k < 5 → f ≠ 0 → L k = l1 ++ l2 → chain N h l2 → f ∉ (fn_of N <$> l1) →
  (length l2 + length (L 5%Z) ≤ fuel)%nat →
  (∀ N' Hd' L', ERep N' Hd' L' (<[k := remove_first f (Hs k)]> Hs) → Q tt (exc_set s N' Hd')) →
  wp (LOS_UnRegExcHook_loop fuel k f (last l1) h) Q (exc_set s N Hd).
Proof.
  induction l2 as [|i l2 IH]; intros l1 fuel h Q HR Hk Hf El Hc Hnot Hfuel HQ.
  - simpl in Hc. subst h. rewrite app_nil_r in El.
    assert (remove_first f (Hs k) = Hs k) as Erm.
    { rewrite <- (e_fns _ _ _ _ HR k Hk), El. by apply remove_first_not. }
    assert (ERep N Hd L (<[k := remove_first f (Hs k)]> Hs)) as HR'.
    { eapply ERep_ext; [|exact HR]. intros j Hj. rewrite Erm.
      destruct (decide (k = j)) as [<-|]; [by rewrite fn_lookup_insert|by rewrite fn_lookup_insert_ne]. }
    destruct fuel; cbn [LOS_UnRegExcHook_loop]; wp_step; by apply (HQ N Hd L).
  - destruct fuel as [|fuel]; [simpl in Hfuel; lia|]. destruct Hc as (-> & n & En & Hc).
    cbn [LOS_UnRegExcHook_loop]. wp_step. eapply wp_get_exc_node; [exact En|].
    destruct (Z.eqb_spec (excHookFn n) f) as [Hfn|Hfn].
    + destruct (e_heads _ _ _ _ HR 5 ltac:(lia)) as (h5 & Eh5 & Hc5).
      unfold when. wp_step. eapply wp_unlink; [exact HR|exact Hk|exact El|exact En|exact Eh5|].
      wp_step. eapply wp_get_exc_node; [apply lookup_insert_eq|]. cbn [exc_next].
      pose proof (ERep_unreg _ _ _ _ HR k i l1 l2 n h5 Hk El En Eh5) as HR'.
      assert (i ∉ L 5) as Hi5.
      { intros Hin. assert (i ∈ L k) as Hik by (rewrite El; set_solver).
        pose proof (one_list _ _ _ _ HR 5 k i ltac:(lia) ltac:(lia) Hin Hik). lia. }
      eapply (wp_unreg_none _ _ _ _ _ (L 5)); [| |simpl in Hfuel; lia|].
      * destruct (e_heads _ _ _ _ HR' 5 ltac:(lia)) as (h' & Eh' & Hc'). rewrite fn_lookup_insert in Hc'.
        destruct Hc' as (_ & n' & En' & Hc'). unfold nodes_unlinked at 1 in En'. rewrite lookup_insert_eq in En'. by simplify_eq.
      * pose proof (e_free _ _ _ _ HR') as HF. rewrite fn_lookup_insert in HF. apply Forall_cons in HF as [_ HF].
        rewrite Forall_forall in HF. intros j Hj. rewrite (HF j Hj). done.
      * apply (HQ _ _ (<[5 := i :: L 5]> (<[k := l1 ++ l2]> L))).
        replace (remove_first f (Hs k)) with (fn_of N <$> l1 ++ l2); [done|].
        rewrite <- (e_fns _ _ _ _ HR k Hk), El, !fmap_app, fmap_cons.
        assert (fn_of N i = f) as -> by (unfold fn_of; by rewrite En). by rewrite remove_first_app.
    + unfold when. wp_steps. eapply wp_get_exc_node; [exact En|]. rewrite <- (last_snoc i l1).
      apply IH; try done; [by rewrite <- app_assoc| |simpl in Hfuel; lia].
      rewrite fmap_app. cbn [fmap list_fmap]. unfold fn_of at 2. rewrite En. set_solver.
Qed.

Lemma wp_LOS_UnRegExcHook s Hs k f :
  exc_ok s Hs → 0 ≤ k → wp (LOS_UnRegExcHook k f) (exc_post s (unreg_spec k f Hs)) s.
Proof.
  intros Hok Hk. unfold LOS_UnRegExcHook, unreg_spec. destruct (Z.leb_spec EXC_TYPE_END k) as [|Hk5].
  { cbn [orb]. wp_step. split_and!; [done|done|apply exc_only_refl]. }
  destruct (Z.eqb_spec f 0) as [|Hf]; cbn [orb]; [wp_step; split_and!; [done|done|apply exc_only_refl]|].
  unfold EXC_TYPE_END in Hk5. wp_steps. set (s0 := s <| interrupt_flag := 0 |>). rewrite <- (exc_set_id s0).
  destruct Hok as [(HF & Hh & Hz)|[[L HR] Hh]].
  - eapply wp_get_exc_head; [apply (f_heads _ _ HF); lia|]. wp_step.
    eapply (wp_unreg_none _ _ _ _ _ []); [done|set_solver|simpl; lia|]. wp_steps.
    split_and!; [done| |exists (g_excNodes s), (g_excHeads s), (g_excHook s), 1; by destruct s].
    left. split_and!; [done..|]. intros j Hj. cbn [snd].
    destruct (decide (k = j)) as [<-|]; [rewrite fn_lookup_insert, Hz; done|rewrite fn_lookup_insert_ne by done; auto].
  - destruct (e_heads _ _ _ _ HR k ltac:(lia)) as (h & Eh & Hc). eapply wp_get_exc_head; [exact Eh|]. wp_step.
    eapply (wp_unreg_loop _ _ _ L Hs k f (L k) []); [exact HR|lia|done|done|exact Hc|set_solver| |].
    + pose proof (pair_length _ _ _ _ HR k ltac:(lia)). change (Z.to_nat LOSCFG_BASE_EXC_HOOK_LIMIT) with 16%nat. lia.
    + intros N1 Hd1 L1 HR1. wp_steps. split_and!; [done|right; split; [by exists L1|done]|].
      exists N1, Hd1, (g_excHook s), 1. done.
Qed.

(** ** An exception *)

(** The hooks [fs], one after the other. *)
Definition run_hooks (k : Z) (fs : list Z) : K unit := foldr (fun f m => call_hook f k;; m) (mret tt) fs.

Lemma bind_tt (m : K unit) s : (m;; mret tt) s = m s.
Proof. unfold mbind, M_bind. by destruct (m s) as [[] ?|]. Qed.

Lemma run_hooks_snoc k fs f s : run_hooks k (fs ++ [f]) s = (run_hooks k fs;; call_hook f k) s.
Proof.
  revert s. induction fs as [|g fs IH]; intros s; [apply bind_tt|]. cbn [app run_hooks foldr].
  unfold mbind, M_bind. destruct (call_hook g k s) as [u s1|]; [|done]. apply IH.
Qed.
End ops.

(** The hooks are functions outside the kernel that leave its tables of hooks alone. *)
Class ExcEnvLaws `{ExcEnv} : Prop := {
  hook_addr : addr_DoExcHook ≠ 0;
  hook_keeps f k s u s' : call_hook f k s = Ok u s' → g_excNodes s' = g_excNodes s
}.

Section run.
  Context `{!ExcEnv} `{!ExcEnvLaws}.

Lemma run_hooks_keeps k fs s u s' : run_hooks k fs s = Ok u s' → g_excNodes s' = g_excNodes s.
Proof.
  revert s. induction fs as [|f fs IH]; intros s; [by intros [= _ <-]|]. cbn [run_hooks foldr]. unfold mbind, M_bind.
  destruct (call_hook f k s) as [v s1|] eqn:E; [|done]. intros Hr. by rewrite (IH _ Hr), (hook_keeps _ _ _ _ _ E).
Qed.

Lemma in_reg_order N k l : ∀ fuel h s,
  g_excNodes s = N → chain N h l → (∀ i, i ∈ l → fn_of N i ≠ 0) → (length l ≤ fuel)%nat →
  DoExcHookInRegOrder fuel k h s = run_hooks k (reverse (fn_of N <$> l)) s.
Proof.
  induction l as [|i l IH]; intros fuel h s EN Hc Hf Hl; [simpl in Hc; subst h; by destruct fuel|].
  destruct Hc as (-> & n & En & Hc). destruct fuel as [|fuel]; [simpl in Hl; lia|].
  cbn [DoExcHookInRegOrder]. rewrite fmap_cons, reverse_cons, run_hooks_snoc.
  assert (∀ s', g_excNodes s' = N → get_exc_node i s' = Ok n s') as Hget.
  { intros s' E'. unfold get_exc_node, gets, unwrap, mbind, M_bind. by rewrite E', En. }
  assert (fn_of N i = excHookFn n) as Efn by (unfold fn_of; by rewrite En).
  unfold mbind at 1, M_bind at 1. rewrite Hget by done. unfold mbind, M_bind.
  rewrite (IH fuel (exc_next n) s) by (done || set_solver || (simpl in Hl; lia)).
  destruct (run_hooks k _ s) as [u s1|] eqn:Er; [|done].
  change (match get_exc_node i s1 with Ok a s' => (if excHookFn a =? 0 then fail NullDeref else call_hook (excHookFn a) k) s'
    | Fault f => Fault f end = call_hook (fn_of N i) k s1).
  rewrite Hget by (by rewrite (run_hooks_keeps _ _ _ _ _ Er)). rewrite Efn.
  destruct (Z.eqb_spec (excHookFn n) 0); [|done]. pose proof (Hf i ltac:(set_solver)). congruence.
Qed.

Lemma OsDoExcHook_runs s Hs k :
  exc_ok s Hs → 0 ≤ k < 5 →
  OsDoExcHook k s = (LOS_IntLock;; run_hooks k (reverse (Hs k));; LOS_IntRestore 0) s.
Proof.
  intros Hok Hk. set (s0 := s <| interrupt_flag := 0 |>). pose proof hook_addr as Ha.
  change (OsDoExcHook k s) with ((when (negb (g_excHook s =? 0))
    (if g_excHook s =? addr_DoExcHook then DoExcHook k else call_hook (g_excHook s) k);;
    LOS_IntRestore (interrupt_flag s)) s0).
  change ((LOS_IntLock;; ?m) s) with (m s0).
  destruct Hok as [(_ & -> & Hz)|[[L HR] ->]]; [by rewrite Hz|].
  destruct (Z.eqb_spec addr_DoExcHook 0); [done|]. rewrite Z.eqb_refl. cbn [negb when]. unfold DoExcHook.
  destruct (Z.leb_spec EXC_TYPE_END k); [unfold EXC_TYPE_END in *; lia|].
  destruct (e_heads _ _ _ _ HR k ltac:(lia)) as (h & Eh & Hc).
  assert (get_exc_head k s0 = Ok h s0) as Hget.
  { unfold get_exc_head, gets, unwrap, mbind, M_bind. change (g_excHeads s0) with (g_excHeads s). by rewrite Eh. }
  assert (DoExcHookInRegOrder 16 k h s0 = run_hooks k (reverse (Hs k)) s0) as Erun.
  { rewrite <- (e_fns _ _ _ _ HR k Hk). apply in_reg_order; [done|done|intros i; by apply (hook_set _ _ _ _ HR k i)|].
    pose proof (pair_length _ _ _ _ HR k Hk). lia. }
  unfold mbind, M_bind. cbn [LOS_IntLock]. change (LOS_IntLock s0) with (Ok (interrupt_flag s0) s0 : res kstate Z).
  cbv iota. rewrite Hget. change (Z.to_nat LOSCFG_BASE_EXC_HOOK_LIMIT) with 16%nat. rewrite Erun.
  by destruct (run_hooks k _ s0) as [u s1|].
Qed.
End run.
