(* ===== verification/Hwi.v ===== *)
(** Interrupts (arch/arm/cortex-m4/gcc/los_interrupt.c and arch/include/los_interrupt.h): the
    vector table, the table of handlers and the interrupt controller of the Cortex-M4.

    Writes to the registers of the controller are modelled by their effect on the sets of enabled
    and of pending interrupts and on the priorities; the system control block is a map from
    addresses to their contents.  LOSCFG_PLATFORM_HWI_WITH_ARG and LOSCFG_DEBUG_TOOLS are off.  The report
    on an exception ([HalExcHandleEntry]) is left out: it prints and stops the system. *)

From S2P Require Import Prelude DList Kernel Tick SortLink Mem Pmcu Sched.

Definition LOSCFG_PLATFORM_HWI_LIMIT : Z := 128.
Definition OS_HWI_MAX_NUM : Z := LOSCFG_PLATFORM_HWI_LIMIT.
Definition OS_HWI_PRIO_LOWEST : Z := 7.
Definition OS_SYS_VECTOR_CNT : Z := 16.
Definition OS_VECTOR_CNT : Z := OS_SYS_VECTOR_CNT + OS_HWI_MAX_NUM.
Definition OS_NVIC_AIRCR_PRIGROUP : Z := 7.
Definition OS_NVIC_VTOR : Z := 0xE000ED08.
Definition OS_NVIC_AIRCR : Z := 0xE000ED0C.
Definition OS_NVIC_EXCPRI_BASE : Z := 0xE000ED18.
Definition OS_NVIC_CCR : Z := 0xE000ED14.
Definition OS_NVIC_SHCSR : Z := 0xE000ED24.

Definition LOS_MOD_HWI : Z := 0x9.
Definition OS_ERRNO_HWI_NUM_INVALID : Z := LOS_ERRNO_OS_ERROR LOS_MOD_HWI 0x00.
Definition OS_ERRNO_HWI_PROC_FUNC_NULL : Z := LOS_ERRNO_OS_ERROR LOS_MOD_HWI 0x01.
Definition OS_ERRNO_HWI_ALREADY_CREATED : Z := LOS_ERRNO_OS_ERROR LOS_MOD_HWI 0x04.
Definition OS_ERRNO_HWI_PRIO_INVALID : Z := LOS_ERRNO_OS_ERROR LOS_MOD_HWI 0x05.

Definition NonMaskableInt_IRQn : Z := -14.
Definition HARDFAULT_IRQN : Z := -13.
Definition MemoryManagement_IRQn : Z := -12.
Definition BusFault_IRQn : Z := -11.
Definition UsageFault_IRQn : Z := -10.
Definition SVCall_IRQn : Z := -5.
Definition PendSV_IRQn : Z := -2.
Definition SysTick_IRQn : Z := -1.

(** The addresses of the vectors and of the table of vectors, and the handlers: functions outside
    the kernel, called by address. *)
Class HwiEnv := {
  addr_HalInterrupt : Z;
  addr_HalHwiDefaultHandler : Z;
  addr_HalExcNMI : Z;
  addr_HalExcHardFault : Z;
  addr_HalExcMemFault : Z;
  addr_HalExcBusFault : Z;
  addr_HalExcUsageFault : Z;
  addr_HalExcSvcCall : Z;
  addr_HalPendSV : Z;
  addr_SysTick_Handler : Z;
  addr_g_hwiForm : Z;
  call_handler : Z → K unit
}.

(** ** The interrupt controller (core_cm4.h) *)

Definition __NVIC_PRIO_BITS : Z := 4.

Definition NVIC_EnableIRQ (IRQn : Z) : K unit :=
  when (0 <=? IRQn) (modify (fun s => s <| nvic_enabled := {[IRQn]} ∪ nvic_enabled s |>)).
Definition NVIC_DisableIRQ (IRQn : Z) : K unit :=
  when (0 <=? IRQn) (modify (fun s => s <| nvic_enabled := nvic_enabled s ∖ {[IRQn]} |>)).
Definition NVIC_SetPendingIRQ (IRQn : Z) : K unit :=
  when (0 <=? IRQn) (modify (fun s => s <| nvic_pending := {[IRQn]} ∪ nvic_pending s |>)).
Definition NVIC_ClearPendingIRQ (IRQn : Z) : K unit :=
  when (0 <=? IRQn) (modify (fun s => s <| nvic_pending := nvic_pending s ∖ {[IRQn]} |>)).

Definition scb_read (a : Z) : K Z := gets (fun s => default 0 (scb_regs s !! a)).
Definition scb_write (a v : Z) : K unit := modify (fun s => s <| scb_regs := <[a := v]> (scb_regs s) |>).

(** The priority of an external interrupt is one of the controller, that of an exception a byte
    of the system control block. *)
Definition NVIC_SetPriority (IRQn priority : Z) : K unit :=
  let prio := Z.land (Z.shiftl priority (8 - __NVIC_PRIO_BITS)) 0xFF in
  if 0 <=? IRQn then modify (fun s => s <| nvic_priority := <[IRQn := prio]> (nvic_priority s) |>)
  else scb_write (OS_NVIC_EXCPRI_BASE + (Z.land IRQn 0xF - 4)) prio.

Definition NVIC_SetPriorityGrouping (PriorityGroup : Z) : K unit :=
  reg_value ← scb_read OS_NVIC_AIRCR;
  let reg_value := Z.ldiff reg_value (Z.lor (Z.shiftl 0xFFFF 16) (Z.shiftl 7 8)) in
  scb_write OS_NVIC_AIRCR
    (Z.lor (Z.lor reg_value (Z.shiftl 0x5FA 16)) (Z.shiftl (Z.land PriorityGroup 0x07) 8)).

Section Hwi.
  Context `{HwiEnv}.

(** ** The operations of the controller *)

Definition HwiNumGet : K Z := gets ipsr.
Definition HwiUnmask (hwiNum : Z) : K Z :=
  if OS_HWI_MAX_NUM <=? hwiNum then mret OS_ERRNO_HWI_NUM_INVALID
  else NVIC_EnableIRQ hwiNum;; mret LOS_OK.
Definition HwiMask (hwiNum : Z) : K Z :=
  if OS_HWI_MAX_NUM <=? hwiNum then mret OS_ERRNO_HWI_NUM_INVALID
  else NVIC_DisableIRQ hwiNum;; mret LOS_OK.
Definition HwiSetPriority (hwiNum priority : Z) : K Z :=
  if OS_HWI_MAX_NUM <=? hwiNum then mret OS_ERRNO_HWI_NUM_INVALID
  else if OS_HWI_PRIO_LOWEST <? priority then mret OS_ERRNO_HWI_PRIO_INVALID
  else NVIC_SetPriority hwiNum priority;; mret LOS_OK.
Definition HwiPending (hwiNum : Z) : K Z :=
  if OS_HWI_MAX_NUM <=? hwiNum then mret OS_ERRNO_HWI_NUM_INVALID
  else NVIC_SetPendingIRQ hwiNum;; mret LOS_OK.
Definition HwiClear (hwiNum : Z) : K Z :=
  if OS_HWI_MAX_NUM <=? hwiNum then mret OS_ERRNO_HWI_NUM_INVALID
  else NVIC_ClearPendingIRQ hwiNum;; mret LOS_OK.

(** The calls go through [g_archHwiOps]; the priority is passed as an 8-bit value. *)
Definition ArchIntTrigger (hwiNum : Z) : K Z := HwiPending hwiNum.
Definition ArchIntEnable (hwiNum : Z) : K Z := HwiUnmask hwiNum.
Definition ArchIntDisable (hwiNum : Z) : K Z := HwiMask hwiNum.
Definition ArchIntClear (hwiNum : Z) : K Z := HwiClear hwiNum.
Definition ArchIntSetPriority (hwiNum priority : Z) : K Z := HwiSetPriority hwiNum (u8 priority).
Definition ArchIntCurIrqNum : K Z := HwiNumGet.

(** ** The vector table *)

Definition get_hwiForm (i : Z) : K Z := a ← gets g_hwiForm; unwrap OutOfBounds (a !! i).
Definition set_hwiForm (i v : Z) : K unit :=
  get_hwiForm i;; modify (fun s => s <| g_hwiForm := <[i := v]> (g_hwiForm s) |>).
Definition get_hwiHandlerForm (i : Z) : K Z := a ← gets g_hwiHandlerForm; unwrap OutOfBounds (a !! i).
Definition set_hwiHandlerForm (i v : Z) : K unit :=
  get_hwiHandlerForm i;; modify (fun s => s <| g_hwiHandlerForm := <[i := v]> (g_hwiHandlerForm s) |>).

Definition OsSetVector (num vector : Z) : K unit :=
  when (u32 (num + OS_SYS_VECTOR_CNT) <? OS_VECTOR_CNT)
    (set_hwiForm (u32 (num + OS_SYS_VECTOR_CNT)) addr_HalInterrupt;;
     set_hwiHandlerForm (u32 (num + OS_SYS_VECTOR_CNT)) vector).

Definition HalInterrupt : K unit :=
  intSave ← LOS_IntLock;
  modify (fun s => s <| g_intCount := u32 (g_intCount s + 1) |>);;
  LOS_IntRestore intSave;;
  hwiIndex ← HwiNumGet;
  handler ← get_hwiHandlerForm hwiIndex;
  when (negb (handler =? 0)) (call_handler handler);;
  intSave ← LOS_IntLock;
  modify (fun s => s <| g_intCount := u32 (g_intCount s - 1) |>);;
  LOS_IntRestore intSave.

Definition ArchHwiCreate (hwiNum hwiPrio hwiHandler : Z) : K Z :=
  if hwiHandler =? 0 then mret OS_ERRNO_HWI_PROC_FUNC_NULL
  else if OS_HWI_MAX_NUM <=? hwiNum then mret OS_ERRNO_HWI_NUM_INVALID
  else
    form ← get_hwiForm (hwiNum + OS_SYS_VECTOR_CNT);
    if negb (form =? addr_HalHwiDefaultHandler) then mret OS_ERRNO_HWI_ALREADY_CREATED
    else if OS_HWI_PRIO_LOWEST <? hwiPrio then mret OS_ERRNO_HWI_PRIO_INVALID
    else
      intSave ← LOS_IntLock;
      OsSetVector hwiNum hwiHandler;;
      HwiUnmask hwiNum;;
      HwiSetPriority hwiNum (u8 hwiPrio);;
      LOS_IntRestore intSave;;
      mret LOS_OK.

Definition ArchHwiDelete (hwiNum : Z) : K Z :=
  if OS_HWI_MAX_NUM <=? hwiNum then mret OS_ERRNO_HWI_NUM_INVALID
  else
    HwiMask hwiNum;;
    intSave ← LOS_IntLock;
    set_hwiForm (hwiNum + OS_SYS_VECTOR_CNT) addr_HalHwiDefaultHandler;;
    LOS_IntRestore intSave;;
    mret LOS_OK.

Definition HalHwiInit : K unit :=
  set_hwiForm 0 0;;
  set_hwiForm 1 0;;
  for_loop 2 (Z.to_nat (OS_VECTOR_CNT - 2)) (fun index => set_hwiForm index addr_HalHwiDefaultHandler);;
  set_hwiForm (NonMaskableInt_IRQn + OS_SYS_VECTOR_CNT) addr_HalExcNMI;;
  set_hwiForm (HARDFAULT_IRQN + OS_SYS_VECTOR_CNT) addr_HalExcHardFault;;
  set_hwiForm (MemoryManagement_IRQn + OS_SYS_VECTOR_CNT) addr_HalExcMemFault;;
  set_hwiForm (BusFault_IRQn + OS_SYS_VECTOR_CNT) addr_HalExcBusFault;;
  set_hwiForm (UsageFault_IRQn + OS_SYS_VECTOR_CNT) addr_HalExcUsageFault;;
  set_hwiForm (SVCall_IRQn + OS_SYS_VECTOR_CNT) addr_HalExcSvcCall;;
  set_hwiForm (PendSV_IRQn + OS_SYS_VECTOR_CNT) addr_HalPendSV;;
  set_hwiForm (SysTick_IRQn + OS_SYS_VECTOR_CNT) addr_SysTick_Handler;;
  scb_write OS_NVIC_VTOR addr_g_hwiForm;;
  NVIC_SetPriorityGrouping OS_NVIC_AIRCR_PRIGROUP;;
  shcsr ← scb_read OS_NVIC_SHCSR;
  scb_write OS_NVIC_SHCSR (Z.lor shcsr (Z.lor (Z.shiftl 1 18) (Z.lor (Z.shiftl 1 17) (Z.shiftl 1 16))));;
  ccr ← scb_read OS_NVIC_CCR;
  scb_write OS_NVIC_CCR (Z.lor ccr (Z.shiftl 1 4)).

(** [ArchInit]; [LOS_KernelInit] of this port does not call it. *)
Definition ArchInit : K unit := HalHwiInit.

End Hwi.
