(* ===== verification/HwiRep.v ===== *)
(** The interrupt tables as a map from the numbers of the created interrupts to their handlers. *)

From S2P Require Import Prelude DList Kernel Tick SortLink Mem Pmcu Sched Hwi.

(** The two vectors that tell a created interrupt from one that is not. *)
Class HwiEnvLaws `{HwiEnv} : Prop := {
  vectors_differ : addr_HalInterrupt ≠ addr_HalHwiDefaultHandler
}.

Definition vector_of `{HwiEnv} (o : option Z) : Z :=
  match o with Some _ => addr_HalInterrupt | None => addr_HalHwiDefaultHandler end.

(** [C !! n] is the handler of interrupt [n]. *)
Record hwi_ok `{HwiEnv} (s : kstate) (C : gmap Z Z) : Prop := {
  h_vector n : 0 ≤ n < OS_HWI_MAX_NUM → g_hwiForm s !! (n + OS_SYS_VECTOR_CNT) = Some (vector_of (C !! n));
  h_entry n : 0 ≤ n < OS_HWI_MAX_NUM → is_Some (g_hwiHandlerForm s !! (n + OS_SYS_VECTOR_CNT));
  h_handler n h : C !! n = Some h →
    0 ≤ n < OS_HWI_MAX_NUM ∧ h ≠ 0 ∧ g_hwiHandlerForm s !! (n + OS_SYS_VECTOR_CNT) = Some h
}.

(** Only the tables, the controller and the interrupt flag change. *)
Definition hwi_only (s s' : kstate) : Prop :=
  ∃ F HF E P i, s' = s <| g_hwiForm := F |> <| g_hwiHandlerForm := HF |> <| nvic_enabled := E |>
    <| nvic_priority := P |> <| interrupt_flag := i |>.

Lemma hwi_only_refl s : hwi_only s s.
Proof.
  exists (g_hwiForm s), (g_hwiHandlerForm s), (nvic_enabled s), (nvic_priority s), (interrupt_flag s). by destruct s.
Qed.
Lemma hwi_only_trans s1 s2 s3 : hwi_only s1 s2 → hwi_only s2 s3 → hwi_only s1 s3.
Proof. intros (F1 & H1 & E1 & P1 & i1 & ->) (F2 & H2 & E2 & P2 & i2 & ->). by exists F2, H2, E2, P2, i2. Qed.

Section access.
  Context (s : kstate).

Lemma wp_get_hwiForm i v (Q : Z → kstate → Prop) : g_hwiForm s !! i = Some v → Q v s → wp (get_hwiForm i) Q s.
Proof. intros E HQ. unfold get_hwiForm. wp_steps. by rewrite E. Qed.
Lemma wp_set_hwiForm i v (Q : unit → kstate → Prop) :
  is_Some (g_hwiForm s !! i) → Q tt (s <| g_hwiForm := <[i := v]> (g_hwiForm s) |>) → wp (set_hwiForm i v) Q s.
Proof. intros [w E] HQ. unfold set_hwiForm. wp_step. eapply wp_get_hwiForm; [exact E|]. by wp_step. Qed.
Lemma wp_set_hwiHandlerForm i v (Q : unit → kstate → Prop) :
  is_Some (g_hwiHandlerForm s !! i) → Q tt (s <| g_hwiHandlerForm := <[i := v]> (g_hwiHandlerForm s) |>) →
  wp (set_hwiHandlerForm i v) Q s.
Proof. intros [w E] HQ. unfold set_hwiHandlerForm, get_hwiHandlerForm. wp_steps. by rewrite E. Qed.
End access.

(** ** Creation and deletion *)

Section tables.
  Context `{!HwiEnv} `{!HwiEnvLaws}.

Definition create_spec (n prio h : Z) (C : gmap Z Z) : Z * gmap Z Z :=
  if h =? 0 then (OS_ERRNO_HWI_PROC_FUNC_NULL, C)
  else if OS_HWI_MAX_NUM <=? n then (OS_ERRNO_HWI_NUM_INVALID, C)
  else if decide (is_Some (C !! n)) then (OS_ERRNO_HWI_ALREADY_CREATED, C)
  else if OS_HWI_PRIO_LOWEST <? prio then (OS_ERRNO_HWI_PRIO_INVALID, C)
  else (LOS_OK, <[n := h]> C).
Definition delete_spec (n : Z) (C : gmap Z Z) : Z * gmap Z Z :=
  if OS_HWI_MAX_NUM <=? n then (OS_ERRNO_HWI_NUM_INVALID, C) else (LOS_OK, delete n C).

Definition hwi_post (s : kstate) (spec : Z * gmap Z Z) (r : Z) (s' : kstate) : Prop :=
  r = spec.1 ∧ hwi_ok s' spec.2 ∧ hwi_only s s'.

Lemma hwi_ok_create s s' C n h :
  hwi_ok s C → 0 ≤ n < OS_HWI_MAX_NUM → h ≠ 0 →
  g_hwiForm s' = <[n + OS_SYS_VECTOR_CNT := addr_HalInterrupt]> (g_hwiForm s) →
  g_hwiHandlerForm s' = <[n + OS_SYS_VECTOR_CNT := h]> (g_hwiHandlerForm s) → hwi_ok s' (<[n := h]> C).
Proof.
  intros [H1 H2 H3] Hn Hh EF EH. constructor; rewrite ?EF, ?EH.
  - intros j Hj. destruct (decide (n = j)) as [<-|]; [by rewrite !lookup_insert_eq|].
    rewrite !lookup_insert_ne by lia. by apply H1.
  - intros j Hj. destruct (decide (n = j)) as [<-|]; [rewrite lookup_insert_eq; by eexists|].
    rewrite lookup_insert_ne by lia. by apply H2.
  - intros j hj [[<- <-]|[Hne Ej]]%lookup_insert_Some; [by rewrite lookup_insert_eq|].
    destruct (H3 j hj Ej) as (? & ? & ?). by rewrite lookup_insert_ne by lia.
Qed.

Lemma hwi_ok_delete s s' C n :
  hwi_ok s C → g_hwiForm s' = <[n + OS_SYS_VECTOR_CNT := addr_HalHwiDefaultHandler]> (g_hwiForm s) →
  g_hwiHandlerForm s' = g_hwiHandlerForm s → hwi_ok s' (delete n C).
Proof.
  intros [H1 H2 H3] EF EH. constructor; rewrite ?EF, ?EH.
  - intros j Hj. destruct (decide (n = j)) as [<-|]; [by rewrite lookup_insert_eq, lookup_delete_eq|].
    rewrite lookup_insert_ne, lookup_delete_ne by lia. by apply H1.
  - intros j Hj. by apply H2.
  - intros j hj [_ Ej]%lookup_delete_Some. by apply H3.
Qed.

Lemma wp_ArchHwiCreate s C n prio h :
  hwi_ok s C → 0 ≤ n → 0 ≤ prio → wp (ArchHwiCreate n prio h) (hwi_post s (create_spec n prio h C)) s.
Proof.
  intros Hok Hn Hp. unfold ArchHwiCreate, create_spec.
  destruct (Z.eqb_spec h 0) as [|Hh]; [wp_step; split_and!; [done|done|apply hwi_only_refl]|].
  destruct (Z.leb_spec OS_HWI_MAX_NUM n) as [|Hn']; [wp_step; split_and!; [done|done|apply hwi_only_refl]|].
  wp_step. eapply wp_get_hwiForm; [by apply Hok|]. pose proof vectors_differ as Hd.
  destruct (C !! n) as [h'|] eqn:EC; cbn [vector_of].
  { rewrite decide_True by (by eexists). destruct (Z.eqb_spec addr_HalInterrupt addr_HalHwiDefaultHandler); [done|].
    cbn [negb]. wp_step. split_and!; [done|done|apply hwi_only_refl]. }
  rewrite decide_False by (by intros []). rewrite Z.eqb_refl. cbn [negb].
  destruct (Z.ltb_spec OS_HWI_PRIO_LOWEST prio) as [|Hlow]; [wp_step; split_and!; [done|done|apply hwi_only_refl]|].
  assert (OS_HWI_MAX_NUM = 128) as EM by done. assert (OS_HWI_PRIO_LOWEST = 7) as EP by done.
  assert (u32 (n + OS_SYS_VECTOR_CNT) = n + OS_SYS_VECTOR_CNT) as E32
    by (unfold u32, OS_SYS_VECTOR_CNT; apply Z.mod_small; lia).
  assert (u8 prio = prio) as E8 by (unfold u8; apply Z.mod_small; lia).
  wp_step. wp_steps. unfold OsSetVector, HwiUnmask, HwiSetPriority, NVIC_EnableIRQ, NVIC_SetPriority. rewrite E32, E8.
  unfold OS_VECTOR_CNT. destruct (Z.ltb_spec (n + OS_SYS_VECTOR_CNT) (OS_SYS_VECTOR_CNT + OS_HWI_MAX_NUM)); [|lia].
  unfold when. wp_step.
  eapply wp_set_hwiForm; [eexists; apply (h_vector _ _ Hok); lia|].
  eapply wp_set_hwiHandlerForm; [apply (h_entry _ _ Hok); lia|].
  destruct (Z.leb_spec OS_HWI_MAX_NUM n); [lia|]. destruct (Z.leb_spec 0 n); [|lia].
  destruct (Z.ltb_spec OS_HWI_PRIO_LOWEST prio); [lia|]. wp_steps.
  split_and!; [done|by eapply (hwi_ok_create s); [exact Hok|..]|].
  exists (<[n + OS_SYS_VECTOR_CNT := addr_HalInterrupt]> (g_hwiForm s)), (<[n + OS_SYS_VECTOR_CNT := h]> (g_hwiHandlerForm s)),
    ({[n]} ∪ nvic_enabled s), (<[n := Z.land (Z.shiftl prio (8 - __NVIC_PRIO_BITS)) 0xFF]> (nvic_priority s)), 1.
  reflexivity.
Qed.

Lemma wp_ArchHwiDelete s C n :
  hwi_ok s C → 0 ≤ n → wp (ArchHwiDelete n) (hwi_post s (delete_spec n C)) s.
Proof.
  intros Hok Hn. unfold ArchHwiDelete, delete_spec, HwiMask, NVIC_DisableIRQ.
  destruct (Z.leb_spec OS_HWI_MAX_NUM n) as [|Hn']; [wp_step; split_and!; [done|done|apply hwi_only_refl]|].
  destruct (Z.leb_spec 0 n); [|lia]. unfold when. wp_steps.
  eapply wp_set_hwiForm; [eexists; apply (h_vector _ _ Hok); lia|]. wp_steps.
  split_and!; [done|by eapply (hwi_ok_delete s)|]. exists (<[n + OS_SYS_VECTOR_CNT := addr_HalHwiDefaultHandler]> (g_hwiForm s)),
    (g_hwiHandlerForm s), (nvic_enabled s ∖ {[n]}), (nvic_priority s), 1. by destruct s.
Qed.

(** ** Initialisation *)

Definition form_set (s : kstate) (F : gmap Z Z) : kstate := s <| g_hwiForm := F |>.
Definition full_table (F : gmap Z Z) : Prop := ∀ i, 0 ≤ i < OS_VECTOR_CNT → is_Some (F !! i).

Lemma full_table_insert F i v : full_table F → full_table (<[i := v]> F).
Proof.
  intros HF j Hj. destruct (decide (i = j)) as [<-|]; [rewrite lookup_insert_eq; by eexists|].
  rewrite lookup_insert_ne by done. by apply HF.
Qed.

Lemma wp_form_set s F i v (Q : unit → kstate → Prop) :
  full_table F → 0 ≤ i < OS_VECTOR_CNT → Q tt (form_set s (<[i := v]> F)) → wp (set_hwiForm i v) Q (form_set s F).
Proof. intros HF Hi HQ. apply (wp_set_hwiForm (form_set s F)); [by apply HF|exact HQ]. Qed.

Lemma wp_fill s v n : ∀ i F (Q : unit → kstate → Prop),
  full_table F → 0 ≤ i → i + Z.of_nat n ≤ OS_VECTOR_CNT →
  (∀ F', full_table F' → (∀ j, i ≤ j < i + Z.of_nat n → F' !! j = Some v) → Q tt (form_set s F')) →
  wp (for_loop i n (fun index => set_hwiForm index v)) Q (form_set s F).
Proof.
  cut (∀ i F (Q : unit → kstate → Prop) lo, full_table F → lo ≤ i → 0 ≤ i → i + Z.of_nat n ≤ OS_VECTOR_CNT →
    (∀ j, lo ≤ j < i → F !! j = Some v) →
    (∀ F', full_table F' → (∀ j, lo ≤ j < i + Z.of_nat n → F' !! j = Some v) → Q tt (form_set s F')) →
    wp (for_loop i n (fun index => set_hwiForm index v)) Q (form_set s F)).
  { intros Hc i F Q HF Hi Hn HQ. apply (Hc i F Q i); try done; lia. }
  induction n as [|n IH]; intros i F Q lo HF Hlo Hi Hn Hv HQ; cbn [for_loop].
  - wp_step. apply HQ; [done|]. intros j Hj. apply Hv. lia.
  - wp_step. apply wp_form_set; [done|lia|]. apply (IH (i + 1) _ _ lo); [by apply full_table_insert|lia|lia|lia| |].
    + intros j Hj. destruct (decide (i = j)) as [<-|]; [by rewrite lookup_insert_eq|].
      rewrite lookup_insert_ne by done. apply Hv. lia.
    + intros F' HF' Hv'. apply HQ; [done|]. intros j Hj. apply Hv'. lia.
Qed.

Lemma wp_HalHwiInit s :
  full_table (g_hwiForm s) → full_table (g_hwiHandlerForm s) → wp HalHwiInit (fun _ s' => hwi_ok s' ∅) s.
Proof.
  intros HF HH. assert (OS_VECTOR_CNT = 144) as EV by done. unfold HalHwiInit.
  assert (form_set s (g_hwiForm s) = s) as Es by (by destruct s). rewrite <- Es. clear Es.
  wp_step. apply wp_form_set; [done|lia|]. wp_step. apply wp_form_set; [by repeat apply full_table_insert|lia|].
  wp_step. apply wp_fill; [by repeat apply full_table_insert|lia|rewrite EV; lia|]. intros F HF' Hv.
  do 8 (wp_step; apply wp_form_set;
    [by repeat apply full_table_insert|
     unfold NonMaskableInt_IRQn, HARDFAULT_IRQN, MemoryManagement_IRQn, BusFault_IRQn, UsageFault_IRQn, SVCall_IRQn,
       PendSV_IRQn, SysTick_IRQn, OS_SYS_VECTOR_CNT; lia|]).
  unfold scb_write, scb_read, NVIC_SetPriorityGrouping, scb_write, scb_read. wp_steps. constructor.
  - intros n Hn. unfold OS_HWI_MAX_NUM, LOSCFG_PLATFORM_HWI_LIMIT, OS_SYS_VECTOR_CNT in *. rsimpl.
    unfold form_set. rsimpl. rewrite !lookup_insert_ne by (unfold NonMaskableInt_IRQn, HARDFAULT_IRQN, MemoryManagement_IRQn, BusFault_IRQn,
      UsageFault_IRQn, SVCall_IRQn, PendSV_IRQn, SysTick_IRQn; lia).
    rewrite lookup_empty. apply Hv. rewrite EV. lia.
  - intros n Hn. apply HH. unfold OS_HWI_MAX_NUM, LOSCFG_PLATFORM_HWI_LIMIT, OS_SYS_VECTOR_CNT in *. lia.
  - intros n h Hn. by rewrite lookup_empty in Hn.
Qed.

(** ** An interrupt *)

(** The interrupt [n] occurs. *)
Definition interrupt (n : Z) : K unit :=
  modify (fun s => s <| ipsr := n + OS_SYS_VECTOR_CNT |>);; HalInterrupt.

(** [h] runs with the count of active interrupts raised. *)
Definition run_handler (h : Z) : K unit :=
  modify (fun s => s <| g_intCount := u32 (g_intCount s + 1) |> <| interrupt_flag := 1 |>);;
  call_handler h;;
  modify (fun s => s <| g_intCount := u32 (g_intCount s - 1) |> <| interrupt_flag := 1 |>).

Lemma interrupt_runs s C n h :
  hwi_ok s C → C !! n = Some h →
  interrupt n s = run_handler h (s <| ipsr := n + OS_SYS_VECTOR_CNT |>).
Proof.
  intros Hok EC. destruct (h_handler _ _ Hok n h EC) as (Hn & Hh & Eh).
  set (s1 := s <| ipsr := n + OS_SYS_VECTOR_CNT |> <| g_intCount := u32 (g_intCount s + 1) |> <| interrupt_flag := 1 |>).
  assert (get_hwiHandlerForm (n + OS_SYS_VECTOR_CNT) s1 = Ok h s1) as Hget.
  { unfold get_hwiHandlerForm, gets, unwrap, mbind, M_bind. change (g_hwiHandlerForm s1) with (g_hwiHandlerForm s). by rewrite Eh. }
  change (interrupt n s) with ((handler ← get_hwiHandlerForm (n + OS_SYS_VECTOR_CNT);
    when (negb (handler =? 0)) (call_handler handler);;
    intSave ← LOS_IntLock;
    modify (fun s => s <| g_intCount := u32 (g_intCount s - 1) |>);;
    LOS_IntRestore intSave) s1).
  change (run_handler h _) with ((call_handler h;;
    modify (fun s => s <| g_intCount := u32 (g_intCount s - 1) |> <| interrupt_flag := 1 |>)) s1).
  unfold mbind at 1, M_bind at 1. rewrite Hget. destruct (Z.eqb_spec h 0); [done|]. cbn [negb when].
  unfold mbind, M_bind. by destruct (call_handler h s1).
Qed.
End tables.
