(* ===== verification/Init.v ===== *)
(** Start of the system (los_init.c). *)

From S2P Require Import Prelude DList Kernel Tick SortLink Mem Pmcu Sched Event Sem Mux Task Membox.
From S2P Require Import Queue TickFreq Pool.

Section Init.
  Context `{Config} `{Malloc} `{Symbols}.

(** [LOS_KernelInit] with the address of the array [g_memStart] for the system heap. *)
Definition LOS_KernelInit (g_memStart : Z) : K Z :=
  ret ← OsMemSystemInit g_memStart;
  if negb (ret =? LOS_OK) then mret ret else
  ret ← OsTickTimerInit;
  if negb (ret =? LOS_OK) then mret ret else
  ret ← OsTaskInit;
  if negb (ret =? LOS_OK) then mret ret else
  ret ← OsSemInit;
  if negb (ret =? LOS_OK) then mret ret else
  ret ← OsMuxInit;
  if negb (ret =? LOS_OK) then mret ret else
  ret ← OsQueueInit;
  if negb (ret =? LOS_OK) then mret ret else
  OsIdleTaskCreate.

Definition LOS_Start (swtmrReset : Z → K unit) : K Z := ArchStartSchedule swtmrReset.

End Init.
