(* ===== verification/Demo.v ===== *)
(** Concrete runs of the model: the system of the target configuration is booted with two
    tasks, and the states it reaches are the inputs on which theorems are evaluated. *)

From S2P Require Import Prelude DList Kernel Tick SortLink Mem Pmcu Sched SchedInv SchedOps SchedDelay.
From S2P Require Import SchedSwitch SchedTop Event Sem Mux Task Membox Queue TickFreq Init.

(** The target configuration with a system heap of 4 KB, which is all that the runs need. *)
#[export] Instance demo_config : Config := {|
  LOSCFG_BASE_CORE_TICK_PER_SECOND := @LOSCFG_BASE_CORE_TICK_PER_SECOND target_config;
  LOSCFG_BASE_CORE_TICK_PER_SECOND_MINI := @LOSCFG_BASE_CORE_TICK_PER_SECOND_MINI target_config;
  LOSCFG_BASE_CORE_TICK_RESPONSE_MAX := @LOSCFG_BASE_CORE_TICK_RESPONSE_MAX target_config;
  LOSCFG_BASE_CORE_TIMESLICE_TIMEOUT := @LOSCFG_BASE_CORE_TIMESLICE_TIMEOUT target_config;
  LOSCFG_BASE_CORE_TSK_LIMIT := @LOSCFG_BASE_CORE_TSK_LIMIT target_config;
  LOSCFG_BASE_CORE_TSK_IDLE_STACK_SIZE := @LOSCFG_BASE_CORE_TSK_IDLE_STACK_SIZE target_config;
  LOSCFG_BASE_CORE_TSK_DEFAULT_STACK_SIZE := @LOSCFG_BASE_CORE_TSK_DEFAULT_STACK_SIZE target_config;
  LOSCFG_BASE_CORE_TSK_MIN_STACK_SIZE := @LOSCFG_BASE_CORE_TSK_MIN_STACK_SIZE target_config;
  LOSCFG_SYS_HEAP_SIZE := 0x1000;
  LOSCFG_BASE_IPC_SEM_LIMIT := @LOSCFG_BASE_IPC_SEM_LIMIT target_config;
  LOSCFG_BASE_IPC_MUX_LIMIT := @LOSCFG_BASE_IPC_MUX_LIMIT target_config;
  LOSCFG_BASE_IPC_QUEUE_LIMIT := @LOSCFG_BASE_IPC_QUEUE_LIMIT target_config;
  LOSCFG_BASE_CORE_SWTMR := @LOSCFG_BASE_CORE_SWTMR target_config;
  LOSCFG_BASE_CORE_SWTMR_LIMIT := @LOSCFG_BASE_CORE_SWTMR_LIMIT target_config;
  LOSCFG_KERNEL_PM := @LOSCFG_KERNEL_PM target_config;
  LOSCFG_BASE_CORE_TSK_MONITOR := @LOSCFG_BASE_CORE_TSK_MONITOR target_config;
  LOSCFG_STACK_POINT_ALIGN_SIZE := @LOSCFG_STACK_POINT_ALIGN_SIZE target_config;
  LOSCFG_BASE_CORE_TSK_SWTMR_STACK_SIZE := @LOSCFG_BASE_CORE_TSK_SWTMR_STACK_SIZE target_config;
  OS_SYS_CLOCK := @OS_SYS_CLOCK target_config;
  sizeof_LosTaskCB := @sizeof_LosTaskCB target_config;
  sizeof_LosSemCB := @sizeof_LosSemCB target_config;
  sizeof_LosMuxCB := @sizeof_LosMuxCB target_config;
  sizeof_LosQueueCB := @sizeof_LosQueueCB target_config;
  sizeof_SWTMR_CTRL_S := @sizeof_SWTMR_CTRL_S target_config;
  sizeof_TaskContext := @sizeof_TaskContext target_config
|}.

(** The address of [g_memStart]. *)
Definition heap_start : Z := 0x20000000.

(** The static variables before [main]. *)
Definition boot : kstate :=
  mkKernel ∅ ∅ None None 0 0 0 0 false
    0 0 0 OS_SCHED_MAX_RESPONSE_TIME 0 0 0 0
    0 0 false 0 0 0 false
    0 0 0
    0 0 0
    ∅ ∅ ∅
    ∅ None 0 false
    ∅ (map_block (fun _ => 0) heap_start (Z.to_nat LOSCFG_SYS_HEAP_SIZE) ∅) ∅
    1 0 ∅ 1 0 2 true true false false 0 0
    (list_to_map ((fun i => (i, mkExcNode 0 None)) <$> seqZ 0 16))
    (list_to_map ((fun k => (k, None)) <$> seqZ 0 6)) 0
    (list_to_map ((fun i => (i, 0)) <$> seqZ 0 144)) (list_to_map ((fun i => (i, 0)) <$> seqZ 0 144))
    ∅ ∅ ∅ 0 ∅.

(** An allocator that puts every block behind the last one. *)
Definition bump_next (live : gmap Z Z) : Z :=
  map_fold (fun a n e => Z.max e (a + Z.max n 0)) 0x1000 live.
#[export] Instance bump_malloc : Malloc := {|
  malloc_choose live n :=
    let a := 8 * ((bump_next live + 8) / 8) in
    if (0 <=? n) && (a + n <=? 2 ^ 32) then Some a else None;
  malloc_garbage _ := 0xBE
|}.

#[export] Instance target_symbols : Symbols := {|
  addr_OsTaskEntry := 0x8000100;
  addr_OsIdleTask := 0x8000200;
  addr_OsSwtmrTask := 0x8000300;
  addr_ArchSysExit := 0x8000400
|}.

(** The state a run from power-on ends in. *)
Definition run_from {A} (s : kstate) (m : K A) : kstate :=
  match m s with Ok _ s' => s' | Fault _ => s end.

Lemma run_from_wp {A} (m : K A) Q s : wp m Q s → ∃ a, Q a (run_from s m).
Proof. unfold wp, run_from. destruct (m s); [eauto|done]. Qed.

(** The search for decision procedures does not run the model. *)
#[export] Hint Opaque run_from : typeclass_instances.

Definition main_task : TSK_INIT_PARAM_S := mkTskParam 0x8001000 10 0 0 0x200 (Some "main"%string) 0.
Definition high_task : TSK_INIT_PARAM_S := mkTskParam 0x8002000 5 0 0 0x200 (Some "high"%string) 0.

(** Boot, two tasks (1: priority 10, 2: priority 5), start of the scheduler. *)
Definition demo : kstate := run_from boot (
  LOS_KernelInit heap_start;;
  LOS_TaskCreate true (Some main_task);;
  LOS_TaskCreate true (Some high_task);;
  LOS_Start (fun _ => mret tt)).

(** The same system after the running task 2 went to sleep for five ticks. *)
Definition demo_sleep : kstate := run_from demo (LOS_TaskDelay 5).

(** A system with objects: semaphore 0 with one unit, mutex 0, event 1, and the tasks. *)
Definition demo_sys : kstate := run_from boot (
  LOS_KernelInit heap_start;;
  LOS_SemCreate 1 true;;
  LOS_MuxCreate true;;
  LOS_EventInit (Some (EvUser 1));;
  LOS_TaskCreate true (Some main_task);;
  LOS_TaskCreate true (Some high_task);;
  LOS_Start (fun _ => mret tt)).

(** The list heads of a system without user objects. *)
Definition demo_heads : list lnode :=
  (PriQueue <$> seqZ 0 32) ++
  [TaskSortLink; FreeTask; TaskRecycleList; UnusedSemList; UnusedMuxList; FreeQueueList] ++
  ((fun t => EventList (EvTask t)) <$> seqZ 0 3).
Definition demo_lists (s : kstate) : lists := lists_at (dlheap s) demo_heads.

Definition sys_lists (s : kstate) : lists :=
  lists_at (dlheap s) (demo_heads ++ [SemList 0; MuxList 0; EventList (EvUser 1)]).

Definition demo_tcb (s : kstate) (t : Z) : LosTaskCB := default zeroTCB (g_taskCBArray s !! t).

(** Closes a decidable goal about a concrete state by evaluation. *)
Ltac by_eval := apply (bool_decide_unpack _); vm_compute; exact I.
