(* ===== verification/PropsSched.v ===== *)
(** The theorems about the scheduler, each with a run of the model it applies to. *)

From S2P Require Import Prelude DList Kernel Tick SortLink Mem Pmcu Sched SchedInv SchedOps SchedDelay.
From S2P Require Import SchedSwitch SchedTop SchedTrans Event Sem Mux Task SysInv Membox Queue TickFreq.
From S2P Require Import Init Demo.

Section props.
  Context `{Config}.

(** C1: [LOS_Schedule] never faults, keeps the invariant of the scheduler (queues, bitmap,
    delay queue, one running task) and leaves a running task that wants to run and that no
    ready task beats in priority. *)
Theorem LOS_Schedule_correct s LS r rc :
  KInv s LS → Running s r rc → now s < TIME_HORIZON →
  g_taskScheduled s = true → g_losTaskLock s = 0 →
  wp LOS_Schedule (fun _ s' => ∃ LS' n nc,
    KInv s' LS' ∧ Running s' n nc ∧ unblocked nc ∧ most_urgent s' n nc) s.
Proof.
  intros HK HR Hh Hs Hl. eapply wp_LOS_Schedule; [exact HK|exact HR|done..|].
  intros n cn LS2 b2 s1 LS' h' b' HI2 _ Htop En s' Hsf Hc Hfr HK' HR' Hub.
  exists LS', n, (new_tcb s r n rc cn). split_and!; try done.
  intros t c Et Hlc Hrd Hi. destruct HR as (_ & HR & _).
  assert (g_idleTaskID s' = g_idleTaskID s) as Hid by (apply (sframe_fields s s1 Hsf)).
  rewrite Hid in *. by eapply switch_best.
Qed.
End props.

Lemma LOS_Schedule_correct_witness :
  wp LOS_Schedule (fun _ s' => ∃ LS' n nc,
    KInv s' LS' ∧ Running s' n nc ∧ unblocked nc ∧ most_urgent s' n nc) demo.
Proof.
  apply (LOS_Schedule_correct demo (demo_lists demo) 2 (demo_tcb demo 2)); by_eval.
Defined.
