(* ===== verification/PropsSys.v ===== *)
(** The theorems about the running system: the reachable states, the tick, semaphores,
    mutexes and events, each with a run of the model it applies to. *)

From S2P Require Import Prelude DList Kernel Tick SortLink Mem Pmcu Sched SchedInv SchedOps SchedDelay.
From S2P Require Import SchedSwitch SchedTop SchedTrans SchedTick SchedState Event Sem Mux Task SysInv.
From S2P Require Import SysTask SysSem SysMux SysEvent SysTick System Membox Queue TickFreq Init Demo.

(** ** Runs of the demonstration system *)

Definition demo_sys_rc : LosTaskCB := demo_tcb demo_sys 2.

(** Nothing is registered for the software timers. *)
Definition no_scan : K bool := mret false.




#[export] Instance action_eq_dec : EqDecision action.
Proof. solve_decision. Defined.
#[export] Instance enabled_dec s a : Decision (enabled s a).
Proof. unfold enabled. apply _. Defined.

(** The state after the actions [l]. *)
Fixpoint demo_after (s : kstate) (l : list action) : kstate :=
  match l with
  | [] => s
  | a :: l => demo_after (run_from s (perform no_scan a)) l
  end.












(** ** The most urgent task runs *)

#[export] Instance lowers_owner_dec s i : Decision (lowers_owner s i).
Proof.
  refine (cast_if (decide (match g_allMux s !! i with
    | Some m => match owner m with
      | Some r => match g_taskCBArray s !! r with
        | Some rc => muxCount m = 1 ∧ runTask s = Some r ∧ priority rc < muxPriority m
        | None => False
        end
      | None => False
      end
    | None => False
    end))).
  - repeat case_match; apply _.
  - repeat case_match; try done. unfold lowers_owner. naive_solver.
  - intros (m & r & rc & Em & Eo & Hc & Hr & Er & Hp). rewrite Em, Eo, Er in n. by apply n.
Defined.
#[export] Instance keeps_preemption_dec s a : Decision (keeps_preemption s a).
Proof. unfold keeps_preemption, lock_room. destruct a; apply _. Defined.








(** ** The tick *)




(** ** Semaphores *)

(** C7: [LOS_SemPend] returns and does what a semaphore promises: a unit is taken when there is
    one, otherwise the caller fails at once or becomes the last of the waiting tasks and
    another task runs; an inadmissible call changes nothing. *)
Theorem LOS_SemPend_correct `{Config} s LS r rc i timeout c :
  SInv s LS r rc → r ≠ g_idleTaskID s → now s < TIME_HORIZON →
  0 ≤ i < LOSCFG_BASE_IPC_SEM_LIMIT → g_allSem s !! i = Some c → 0 ≤ timeout < 2 ^ 32 →
  wp (LOS_SemPend i timeout) (sem_pended s LS r rc i timeout c) s.
Proof. apply wp_LOS_SemPend. Qed.

Lemma LOS_SemPend_correct_witness :
  ∃ c, wp (LOS_SemPend 0 100) (sem_pended demo_sys (sys_lists demo_sys) 2 demo_sys_rc 0 100 c)
    demo_sys ∧ semCount c = 1.
Proof.
  eexists. split.
  - apply (LOS_SemPend_correct demo_sys (sys_lists demo_sys) 2 demo_sys_rc 0 100);
      [by_eval|by_eval|by_eval|by_eval|vm_compute; reflexivity|by_eval].
  - vm_compute. reflexivity.
Defined.




(** ** Mutexes *)

(** Task 2 sleeps, task 1 has locked mutex 0, and task 2 runs again. *)
Definition demo_locked : kstate :=
  demo_after demo_sys ([TaskDelay 2; MuxPend 0 0] ++ replicate 6 Tick).

(** C9: [LOS_MuxPend] returns; it takes a free mutex, locks the caller's own once more, fails at
    once or lets the caller wait behind the others, after the owner was raised to the
    caller's priority if that is more urgent; no other priority changes. *)
Theorem LOS_MuxPend_correct `{Config} s LS r rc i timeout m :
  SInv s LS r rc → r ≠ g_idleTaskID s → now s < TIME_HORIZON →
  0 ≤ i < LOSCFG_BASE_IPC_MUX_LIMIT → g_allMux s !! i = Some m → 0 ≤ timeout < 2 ^ 32 →
  wp (LOS_MuxPend i timeout) (mux_pended s LS r rc i timeout m) s.
Proof. apply wp_LOS_MuxPend. Qed.

Lemma LOS_MuxPend_correct_witness :
  ∃ m, wp (LOS_MuxPend 0 100)
    (mux_pended demo_locked (sys_lists demo_locked) 2 (demo_tcb demo_locked 2) 0 100 m)
    demo_locked ∧ owner m = Some 1.
Proof.
  eexists. split.
  - apply (LOS_MuxPend_correct demo_locked (sys_lists demo_locked) 2 (demo_tcb demo_locked 2) 0 100);
      [by_eval|by_eval|by_eval|by_eval|vm_compute; reflexivity|by_eval].
  - vm_compute. reflexivity.
Defined.

(** Task 1 owns mutex 0, with the priority of task 2, which waits for it. *)
Definition demo_inherited : kstate := demo_after demo_locked [MuxPend 0 100].

(** C10: [LOS_MuxPost] returns; only the owner unlocks, a mutex locked several times stays the
    owner's, and the last unlock gives the owner the priority back it had when it took the
    mutex and hands the mutex to the task that has waited longest, or frees it. *)
Theorem LOS_MuxPost_correct `{Config} s LS r rc i m :
  SInv s LS r rc → r ≠ g_idleTaskID s → now s < TIME_HORIZON →
  0 ≤ i < LOSCFG_BASE_IPC_MUX_LIMIT → g_allMux s !! i = Some m →
  wp (LOS_MuxPost i) (mux_posted s LS r rc i m) s.
Proof. apply wp_LOS_MuxPost. Qed.

Lemma LOS_MuxPost_correct_witness :
  ∃ m, wp (LOS_MuxPost 0)
    (mux_posted demo_inherited (sys_lists demo_inherited) 1 (demo_tcb demo_inherited 1) 0 m)
    demo_inherited ∧ priority (demo_tcb demo_inherited 1) = 5 ∧ muxPriority m = 10.
Proof.
  eexists. split.
  - apply (LOS_MuxPost_correct demo_inherited (sys_lists demo_inherited) 1
      (demo_tcb demo_inherited 1) 0); [by_eval|by_eval|by_eval|by_eval|vm_compute; reflexivity].
  - split; vm_compute; reflexivity.
Defined.

(** ** Events *)





