(* ===== verification/PropsQueue.v ===== *)
(** The theorems about message queues and memory, each with a run of the model it applies
    to. *)

From S2P Require Import Prelude DList Kernel Tick SortLink Mem Pmcu Sched SchedInv SchedOps SchedDelay.
From S2P Require Import SchedSwitch SchedTop Event Sem Mux Task Membox Queue TickFreq Init Demo Bytes.
From S2P Require Import QueueRing.

(** ** A queue of four messages of at most eight bytes, and a buffer *)

Definition demo_queue : kstate := run_from demo (LOS_QueueCreate None 4 true 0 8;; LOS_MemAlloc 16).
Definition demo_q : LosQueueCB := default zeroQueue (g_allQueue demo_queue !! 0).
(** The block behind the buffer of the queue. *)
Definition demo_buf : Z := 8 * ((queue demo_q + 48 + 8) / 8).
Definition queue_lists (s : kstate) : lists :=
  lists_at (dlheap s) (demo_heads ++ [ReadWriteList 0 0; ReadWriteList 0 1; MemList 0]).

Lemma queue_idle_eval s q msgs :
  bool_decide (WF (dlheap s) (queue_lists s) ∧
    queue_lists s !! ReadWriteList 0 OS_QUEUE_READ = Some [] ∧
    queue_lists s !! ReadWriteList 0 OS_QUEUE_WRITE = Some [] ∧
    queue_rep (ram s) q msgs) = true →
  g_allQueue s !! 0 = Some q → queue_idle s 0 q msgs.
Proof.
  intros (H1 & H2 & H3 & H4)%bool_decide_eq_true_1 Eq. constructor; [|done|done].
  by exists (queue_lists s).
Qed.

(** C13: Messages written to an empty queue are read back complete and in the order in which
    they were written. *)
Theorem queue_fifo `{Config} `{Malloc} `{Symbols} s i q msgs a :
  queue_idle s i q [] → 0 ≤ i < LOSCFG_BASE_IPC_QUEUE_LIMIT →
  Forall (fits q) msgs → Z.of_nat (length msgs) ≤ queueLen q →
  target_ok (ram s) q a (queueSize q - 4) →
  wp (write_all i msgs;; read_all i a (queueSize q - 4) (length msgs))
     (fun r s' => r = msgs ∧ ∃ q', queue_idle s' i q' []) s.
Proof.
  intros HQ Hi Hf Hl Ht. pose proof (ring_size (rep_ring (idle_rep _ _ _ _ HQ))) as Hs. wp_step.
  eapply (wp_write_all i a); [exact HQ|done|done|done|exact Ht|].
  intros s' q' HQ' Hsz Ht'. eapply wp_read_all; [exact HQ'|done|lia|exact Ht'|]. eauto.
Qed.

Lemma queue_fifo_witness :
  wp (write_all 0 [[1; 2; 3]; [4]; [5; 6]];; read_all 0 demo_buf 8 3)
     (fun r s' => r = [[1; 2; 3]; [4]; [5; 6]] ∧ ∃ q', queue_idle s' 0 q' []) demo_queue.
Proof.
  apply (queue_fifo demo_queue 0 demo_q [[1; 2; 3]; [4]; [5; 6]] demo_buf).
  - apply queue_idle_eval; vm_compute; reflexivity.
  - by_eval.
  - repeat constructor; vm_compute; discriminate.
  - by_eval.
  - by_eval.
Defined.

(** C14: A copying write that does not wait refines the push onto a bounded double-ended queue:
    too long a message and a full queue are refused and change nothing, otherwise the message
    is added at the tail or at the head, and no byte outside the buffer of the queue changes. *)
Theorem QueueWrite_refines `{Config} `{Malloc} `{Symbols} s i q msgs (atHead : bool) buffer n bs :
  queue_idle s i q msgs → 0 ≤ i < LOSCFG_BASE_IPC_QUEUE_LIMIT →
  0 < n < 2 ^ 31 - 1 → (n ≤ queueSize q - 4 → source_ok (ram s) q buffer n bs) →
  match buffer with BufMem a => a ≠ 0 | BufLocal _ => True end →
  wp ((if atHead then LOS_QueueWriteHeadCopy else LOS_QueueWriteCopy) i buffer n LOS_NO_WAIT)
    (fun o s' =>
      if queueSize q - 4 <? n then
        o = Done (LOS_ERRNO_QUEUE_WRITE_SIZE_TOO_BIG, n) ∧ queue_same s s'
      else if Z.of_nat (length msgs) =? queueLen q then
        o = Done (LOS_ERRNO_QUEUE_ISFULL, n) ∧ queue_same s s'
      else o = Done (LOS_OK, n) ∧ same_outside q (ram s) (ram s') ∧
        ∃ q', queue_moved s s' i q q' ∧
          queue_idle s' i q' (if atHead then bs :: msgs else msgs ++ [bs])) s.
Proof. intros HQ Hi Hn Hs Hb. by apply (wp_QueueWrite s i q msgs HQ Hi atHead). Qed.

Lemma QueueWrite_refines_witness :
  wp (LOS_QueueWriteHeadCopy 0 (BufLocal [7; 8]) 2 LOS_NO_WAIT)
    (fun o s' => o = Done (LOS_OK, 2) ∧ same_outside demo_q (ram demo_queue) (ram s') ∧
      ∃ q', queue_moved demo_queue s' 0 demo_q q' ∧ queue_idle s' 0 q' [[7; 8]]) demo_queue.
Proof.
  eapply wp_mono; [apply (QueueWrite_refines demo_queue 0 demo_q [] true (BufLocal [7; 8]) 2 [7; 8])|].
  - apply queue_idle_eval; vm_compute; reflexivity.
  - by_eval.
  - done.
  - done.
  - done.
  - intros o s'. replace (queueSize demo_q - 4 <? 2) with false by (vm_compute; reflexivity).
    by replace (Z.of_nat (length []) =? queueLen demo_q) with false by (vm_compute; reflexivity).
Defined.

Definition demo_full : kstate :=
  run_from demo_queue (LOS_QueueWriteCopy 0 (BufLocal [1; 2; 3]) 3 LOS_NO_WAIT;;
                       LOS_QueueWriteCopy 0 (BufLocal [4]) 1 LOS_NO_WAIT).
Definition demo_fullq : LosQueueCB := default zeroQueue (g_allQueue demo_full !! 0).

(** C15: A copying read that does not wait refines the pop: an empty queue is reported, otherwise
    the oldest message is removed and as much of it as fits is copied to the buffer, and no
    byte outside that part of the buffer changes. *)
Theorem QueueRead_refines `{Config} `{Malloc} `{Symbols} s i q msgs a n :
  queue_idle s i q msgs → 0 ≤ i < LOSCFG_BASE_IPC_QUEUE_LIMIT →
  0 < n < 2 ^ 31 - 1 → target_ok (ram s) q a n →
  wp (LOS_QueueReadCopy i a (Some n) LOS_NO_WAIT) (fun o s' =>
    match msgs with
    | [] => o = Done (LOS_ERRNO_QUEUE_ISEMPTY, n) ∧ queue_same s s'
    | msg :: rest =>
        let len := Z.min n (Z.of_nat (length msg)) in
        o = Done (LOS_OK, len) ∧
        ram s' = write_bytes a (take (Z.to_nat len) msg) (ram s) ∧
        ∃ q', queue_moved s s' i q q' ∧ queue_idle s' i q' rest
    end) s.
Proof. intros HQ Hi. by apply wp_QueueReadCopy. Qed.

Lemma QueueRead_refines_witness :
  wp (LOS_QueueReadCopy 0 demo_buf (Some 2) LOS_NO_WAIT) (fun o s' =>
    o = Done (LOS_OK, 2) ∧ ram s' = write_bytes demo_buf [1; 2] (ram demo_full) ∧
    ∃ q', queue_moved demo_full s' 0 demo_fullq q' ∧ queue_idle s' 0 q' [[4]]) demo_full.
Proof.
  apply (QueueRead_refines demo_full 0 demo_fullq [[1; 2; 3]; [4]] demo_buf 2).
  - apply queue_idle_eval; vm_compute; reflexivity.
  - by_eval.
  - done.
  - by_eval.
Defined.

(** ** Memory *)

(** The allocator of the demonstration behaves as the C standard says. *)
Lemma bump_next_bound live : 0x1000 ≤ bump_next live ∧
  ∀ a n, live !! a = Some n → a ≤ bump_next live ∧ a + n ≤ bump_next live.
Proof.
  unfold bump_next. apply (map_fold_weak_ind (fun e m => 0x1000 ≤ e ∧
    ∀ a n, m !! a = Some n → a ≤ e ∧ a + n ≤ e)); [split; [done|]; by intros a n; rewrite lookup_empty|].
  intros a n m e _ [He Hm]. split; [lia|].
  intros b k [[<- <-]|[_ Eb]]%lookup_insert_Some; [lia|]. specialize (Hm b k Eb). lia.
Qed.

Lemma bump_choose live n a :
  malloc_choose live n = Some a →
  bump_next live < a ∧ a mod 8 = 0 ∧ 0 ≤ n ∧ a + n ≤ 2 ^ 32.
Proof.
  cbn -[Z.mul Z.div Z.pow]. destruct (Z.leb_spec 0 n); [|done]. cbn -[Z.mul Z.div Z.pow].
  destruct (Z.leb_spec (8 * ((bump_next live + 8) / 8) + n) (2 ^ 32)); [|done]. intros [= <-].
  pose proof (Z.div_mod (bump_next live + 8) 8 ltac:(lia)).
  pose proof (Z.mod_pos_bound (bump_next live + 8) 8 ltac:(lia)).
  split; [lia|]. split; [|lia]. rewrite Z.mul_comm. apply Z_mod_mult.
Qed.

#[export] Instance bump_laws : MallocLaws (H := bump_malloc).
Proof.
  split.
  - intros live n a (Ha & _)%bump_choose. destruct (bump_next_bound live). lia.
  - intros live n a (_ & _ & _ & Hr)%bump_choose. exact Hr.
  - intros live n a (_ & Hm & _)%bump_choose. exact Hm.
  - intros live n a b m (Ha & _)%bump_choose Eb. destruct (bump_next_bound live) as [_ Hb].
    specialize (Hb b m Eb). lia.
  - intros live n a (Ha & _)%bump_choose. destruct (live !! a) eqn:E; [|done].
    destruct (bump_next_bound live) as [_ Hb]. specialize (Hb a _ E). lia.
Qed.

#[export] Instance HeapInv_dec s : Decision (HeapInv s).
Proof.
  refine (cast_if (decide (
    map_Forall (fun a n => 0 < a ∧ 0 ≤ n ∧ a + n ≤ 2 ^ 32) (malloced s) ∧
    map_Forall (fun a n => map_Forall (fun b m =>
      a ≠ b → a + n ≤ b ∨ b + m ≤ a) (malloced s)) (malloced s) ∧
    map_Forall (fun a n => mapped (ram s) a (Z.to_nat n)) (malloced s))));
    abstract (first [by destruct_and?; constructor | intros []; tauto]).
Defined.



(** Allocating a block and freeing it again gives back the live blocks with their contents;
    [LOS_MemFree] accepts exactly the block that [LOS_MemAlloc] returned. *)
Theorem alloc_free_roundtrip `{Malloc} `{!MallocLaws} s n :
  HeapInv s → 0 ≤ n →
  wp (a ← LOS_MemAlloc n; LOS_MemFree a)
     (fun r s' => r = 0 ∧ HeapInv s' ∧ malloced s' = malloced s ∧ same_contents (malloced s) s s') s.
Proof.
  intros HH Hn. wp_step. apply wp_LOS_MemAlloc; [done|done| |].
  - unfold LOS_MemFree. rewrite Z.eqb_refl. wp_steps. split_and!; done.
  - intros a s' Ha _ Hd HH' Hm Hc _. eapply (wp_LOS_MemFree a n); [done|rewrite Hm; apply lookup_insert_eq|].
    intros s2 HH2 Hm2 Hc2 _. rewrite Hm, delete_insert_id in Hm2 by done.
    rewrite Hm, delete_insert_id in Hc2 by done.
    split_and!; [done|done|done|]. intros b m Eb. by rewrite (Hc2 b m Eb), (Hc b m Eb).
Qed.

Lemma alloc_free_roundtrip_witness :
  wp (a ← LOS_MemAlloc 100; LOS_MemFree a)
     (fun r s' => r = 0 ∧ HeapInv s' ∧ malloced s' = malloced demo ∧
        same_contents (malloced demo) demo s') demo.
Proof. apply (alloc_free_roundtrip demo 100); by_eval. Defined.
