(* ===== verification/PropsMbox.v ===== *)
(** The theorems about the fixed-size memory pools, each with a run of the model it applies
    to. *)

From S2P Require Import Prelude DList Kernel Tick SortLink Mem Pmcu Sched SchedInv SchedOps SchedDelay.
From S2P Require Import SchedSwitch SchedTop Event Sem Mux Task Membox Queue TickFreq Init Demo Bytes.
From S2P Require Import Mbox.

(** ** A pool of four blocks *)

Definition demo_area : kstate := run_from demo (LOS_MemAlloc 80).
Definition demo_pool : Z := 8 * ((bump_next (malloced demo) + 8) / 8).
Definition demo_pool_fresh : kstate := run_from demo_area (LOS_MemboxInit demo_pool 80 10).
Definition demo_pool_used : kstate := run_from demo_pool_fresh (LOS_MemboxAlloc demo_pool).

(** C32: [LOS_MemboxInit] divides the memory behind the header of the pool into as many aligned
    blocks as fit, all of them free, and refuses memory in which none fits. *)
Theorem LOS_MemboxInit_correct `{Config} s pool poolSize blkSize :
  let size := LOS_MEMBOX_ALIGNED (blkSize + OS_MEMBOX_NODE_HEAD_SIZE) in
  let num := (poolSize - sizeof_LOS_MEMBOX_INFO) / size in
  0 < pool → sizeof_LOS_MEMBOX_INFO ≤ poolSize → pool + poolSize < 2 ^ 32 →
  mapped (ram s) pool (Z.to_nat poolSize) → 0 < blkSize < 2 ^ 32 - 8 →
  blkSize + OS_MEMBOX_NODE_HEAD_SIZE ≤ size < blkSize + OS_MEMBOX_NODE_HEAD_SIZE + 4 ∧ size mod 4 = 0 ∧
  wp (LOS_MemboxInit pool poolSize blkSize) (fun ret s' => ∃ m', s' = with_ram s 1 m' ∧
    if decide (num = 0) then ret = LOS_NOK
    else ret = LOS_OK ∧ pool_rep m' pool size num (seqZ 0 num) []) s.
Proof.
  intros size num H1 H2 H3 H4 H5. destruct (aligned_size (blkSize + OS_MEMBOX_NODE_HEAD_SIZE)) as [Ha Hs].
  { unfold OS_MEMBOX_NODE_HEAD_SIZE. lia. }
  split; [exact Hs|]. split; [unfold size; rewrite Ha, Z.mul_comm; apply Z_mod_mult|].
  by apply wp_LOS_MemboxInit.
Qed.

Lemma LOS_MemboxInit_correct_witness :
  14 ≤ LOS_MEMBOX_ALIGNED 14 < 18 ∧ LOS_MEMBOX_ALIGNED 14 mod 4 = 0 ∧
  wp (LOS_MemboxInit demo_pool 80 10) (fun ret s' => ∃ m', s' = with_ram demo_area 1 m' ∧
    if decide ((80 - 16) / LOS_MEMBOX_ALIGNED 14 = 0) then ret = LOS_NOK
    else ret = LOS_OK ∧ pool_rep m' demo_pool (LOS_MEMBOX_ALIGNED 14) ((80 - 16) / LOS_MEMBOX_ALIGNED 14)
           (seqZ 0 ((80 - 16) / LOS_MEMBOX_ALIGNED 14)) []) demo_area.
Proof. apply (LOS_MemboxInit_correct demo_area demo_pool 80 10); by_eval. Defined.

(** ** The states of the pool *)

Lemma demo_pool_fresh_rep : pool_rep (ram demo_pool_fresh) demo_pool 16 4 [0; 1; 2; 3] [].
Proof.
  assert (wp (LOS_MemboxInit demo_pool 80 10)
    (fun _ s' => pool_rep (ram s') demo_pool 16 4 [0; 1; 2; 3] []) demo_area) as Hw.
  { eapply wp_mono; [apply wp_LOS_MemboxInit; by_eval|]. by intros ret s' (m' & -> & _ & HR). }
  by apply run_from_wp in Hw as [_ Hw].
Qed.

Lemma demo_pool_used_rep : pool_rep (ram demo_pool_used) demo_pool 16 4 [1; 2; 3] [0].
Proof.
  pose proof demo_pool_fresh_rep as HR'.
  assert (wp (LOS_MemboxAlloc demo_pool) (fun _ s' => pool_rep (ram s') demo_pool 16 4 [1; 2; 3] [0])
    demo_pool_fresh) as Hw.
  { eapply wp_mono; [apply (wp_LOS_MemboxAlloc _ _ _ _ _ _ HR' 2 (demo_tcb demo_pool_fresh 2));
      by_eval|].
    by intros box s' (m2 & -> & _ & HR2). }
  by apply run_from_wp in Hw as [_ Hw].
Qed.

(** C33: [LOS_MemboxAlloc] hands out a block that was free, disjoint from all blocks in use, and
    returns NULL without a change exactly when no block is free. *)
Theorem LOS_MemboxAlloc_correct `{Config} s pool size num free used r rc :
  pool_rep (ram s) pool size num free used →
  runTask s = Some r → g_taskCBArray s !! r = Some rc →
  0 ≤ taskID rc ≤ LOSCFG_BASE_CORE_TSK_LIMIT + 1 → taskID rc < 256 →
  wp (LOS_MemboxAlloc pool) (fun box s' => ∃ m', s' = with_ram s 1 m' ∧
    match free with
    | [] => box = 0 ∧ m' = ram s
    | k :: rest =>
        box = blk pool size k + OS_MEMBOX_NODE_HEAD_SIZE ∧
        Forall (fun j => box + size ≤ blk pool size j + OS_MEMBOX_NODE_HEAD_SIZE ∨
                         blk pool size j + OS_MEMBOX_NODE_HEAD_SIZE + size ≤ box) used ∧
        pool_rep m' pool size num rest (k :: used)
    end) s.
Proof.
  intros HR Hr Er Hid Hid2. eapply wp_mono; [by eapply wp_LOS_MemboxAlloc|].
  intros box s' (m' & -> & Hp). exists m'. split; [done|]. destruct free as [|k rest]; [done|].
  destruct Hp as [-> HR']. split; [done|]. split; [|done]. apply Forall_forall. intros j Hj.
  destruct (rep_blocks _ _ _ _ _ _ HR) as [Hnd _].
  destruct (blk_apart _ _ _ _ (prep_ok HR) k j); [|lia..].
  intros ->. simpl in Hnd. apply NoDup_cons in Hnd as [Hni _]. set_solver.
Qed.

Lemma LOS_MemboxAlloc_correct_witness :
  wp (LOS_MemboxAlloc demo_pool) (fun box s' => ∃ m', s' = with_ram demo_pool_used 1 m' ∧
    box = blk demo_pool 16 1 + OS_MEMBOX_NODE_HEAD_SIZE ∧
    Forall (fun j => box + 16 ≤ blk demo_pool 16 j + OS_MEMBOX_NODE_HEAD_SIZE ∨
                     blk demo_pool 16 j + OS_MEMBOX_NODE_HEAD_SIZE + 16 ≤ box) [0] ∧
    pool_rep m' demo_pool 16 4 [2; 3] [1; 0]) demo_pool_used.
Proof.
  apply (LOS_MemboxAlloc_correct demo_pool_used demo_pool 16 4 [1; 2; 3] [0] 2
    (demo_tcb demo_pool_used 2) demo_pool_used_rep); by_eval.
Defined.

(** C34: [LOS_MemboxFree] takes back exactly the blocks in use: such a block becomes the first of
    the free list; a block freed twice, an address inside a block or one outside the pool is
    refused and nothing changes.  The pool has to lie below the magic numbers. *)
Theorem LOS_MemboxFree_correct `{Config} s pool size num free used box :
  pool_rep (ram s) pool size num free used →
  0 < box < 2 ^ 32 → pool + 16 + num * size ≤ OS_MEMBOX_MAGIC →
  wp (LOS_MemboxFree pool box) (fun r s' => ∃ m', s' = with_ram s 1 m' ∧
    ((∃ k l1 l2, used = l1 ++ k :: l2 ∧ box = blk pool size k + OS_MEMBOX_NODE_HEAD_SIZE ∧
        r = LOS_OK ∧ pool_rep m' pool size num (k :: free) (l1 ++ l2)) ∨
     ((∀ k, k ∈ used → box ≠ blk pool size k + OS_MEMBOX_NODE_HEAD_SIZE) ∧
        r = LOS_NOK ∧ m' = ram s))) s.
Proof. intros HR. by apply wp_LOS_MemboxFree. Qed.

Lemma LOS_MemboxFree_correct_witness :
  wp (LOS_MemboxFree demo_pool (demo_pool + 20)) (fun r s' => ∃ m', s' = with_ram demo_pool_used 1 m' ∧
    ((∃ k l1 l2, [0] = l1 ++ k :: l2 ∧ demo_pool + 20 = blk demo_pool 16 k + OS_MEMBOX_NODE_HEAD_SIZE ∧
        r = LOS_OK ∧ pool_rep m' demo_pool 16 4 (k :: [1; 2; 3]) (l1 ++ l2)) ∨
     ((∀ k, k ∈ [0] → demo_pool + 20 ≠ blk demo_pool 16 k + OS_MEMBOX_NODE_HEAD_SIZE) ∧
        r = LOS_NOK ∧ m' = ram demo_pool_used))) demo_pool_used.
Proof.
  apply (LOS_MemboxFree_correct demo_pool_used demo_pool 16 4 [1; 2; 3] [0] (demo_pool + 20)
    demo_pool_used_rep); by_eval.
Defined.

(** A block size in the last words of the address range overflows when the header of a
    block is added and the result is aligned: [LOS_MemboxInit] then divides by zero. *)
Theorem LOS_MemboxInit_overflow `{Config} s pool poolSize blkSize :
  0 < pool → sizeof_LOS_MEMBOX_INFO ≤ poolSize → mapped (ram s) pool 4 →
  2 ^ 32 - 7 ≤ blkSize ≤ 2 ^ 32 - 4 →
  LOS_MemboxInit pool poolSize blkSize s = Fault DivByZero.
Proof.
  intros Had Hps Hm Hb. unfold LOS_MemboxInit.
  destruct (Z.eqb_spec pool 0); [lia|]. destruct (Z.eqb_spec blkSize 0); [lia|].
  destruct (Z.ltb_spec poolSize sizeof_LOS_MEMBOX_INFO); [lia|].
  assert (LOS_MEMBOX_ALIGNED (u32 (blkSize + OS_MEMBOX_NODE_HEAD_SIZE)) = 0) as ->.
  { unfold OS_MEMBOX_NODE_HEAD_SIZE.
    assert (blkSize = 2 ^ 32 - 7 ∨ blkSize = 2 ^ 32 - 6 ∨ blkSize = 2 ^ 32 - 5 ∨ blkSize = 2 ^ 32 - 4)
      as [-> | [-> | [-> | ->]]] by lia; reflexivity. }
  apply bind_fault, with_ram_lock, bind_fault, wpr_store; [exact Hm|]. reflexivity.
Qed.

Lemma LOS_MemboxInit_overflow_witness :
  LOS_MemboxInit demo_pool 80 (2 ^ 32 - 4) demo_area = Fault DivByZero.
Proof. apply (LOS_MemboxInit_overflow demo_area demo_pool 80 (2 ^ 32 - 4)); by_eval. Defined.
