(* ===== verification/PropsPool.v ===== *)
(** The theorems about the memory pools of los_memoey.c, each with a run of the model it applies
    to. *)

From stdpp Require Import functions sorting.
From S2P Require Import Prelude DList Kernel Tick SortLink Mem Pmcu Sched Event Task Pool PoolIndex.
From S2P Require Import Bytes PoolInv PoolLists PoolRep PoolOps PoolFree PoolInit PoolWalk PoolFind PoolRealloc.
From S2P Require Import PoolSpec PoolChain PoolAlloc Demo PropsQueue.

(** ** A pool in a block of the host allocator *)

Definition heap_area : kstate := run_from boot (LOS_MemAlloc 1024).
Definition heap_pool : Z := 8 * ((bump_next (malloced boot) + 8) / 8).
Definition heap_fresh : kstate := run_from heap_area (LOS_MemInit heap_pool 1024).
Definition heap_used : kstate := run_from heap_fresh (OsMemAlloc_pool heap_pool 20 0).

#[export] Instance mapped_dec m a n : Decision (mapped m a n).
Proof.
  refine (cast_if (decide (is_Some (read_bytes m a n)))); abstract (by rewrite read_bytes_mapped).
Defined.

Lemma heap_area_pools : pools_ok heap_area [].
Proof. constructor; [by vm_compute|constructor|constructor]. Qed.

Lemma heap_fresh_pools : pools_ok heap_fresh [fresh_pool heap_pool 1024].
Proof.
  assert (wp (LOS_MemInit heap_pool 1024) (fun _ s' => pools_ok s' [fresh_pool heap_pool 1024]) heap_area) as Hw.
  { eapply wp_mono; [apply (pools_init heap_area [] heap_pool 1024 heap_area_pools); first [by constructor|by_eval]|].
    by intros r s' (_ & _ & Hok). }
  by apply run_from_wp in Hw as [_ Hw].
Qed.

Lemma heap_used_pool : pool_wf (ram heap_used) heap_pool 1024 [mkBlk 28 (Used 7); free_blk 44] 980.
Proof.
  assert (pool_wf (ram heap_fresh) heap_pool 1024 [free_blk 72] 952) as Hf
    by (destruct heap_fresh_pools as [_ [Hp _]%Forall_cons _]; exact Hp).
  assert (wp (OsMemAlloc_pool heap_pool 20 0)
    (alloc_post heap_fresh heap_pool 1024 [free_blk 72] 952 20 LOS_ERRNO_TSK_ID_INVALID) heap_fresh) as Hw
    by (apply pool_alloc; [exact Hf|lia|by vm_compute]).
  apply run_from_wp in Hw as [r Hw]. fold heap_used in Hw.
  destruct Hw as [(l1 & z & l2 & wl & E & _ & _ & _ & Hok & _)|(_ & _ & Hno)].
  - assert (l1 = [] ∧ z = 72 ∧ l2 = []) as (-> & -> & ->)
      by (destruct l1 as [|? [|??]]; by simplify_eq/=).
    assert (Some wl = Some 980) as [= ->]; [|exact Hok]. destruct (po_rep _ _ _ _ _ Hok) as [L HR].
    rewrite <- (p_water _ _ _ _ _ _ (p_core _ _ _ _ _ _ _ HR)). by vm_compute.
  - specialize (Hno (free_blk 72) ltac:(set_solver) eq_refl). vm_compute in Hno. done.
Qed.

Lemma heap_used_pools : pools_ok heap_used [mkPool heap_pool 1024 [mkBlk 28 (Used 7); free_blk 44] 980].
Proof.
  constructor; [|apply Forall_singleton, heap_used_pool|repeat constructor].
  cbn [fmap list_fmap p_addr]. split_and!; [by vm_compute|by vm_compute|]. exists 0. split; [by vm_compute|done].
Qed.

(** ** Release *)

(** C25: [OsMemFree] releases a used block of any pool: the block becomes one free block with the
    free blocks before and behind it, no two free blocks are neighbours, the count of used bytes
    drops by its size, and every other pool, the contents of the other used blocks and all memory
    outside the pool stay as they are. *)
Theorem OsMemFree_correct s ps1 P S l1 z t l2 wl ps2 :
  pools_ok s (ps1 ++ mkPool P S (l1 ++ mkBlk z (Used t) :: l2) wl :: ps2) →
  wp (OsMemFree P (P + 944 + total l1)) (fun r s' => r = LOS_OK ∧ ram_only s s' ∧
      pools_ok s' (ps1 ++ mkPool P S (release l1 z l2) wl :: ps2) ∧
      kept P S (release l1 z l2) (ram s) (ram s')) s.
Proof.
  intros Hok. pose proof (remove_parts _ _ _ _ Hok) as (_ & _ & _ & _ & _ & Hp & _).
  eapply wp_mono; [apply (pool_free s P S l1 z t l2 wl); exact Hp|]. intros r s' (-> & Hs & Hp' & Hk). split_and!; try done.
  eapply pools_update; [exact Hok|done|done|exact Hp'|by rewrite Hs|]. intros i Hi. apply Hk.
  destruct Hi as [Hi|Hi]; [by left|by right; left].
Qed.

Lemma OsMemFree_correct_witness :
  wp (OsMemFree heap_pool (heap_pool + 944)) (fun r s' => r = LOS_OK ∧ ram_only heap_used s' ∧
      pools_ok s' [mkPool heap_pool 1024 [free_blk 72] 980] ∧
      kept heap_pool 1024 [free_blk 72] (ram heap_used) (ram s')) heap_used.
Proof. exact (OsMemFree_correct heap_used [] heap_pool 1024 [] 28 7 [free_blk 44] 980 [] heap_used_pools). Defined.

(** ** Reallocation *)



(** ** Allocation *)




(** C28: The search through the two levels of free lists takes a free block of at least [r] bytes
    off its list whenever the pool has one, and returns NULL, with nothing changed, exactly when
    every free block is smaller. *)
Theorem OsMemFreeNodeGet_complete s P S bs wl r :
  pool_wf (ram s) P S bs wl → 4 ≤ r < 2 ^ 26 → r mod 4 = 0 →
  wp (OsMemFreeNodeGet P r) (fun node s' =>
      (node = 0 ∧ s' = s ∧ ∀ b, b ∈ bs → bstat b = Free → bsize b < r) ∨
      (∃ l1 z l2 L', bs = l1 ++ free_blk z :: l2 ∧ r ≤ z ∧ node = P + 944 + total l1 ∧ node ≠ 0 ∧ ram_only s s' ∧
         PRep (ram s') P S (l1 ++ loose z :: l2) L' (952 + used_total bs) wl ∧ kept P S bs (ram s) (ram s'))) s.
Proof.
  intros [[L HR] _ _ _] Hr Hr4. apply wp_rset. eapply wp_OsMemFreeNodeGet; [exact HR|done|done|..].
  - intros l1 z l2 m' L' E Hz HR' Hk. right. exists l1, z, l2, L'.
    pose proof (mid_range _ _ _ _ _ _ _ _ (p_core _ _ _ _ _ _ _ HR')).
    split_and!; [done|done|done|lia|done|exact HR'|]. rewrite E. by apply (kept_restat _ _ _ (loose z)).
  - intros Hno. left. by rewrite rset_id.
Qed.

Lemma OsMemFreeNodeGet_complete_witness :
  wp (OsMemFreeNodeGet heap_pool 48) (fun node s' =>
      (node = 0 ∧ s' = heap_used ∧ ∀ b, b ∈ [mkBlk 28 (Used 7); free_blk 44] → bstat b = Free → bsize b < 48) ∨
      (∃ l1 z l2 L', [mkBlk 28 (Used 7); free_blk 44] = l1 ++ free_blk z :: l2 ∧ 48 ≤ z ∧
         node = heap_pool + 944 + total l1 ∧ node ≠ 0 ∧ ram_only heap_used s' ∧
         PRep (ram s') heap_pool 1024 (l1 ++ loose z :: l2) L' (952 + 28) 980 ∧
         kept heap_pool 1024 [mkBlk 28 (Used 7); free_blk 44] (ram heap_used) (ram s'))) heap_used.
Proof. apply (OsMemFreeNodeGet_complete heap_used heap_pool 1024 _ 980 48 heap_used_pool); [lia|done]. Defined.

(** ** Pools *)

(** C29: [LOS_MemInit] makes a pool with one free block of memory that is apart from all pools and
    appends it to their list, and [LOS_MemDeInit] of that pool gives back the list as it was; all
    other pools are kept. *)
Theorem LOS_MemInit_DeInit s ps P S :
  pools_ok s ps → Forall (clear_of P S) ps →
  0 < P → P mod 4 = 0 → 968 ≤ S < 2 ^ 24 → S mod 4 = 0 → P + S < 2 ^ 32 → mapped (ram s) P (Z.to_nat S) →
  wp (LOS_MemInit P S) (fun r s1 => r = LOS_OK ∧ pools_only s s1 ∧ pools_ok s1 (ps ++ [fresh_pool P S]) ∧
      wp (LOS_MemDeInit P) (fun r2 s2 => r2 = LOS_OK ∧ pools_only s1 s2 ∧ pools_ok s2 ps) s1) s.
Proof.
  intros Hok Hc HP HP4 HS HS4 HPS Hm. eapply wp_mono; [by apply (pools_init s ps P S)|].
  intros r s1 (-> & Hs1 & Hok1). split_and!; [done..|].
  eapply wp_mono; [apply (pools_deinit s1 ps (fresh_pool P S) []); exact Hok1|].
  intros r2 s2 (-> & Hs2 & Hok2 & _). rewrite app_nil_r in Hok2. done.
Qed.

Lemma LOS_MemInit_DeInit_witness :
  wp (LOS_MemInit heap_pool 1024) (fun r s1 => r = LOS_OK ∧ pools_only heap_area s1 ∧
      pools_ok s1 [fresh_pool heap_pool 1024] ∧
      wp (LOS_MemDeInit heap_pool) (fun r2 s2 => r2 = LOS_OK ∧ pools_only s1 s2 ∧ pools_ok s2 []) s1) heap_area.
Proof.
  apply (LOS_MemInit_DeInit heap_area [] heap_pool 1024 heap_area_pools); first [by constructor|by_eval].
Defined.

(** C30: The walks over the nodes of a pool end: the integrity check passes, [LOS_MemTotalUsedGet]
    returns the bytes in use and [LOS_MemInfoGet] the sizes and numbers of used and free blocks,
    the largest free block and the water line; used and free bytes make up the pool. *)
Theorem pool_walks s P S bs wl :
  pool_wf (ram s) P S bs wl →
  wp (LOS_MemIntegrityCheck P) (fun r s' => r = LOS_OK ∧ ∃ i, s' = irq i s) s ∧
  wp (LOS_MemTotalUsedGet P) (fun r s' => r = used_total bs ∧ ∃ i, s' = irq i s) s ∧
  wp (LOS_MemInfoGet P true) (fun r s' => r = (LOS_OK, Some (pool_status bs wl)) ∧ ∃ i, s' = irq i s) s ∧
  used_total bs + free_total bs = S - 952.
Proof.
  intros [[L HR] Hs _ _]. assert (∀ i, rset (irq i s) (ram s) = irq i s) as Hirq by (intros i; by destruct s). split_and!.
  - apply wp_rset. eapply wp_LOS_MemIntegrityCheck; [exact HR|done|]. intros i. rewrite Hirq. by split; [|exists i].
  - apply wp_rset. eapply wp_LOS_MemTotalUsedGet; [exact HR|done|]. intros i. rewrite Hirq. by split; [|exists i].
  - apply wp_rset. eapply wp_LOS_MemInfoGet; [exact HR|done|]. intros i. rewrite Hirq. by split; [|exists i].
  - rewrite used_free_total. apply HR.
Qed.

Lemma pool_walks_witness :
  wp (LOS_MemIntegrityCheck heap_pool) (fun r s' => r = LOS_OK ∧ ∃ i, s' = irq i heap_used) heap_used ∧
  wp (LOS_MemTotalUsedGet heap_pool) (fun r s' => r = 28 ∧ ∃ i, s' = irq i heap_used) heap_used ∧
  wp (LOS_MemInfoGet heap_pool true) (fun r s' => r = (LOS_OK, Some (mkPoolStatus 28 44 44 1 1 980)) ∧
      ∃ i, s' = irq i heap_used) heap_used ∧ 28 + 44 = 1024 - 952.
Proof. exact (pool_walks heap_used heap_pool 1024 [mkBlk 28 (Used 7); free_blk 44] 980 heap_used_pool). Defined.


