(* ===== verification/PropsList.v ===== *)
(** The intrusive lists as a component: sequences of list operations refine the same
    operations on sequences of nodes. *)

From S2P Require Import Prelude DList.

Section commands.
  Context {L : Type} `{Countable L}.

(** ** Operations as data *)

Inductive list_cmd : Type :=
  | CmdInit (list : L)
  | CmdHeadInsert (list node : L)
  | CmdTailInsert (list node : L)
  | CmdDelete (node : L)
  | CmdDelInit (node : L).

Definition list_exec (h : gmap L (LOS_DL_LIST L)) (c : list_cmd) : option (gmap L (LOS_DL_LIST L)) :=
  match c with
  | CmdInit list => Some (LOS_ListInit h list)
  | CmdHeadInsert list node => LOS_ListHeadInsert h list node
  | CmdTailInsert list node => LOS_ListTailInsert h list node
  | CmdDelete node => LOS_ListDelete h node
  | CmdDelInit node => LOS_ListDelInit h node
  end.

Definition list_run (cs : list list_cmd) (h : gmap L (LOS_DL_LIST L)) : option (gmap L (LOS_DL_LIST L)) :=
  foldl (fun o c => h ← o; list_exec h c) (Some h) cs.

(** What the operations mean for the sequences behind the list heads: a node is inserted only
    when no list holds it, and deleted only when one does. *)
Inductive list_step (LS : gmap L (list L)) : list_cmd → gmap L (list L) → Prop :=
  | step_init hd : ¬ linked (delete hd LS) hd → list_step LS (CmdInit hd) (<[hd := []]> LS)
  | step_head hd xs x : LS !! hd = Some xs → ¬ linked LS x →
      list_step LS (CmdHeadInsert hd x) (<[hd := x :: xs]> LS)
  | step_tail hd xs x : LS !! hd = Some xs → ¬ linked LS x →
      list_step LS (CmdTailInsert hd x) (<[hd := xs ++ [x]]> LS)
  | step_delete hd l1 x l2 : LS !! hd = Some (l1 ++ x :: l2) →
      list_step LS (CmdDelete x) (<[hd := l1 ++ l2]> LS)
  | step_delinit hd l1 x l2 : LS !! hd = Some (l1 ++ x :: l2) →
      list_step LS (CmdDelInit x) (<[x := []]> (<[hd := l1 ++ l2]> LS)).

Inductive list_steps : gmap L (list L) → list list_cmd → gmap L (list L) → Prop :=
  | steps_nil LS : list_steps LS [] LS
  | steps_cons LS c LS1 cs LS2 :
      list_step LS c LS1 → list_steps LS1 cs LS2 → list_steps LS (c :: cs) LS2.

(** ** Every operation refines its step *)

Lemma LOS_ListInit_alt (h : gmap L (LOS_DL_LIST L)) x :
  LOS_ListInit h x = <[x := DlNode (Some x) (Some x)]> h.
Proof.
  unfold LOS_ListInit, set_prev. rewrite pstNext_set_next, decide_True by done.
  unfold set_next. by rewrite insert_insert_eq.
Qed.

(** [LOS_ListDelInit] unlinks the node and makes it an empty list. *)
Lemma LOS_ListDelInit_alt (h : gmap L (LOS_DL_LIST L)) x :
  LOS_ListDelInit h x = (fun h' => LOS_ListInit h' x) <$> LOS_ListDelete h x.
Proof.
  unfold LOS_ListDelInit, LOS_ListDelete. destruct (pstNext h x) as [n|]; [|done]. cbn.
  set (h1 := set_prev h n (pstPrev h x)). destruct (pstPrev h1 x) as [p|]; [|done]. cbn. f_equal.
  rewrite !LOS_ListInit_alt. generalize (set_next h1 p (pstNext h1 x)). intros h2.
  unfold set_prev, set_next. by rewrite !insert_insert_eq.
Qed.

(** A deleted node belongs to no list. *)
Lemma deleted_unlinked (h : gmap L (LOS_DL_LIST L)) LS hd l1 x l2 :
  WF h LS → LS !! hd = Some (l1 ++ x :: l2) → ¬ linked (<[hd := l1 ++ l2]> LS) x.
Proof.
  intros HW E (hd' & xs & E' & Hx). destruct (proj1 HW _ _ E) as [Hnd _].
  apply lookup_insert_Some in E' as [[<- <-]|[Hne E']].
  - apply NoDup_cons in Hnd as [Hn1 Hnd]. apply NoDup_app in Hnd as (_ & Hn2 & [Hn3 _]%NoDup_cons).
    apply elem_of_cons in Hx as [->|[Hx|Hx]%elem_of_app]; [set_solver|set_solver|done].
  - by apply Hne, (proj2 HW hd hd' _ xs x E E'); [set_solver|].
Qed.

Lemma list_exec_refines (h : gmap L (LOS_DL_LIST L)) LS c LS' :
  WF h LS → list_step LS c LS' → ∃ h', list_exec h c = Some h' ∧ WF h' LS'.
Proof.
  intros HW Hs. destruct Hs as [hd Hn|hd xs x E Hn|hd xs x E Hn|hd l1 x l2 E|hd l1 x l2 E]; simpl.
  - eexists. split; [done|]. by apply WF_init.
  - by apply WF_add_head.
  - by apply WF_add_tail.
  - destruct (WF_delete h LS hd l1 x l2) as (h' & Hd & HW' & _); [done..|]. eauto.
  - destruct (WF_delete h LS hd l1 x l2) as (h' & Hd & HW' & _); [done..|].
    exists (LOS_ListInit h' x). rewrite LOS_ListDelInit_alt, Hd. split; [done|].
    apply WF_init; [done|]. intros Hl%linked_delete. exact (deleted_unlinked h LS hd l1 x l2 HW E Hl).
Qed.

Lemma list_run_cons c cs (h : gmap L (LOS_DL_LIST L)) :
  list_run (c :: cs) h = h' ← list_exec h c; list_run cs h'.
Proof.
  unfold list_run. simpl. destruct (list_exec h c); [done|]. simpl. by induction cs.
Qed.

Lemma list_run_refines cs LS LS' : list_steps LS cs LS' →
  ∀ h : gmap L (LOS_DL_LIST L), WF h LS → ∃ h', list_run cs h = Some h' ∧ WF h' LS'.
Proof.
  induction 1 as [LS|LS c LS1 cs LS2 Hs _ IH]; intros h HW; [by eexists|].
  destruct (list_exec_refines h LS c LS1 HW Hs) as (h1 & Hc & HW1).
  destruct (IH h1 HW1) as (h' & Hr & HW'). exists h'. by rewrite list_run_cons, Hc.
Qed.

(** C22: A sequence of list operations that is legal on sequences of nodes runs without
    following a NULL pointer, and leaves a heap in which walking each list shows exactly the
    nodes that the operations on sequences leave, in order. *)
Theorem list_operations_refine cs (h : gmap L (LOS_DL_LIST L)) LS LS' :
  WF h LS → list_steps LS cs LS' →
  ∃ h', list_run cs h = Some h' ∧ WF h' LS' ∧
    ∀ hd xs, LS' !! hd = Some xs →
      LOS_DL_LIST_FOR_EACH (size h') h' hd = Some xs ∧
      LOS_ListEmpty h' hd = bool_decide (xs = []) ∧
      LOS_DL_LIST_FIRST h' hd = Some (List.hd hd xs).
Proof.
  intros HW Hs. destruct (list_run_refines cs LS LS' Hs h HW) as (h' & Hr & HW').
  exists h'. split_and!; [done..|]. intros hd xs E. split_and!.
  - eapply WF_for_each; [done..|]. pose proof (WF_size _ _ _ _ HW' E). simpl in *. lia.
  - by eapply WF_empty.
  - by eapply WF_first.
Qed.

End commands.
#[global] Arguments list_cmd L : clear implicits.

(** ** A run: two lists, 0 and 1, and the nodes 2 and 3 *)

Definition list_demo : list (list_cmd nat) :=
  [CmdInit 0%nat; CmdInit 1%nat; CmdTailInsert 0%nat 2%nat; CmdHeadInsert 0%nat 3%nat;
   CmdDelete 2%nat; CmdTailInsert 1%nat 2%nat; CmdDelInit 3%nat].
Definition list_demo_end : gmap nat (list nat) := <[3%nat := []]> (<[1%nat := [2%nat]]> {[0%nat := []]}).

Lemma list_demo_steps : list_steps ∅ list_demo list_demo_end.
Proof.
  assert (∀ (LS : gmap nat (list nat)) x, bool_decide (linked LS x) = false → ¬ linked LS x) as Hn
    by (intros LS x; apply bool_decide_eq_false).
  eapply steps_cons; [by apply step_init, Hn|]. eapply steps_cons; [by apply step_init, Hn|].
  eapply steps_cons; [eapply step_tail; [done|by apply Hn]|].
  eapply steps_cons; [eapply step_head; [done|by apply Hn]|].
  eapply steps_cons; [by apply (step_delete _ 0%nat [3%nat])|].
  eapply steps_cons; [eapply step_tail; [done|by apply Hn]|].
  eapply steps_cons; [by apply (step_delinit _ 0%nat [])|]. apply steps_nil.
Qed.

Lemma list_operations_refine_witness :
  ∃ h', list_run list_demo ∅ = Some h' ∧ WF h' list_demo_end ∧
    ∀ hd xs, list_demo_end !! hd = Some xs →
      LOS_DL_LIST_FOR_EACH (size h') h' hd = Some xs ∧
      LOS_ListEmpty h' hd = bool_decide (xs = []) ∧
      LOS_DL_LIST_FIRST h' hd = Some (List.hd hd xs).
Proof.
  apply (list_operations_refine list_demo ∅ ∅ list_demo_end);
    [apply (bool_decide_unpack _); vm_compute; exact I|apply list_demo_steps].
Defined.

