(* ===== verification/PropsCore.v ===== *)
(** The theorems about the ready queues, the delay queue and the clock, each with a run of
    the model it applies to. *)

From S2P Require Import Prelude DList Kernel Tick SortLink Mem Pmcu Sched SchedInv SchedOps SchedDelay.
From S2P Require Import SchedSwitch SchedTop SchedTrans SchedTick SchedState Event Sem Mux Task Membox Queue.
From S2P Require Import TickFreq Init Demo.

(** The system in which task 2 sleeps, and the same system much later. *)
Definition demo_late : kstate := demo_sleep <| g_tickTimerBase := 2 ^ 40 |>.

(** A state is its own view. *)
Lemma in_view {A} (m : K A) Q s :
  wp m Q (sched_upd s (g_taskCBArray s) (dlheap s) (g_queueBitmap s)) → wp m Q s.
Proof. by rewrite sched_upd_id. Qed.

(** ** The ready queues *)

(** The reference for the choice of the next task: the ready queues one after the other, from
    the most urgent priority on; the idle task when they are all empty. *)
Definition linear_top (idle : Z) (LS : lists) : Z :=
  match List.hd_error (flat_map (fun p => members LS (PriQueue p)) (seqZ 0 OS_PRIORITY_QUEUE_NUM)) with
  | Some (PendList t) => t
  | _ => idle
  end.

Lemma flat_map_nil {A B} (f : A → list B) l : Forall (fun x => f x = []) l → flat_map f l = [].
Proof. induction 1 as [|x l E _ IH]; [done|]. simpl. by rewrite E, IH. Qed.

Lemma is_top_linear idle LS t : is_top idle LS t → t = linear_top idle LS.
Proof.
  unfold linear_top, OS_PRIORITY_QUEUE_NUM.
  intros [(p & xs & Hp & E & Hlow)|[-> Hall]].
  - replace 32 with (p + (1 + (31 - p))) by lia. rewrite seqZ_app, flat_map_app by lia.
    rewrite (flat_map_nil _ (seqZ 0 p)).
    2: { apply Forall_seqZ. intros q Hq. apply Hlow. lia. }
    rewrite seqZ_cons, Z.add_0_l by lia. simpl. by rewrite E.
  - rewrite flat_map_nil; [done|]. apply Forall_seqZ. intros q Hq. apply Hall. lia.
Qed.

(** C18: The choice of the next task through the bitmap of the priorities gives the same task as
    a search through all ready queues. *)
Theorem OsGetTopTask_linear `{Config} s LS :
  KInv s LS → wp OsGetTopTask (fun t s' => s' = s ∧ t = linear_top (g_idleTaskID s) LS) s.
Proof.
  intros HK. apply in_view. eapply wpu_OsGetTopTask; [apply (k_wf HK)|apply (k_queues HK)|].
  intros t Ht. rewrite sched_upd_id. split; [done|]. by apply is_top_linear.
Qed.

Lemma OsGetTopTask_linear_witness :
  wp OsGetTopTask (fun t s' => s' = demo ∧ t = linear_top (g_idleTaskID demo) (demo_lists demo)) demo.
Proof. apply (OsGetTopTask_linear demo (demo_lists demo)); by_eval. Defined.

(** ** The delay queue *)

(** C21: A node is inserted into a delay queue at a place that keeps the queue sorted by the
    times of its nodes; nothing else changes, and the search for the place ends. *)
Theorem OsAddNode2SortLink_sorted LS s hd xs node t :
  WF (dlheap s) LS → LS !! hd = Some xs → ¬ linked LS node →
  SortedLink s xs → responseTime s node = Some t →
  wp (OsAddNode2SortLink hd node) (fun _ s' => ∃ h' xs',
    s' = s <| dlheap := h' |> ∧ WF h' (<[hd := xs']> LS) ∧ xs' ≡ₚ node :: xs ∧ SortedLink s' xs') s.
Proof.
  intros HW E Hn Hs Ht. eapply OsAddNode2SortLink_spec; [done..|]. intros h' xs' Hi HW'.
  exists h', xs'. split_and!; [done|done|by eapply inserted_Permutation|].
  by apply (inserted_sorted s t node xs xs').
Qed.

#[export] Instance SortedLink_dec s xs : Decision (SortedLink s xs).
Proof. unfold SortedLink. apply _. Defined.

Lemma OsAddNode2SortLink_sorted_witness :
  wp (OsAddNode2SortLink TaskSortLink (SortLinkNode 1)) (fun _ s' => ∃ h' xs',
    s' = demo_sleep <| dlheap := h' |> ∧ WF h' (<[TaskSortLink := xs']> (demo_lists demo_sleep)) ∧
    xs' ≡ₚ [SortLinkNode 1; SortLinkNode 2] ∧ SortedLink s' xs') demo_sleep.
Proof.
  apply (OsAddNode2SortLink_sorted (demo_lists demo_sleep) demo_sleep TaskSortLink [SortLinkNode 2]
    (SortLinkNode 1) OS_SORT_LINK_INVALID_TIME); by_eval.
Defined.

(** C19: The scan of the delay queue wakes exactly the tasks whose time has come: every control
    block becomes what waking it, or leaving it alone, makes of it, and the result says
    whether a task that is not suspended was woken. *)
Theorem OsSchedScanTimerList_exact `{Config} s LS :
  KInv s LS → now s < TIME_HORIZON →
  wp OsSchedScanTimerList (fun need s' => ∃ LS',
    g_taskCBArray s' = scan_tasks s (now s) (g_taskCBArray s) ∧
    (need = true ↔ someone_wakes (now s) (g_taskCBArray s)) ∧
    SchedInv s' LS' ∧
    ∀ t c, g_taskCBArray s' !! t = Some c → expired (now s) c = false) s.
Proof.
  intros HK Hh. apply in_view.
  eapply wpu_OsSchedScanTimerList; [apply (k_wf HK)|apply (k_queues HK)|by eapply KInv_TimeOk|].
  intros s1 LS' h' b' need' Hs1 Hn _ _ HW' HI'. exists LS'. split; [done|]. split; [done|].
  split; [split; [done|]; destruct Hs1 as [-> | ->]; exact HI'|].
  intros t c Et. change (scan_tasks s (now s) (g_taskCBArray s) !! t = Some c) in Et.
  rewrite scan_tasks_lookup in Et. apply fmap_Some in Et as (c0 & _ & ->). unfold scan_one.
  destruct (expired (now s) c0) eqn:He; [by apply wake_tcb_not_expired|done].
Qed.

Lemma OsSchedScanTimerList_exact_witness :
  wp OsSchedScanTimerList (fun need s' => ∃ LS',
    g_taskCBArray s' = scan_tasks demo_late (now demo_late) (g_taskCBArray demo_late) ∧
    (need = true ↔ someone_wakes (now demo_late) (g_taskCBArray demo_late)) ∧
    SchedInv s' LS' ∧
    ∀ t c, g_taskCBArray s' !! t = Some c → expired (now demo_late) c = false) demo_late.
Proof. apply (OsSchedScanTimerList_exact demo_late (demo_lists demo_late)); by_eval. Defined.






(** ** Delaying and yielding *)

Section calls.
  Context `{Config}.

(** A call that changes the control block of the running task and then schedules. *)
Lemma int_lock_same s LS r rc (Q : Z → kstate → Prop) :
  KInv s LS → Running s r rc →
  (let s0 := s <| interrupt_flag := 0 |> in KInv s0 LS → Running s0 r rc → Q 0 s0) →
  wp LOS_IntLock Q s.
Proof.
  intros HK HR HQ. unfold LOS_IntLock, PMCU_BE_Disable_Irq. wp_steps. rsimpl.
  assert (ksame s (s <| interrupt_flag := 0 |>)) as Hs by (by split_and!).
  apply HQ; [by apply (KInv_same s)|by apply (Running_same s)].
Qed.

Lemma KInv_run_tcb s LS r rc c' :
  KInv s LS → Running s r rc →
  QInv (g_idleTaskID s) (<[r := c']> (g_taskCBArray s)) LS (g_queueBitmap s) →
  RunInv s (<[r := c']> (g_taskCBArray s)) r c' →
  topOfStack c' = topOfStack rc → (live c' → live rc) →
  let s' := sched_upd (s <| interrupt_flag := 1 |>) (<[r := c']> (g_taskCBArray s)) (dlheap s)
              (g_queueBitmap s) in
  KInv s' LS ∧ Running s' r c'.
Proof.
  intros [K1 K2 K3 K4 K5 K6 K7 K8] (Hr & HR & Hm) HI' HR' Htop Hlive s'.
  pose proof (r_tcb _ _ _ _ HR) as Er. split.
  - constructor; try done; intros t c Ec Hl; change (<[r := c']> (g_taskCBArray s) !! t = Some c) in Ec;
      apply lookup_insert_Some in Ec as [[<- <-]|[_ Et]]; unfold magic_ok in *.
    + rewrite Htop. by apply (K7 r rc Er), Hlive.
    + by apply (K7 t c Et).
    + by apply (K8 r rc Er), Hlive.
    + by apply (K8 t c Et).
  - split; [done|]. split; [by apply (RunInv_ext s)|]. unfold magic_ok in *. by rewrite Htop.
Qed.

(** The control block of the task that was switched away from. *)
Lemma switch_out s T r n rc cn :
  n ≠ r → switch_tasks s T r n rc cn !! r = Some (run_out (put_back s r rc)).
Proof.
  intros Hn. unfold switch_tasks. destruct (Z.eqb_spec r n); [congruence|].
  by rewrite lookup_insert_ne, lookup_insert_eq.
Qed.

(** What the switch makes of a task that asked for a delay. *)
Lemma delayed_tcb s r rc tick :
  1 ≤ LOSCFG_BASE_CORE_TICK_PER_SECOND → 0 ≤ g_sysClock s < 2 ^ 31 → 0 ≤ tick < 2 ^ 32 →
  0 ≤ now s < TIME_HORIZON →
  let c := put_back s r (delay_tcb tick rc) in
  st c OS_TASK_STATUS_READY = st rc OS_TASK_STATUS_READY ∧
  sortList_responseTime c = now s + tick * g_sysClock s / LOSCFG_BASE_CORE_TICK_PER_SECOND ∧
  0 ≤ sortList_responseTime c < OS_SORT_LINK_INVALID_TIME.
Proof.
  intros Htps Hclk Ht Hn.
  pose proof (slice_tcb_fields (g_idleTaskID s) (now s) (delay_tcb tick rc)) as (E1 & _ & _ & _ & E5 & _ & E7).
  assert (st (delay_tcb tick rc) (Z.lor OS_TASK_STATUS_PEND_TIME OS_TASK_STATUS_DELAY) = true) as Hd.
  { unfold delay_tcb. rsimpl. rewrite flag_lor. fsimpl. apply orb_true_r. }
  unfold put_back, parked_tcb. revert E1 E5 E7. generalize (slice_tcb (g_idleTaskID s) (now s) (delay_tcb tick rc)).
  intros c1 E1 E5 E7. rewrite E1, Hd. rsimpl. rewrite E1, E5, E7.
  change (waitTimes (delay_tcb tick rc)) with tick.
  destruct (delay_until_bound (g_sysClock s) (now s) tick Htps Hclk Ht Hn) as [-> Hb].
  split_and!; [|done|lia|lia]. unfold delay_tcb. rsimpl. by fsimpl.
Qed.

(** C16: [LOS_TaskDelay] puts the caller to sleep until exactly the given number of ticks after
    the present, never earlier: it hands the processor to another task and waits in the delay
    queue with that time. *)
Theorem LOS_TaskDelay_deadline s LS r rc tick :
  KInv s LS → Running s r rc → unblocked rc → r ≠ g_idleTaskID s → now s < TIME_HORIZON →
  g_taskScheduled s = true → g_losTaskLock s = 0 → g_intCount s = 0 →
  st rc OS_TASK_FLAG_SYSTEM_TASK = false → 0 < tick < 2 ^ 32 →
  wp (LOS_TaskDelay tick) (fun ret s' => ret = LOS_OK ∧ ∃ LS' n nc c',
    KInv s' LS' ∧ Running s' n nc ∧ n ≠ r ∧ g_taskCBArray s' !! r = Some c' ∧
    sortList_responseTime c' = now s + tick * g_sysClock s / LOSCFG_BASE_CORE_TICK_PER_SECOND ∧
    SortLinkNode r ∈ members LS' TaskSortLink) s.
Proof.
  intros HK HR Hub Hi Hh Hs Hl Hint Hsys Ht. pose proof HR as (Hr & HRI & _).
  pose proof (r_tcb _ _ _ _ HRI) as Er. pose proof (k_clock HK) as [Htps Hclk].
  pose proof (KInv_TimeOk s LS HK Hh) as HT.
  unfold LOS_TaskDelay, ArchIsIntActive, status_flag. wp_steps.
  rewrite Hint. cbn [Z.ltb Z.compare]. wp_steps. rewrite Hl. cbn [Z.eqb negb]. wp_steps.
  rewrite Hsys. wp_steps. destruct (Z.eqb_spec tick 0); [lia|]. wp_step.
  eapply int_lock_same; [exact HK|exact HR|]. intros s0 HK0 HR0. pose proof HR0 as (Hr0 & HRI0 & Hm0).
  wp_steps. apply in_view.
  eapply wpu_OsSchedDelay; [apply (k_queues HK0)|exact HRI0|exact Hub|exact Hi|lia|].
  intros T' HI' HR'. wpu_steps.
  destruct (KInv_run_tcb s0 LS r rc (delay_tcb tick rc) HK0 HR0 HI' HR' eq_refl) as [HK1 HR1].
  { unfold delay_tcb. rsimpl. by fsimpl. }
  set (s1 := sched_upd _ _ _ _) in *. assert (now s1 = now s) as Hn1 by reflexivity.
  eapply wp_LOS_Schedule; [exact HK1|exact HR1|done..|].
  intros m cn LS2 b2 s2 LS' h' b' HI2 _ Htop En s' _ _ _ HK' HRn _. wp_step. split; [done|].
  destruct (delayed_tcb s1 r rc tick Htps Hclk ltac:(lia)) as (Hprd & Hprt & Hpb).
  { destruct HT as (? & ? & ? & _). rewrite Hn1. lia. }
  assert (m ≠ r) as Hm.
  { intros ->. destruct (new_ready _ _ _ _ _ _ _ _ (proj1 (proj2 HR1)) HI2 Htop En) as [_ Hrd].
    rewrite lookup_insert_eq in En. injection En as <-. rewrite Hprd in Hrd.
    by rewrite (r_ready _ _ _ _ HRI) in Hrd. }
  assert (g_taskCBArray s' !! r = Some (run_out (put_back s1 r (delay_tcb tick rc)))) as Er'
    by (by apply switch_out).
  exists LS', m, (new_tcb s1 r m (delay_tcb tick rc) cn), (run_out (put_back s1 r (delay_tcb tick rc))).
  split_and!; [exact HK'|exact HRn|exact Hm|exact Er'|exact Hprt|].
  destruct (q_tasks (k_queues HK') _ _ Er') as [_ Hok]. apply Hok.
  - destruct (put_back_fields s1 r (delay_tcb tick rc)) as (_ & _ & _ & _ & _ & _ & Hu & _).
    destruct Hub as [Hlv _]. unfold run_out. rsimpl. fsimpl. rewrite Hu. unfold delay_tcb. rsimpl. by fsimpl.
  - unfold run_out. rsimpl. lia.
Qed.





End calls.

Lemma LOS_TaskDelay_deadline_witness :
  wp (LOS_TaskDelay 5) (fun ret s' => ret = LOS_OK ∧ ∃ LS' n nc c',
    KInv s' LS' ∧ Running s' n nc ∧ n ≠ 2 ∧ g_taskCBArray s' !! 2 = Some c' ∧
    sortList_responseTime c' = now demo + 5 * g_sysClock demo / LOSCFG_BASE_CORE_TICK_PER_SECOND ∧
    SortLinkNode 2 ∈ members LS' TaskSortLink) demo.
Proof. apply (LOS_TaskDelay_deadline demo (demo_lists demo) 2 (demo_tcb demo 2) 5); by_eval. Defined.


