(* ===== verification/PropsPort.v ===== *)
(** The theorems about units of time, bounded copies and the port to host threads, and the
    limits of the code that the model brought to light. *)

From S2P Require Import Prelude DList Kernel Tick SortLink Mem Pmcu Sched SchedInv SchedOps SchedDelay.
From S2P Require Import SchedSwitch SchedTop SchedTrans SchedTick SchedState Event Sem Mux Task Membox Queue.
From S2P Require Import Swtmr TickFreq Init Demo SysInv SysMux Bytes.

(** ** Time *)

(** A number of ticks converted to milliseconds and back is the same number, when a tick
    is a whole number of milliseconds and the milliseconds fit in their type. *)
Theorem tick_ms_roundtrip `{Config} t :
  1 ≤ LOSCFG_BASE_CORE_TICK_PER_SECOND → OS_SYS_MS_PER_SECOND mod LOSCFG_BASE_CORE_TICK_PER_SECOND = 0 →
  0 ≤ t → t * (OS_SYS_MS_PER_SECOND / LOSCFG_BASE_CORE_TICK_PER_SECOND) < OS_NULL_INT →
  LOS_MS2Tick (LOS_Tick2MS t) = t.
Proof.
  intros Htps Hdiv Ht Hr. set (k := OS_SYS_MS_PER_SECOND / LOSCFG_BASE_CORE_TICK_PER_SECOND) in *.
  assert (OS_SYS_MS_PER_SECOND = k * LOSCFG_BASE_CORE_TICK_PER_SECOND) as Ek.
  { unfold k. rewrite Z.mul_comm. apply Z.div_exact; lia. }
  assert (0 < k) as Hk by (unfold OS_SYS_MS_PER_SECOND in Ek; nia).
  assert (LOSCFG_BASE_CORE_TICK_PER_SECOND ≤ 1000) by (unfold OS_SYS_MS_PER_SECOND in Ek; nia).
  unfold OS_NULL_INT in Hr.
  assert (LOS_Tick2MS t = t * k) as E.
  { unfold LOS_Tick2MS. rewrite u64_id by (unfold OS_SYS_MS_PER_SECOND; nia).
    rewrite Ek, Z.mul_assoc, Z.div_mul by lia. unfold u32. apply Z.mod_small. nia. }
  rewrite E. unfold LOS_MS2Tick. destruct (Z.eqb_spec (t * k) OS_NULL_INT); [unfold OS_NULL_INT in *; lia|].
  rewrite u64_id by nia. rewrite <- Z.mul_assoc, <- Ek, Z.div_mul by (unfold OS_SYS_MS_PER_SECOND; lia).
  unfold u32. apply Z.mod_small. nia.
Qed.

Lemma tick_ms_roundtrip_witness : LOS_MS2Tick (LOS_Tick2MS 12345) = 12345.
Proof. apply (tick_ms_roundtrip 12345); by_eval. Defined.

(** Between two programmings of the tick the cycle counter stands still, and programming
    the tick never moves it back. *)
Theorem cycle_monotone s n :
  TimeOk s → 1 ≤ n → 1 ≤ tick_periodMax s ≤ 2 ^ 32 → now s < TIME_HORIZON - 2 ^ 32 →
  wp (a ← LOS_SysCycleGet; b ← LOS_SysCycleGet; OsTickTimerReload n;; c ← LOS_SysCycleGet;
      mret (a, b, c))
     (fun '(a, b, c) _ => a = b ∧ b ≤ c < b + 2 ^ 32) s.
Proof.
  intros HT Hn Hp Hh. destruct (TimeOk_tick_read s HT) as [HT1 Hn1].
  wp_step. apply wp_LOS_SysCycleGet; [done|]. fold (tick_read s).
  wp_step. apply wp_LOS_SysCycleGet; [done|]. fold (tick_read (tick_read s)).
  destruct (TimeOk_tick_read _ HT1) as [HT2 Hn2].
  wp_step. apply wp_OsTickTimerReload; [done|done|exact (proj1 Hp)|]. intros r s' Hr Es'.
  set (s2 := tick_read (tick_read s)) in *. assert (now s2 = now s) as E2 by (by rewrite Hn2, Hn1).
  assert (1 ≤ r ≤ 2 ^ 32) as Hrb by (change (tick_periodMax s2) with (tick_periodMax s) in Hr; lia).
  assert (now s' = now s2 + u32 (u32 (r - 1) - 1)) as En' by (by rewrite Es').
  pose proof (u32_bound (u32 (r - 1) - 1)). pose proof (u32_bound (r - 1)).
  assert (TimeOk s') as HT'.
  { unfold TimeOk. rewrite En'. destruct HT2 as (? & ? & ? & ?).
    replace (g_tickTimerBase s') with (now s2) by (by rewrite Es').
    replace (g_oldTickTimerBase s') with (now s2) by (by rewrite Es').
    replace (g_SysTickLoad s') with (u32 (r - 1)) by (by rewrite Es').
    unfold TIME_HORIZON in *. lia. }
  wp_step. apply wp_LOS_SysCycleGet; [done|]. wp_step. lia.
Qed.

#[export] Instance TimeOk_dec s : Decision (TimeOk s).
Proof. unfold TimeOk. apply _. Defined.

Lemma cycle_monotone_witness :
  wp (a ← LOS_SysCycleGet; b ← LOS_SysCycleGet; OsTickTimerReload 500;; c ← LOS_SysCycleGet;
      mret (a, b, c))
     (fun '(a, b, c) _ => a = b ∧ b ≤ c < b + 2 ^ 32) demo.
Proof. apply (cycle_monotone demo 500); by_eval. Defined.

(** [LOS_UDelay] does not wait for the given time: as the counter stands still, its loop is
    never left while no tick interrupt comes, however small the delay is. *)
Theorem LOS_UDelay_stuck `{Config} s us fuel :
  TimeOk s → 1000000 ≤ g_sysClock s < 2 ^ 31 → 0 < us < 2 ^ 31 → now s < 2 ^ 62 →
  LOS_UDelay fuel us s = Fault OutOfFuel.
Proof.
  intros HT Hc Hu Hn. unfold LOS_UDelay. destruct (Z.eqb_spec us 0); [lia|].
  change ((gets g_sysClock ≫= ?k) s) with (k (g_sysClock s) s). cbv beta.
  set (cycles := u64 (_ + _)). assert (0 < cycles < 2 ^ 63) as Hcy.
  { unfold cycles, OS_SYS_US_PER_SECOND.
    pose proof (Z.div_mod us 1000000 ltac:(lia)). pose proof (Z.mod_pos_bound us 1000000 ltac:(lia)).
    assert (0 ≤ us / 1000000 < 2148) by (split; [apply Z.div_pos; lia|apply Z.div_lt_upper_bound; lia]).
    rewrite !(u64_id (_ * _)) by nia.
    assert (us mod 1000000 ≤ us mod 1000000 * g_sysClock s / 1000000 ≤ 2 ^ 31).
    { split; [apply Z.div_le_lower_bound; nia|apply Z.div_le_upper_bound; nia]. }
    rewrite u64_id by nia. nia. }
  apply bind_fault, wp_LOS_SysCycleGet; [done|]. fold (tick_read s).
  rewrite u64_id by (destruct HT; unfold TIME_HORIZON in *; lia).
  assert (∀ n s1, TimeOk s1 → now s1 = now s → LOS_UDelay_loop n (now s + cycles) s1 = Fault OutOfFuel)
    as Hloop; [|by apply Hloop; apply TimeOk_tick_read].
  intros m. induction m as [|m IH]; intros s1 HT1 Hn1; [done|]. cbn [LOS_UDelay_loop].
  apply bind_fault, wp_LOS_SysCycleGet; [done|]. fold (tick_read s1).
  destruct (Z.ltb_spec (now s1) (now s + cycles)); [|lia].
  destruct (TimeOk_tick_read s1 HT1) as [HT2 Hn2]. apply IH; [done|]. by rewrite Hn2.
Qed.

Lemma LOS_UDelay_stuck_witness : LOS_UDelay 1000 1 demo = Fault OutOfFuel.
Proof. apply (LOS_UDelay_stuck demo 1 1000); by_eval. Defined.

(** A change of the clock to less than twice its frequency leaves all times unchanged,
    though the cycles they count have become shorter. *)
Lemma OsTimeConvertFreq_inexact time oldFreq newFreq :
  0 < oldFreq < newFreq → newFreq < 2 * oldFreq → 0 ≤ time < 2 ^ 64 →
  OsTimeConvertFreq time oldFreq newFreq = time.
Proof.
  intros Ho Hn Ht. unfold OsTimeConvertFreq. destruct (Z.leb_spec newFreq oldFreq); [lia|].
  replace (newFreq / oldFreq) with 1 by (apply (Z.div_unique_pos _ _ _ (newFreq - oldFreq)); lia).
  rewrite Z.mul_1_r. by apply u64_id.
Qed.

(** ** Bounded copies *)

(** The arguments for which [memcpy_s] copies. *)
Definition copy_ok (dest destMax : Z) (src : cbuf) (count : Z) : Prop :=
  0 < destMax ≤ SECUREC_MEM_MAX_LEN ∧ dest ≠ 0 ∧ count ≤ destMax ∧
  match src with BufMem a => a ≠ 0 | BufLocal _ => True end ∧
  SECUREC_MEMORY_IS_OVERLAP dest src count = false.


Section copy.
  Context (dest destMax : Z) (src : cbuf) (count : Z) (bs : list Z) (s : kstate).
  Context (Hm : 0 ≤ destMax) (Hno : ¬ copy_ok dest destMax src count).


End copy.


#[export] Instance copy_ok_dec dest destMax src count : Decision (copy_ok dest destMax src count).
Proof. unfold copy_ok. destruct src; apply _. Defined.


(** ** Critical sections and threads of the port *)

Fixpoint enter_n (n : nat) : K unit :=
  match n with O => mret tt | S n => PMCU_BE_Enter_Critical;; enter_n n end.
Fixpoint leave_n (n : nat) : K unit :=
  match n with O => mret tt | S n => PMCU_BE_Leave_Critical;; leave_n n end.

Lemma wp_Enter_Critical s (Q : unit → kstate → Prop) :
  0 ≤ nesting_counter s < 2 ^ 31 - 1 →
  Q tt (s <| interrupt_flag := 0 |> <| nesting_counter := nesting_counter s + 1 |>) →
  wp PMCU_BE_Enter_Critical Q s.
Proof.
  intros Hn HQ. unfold PMCU_BE_Enter_Critical, PMCU_BE_Disable_Irq. wp_steps. rsimpl.
  unfold i32. rewrite Z.mod_small by lia.
  by replace (nesting_counter s + 1 + 2 ^ 31 - 2 ^ 31) with (nesting_counter s + 1) by lia.
Qed.

Lemma wp_enter_n n : ∀ s, 0 ≤ nesting_counter s → nesting_counter s + Z.of_nat n < 2 ^ 31 →
  wp (enter_n n) (fun _ s' => nesting_counter s' = nesting_counter s + Z.of_nat n ∧
    interrupt_flag s' = if decide (n = O) then interrupt_flag s else 0) s.
Proof.
  induction n as [|n IH]; intros s H1 H2; cbn [enter_n]; [wp_step; split; [lia|done]|].
  wp_step. apply wp_Enter_Critical; [lia|]. set (s1 := _ <| nesting_counter := _ |>).
  assert (nesting_counter s1 = nesting_counter s + 1 ∧ interrupt_flag s1 = 0) as [E1 E2] by done.
  eapply wp_mono; [apply IH; lia|]. intros [] s' [E Hi]. split; [lia|]. rewrite Hi, E2.
  by destruct (decide (n = O)).
Qed.

Lemma wp_leave_n k : ∀ s, Z.of_nat k ≤ nesting_counter s → interrupt_flag s = 0 → 0 < nesting_counter s →
  wp (leave_n k) (fun _ s' => nesting_counter s' = nesting_counter s - Z.of_nat k ∧
    interrupt_flag s' = if decide (nesting_counter s = Z.of_nat k) then 1 else 0) s.
Proof.
  induction k as [|k IH]; intros s H1 H2 H3; cbn [leave_n].
  { wp_step. split; [lia|]. by rewrite decide_False by lia. }
  unfold PMCU_BE_Leave_Critical, PMCU_BE_Enable_Irq. wp_steps. zcase. wp_steps. rsimpl.
  destruct (Z.eqb_spec (nesting_counter s - 1) 0) as [E|Hne].
  - assert (k = O) as -> by lia. wp_steps. cbn [leave_n]. wp_step. split; [rsimpl; lia|].
    by rewrite decide_True by lia.
  - wp_steps. eapply wp_mono; [apply IH; rsimpl; lia|]. intros [] s' [E1 E2]. rewrite E1, E2. rsimpl.
    split; [lia|]. by rewrite (decide_ext (_ = Z.of_nat k) (nesting_counter s = Z.of_nat (S k))) by lia.
Qed.

(** Critical sections nest: after [n] entries interrupts stay off until the last of [n]
    exits turns them on again. *)
Theorem critical_nesting n k s :
  nesting_counter s = 0 → (0 < n)%nat → (k ≤ n)%nat → Z.of_nat n < 2 ^ 31 →
  wp (enter_n n;; leave_n k) (fun _ s' =>
    nesting_counter s' = Z.of_nat n - Z.of_nat k ∧
    interrupt_flag s' = if decide (k = n) then 1 else 0) s.
Proof.
  intros H0 Hn Hk Hb. wp_step. eapply wp_mono; [apply wp_enter_n; lia|]. intros [] s1 [E1 E2].
  rewrite decide_False in E2 by lia. eapply wp_mono; [apply wp_leave_n; lia|].
  intros [] s2 [E3 E4]. split; [lia|]. rewrite E4, E1, H0.
  by rewrite (decide_ext (_ = Z.of_nat k) (k = n)) by lia.
Qed.

Lemma critical_nesting_witness :
  wp (enter_n 3;; leave_n 2) (fun _ s' => nesting_counter s' = 3 - 2 ∧
    interrupt_flag s' = if decide (2 = 3)%nat then 1 else 0) demo.
Proof. apply (critical_nesting 3 2 demo); by_eval. Defined.

(** The interrupt lock of the kernel does not nest: the inner of two pairs of [LOS_IntLock]
    and [LOS_IntRestore] turns interrupts on inside the outer one. *)
Theorem int_lock_not_nested s :
  wp (outer ← LOS_IntLock; inner ← LOS_IntLock; LOS_IntRestore inner)
     (fun _ s' => interrupt_flag s' = 1) s.
Proof. unfold LOS_IntLock, LOS_IntRestore, PMCU_BE_Disable_Irq, PMCU_BE_Enable_Irq. by wp_steps. Qed.

(** The table of host threads is smaller than the number of tasks: a task created when all
    [THREAD_NUMBER] threads are in use stops the system in an assertion. *)
Theorem threads_exhausted func params n taskid tick s :
  first_time s = false →
  map_Forall (fun _ t => valid t = true) (pmcu_threads s) →
  PMCU_BE_Task_Create func params n taskid tick s = Fault AssertFail.
Proof.
  intros Hf Hall. unfold PMCU_BE_Task_Create, PMCU_BE_Disable_Irq.
  apply bind_fault. wp_steps. apply bind_fault. wp_steps. apply bind_fault. wp_steps. rsimpl.
  rewrite Hf. apply bind_fault. wp_steps. apply bind_fault. wp_steps. rsimpl.
  destruct (pmcu_find (pmcu_threads s) (fun t => negb (valid t))) as [i|] eqn:E; [|done].
  apply pmcu_find_Some in E as (t & Et & Hv). by rewrite (Hall i t Et) in Hv.
Qed.

(** Sixteen tasks: the idle task, the two of the demonstration, and thirteen more. *)
Definition demo_crowd : kstate :=
  run_from demo (foldr (fun _ (m : K unit) => LOS_TaskCreate true (Some main_task);; m) (mret tt) (seq 0 13)).

Lemma threads_exhausted_witness :
  PMCU_BE_Task_Create 0x8001000 None 0 17 false demo_crowd = Fault AssertFail.
Proof.
  apply (threads_exhausted 0x8001000 None 0 17 false demo_crowd); by_eval.
Defined.

(** ** Counters and timers *)

(** C40: The count of a recursive mutex wraps around: the 65536th lock by the owner succeeds and
    leaves the count 0, which means free, while the owner still holds the mutex. *)
Theorem mutex_count_wraps `{Config} s LS r rc i timeout m :
  SInv s LS r rc → r ≠ g_idleTaskID s → now s < TIME_HORIZON →
  0 ≤ i < LOSCFG_BASE_IPC_MUX_LIMIT → g_allMux s !! i = Some m → 0 ≤ timeout < 2 ^ 32 →
  ¬ mux_refused s rc m → owner m = Some r → muxCount m = 65535 →
  wp (LOS_MuxPend i timeout) (fun o s' => o = Done LOS_OK ∧
    ∃ m', g_allMux s' !! i = Some m' ∧ muxCount m' = 0 ∧ owner m' = Some r) s.
Proof.
  intros HS Hi Hh Hi0 Em Ht Hok Ho Hc. eapply wp_mono; [by apply wp_LOS_MuxPend|].
  intros o s' Hp. destruct Hp as [e s' _ Href _ _|o s' _ Hl]; [done|].
  destruct Hl as [s' Hz|s' _ _ _ Em' _|s' _ Hno|o' oc s' LS' n nc _ Ho' Hne]; [lia| |done|].
  - split; [done|]. rewrite Em', lookup_insert_eq. eexists. split; [done|]. rsimpl. by rewrite Hc.
  - simplify_eq.
Qed.

#[export] Instance mux_refused_dec s rc m : Decision (mux_refused s rc m).
Proof. unfold mux_refused. apply _. Defined.

(** Task 2 has locked mutex 0 as often as its counter can tell. *)
Definition demo_mux : LosMuxCB := 
  (default (mkMux 0 0 0 None 0) (g_allMux demo_sys !! 0))
    <| muxCount := 65535 |> <| owner := Some 2 |> <| muxPriority := 5 |>.
Definition demo_full_mux : kstate := demo_sys <| g_allMux := <[0 := demo_mux]> (g_allMux demo_sys) |>.

Lemma mutex_count_wraps_witness :
  wp (LOS_MuxPend 0 100) (fun o s' => o = Done LOS_OK ∧
    ∃ m', g_allMux s' !! 0 = Some m' ∧ muxCount m' = 0 ∧ owner m' = Some 2) demo_full_mux.
Proof.
  apply (mutex_count_wraps demo_full_mux (sys_lists demo_full_mux) 2 (demo_tcb demo_full_mux 2) 0 100 demo_mux);
    first [vm_compute; reflexivity|by_eval].
Defined.

(** The target configuration with the software timers compiled in. *)
Definition swtmr_config : Config := {|
  LOSCFG_BASE_CORE_TICK_PER_SECOND := @LOSCFG_BASE_CORE_TICK_PER_SECOND target_config;
  LOSCFG_BASE_CORE_TICK_PER_SECOND_MINI := @LOSCFG_BASE_CORE_TICK_PER_SECOND_MINI target_config;
  LOSCFG_BASE_CORE_TICK_RESPONSE_MAX := @LOSCFG_BASE_CORE_TICK_RESPONSE_MAX target_config;
  LOSCFG_BASE_CORE_TIMESLICE_TIMEOUT := @LOSCFG_BASE_CORE_TIMESLICE_TIMEOUT target_config;
  LOSCFG_BASE_CORE_TSK_LIMIT := @LOSCFG_BASE_CORE_TSK_LIMIT target_config;
  LOSCFG_BASE_CORE_TSK_IDLE_STACK_SIZE := @LOSCFG_BASE_CORE_TSK_IDLE_STACK_SIZE target_config;
  LOSCFG_BASE_CORE_TSK_DEFAULT_STACK_SIZE := @LOSCFG_BASE_CORE_TSK_DEFAULT_STACK_SIZE target_config;
  LOSCFG_BASE_CORE_TSK_MIN_STACK_SIZE := @LOSCFG_BASE_CORE_TSK_MIN_STACK_SIZE target_config;
  LOSCFG_SYS_HEAP_SIZE := @LOSCFG_SYS_HEAP_SIZE target_config;
  LOSCFG_BASE_IPC_SEM_LIMIT := @LOSCFG_BASE_IPC_SEM_LIMIT target_config;
  LOSCFG_BASE_IPC_MUX_LIMIT := @LOSCFG_BASE_IPC_MUX_LIMIT target_config;
  LOSCFG_BASE_IPC_QUEUE_LIMIT := @LOSCFG_BASE_IPC_QUEUE_LIMIT target_config;
  LOSCFG_BASE_CORE_SWTMR := true;
  LOSCFG_BASE_CORE_SWTMR_LIMIT := @LOSCFG_BASE_CORE_SWTMR_LIMIT target_config;
  LOSCFG_KERNEL_PM := @LOSCFG_KERNEL_PM target_config;
  LOSCFG_BASE_CORE_TSK_MONITOR := @LOSCFG_BASE_CORE_TSK_MONITOR target_config;
  LOSCFG_STACK_POINT_ALIGN_SIZE := @LOSCFG_STACK_POINT_ALIGN_SIZE target_config;
  LOSCFG_BASE_CORE_TSK_SWTMR_STACK_SIZE := @LOSCFG_BASE_CORE_TSK_SWTMR_STACK_SIZE target_config;
  OS_SYS_CLOCK := @OS_SYS_CLOCK target_config;
  sizeof_LosTaskCB := @sizeof_LosTaskCB target_config;
  sizeof_LosSemCB := @sizeof_LosSemCB target_config;
  sizeof_LosMuxCB := @sizeof_LosMuxCB target_config;
  sizeof_LosQueueCB := @sizeof_LosQueueCB target_config;
  sizeof_SWTMR_CTRL_S := @sizeof_SWTMR_CTRL_S target_config;
  sizeof_TaskContext := @sizeof_TaskContext target_config
|}.

Section timers.
  #[local] Existing Instance swtmr_config.

(** Two timers, of one and of two ticks, that were started before the scheduler. *)
Definition demo_timers : kstate := run_from boot (
  modify (fun s => s <| g_sysClock := 100000000 |>);;
  OsSortLinkInit SwtmrSortLink;;
  modify (fun s => s <| g_swtmrCBArray :=
    {[ 0 := mkSwtmr None 1 1 0 0 1 0 0 0 0; 1 := mkSwtmr None 1 1 0 1 2 0 0 0 0 ]} |>);;
  OsSwtmrStart 0 0;; OsSwtmrStart 0 1).

(** When the scheduler starts, the timers are to count from its start, but the loop over
    the timers goes on from the place at which a timer was inserted again: here the second
    timer keeps its old time, and expires before it should. *)
Theorem swtmr_reset_skips :
  wp (OsSwtmrResponseTimeReset 3 5000000) (fun _ s' =>
    (stSortList_responseTime <$> g_swtmrCBArray s' !! 0) = Some (5000000 + 1000000) ∧
    (stSortList_responseTime <$> g_swtmrCBArray s' !! 1) = Some 2000000) demo_timers.
Proof. vm_compute. auto. Qed.
End timers.
