(* ===== verification/PropsArch.v ===== *)
(** The theorems about exception hooks and interrupts, each with a run of the model it applies
    to. *)

From S2P Require Import Prelude DList Kernel Tick SortLink Mem Pmcu Sched TickFreq ExcHook ExcRep Hwi HwiRep Demo.

(** ** Exception hooks *)

Inductive exc_op : Type :=
| RegHook (excType fn : Z)
| UnRegHook (excType fn : Z).

(** [excType] is an unsigned number. *)
Definition exc_op_ok (o : exc_op) : Prop := match o with RegHook k _ | UnRegHook k _ => 0 ≤ k end.
#[export] Instance exc_op_ok_dec o : Decision (exc_op_ok o).
Proof. destruct o; simpl; apply _. Defined.

Definition exc_call `{ExcEnv} (o : exc_op) : K Z :=
  match o with RegHook k f => LOS_RegExcHook k f | UnRegHook k f => LOS_UnRegExcHook k f end.
Definition exc_spec (o : exc_op) : (Z → list Z) → Z * (Z → list Z) :=
  match o with RegHook k f => reg_spec k f | UnRegHook k f => unreg_spec k f end.

Fixpoint exc_calls `{ExcEnv} (ops : list exc_op) : K (list Z) :=
  match ops with
  | [] => mret []
  | o :: ops => r ← exc_call o; rs ← exc_calls ops; mret (r :: rs)
  end.
Fixpoint exc_specs (ops : list exc_op) (Hs : Z → list Z) : list Z * (Z → list Z) :=
  match ops with
  | [] => ([], Hs)
  | o :: ops => let (r, Hs) := exc_spec o Hs in let (rs, Hs) := exc_specs ops Hs in (r :: rs, Hs)
  end.

Lemma wp_exc_calls `{!ExcEnv} `{!ExcEnvLaws} ops : ∀ s Hs,
  exc_ok s Hs → Forall exc_op_ok ops →
  wp (exc_calls ops) (fun rs s' => rs = (exc_specs ops Hs).1 ∧ exc_ok s' (exc_specs ops Hs).2 ∧ exc_only s s') s.
Proof.
  induction ops as [|o ops IH]; intros s Hs Hok Ho; cbn [exc_calls exc_specs].
  - wp_step. split_and!; [done|done|apply exc_only_refl].
  - apply Forall_cons in Ho as [Ho1 Ho]. wp_step.
    assert (wp (exc_call o) (exc_post s (exc_spec o Hs)) s) as Hw.
    { destruct o; simpl in *; [apply wp_LOS_RegExcHook; [done|apply hook_addr|done]|by apply wp_LOS_UnRegExcHook]. }
    eapply wp_mono; [exact Hw|]. intros r s1 (-> & Hok1 & Ho1'). wp_step.
    destruct (exc_spec o Hs) as [r Hs1]. cbn [fst snd] in *.
    eapply wp_mono; [by apply (IH s1 Hs1)|]. intros rs s2 (-> & Hok2 & Ho2). wp_step.
    destruct (exc_specs ops Hs1) as [rs Hs2]. split_and!; [done|done|by eapply exc_only_trans].
Qed.

(** C35: Registering and unregistering exception hooks, in any order, keeps a list of functions per
    type of exception: a registration puts a function in front until 16 are registered, and a
    removal takes out the one registered last of those that are equal.  An exception then calls
    exactly the hooks of its type, in the order in which they were registered. *)
Theorem exc_hooks_refine `{!ExcEnv} `{!ExcEnvLaws} ops s Hs :
  exc_ok s Hs → Forall exc_op_ok ops →
  wp (exc_calls ops) (fun rs s' => rs = (exc_specs ops Hs).1 ∧ exc_only s s' ∧
      ∀ k, 0 ≤ k < EXC_TYPE_END → OsDoExcHook k s' =
        (LOS_IntLock;; run_hooks k (reverse ((exc_specs ops Hs).2 k));; LOS_IntRestore 0) s') s.
Proof.
  intros Hok Ho. eapply wp_mono; [by apply (wp_exc_calls ops s Hs)|]. intros rs s' (-> & Hok' & Ho').
  split_and!; [done|done|]. intros k Hk. by apply OsDoExcHook_runs.
Qed.

(** Hooks that note the type of the exception. *)
#[export] Instance demo_exc : ExcEnv := {|
  addr_DoExcHook := 0x8003000;
  call_hook f k := modify (fun s => s <| userEvents := <[f := k]> (userEvents s) |>)
|}.
#[export] Instance demo_exc_laws : ExcEnvLaws.
Proof. constructor; [done|]. intros f k s u s' [= _ <-]. done. Qed.

Lemma boot_exc : exc_ok boot (fun _ => []).
Proof.
  left. split; [|done]. constructor.
  - intros k Hk. assert (k = 0 ∨ k = 1 ∨ k = 2 ∨ k = 3 ∨ k = 4 ∨ k = 5) as Hc by lia.
    destruct Hc as [->|[->|[->|[->|[->| ->]]]]]; reflexivity.
  - intros i Hi. assert (i ∈ seqZ 0 16) as Hin by (apply elem_of_seqZ; unfold LOSCFG_BASE_EXC_HOOK_LIMIT in Hi; lia).
    exists (mkExcNode 0 None). split; [|done]. clear Hi. revert i Hin. apply Forall_forall. by repeat constructor.
Qed.

Definition demo_hooks : list exc_op :=
  [RegHook 2 0x100; RegHook 2 0x200; RegHook 4 0x300; RegHook 2 0x100; UnRegHook 2 0x100; RegHook 7 0x100].

Lemma exc_hooks_refine_witness :
  wp (exc_calls demo_hooks) (fun rs s' => rs = [0; 0; 0; 0; 0; LOS_ERRNO_SYS_PTR_NULL] ∧ exc_only boot s' ∧
      ∀ k, 0 ≤ k < EXC_TYPE_END → OsDoExcHook k s' =
        (LOS_IntLock;; run_hooks k (reverse ((exc_specs demo_hooks (fun _ => [])).2 k));; LOS_IntRestore 0) s') boot ∧
  reverse ((exc_specs demo_hooks (fun _ => [])).2 EXC_PANIC) = [0x100; 0x200].
Proof.
  split; [|reflexivity]. apply (exc_hooks_refine demo_hooks boot (fun _ => []) boot_exc). by_eval.
Defined.

(** ** Interrupts *)

Inductive hwi_op : Type :=
| HwiCreate (hwiNum hwiPrio hwiHandler : Z)
| HwiDelete (hwiNum : Z).

(** The arguments are unsigned numbers. *)
Definition hwi_op_ok (o : hwi_op) : Prop :=
  match o with HwiCreate n prio _ => 0 ≤ n ∧ 0 ≤ prio | HwiDelete n => 0 ≤ n end.
#[export] Instance hwi_op_ok_dec o : Decision (hwi_op_ok o).
Proof. destruct o; simpl; apply _. Defined.





(** Handlers that note their address. *)
#[export] Instance demo_hwi : HwiEnv := {|
  addr_HalInterrupt := 0x8004000; addr_HalHwiDefaultHandler := 0x8004010; addr_HalExcNMI := 0x8004020;
  addr_HalExcHardFault := 0x8004030; addr_HalExcMemFault := 0x8004040; addr_HalExcBusFault := 0x8004050;
  addr_HalExcUsageFault := 0x8004060; addr_HalExcSvcCall := 0x8004070; addr_HalPendSV := 0x8004080;
  addr_SysTick_Handler := 0x8004090; addr_g_hwiForm := 0x20080000;
  call_handler h := modify (fun s => s <| userEvents := <[h := g_intCount s]> (userEvents s) |>)
|}.
#[export] Instance demo_hwi_laws : HwiEnvLaws.
Proof. by constructor. Qed.






(** Without [ArchInit] no interrupt can be created: every vector counts as one that is in use. *)
Lemma ArchHwiCreate_uninitialised `{!HwiEnv} s n prio h :
  (∀ i, 0 ≤ i < OS_VECTOR_CNT → g_hwiForm s !! i = Some 0) → addr_HalHwiDefaultHandler ≠ 0 →
  0 ≤ n < OS_HWI_MAX_NUM → h ≠ 0 →
  ArchHwiCreate n prio h s = Ok OS_ERRNO_HWI_ALREADY_CREATED s.
Proof.
  intros Hz Ha Hn Hh. unfold ArchHwiCreate. destruct (Z.eqb_spec h 0); [done|].
  destruct (Z.leb_spec OS_HWI_MAX_NUM n); [lia|].
  assert (get_hwiForm (n + OS_SYS_VECTOR_CNT) s = Ok 0 s) as Hget.
  { unfold get_hwiForm, gets, unwrap, mbind, M_bind. rewrite Hz; [done|]. unfold OS_VECTOR_CNT, OS_SYS_VECTOR_CNT. lia. }
  unfold mbind, M_bind. rewrite Hget. destruct (Z.eqb_spec 0 addr_HalHwiDefaultHandler); [congruence|done].
Qed.

(** The priority of an interrupt is cut to 8 bits before it is checked: 256 is taken for 0. *)
Lemma ArchIntSetPriority_truncates n s :
  0 ≤ n < OS_HWI_MAX_NUM → ArchIntSetPriority n 256 s = ArchIntSetPriority n 0 s.
Proof. done. Qed.
